(** * AWS DMS ingestion pipeline: a shallow embedding of the orchestration code

    The Python sources ([utils.py], [S3.py], [RDS.py], [IAM.py], [DMS.py],
    [delete_di.py], [clear_di.py]) are sequences of boto3 calls glued by
    [try]/[except],
    polling loops and writes to the ledger file [run_data.json].  They are
    embedded as functions of a state-and-exception monad over a [World]:
    the remote AWS account (an abstract state machine, see [Cloud]), the ledger
    file, the process environment, the wall clock, the console input and a
    trace of every remote call with its response. *)

From Stdlib Require Import List String Ascii Bool Arith Lia DecimalString.
Import ListNotations.
Open Scope string_scope.

Set Implicit Arguments.
Set Warnings "-register-all".

(** ** Python strings *)

(** [str.lower] on the ASCII range (AWS status strings and the environment
    flags are ASCII). *)
Definition lower_ascii (c : ascii) : ascii :=
  let n := nat_of_ascii c in
  if Nat.leb 65 n && Nat.leb n 90 then ascii_of_nat (n + 32) else c.

Fixpoint lower (s : string) : string :=
  match s with
  | EmptyString => EmptyString
  | String c r => String (lower_ascii c) (lower r)
  end.

Fixpoint starts_with (p s : string) : bool :=
  match p, s with
  | EmptyString, _ => true
  | String a p', String b s' => Ascii.eqb a b && starts_with p' s'
  | String _ _, EmptyString => false
  end.

(** [needle in hay] on strings. *)
Fixpoint contains (needle hay : string) : bool :=
  if starts_with needle hay then true
  else match hay with
       | EmptyString => false
       | String _ r => contains needle r
       end.

(** [s.split(sep)[-1]]: the part after the last separator. *)
Fixpoint split_last_aux (sep : ascii) (s acc : string) : string :=
  match s with
  | EmptyString => acc
  | String c r =>
      if Ascii.eqb c sep then split_last_aux sep r EmptyString
      else split_last_aux sep r (acc ++ String c EmptyString)
  end.

Definition split_last (sep : ascii) (s : string) : string :=
  split_last_aux sep s EmptyString.

(** [x in [a, b, ...]] for strings. *)
Definition str_in (x : string) (l : list string) : bool :=
  existsb (String.eqb x) l.

(** An optional string as Python sees it: [None] or a [str]. *)
Definition truthy (o : option string) : bool :=
  match o with
  | Some s => negb (s =? "")
  | None => false
  end.

(** [f"{x}"] of an optional string. *)
Definition fstr (o : option string) : string :=
  match o with
  | Some s => s
  | None => "None"
  end.

(** [str(n)] of a number. *)
Definition str_of_nat (n : nat) : string :=
  NilEmpty.string_of_uint (Nat.to_uint n).

(** ** JSON values, as [json.load] returns them *)

Inductive json : Type :=
| JNull
| JBool (b : bool)
| JNum (n : nat)
| JStr (s : string)
| JList (l : list json)
| JDict (d : list (string * json)).

(** Python [dict] operations on an insertion-ordered association list. *)
Fixpoint dict_get {V : Type} (k : string) (d : list (string * V)) : option V :=
  match d with
  | [] => None
  | (k', v) :: r => if k' =? k then Some v else dict_get k r
  end.

Fixpoint dict_set {V : Type} (k : string) (v : V) (d : list (string * V))
  : list (string * V) :=
  match d with
  | [] => [(k, v)]
  | (k', v') :: r => if k' =? k then (k, v) :: r else (k', v') :: dict_set k v r
  end.

Definition dict_has {V : Type} (k : string) (d : list (string * V)) : bool :=
  match dict_get k d with Some _ => true | None => false end.

(** [d.update(e)] *)
Definition dict_update {V : Type} (d e : list (string * V)) : list (string * V) :=
  fold_left (fun acc kv => dict_set (fst kv) (snd kv) acc) e d.

(** Truth value of a JSON value ([if x:]). *)
Definition json_truthy (j : json) : bool :=
  match j with
  | JNull => false
  | JBool b => b
  | JNum n => negb (Nat.eqb n 0)
  | JStr s => negb (s =? "")
  | JList l => match l with [] => false | _ => true end
  | JDict d => match d with [] => false | _ => true end
  end.

Definition json_str (j : json) : option string :=
  match j with JStr s => Some s | _ => None end.

(** [a == b] on JSON values. *)
Fixpoint json_eqb (a b : json) : bool :=
  match a, b with
  | JNull, JNull => true
  | JBool x, JBool y => Bool.eqb x y
  | JNum x, JNum y => Nat.eqb x y
  | JStr x, JStr y => x =? y
  | JList l, JList m =>
      (fix go (l m : list json) : bool :=
         match l, m with
         | [], [] => true
         | x :: l', y :: m' => json_eqb x y && go l' m'
         | _, _ => false
         end) l m
  | JDict l, JDict m =>
      (fix go (l m : list (string * json)) : bool :=
         match l, m with
         | [], [] => true
         | (k, x) :: l', (k', y) :: m' => (k =? k') && json_eqb x y && go l' m'
         | _, _ => false
         end) l m
  | _, _ => false
  end.

Definition dq : string := String (ascii_of_nat 34) EmptyString.

(** [json.dumps] in its default layout, for strings without escapes. *)
Fixpoint json_dumps (j : json) : string :=
  match j with
  | JNull => "null"
  | JBool true => "true"
  | JBool false => "false"
  | JNum n => str_of_nat n
  | JStr s => dq ++ s ++ dq
  | JList l =>
      "[" ++ (fix go (l : list json) : string :=
                match l with
                | [] => ""
                | [x] => json_dumps x
                | x :: r => json_dumps x ++ ", " ++ go r
                end) l ++ "]"
  | JDict d =>
      "{" ++ (fix go (d : list (string * json)) : string :=
                match d with
                | [] => ""
                | [(k, x)] => dq ++ k ++ dq ++ ": " ++ json_dumps x
                | (k, x) :: r => dq ++ k ++ dq ++ ": " ++ json_dumps x ++ ", " ++ go r
                end) d ++ "}"
  end.

(** ** Exceptions *)

(** What the [except] clauses of the sources can tell apart: whether the
    exception is a botocore [ClientError], its error code
    ([e.response['Error']['Code']]) and its text ([str(e)]). *)
Record exn : Type := mkExn {
  is_client_error : bool;
  err_code : string;
  err_text : string
}.

Definition KeyError (k : string) : exn := mkExn false "KeyError" k.
Definition TypeError (m : string) : exn := mkExn false "TypeError" m.
Definition IndexError : exn := mkExn false "IndexError" "list index out of range".
Definition NameError (v : string) : exn := mkExn false "UnboundLocalError" v.
(** What [json.load] raises on a file that is not valid UTF-8; it is a
    [ValueError], and no [json.JSONDecodeError]. *)
Definition UnicodeDecodeError : exn :=
  mkExn false "UnicodeDecodeError"
        "'utf-8' codec can't decode byte 0xff in position 0: invalid start byte".
Definition PyException (m : string) : exn := mkExn false "Exception" m.
Definition OSError (m : string) : exn := mkExn false "OSError" m.

(** ** Remote resources, with the fields the code reads *)

Record Task : Type := mkTask {
  t_arn : string;                (* ReplicationTaskArn *)
  t_id : string;                 (* ReplicationTaskIdentifier *)
  t_status : string;             (* Status *)
  t_stop_reason : option string; (* StopReason, absent on a task never stopped *)
  t_source : string;             (* SourceEndpointArn *)
  t_target : string;             (* TargetEndpointArn *)
  t_instance : string;           (* ReplicationInstanceArn *)
  t_mappings : string            (* TableMappings *)
}.

Record Endpoint : Type := mkEndpoint {
  e_arn : string;                (* EndpointArn *)
  e_id : string;                 (* EndpointIdentifier *)
  e_engine : string;             (* EngineName *)
  e_status : string;             (* Status *)
  e_s3 : option (list (string * json)) (* S3Settings, absent on other engines *)
}.

Record ReplInstance : Type := mkReplInstance {
  ri_arn : string;               (* ReplicationInstanceArn *)
  ri_id : string                 (* ReplicationInstanceIdentifier *)
}.

Record Connection : Type := mkConnection {
  c_instance : option string;    (* ReplicationInstanceArn *)
  c_endpoint : option string;    (* EndpointArn *)
  c_status : string;             (* Status *)
  c_id : option string;          (* Id, when the service returns one *)
  c_conn_arn : option string     (* ConnectionArn, when the service returns one *)
}.

Record DBInstance : Type := mkDBInstance {
  db_id : string;                (* DBInstanceIdentifier *)
  db_status : string;            (* DBInstanceStatus *)
  db_endpoint : option (string * nat) (* Endpoint: Address and Port, once known *)
}.

Record Policy : Type := mkPolicy {
  p_arn : string;                (* PolicyArn *)
  p_name : string                (* PolicyName *)
}.

(** A boto3 [Filters=[{'Name': n, 'Values': [v]}]] argument; the sources use
    at most one filter with one value. *)
Definition Filter : Type := option (string * string).

(** ** The remote calls the sources issue *)

Inductive call : Type :=
(* S3 *)
| HeadBucket (bucket : string)
| ListObjectsV2 (bucket prefix : string)
| PutObject (bucket key : string)
| CreateBucket (bucket : string) (location : option string)
(* RDS *)
| DescribeDBInstances (id : string)
| CreateDBInstance (id : string)
| WaitDBInstanceAvailable (id : string)
(* IAM *)
| GetRole (name : string)
| ListAttachedRolePolicies (name : string)
| DetachRolePolicy (name arn : string)
| DeletePolicy (arn : string)
| DeleteRole (name : string)
| CreateRole (name description : string)
| CreatePolicy (name : string)
| AttachRolePolicy (name arn : string)
(* DMS *)
| DescribeReplicationInstances (f : Filter)
| CreateReplicationInstance (id : string)
| WaitReplicationInstanceAvailable (id : string)
| DeleteReplicationInstance (arn : string)
| DescribeEndpoints (f : Filter)
| CreateEndpoint (id endpoint_type engine : string)
                 (server : option (string * nat))
                 (s3 : option (list (string * json)))
| ModifyEndpoint (arn : string) (s3 : list (string * json))
| DeleteEndpoint (arn : string)
| DescribeReplicationTasks (f : Filter)
| CreateReplicationTask (id source target instance mappings : string)
| ModifyReplicationTask (arn mappings : string)
| DeleteReplicationTask (arn : string)
| StartReplicationTask (arn start_type : string)
| StopReplicationTask (arn : string)
| WaitReplicationTaskStopped (id : string)
| WaitReplicationTaskReady (id : string) (delay max_attempts : nat)
| DescribeConnections (f : Filter)
| DeleteConnection (instance endpoint : string)
| TestConnection (instance endpoint : string).

(** Calls that change remote state.  Describe, head, list, get and the
    waiters (which only poll a describe call) do not. *)
Definition mutating (c : call) : bool :=
  match c with
  | HeadBucket _ | ListObjectsV2 _ _ | DescribeDBInstances _
  | WaitDBInstanceAvailable _ | GetRole _ | ListAttachedRolePolicies _
  | DescribeReplicationInstances _ | WaitReplicationInstanceAvailable _
  | DescribeEndpoints _ | DescribeReplicationTasks _
  | WaitReplicationTaskStopped _ | WaitReplicationTaskReady _ _ _
  | DescribeConnections _ => false
  | _ => true
  end.

(** The body of a successful response. *)
Inductive payload : Type :=
| PEmpty                                  (* nothing the code reads *)
| PObjects (contents : option (list string)) (* 'Contents', if present *)
| PDBInstances (l : list DBInstance)
| PRoleArn (arn : string)                 (* Role.Arn *)
| PPolicies (l : list Policy)             (* AttachedPolicies *)
| PPolicyArn (arn : string)               (* Policy.Arn *)
| PInstances (l : list ReplInstance)
| PEndpoints (l : list Endpoint)
| PEndpoint (e : Endpoint)
| PTasks (l : list Task)
| PTask (t : Task)
| PConnections (l : list Connection)
| PConnection (c : option Connection).    (* 'Connection', if present *)

Definition response : Type := (exn + payload)%type.

(** ** The environment of a run *)

(** The AWS account is an arbitrary deterministic state machine answering
    calls; a call also takes some whole number of seconds.  The two clock
    renderings come from [datetime]. *)
Class Cloud : Type := {
  RS : Type;
  cloud_step : RS -> call -> response * RS * nat;
  isoformat : nat -> string;       (* datetime.now().isoformat() *)
  strftime_HM : nat -> string      (* datetime.now().strftime("%H-%M") *)
}.

(** What [open(run_data.json)] followed by [json.load] observes. *)
Inductive file_state : Type :=
| Absent                       (* FileNotFoundError *)
| Corrupt                      (* json.JSONDecodeError *)
| Unreadable (e : exn)         (* any other error of open/read *)
| Parsed (j : json).           (* the document *)

Inductive event : Type :=
| EvCall (c : call) (r : response)
| EvSleep (seconds : nat)
| EvPrint (line : string).

Record World `{Cloud} : Type := mkWorld {
  remote : RS;
  ledger_file : file_state;
  environ : list (string * string);
  now : nat;
  stdin : list string;
  trace : list event
}.

Arguments mkWorld {_} _ _ _ _ _ _.

(** ** The monad of the scripts: state, exceptions, divergence *)

(** [Val a]: the code returned [a]; [Exc e]: it raised [e]; [Diverged]: an
    unbounded loop was cut by the fuel of the model (no [except] clause sees
    it). *)
Inductive res (A : Type) : Type :=
| Val (a : A)
| Exc (e : exn)
| Diverged.

Arguments Val {A} a.
Arguments Exc {A} e.
Arguments Diverged {A}.

(** How one step of a loop body ends: the function returns, or the loop goes
    on (or is left) with the loop-carried variables. *)
Inductive flow (R S : Type) : Type :=
| Return (r : R)
| Next (s : S).

Arguments Return {R S} r.
Arguments Next {R S} s.

Section Monad.
Context `{Cloud}.

Definition M (A : Type) : Type := World -> res A * World.

Definition ret {A} (a : A) : M A := fun w => (Val a, w).

Definition raise {A} (e : exn) : M A := fun w => (Exc e, w).

Definition diverge {A} : M A := fun w => (Diverged, w).

Definition bind {A B} (m : M A) (k : A -> M B) : M B :=
  fun w =>
    match m w with
    | (Val a, w') => k a w'
    | (Exc e, w') => (Exc e, w')
    | (Diverged, w') => (Diverged, w')
    end.

(** [try: m  except Exception as e: h e] *)
Definition try_except {A} (m : M A) (h : exn -> M A) : M A :=
  fun w =>
    match m w with
    | (Exc e, w') => h e w'
    | r => r
    end.

(** [try: m  except C as e: h e] for an exception class [C] given as a
    predicate; other exceptions propagate. *)
Definition try_except_if {A} (m : M A) (C : exn -> bool) (h : exn -> M A) : M A :=
  try_except m (fun e => if C e then h e else raise e).

Definition get_world : M World := fun w => (Val w, w).

Definition record (ev : event) : M unit :=
  fun w => (Val tt, mkWorld (remote w) (ledger_file w) (environ w) (now w)
                            (stdin w) (trace w ++ [ev])).

(** A boto3 client call: the account answers, time passes, the call and its
    response are appended to the trace; an error response is raised. *)
Definition aws (c : call) : M payload :=
  fun w =>
    let '(r, s', dt) := cloud_step (remote w) c in
    let w' := mkWorld s' (ledger_file w) (environ w) (now w + dt)
                      (stdin w) (trace w ++ [EvCall c r]) in
    match r with
    | inl e => (Exc e, w')
    | inr p => (Val p, w')
    end.

(** [time.sleep(n)] *)
Definition sleep (n : nat) : M unit :=
  fun w => (Val tt, mkWorld (remote w) (ledger_file w) (environ w) (now w + n)
                            (stdin w) (trace w ++ [EvSleep n])).

(** [time.time()] *)
Definition time : M nat := fun w => (Val (now w), w).

(** [print(line)].  The model keeps the console lines about the S3
    connection-test policy and about polling timeouts; progress chatter is
    left out. *)
Definition print (line : string) : M unit := record (EvPrint line).

(** [os.getenv(k)] and [os.getenv(k, default)] *)
Definition getenv (k : string) : M (option string) :=
  fun w => (Val (dict_get k (environ w)), w).

Definition getenv_or (k default : string) : M string :=
  fun w => (Val (match dict_get k (environ w) with
                 | Some v => v
                 | None => default
                 end), w).

(** [input(prompt)]: the next line of the console; [EOFError] when there is
    none. *)
Definition input : M string :=
  fun w =>
    match stdin w with
    | l :: rest => (Val l, mkWorld (remote w) (ledger_file w) (environ w) (now w)
                                   rest (trace w))
    | [] => (Exc (mkExn false "EOFError" "EOF when reading a line"), w)
    end.

Definition read_ledger_file : M file_state := fun w => (Val (ledger_file w), w).

Definition write_ledger_file (j : json) : M unit :=
  fun w => (Val tt, mkWorld (remote w) (Parsed j) (environ w) (now w)
                            (stdin w) (trace w)).

(** [for x in l: body x] *)
Fixpoint for_each {A} (l : list A) (body : A -> M unit) : M unit :=
  match l with
  | [] => ret tt
  | x :: r => bind (body x) (fun _ => for_each r body)
  end.

End Monad.

Declare Scope py_scope.
Delimit Scope py_scope with py.
Notation "x <- m ;; k" := (bind m (fun x => k))
  (at level 100, m at next level, right associativity) : py_scope.
Notation "m ;;; k" := (bind m (fun _ => k))
  (at level 100, right associativity) : py_scope.
Open Scope py_scope.

(** Exception classes named in the [except] clauses. *)
Definition ClientError (e : exn) : bool := is_client_error e.
Definition DBInstanceNotFoundFault (e : exn) : bool :=
  is_client_error e && (err_code e =? "DBInstanceNotFound").
Definition NoSuchEntityException (e : exn) : bool :=
  is_client_error e && (err_code e =? "NoSuchEntity").
Definition EntityAlreadyExistsException (e : exn) : bool :=
  is_client_error e && (err_code e =? "EntityAlreadyExists").

(** ** utils.py: the ledger [run_data.json] *)

Module Utils.
Section Utils.
Context `{Cloud}.

Definition default_run_data : json :=
  JDict [("last_run", JNull);
         ("resources", JDict [
            ("rds", JDict [("instance_id", JNull); ("endpoint", JNull)]);
            ("s3", JDict [("bucket_name", JNull); ("folder", JNull)]);
            ("iam", JDict [("s3_role_arn", JNull); ("vpc_role_arn", JNull)]);
            ("dms", JDict [("replication_instance_id", JNull);
                           ("source_endpoint_id", JNull);
                           ("target_endpoint_id", JNull);
                           ("replication_task_id", JNull)])])].

Definition load_run_data : M json :=
  f <- read_ledger_file ;;
  match f with
  | Parsed j => ret j
  | Absent | Corrupt => ret default_run_data
  | Unreadable e => raise e
  end.

(** [d[k]] *)
Definition getitem (d : json) (k : string) : M json :=
  match d with
  | JDict l => match dict_get k l with
               | Some v => ret v
               | None => raise (KeyError k)
               end
  | _ => raise (TypeError "not subscriptable by str")
  end.

(** [d[k] = v] *)
Definition setitem (d : json) (k : string) (v : json) : M json :=
  match d with
  | JDict l => ret (JDict (dict_set k v l))
  | _ => raise (TypeError "does not support item assignment")
  end.

(** [k in d] for a string [k] *)
Definition py_in (k : string) (d : json) : M bool :=
  match d with
  | JDict l => ret (dict_has k l)
  | JList l => ret (existsb (json_eqb (JStr k)) l)
  | JStr s => ret (contains k s)
  | _ => raise (TypeError "argument is not iterable")
  end.

(** The dict is stamped in place before it is dumped; the stamped dict is
    returned so that the caller sees the mutation of its argument. *)
Definition save_run_data (run_data : json) : M json :=
  t <- time ;;
  run_data <- setitem run_data "last_run" (JStr (isoformat t)) ;;
  write_ledger_file run_data ;;;
  ret run_data.

Definition update_resource_data (resource_type : string) (resource_data : json)
  : M json :=
  run_data <- load_run_data ;;
  run_data <-
    (if resource_type =? "last_run" then
       setitem run_data "last_run" resource_data
     else
       resources <- getitem run_data "resources" ;;
       present <- py_in resource_type resources ;;
       resources <- (if present then ret resources
                     else setitem resources resource_type (JDict [])) ;;
       record_ <- getitem resources resource_type ;;
       match record_, resource_data with
       | JDict old, JDict new =>
           resources <- setitem resources resource_type
                          (JDict (dict_update old new)) ;;
           setitem run_data "resources" resources
       | _, _ => raise (TypeError "update")
       end) ;;
  run_data <- save_run_data run_data ;;
  ret run_data.

(** [None] is [JNull]. *)
Definition get_resource_data (resource_type resource_key : option string)
  : M json :=
  run_data <- load_run_data ;;
  if negb (truthy resource_type) then ret run_data
  else
    resources <- getitem run_data "resources" ;;
    present <- py_in (fstr resource_type) resources ;;
    if negb present then ret JNull
    else if negb (truthy resource_key) then getitem resources (fstr resource_type)
    else
      record_ <- getitem resources (fstr resource_type) ;;
      match record_ with
      | JDict l => ret (match dict_get (fstr resource_key) l with
                        | Some v => v
                        | None => JNull
                        end)
      | _ => raise (mkExn false "AttributeError" "get")
      end.

End Utils.
End Utils.

(** ** S3.py *)

Module S3.
Section S3.
Context `{Cloud}.

Definition create_s3_bucket : M (option string) :=
  account_id <- getenv "AWS_ACCOUNT_ID" ;;
  region <- getenv "AWS_DEFAULT_REGION" ;;
  let bucket_name := "dms-target-" ++ fstr account_id ++ "-" ++ fstr region in
  try_except
    (try_except_if
       (aws (HeadBucket bucket_name) ;;;
        ret tt)
       ClientError
       (fun e =>
          if err_code e =? "404" then
            (match region with
             | Some "us-east-1" => aws (CreateBucket bucket_name None) ;;; ret tt
             | Some r => aws (CreateBucket bucket_name (Some r)) ;;; ret tt
             | None => raise (mkExn false "ParamValidationError" "LocationConstraint")
             end) ;;;
            Utils.update_resource_data "s3"
              (JDict [("bucket_name", JStr bucket_name)]) ;;;
            ret tt
          else raise e) ;;;
     ret (Some bucket_name))
    (fun _ => ret None).

Definition create_s3_folder (bucket_name : option string) (folder_name : string)
  : M bool :=
  if negb (truthy bucket_name) then ret false
  else
    try_except
      (aws (PutObject (fstr bucket_name) (folder_name ++ "/")) ;;;
       Utils.update_resource_data "s3" (JDict [("folder", JStr folder_name)]) ;;;
       ret true)
      (fun _ => ret false).

(** [load_config] (reading [.env] and [parameters.json]) is taken to
    succeed; nothing it returns is used here. *)
Definition main : M (option string) :=
  bucket_name <- create_s3_bucket ;;
  if truthy bucket_name then
    create_s3_folder bucket_name "dms-data" ;;;
    ret bucket_name
  else ret None.

End S3.
End S3.

(** ** RDS.py *)

Module RDS.
Section RDS.
Context `{Cloud}.

(** [response['DBInstances'][0]['Endpoint']] *)
Definition first_endpoint (p : payload) : M (string * nat) :=
  match p with
  | PDBInstances [] => raise IndexError
  | PDBInstances (i :: _) =>
      match db_endpoint i with
      | Some ep => ret ep
      | None => raise (KeyError "Endpoint")
      end
  | _ => raise (KeyError "DBInstances")
  end.

(** The security groups of [params] only feed the create call; they are not
    part of the model of the call. *)
Definition create_rds_instance : M (option (string * nat)) :=
  t <- time ;;
  let current_time := strftime_HM t in
  profile <- getenv "AWS_PROFILE" ;;
  let DBInstanceIdentifier :=
    fstr profile ++ "-mssql-source-" ++ current_time in
  try_except
    (try_except_if
       (response <- aws (DescribeDBInstances DBInstanceIdentifier) ;;
        ep <- first_endpoint response ;;
        ret (Some ep))
       DBInstanceNotFoundFault
       (fun _ =>
          aws (CreateDBInstance DBInstanceIdentifier) ;;;
          aws (WaitDBInstanceAvailable DBInstanceIdentifier) ;;;
          response <- aws (DescribeDBInstances DBInstanceIdentifier) ;;
          endpoint <- first_endpoint response ;;
          Utils.update_resource_data "rds"
            (JDict [("instance_id", JStr DBInstanceIdentifier);
                    ("endpoint", JStr (fst endpoint ++ ":" ++
                                       str_of_nat (snd endpoint)))]) ;;;
          ret (Some endpoint)))
    (fun _ => ret None).

End RDS.
End RDS.

(** ** IAM.py *)

Module IAM.
Section IAM.
Context `{Cloud}.

Definition get_existing_role (role_name : string) : M (option string) :=
  try_except
    (response <- aws (GetRole role_name) ;;
     match response with
     | PRoleArn arn => ret (Some arn)
     | _ => raise (KeyError "Role")
     end)
    (fun _ => ret None).

(** [attached_policies.get('AttachedPolicies', [])] *)
Definition attached_policies (p : payload) : list Policy :=
  match p with
  | PPolicies l => l
  | _ => []
  end.

Definition role_arn_of (p : payload) : M (option string) :=
  match p with
  | PRoleArn arn => ret (Some arn)
  | _ => raise (KeyError "Role")
  end.

Definition create_dms_role (force_recreate : bool) : M (option string) :=
  s3_role_arn <- Utils.get_resource_data (Some "iam") (Some "s3_role_arn") ;;
  let role_name := "dms-s3-access-role" in
  reused <-
    (if negb force_recreate && json_truthy s3_role_arn then
       get_existing_role role_name
     else ret None) ;;
  if truthy reused then ret reused
  else
    try_except
      (try_except
         (try_except
            (attached <- aws (ListAttachedRolePolicies role_name) ;;
             for_each (attached_policies attached)
               (fun policy =>
                  aws (DetachRolePolicy role_name (p_arn policy)) ;;;
                  if contains "dms-s3-access-policy" (p_arn policy) then
                    aws (DeletePolicy (p_arn policy)) ;;; ret tt
                  else ret tt))
            (fun _ => ret tt) ;;;
          aws (DeleteRole role_name) ;;;
          sleep 5)
         (fun _ => ret tt) ;;;
       response <- aws (CreateRole role_name
                          "Role for AWS DMS to access S3 buckets") ;;
       account_id <- getenv "AWS_ACCOUNT_ID" ;;
       profile <- getenv "AWS_PROFILE" ;;
       let policy_name := "dms-s3-access-policy-" ++ fstr profile in
       policy_arn <-
         try_except_if
           (policy_response <- aws (CreatePolicy policy_name) ;;
            match policy_response with
            | PPolicyArn arn => ret arn
            | _ => raise (KeyError "Policy")
            end)
           EntityAlreadyExistsException
           (fun _ => ret ("arn:aws:iam::" ++ fstr account_id ++ ":policy/"
                          ++ policy_name)) ;;
       aws (AttachRolePolicy role_name policy_arn) ;;;
       sleep 15 ;;;
       role_arn_of response)
      (fun _ => ret None).

Definition create_dms_vpc_role (force_recreate : bool) : M (option string) :=
  vpc_role_arn <- Utils.get_resource_data (Some "iam") (Some "vpc_role_arn") ;;
  let role_name := "dms-vpc-role" in
  reused <-
    (if negb force_recreate && json_truthy vpc_role_arn then
       get_existing_role role_name
     else ret None) ;;
  if truthy reused then ret reused
  else
    try_except
      (try_except
         (attached <- aws (ListAttachedRolePolicies role_name) ;;
          for_each (attached_policies attached)
            (fun policy =>
               aws (DetachRolePolicy role_name (p_arn policy)) ;;; ret tt) ;;;
          aws (DeleteRole role_name) ;;;
          sleep 5)
         (fun _ => ret tt) ;;;
       response <- aws (CreateRole role_name
                          "Role for AWS DMS to access VPC resources") ;;
       aws (AttachRolePolicy role_name
              "arn:aws:iam::aws:policy/service-role/AmazonDMSVPCManagementRole") ;;;
       role_arn_of response)
      (fun _ => ret None).

Definition main (force_recreate : bool) : M (option string * option string) :=
  s3_role_arn <- create_dms_role force_recreate ;;
  vpc_role_arn <- create_dms_vpc_role force_recreate ;;
  if truthy s3_role_arn && truthy vpc_role_arn then
    Utils.update_resource_data "iam"
      (JDict [("s3_role_arn", JStr (fstr s3_role_arn));
              ("vpc_role_arn", JStr (fstr vpc_role_arn))]) ;;;
    ret (s3_role_arn, vpc_role_arn)
  else ret (None, None).

End IAM.
End IAM.

(** ** DMS.py *)

Module DMS.
Section DMS.
Context `{Cloud}.

Definition get_run_data : M json := Utils.get_resource_data None None.

(** Strict readers of a response: [response['ReplicationTasks']] and the
    like raise [KeyError] on a response of another shape. *)
Definition tasks_of (p : payload) : M (list Task) :=
  match p with
  | PTasks l => ret l
  | _ => raise (KeyError "ReplicationTasks")
  end.

Definition endpoints_of (p : payload) : M (list Endpoint) :=
  match p with
  | PEndpoints l => ret l
  | _ => raise (KeyError "Endpoints")
  end.

Definition instances_of (p : payload) : M (list ReplInstance) :=
  match p with
  | PInstances l => ret l
  | _ => raise (KeyError "ReplicationInstances")
  end.

Definition connections_of (p : payload) : M (list Connection) :=
  match p with
  | PConnections l => ret l
  | _ => raise (KeyError "Connections")
  end.

(** [l[0]] *)
Definition first {A} (l : list A) : M A :=
  match l with
  | x :: _ => ret x
  | [] => raise IndexError
  end.

Definition nonempty {A} (l : list A) : bool :=
  match l with
  | [] => false
  | _ => true
  end.

Definition check_s3_bucket_exists (bucket_name : option string) : M bool :=
  if negb (truthy bucket_name) then ret false
  else
    let bucket := fstr bucket_name in
    try_except
      (aws (HeadBucket bucket) ;;;
       objects <- aws (ListObjectsV2 bucket "dms-data/") ;;
       match objects with
       | PObjects (Some (_ :: _)) => ret true
       | _ => aws (PutObject bucket "dms-data/empty.txt") ;;; ret true
       end)
      (fun e =>
         if ClientError e then
           if (err_code e =? "404") || (err_code e =? "NoSuchBucket") then
             try_except
               (region <- getenv_or "AWS_DEFAULT_REGION" "us-east-1" ;;
                (if region =? "us-east-1"
                 then aws (CreateBucket bucket None)
                 else aws (CreateBucket bucket (Some region))) ;;;
                aws (PutObject bucket "dms-data/empty.txt") ;;;
                ret true)
               (fun _ => ret false)
           else ret false
         else ret false).

Definition create_replication_instance (vpc_role_arn : option string)
  : M (option string) :=
  profile <- getenv "AWS_PROFILE" ;;
  let instance_id := fstr profile ++ "-dms-instance" in
  let by_id := Some ("replication-instance-id", instance_id) in
  try_except
    (try_except
       (response <- aws (DescribeReplicationInstances by_id) ;;
        l <- instances_of response ;;
        match l with
        | i :: _ => ret (Some (ri_arn i))
        | [] => raise (PyException "Instance not found")
        end)
       (fun _ =>
          sleep 10 ;;;
          aws (CreateReplicationInstance instance_id) ;;;
          aws (WaitReplicationInstanceAvailable instance_id) ;;;
          response <- aws (DescribeReplicationInstances by_id) ;;
          l <- instances_of response ;;
          i <- first l ;;
          Utils.update_resource_data "dms"
            (JDict [("replication_instance_id", JStr instance_id);
                    ("replication_instance_arn", JStr (ri_arn i))]) ;;;
          ret (Some (ri_arn i))))
    (fun _ => ret None).

(** [response['Endpoints'][0]['EndpointArn']] where [response] is the local
    variable of [create_source_endpoint], unbound if the describe call
    raised. *)
Definition stale_endpoint_arn (response : option payload) : M string :=
  match response with
  | None => raise (NameError "response")
  | Some p =>
      l <- endpoints_of p ;;
      e <- first l ;;
      ret (e_arn e)
  end.

Definition created_endpoint_arn (p : payload) : M string :=
  match p with
  | PEndpoint e => ret (e_arn e)
  | _ => raise (KeyError "Endpoint")
  end.

Definition create_source_endpoint (rds_endpoint : option (string * nat))
  : M (option string) :=
  match rds_endpoint with
  | None => ret None
  | Some (Address, Port) =>
      profile <- getenv "AWS_PROFILE" ;;
      let endpoint_id := fstr profile ++ "-sqlserver-source" in
      try_except
        (response <- try_except
                       (r <- aws (DescribeEndpoints (Some ("endpoint-id", endpoint_id))) ;;
                        ret (Some r))
                       (fun _ => ret None) ;;
         match response with
         | Some (PEndpoints (e :: _)) => ret (Some (e_arn e))
         | _ =>
             try_except
               (arn <- stale_endpoint_arn response ;;
                aws (DeleteEndpoint arn) ;;;
                sleep 5)
               (fun _ => ret tt) ;;;
             response <- aws (CreateEndpoint endpoint_id "source" "sqlserver"
                                (Some (Address, Port)) None) ;;
             arn <- created_endpoint_arn response ;;
             Utils.update_resource_data "dms"
               (JDict [("source_endpoint_id", JStr endpoint_id);
                       ("source_endpoint_arn", JStr arn)]) ;;;
             ret (Some arn)
         end)
        (fun _ => ret None)
  end.

Definition s3_settings (bucket_name role_arn : string) : list (string * json) :=
  [("BucketName", JStr bucket_name);
   ("BucketFolder", JStr "dms-data");
   ("ServiceAccessRoleArn", JStr role_arn);
   ("CsvRowDelimiter", JStr (String (ascii_of_nat 10) EmptyString));
   ("CsvDelimiter", JStr ",");
   ("DataFormat", JStr "csv");
   ("AddColumnName", JBool true);
   ("CompressionType", JStr "NONE")].

(** The loop over [s3_settings.items()] that sets [settings_changed]. *)
Definition settings_changed (desired current : list (string * json)) : bool :=
  existsb (fun kv => match dict_get (fst kv) current with
                     | Some v => negb (json_eqb v (snd kv))
                     | None => true
                     end) desired.

(** [endpoint.get('S3Settings', {})] *)
Definition current_s3_settings (e : Endpoint) : list (string * json) :=
  match e_s3 e with
  | Some d => d
  | None => []
  end.

Definition table_mappings : json :=
  JDict [("rules", JList [
     JDict [("rule-type", JStr "selection");
            ("rule-id", JStr "1");
            ("rule-name", JStr "1");
            ("object-locator", JDict [("schema-name", JStr "dbo");
                                      ("table-name", JStr "raw_src")]);
            ("rule-action", JStr "include")]])].

(** *** test_connection *)

(** [os.getenv('ACCEPT_S3_CONNECTION_FAILURES', '').lower() in ['true', 'yes', '1']] *)
Definition accept_s3_connection_failures : M bool :=
  v <- getenv_or "ACCEPT_S3_CONNECTION_FAILURES" "" ;;
  ret (str_in (lower v) ["true"; "yes"; "1"]).

(** [os.getenv('SKIP_S3_CONNECTION_TEST', '').lower() == 'true'] *)
Definition skip_s3_connection_test : M bool :=
  v <- getenv_or "SKIP_S3_CONNECTION_TEST" "" ;;
  ret (lower v =? "true").

(** The first lines of [test_connection]: is the endpoint an S3 endpoint? *)
Definition detect_s3_endpoint (endpoint_arn : string) : M bool :=
  try_except
    (endpoint_details <- aws (DescribeEndpoints (Some ("endpoint-arn", endpoint_arn))) ;;
     l <- endpoints_of endpoint_details ;;
     match l with
     | e :: _ =>
         ret (e_engine e =? "s3")
     | [] => ret false
     end)
    (fun _ => ret false).

(** Deleting the connections left by earlier tests. *)
Definition delete_existing_connections (replication_instance_arn endpoint_arn : string)
  : M unit :=
  try_except
    (connections <- aws (DescribeConnections (Some ("endpoint-arn", endpoint_arn))) ;;
     l <- connections_of connections ;;
     for_each l
       (fun connection =>
          try_except
            (if truthy (c_instance connection) && truthy (c_endpoint connection) then
               aws (DeleteConnection (fstr (c_instance connection))
                                     (fstr (c_endpoint connection))) ;;;
               sleep 15
             else ret tt)
            (fun _ => ret tt)))
    (fun _ => ret tt) ;;;
  try_except
    (aws (DeleteConnection replication_instance_arn endpoint_arn) ;;;
     sleep 15)
    (fun _ => ret tt).

(** [test_id] as read off the response of [dms.test_connection]. *)
Definition test_id_of (p : payload) : option string :=
  match p with
  | PConnection (Some c) =>
      match c_id c with
      | Some i => Some i
      | None => match c_conn_arn c with
                | Some a => Some (split_last ":" a)
                | None => None
                end
      end
  | _ => None
  end.

Definition start_connection_test (replication_instance_arn endpoint_arn : string)
  : M (option string) :=
  try_except
    (response <- aws (TestConnection replication_instance_arn endpoint_arn) ;;
     let test_id := test_id_of response in
     (if negb (truthy test_id) then sleep 5 else ret tt) ;;;
     ret test_id)
    (fun _ => ret None).

(** The loop [while poll_attempts < max_poll_attempts], by the attempts
    left.  [status] is the local variable of that name: unbound ([None])
    until a poll has seen a connection, and kept from one retry to the next.
    [Return b]: the function returns [b].  [Next status]: the loop was left,
    by [break] or by exhausting the attempts. *)
Fixpoint poll_connection (attempts_left : nat) (is_s3_endpoint : bool)
         (retry max_retries : nat) (endpoint_arn : string) (status : option string)
  : M (flow bool (option string)) :=
  match attempts_left with
  | O => ret (Next status)
  | S n =>
      step <-
        try_except
          (test_response <- aws (DescribeConnections (Some ("endpoint-arn", endpoint_arn))) ;;
           l <- connections_of test_response ;;
           let status := match l with
                         | c :: _ => Some (c_status c)
                         | [] => status
                         end in
           match status with
           | None => raise (NameError "status")
           | Some st =>
               if st =? "successful" then ret (inl (Return true))
               else if str_in st ["failed"; "deleting"; "deleted"] then
                 skip_test <- (if is_s3_endpoint then accept_s3_connection_failures
                               else ret false) ;;
                 if skip_test then
                   print "ACCEPT_S3_CONNECTION_FAILURES is set. Continuing despite failed S3 connection test." ;;;
                   ret (inl (Return true))
                 else if Nat.ltb retry max_retries then
                   sleep 5 ;;;
                   ret (inl (Next status))
                 else
                   skip_test <- (if is_s3_endpoint then accept_s3_connection_failures
                                 else ret false) ;;
                   if skip_test then
                     print "ACCEPT_S3_CONNECTION_FAILURES is set. Continuing despite failed S3 connection test." ;;;
                     ret (inl (Return true))
                   else ret (inl (Return false))
               else ret (inr status)
           end)
          (fun _ => ret (inr status)) ;;
      match step with
      | inl out => ret out
      | inr status' =>
          sleep 5 ;;;
          poll_connection n is_s3_endpoint retry max_retries endpoint_arn status'
      end
  end.

Definition max_poll_attempts : nat := 30.

(** One iteration of [for retry in range(max_retries + 1)]. *)
Definition connection_attempt (replication_instance_arn endpoint_arn : string)
           (is_s3_endpoint : bool) (max_retries retry : nat) (status : option string)
  : M (flow bool (option string)) :=
  try_except
    (delete_existing_connections replication_instance_arn endpoint_arn ;;;
     skip <- (if is_s3_endpoint then skip_s3_connection_test else ret false) ;;
     if skip then
       print "SKIP_S3_CONNECTION_TEST is set to true. Skipping test and assuming success." ;;;
       ret (Return true)
     else
       test_id <- start_connection_test replication_instance_arn endpoint_arn ;;
       skip_test <- (if is_s3_endpoint then
                       print "Note: S3 endpoint tests often fail but tasks may still work correctly." ;;;
                       accept_s3_connection_failures
                     else ret false) ;;
       if skip_test then
         print "ACCEPT_S3_CONNECTION_FAILURES is set. Skipping S3 connection test and proceeding." ;;;
         ret (Return true)
       else if negb (truthy test_id) then
         endpoint_details <- aws (DescribeEndpoints (Some ("endpoint-arn", endpoint_arn))) ;;
         l <- endpoints_of endpoint_details ;;
         match l with
         | e :: _ => ret (Return (e_status e =? "active"))
         | [] => ret (Return false)
         end
       else
         out <- poll_connection max_poll_attempts is_s3_endpoint retry max_retries
                                endpoint_arn status ;;
         match out with
         | Return b => ret (Return b)
         | Next status' =>
             print "Connection test timed out after waiting too long" ;;;
             ret (Next status')
         end)
    (fun _ =>
       if Nat.ltb retry max_retries then
         sleep 30 ;;;
         ret (Next status)
       else ret (Return false)).

Fixpoint connection_retries (replication_instance_arn endpoint_arn : string)
         (is_s3_endpoint : bool) (max_retries : nat) (retries : list nat)
         (status : option string) : M bool :=
  match retries with
  | [] => ret false
  | retry :: rest =>
      out <- connection_attempt replication_instance_arn endpoint_arn
                                is_s3_endpoint max_retries retry status ;;
      match out with
      | Return b => ret b
      | Next status' =>
          connection_retries replication_instance_arn endpoint_arn
                             is_s3_endpoint max_retries rest status'
      end
  end.

Definition test_connection_with (replication_instance_arn endpoint_arn : option string)
           (max_retries : nat) : M bool :=
  if negb (truthy replication_instance_arn) || negb (truthy endpoint_arn) then ret false
  else
    is_s3_endpoint <- detect_s3_endpoint (fstr endpoint_arn) ;;
    connection_retries (fstr replication_instance_arn) (fstr endpoint_arn)
                       is_s3_endpoint max_retries (seq 0 (max_retries + 1)) None.

(** [test_connection(replication_instance_arn, endpoint_arn)] with the
    default [max_retries=2], as every caller uses it. *)
Definition test_connection (replication_instance_arn endpoint_arn : option string)
  : M bool :=
  test_connection_with replication_instance_arn endpoint_arn 2.

(** [test_connection] called with a replication instance ARN that is not a
    string, as [create_target_endpoint] does when the ledger holds one.
    The calls that take only the endpoint ARN are sent as usual; the two
    that take the instance ARN, [delete_connection] and [test_connection],
    fail parameter validation before they are sent, and both are inside
    [try]/[except Exception].  So no connection id is ever got and the
    endpoint is judged by its status. *)
Definition delete_listed_connections (endpoint_arn : string) : M unit :=
  try_except
    (connections <- aws (DescribeConnections (Some ("endpoint-arn", endpoint_arn))) ;;
     l <- connections_of connections ;;
     for_each l
       (fun connection =>
          try_except
            (if truthy (c_instance connection) && truthy (c_endpoint connection) then
               aws (DeleteConnection (fstr (c_instance connection))
                                     (fstr (c_endpoint connection))) ;;;
               sleep 15
             else ret tt)
            (fun _ => ret tt)))
    (fun _ => ret tt).

Definition unsendable_attempt (endpoint_arn : string) (is_s3_endpoint : bool)
           (max_retries retry : nat) : M (flow bool unit) :=
  try_except
    (delete_listed_connections endpoint_arn ;;;
     skip <- (if is_s3_endpoint then skip_s3_connection_test else ret false) ;;
     if skip then
       print "SKIP_S3_CONNECTION_TEST is set to true. Skipping test and assuming success." ;;;
       ret (Return true)
     else
       skip_test <- (if is_s3_endpoint then
                       print "Note: S3 endpoint tests often fail but tasks may still work correctly." ;;;
                       accept_s3_connection_failures
                     else ret false) ;;
       if skip_test then
         print "ACCEPT_S3_CONNECTION_FAILURES is set. Skipping S3 connection test and proceeding." ;;;
         ret (Return true)
       else
         endpoint_details <- aws (DescribeEndpoints (Some ("endpoint-arn", endpoint_arn))) ;;
         l <- endpoints_of endpoint_details ;;
         match l with
         | e :: _ => ret (Return (e_status e =? "active"))
         | [] => ret (Return false)
         end)
    (fun _ =>
       if Nat.ltb retry max_retries then
         sleep 30 ;;;
         ret (Next tt)
       else ret (Return false)).

Fixpoint unsendable_retries (endpoint_arn : string) (is_s3_endpoint : bool)
         (max_retries : nat) (retries : list nat) : M bool :=
  match retries with
  | [] => ret false
  | retry :: rest =>
      out <- unsendable_attempt endpoint_arn is_s3_endpoint max_retries retry ;;
      match out with
      | Return b => ret b
      | Next _ => unsendable_retries endpoint_arn is_s3_endpoint max_retries rest
      end
  end.

Definition test_connection_unsendable (endpoint_arn : string) : M bool :=
  is_s3_endpoint <- detect_s3_endpoint endpoint_arn ;;
  unsendable_retries endpoint_arn is_s3_endpoint 2 (seq 0 3).

(** *** The endpoint and task reconcilers *)

(** The lines of [create_target_endpoint] that look for a replication
    instance ARN in the ledger; they read [run_data['dms']], a top-level key,
    while [update_resource_data] files records under [run_data['resources']]. *)
Definition ledger_replication_instance_arn : M json :=
  run_data <- get_run_data ;;
  if json_truthy run_data then
    has_dms <- Utils.py_in "dms" run_data ;;
    if has_dms then
      d <- Utils.getitem run_data "dms" ;;
      has_arn <- Utils.py_in "replication_instance_arn" d ;;
      if has_arn then Utils.getitem d "replication_instance_arn"
      else ret JNull
    else ret JNull
  else ret JNull.

Definition create_target_endpoint (bucket_name role_arn : option string)
  : M (option string) :=
  if negb (truthy bucket_name) || negb (truthy role_arn) then ret None
  else
    bucket_ok <- check_s3_bucket_exists bucket_name ;;
    if negb bucket_ok then ret None
    else
      let endpoint_id := "mforbush-s3-target" in
      let settings := s3_settings (fstr bucket_name) (fstr role_arn) in
      try_except
        (* [existing] is [Some endpoint_arn] when [endpoint_exists] holds *)
        (existing <-
           try_except
             (response <- aws (DescribeEndpoints (Some ("endpoint-id", endpoint_id))) ;;
              l <- endpoints_of response ;;
              match l with
              | e :: _ =>
                  let endpoint_arn := e_arn e in
                  if settings_changed settings (current_s3_settings e) then
                    try_except
                      (aws (ModifyEndpoint endpoint_arn settings) ;;;
                       ret (Some endpoint_arn))
                      (fun _ =>
                         aws (DeleteEndpoint endpoint_arn) ;;;
                         sleep 10 ;;;
                         ret None)
                  else ret (Some endpoint_arn)
              | [] => ret None
              end)
             (fun _ => ret None) ;;
         endpoint_arn <-
           match existing with
           | Some arn => ret arn
           | None =>
               response <- aws (CreateEndpoint endpoint_id "target" "s3" None
                                  (Some settings)) ;;
               created_endpoint_arn response
           end ;;
         Utils.update_resource_data "dms"
           (JDict [("target_endpoint_id", JStr endpoint_id);
                   ("target_endpoint_arn", JStr endpoint_arn)]) ;;;
         replication_instance_arn <- ledger_replication_instance_arn ;;
         (if json_truthy replication_instance_arn && negb (endpoint_arn =? "") then
            match replication_instance_arn with
            | JStr ri => test_connection (Some ri) (Some endpoint_arn) ;;; ret tt
            | _ => test_connection_unsendable endpoint_arn ;;; ret tt
            end
          else ret tt) ;;;
         ret (Some endpoint_arn))
        (fun _ => ret None).

Definition linkage_changed (t : Task) (source target instance : string) : bool :=
  negb (t_source t =? source) || negb (t_target t =? target)
  || negb (t_instance t =? instance).

Definition created_task_arn (p : payload) : M string :=
  match p with
  | PTask t => ret (t_arn t)
  | _ => raise (KeyError "ReplicationTask")
  end.

Definition create_replication_task
           (replication_instance_arn source_endpoint_arn target_endpoint_arn : option string)
  : M (option string) :=
  if negb (truthy replication_instance_arn) || negb (truthy source_endpoint_arn)
     || negb (truthy target_endpoint_arn) then ret None
  else
    profile <- getenv "AWS_PROFILE" ;;
    let task_id := fstr profile ++ "-sqlserver-to-s3-task" in
    let by_id := Some ("replication-task-id", task_id) in
    let mappings := json_dumps table_mappings in
    let source := fstr source_endpoint_arn in
    let target := fstr target_endpoint_arn in
    let instance := fstr replication_instance_arn in
    try_except
      (* [existing] is [Some task_arn] when [task_exists] holds *)
      (existing <-
         try_except
           (response <- aws (DescribeReplicationTasks by_id) ;;
            l <- tasks_of response ;;
            match l with
            | t :: _ =>
                let task_arn := t_arn t in
                if linkage_changed t source target instance
                   || negb (t_mappings t =? mappings) then
                  (if str_in (t_status t) ["running"; "starting"] then
                     aws (StopReplicationTask task_arn) ;;;
                     aws (WaitReplicationTaskStopped task_id) ;;;
                     ret tt
                   else ret tt) ;;;
                  try_except
                    (if linkage_changed t source target instance then
                       aws (DeleteReplicationTask task_arn) ;;;
                       sleep 10 ;;;
                       ret None
                     else
                       aws (ModifyReplicationTask task_arn mappings) ;;;
                       ret (Some task_arn))
                    (fun _ =>
                       aws (DeleteReplicationTask task_arn) ;;;
                       sleep 10 ;;;
                       ret None)
                else ret (Some task_arn)
            | [] => ret None
            end)
           (fun _ => ret None) ;;
       (* [None] below: the [return None] after the manual status check *)
       task_arn <-
         match existing with
         | Some arn => ret (Some arn)
         | None =>
             sleep 15 ;;;
             response <- aws (CreateReplicationTask task_id source target
                                instance mappings) ;;
             task_arn <- created_task_arn response ;;
             usable <-
               try_except
                 (aws (WaitReplicationTaskReady task_id 15 40) ;;;
                  ret true)
                 (fun _ =>
                    sleep 30 ;;;
                    response <- aws (DescribeReplicationTasks by_id) ;;
                    l <- tasks_of response ;;
                    match l with
                    | t :: _ => ret (str_in (lower (t_status t)) ["ready"; "stopped"])
                    | [] => ret true
                    end) ;;
             if usable then ret (Some task_arn) else ret None
         end ;;
       match task_arn with
       | None => ret None
       | Some arn =>
           Utils.update_resource_data "dms"
             (JDict [("replication_task_id", JStr task_id);
                     ("replication_task_arn", JStr arn)]) ;;;
           ret (Some arn)
       end)
      (fun _ => ret None).

(** *** start_replication_task *)

(** [task.get('StopReason', '')] *)
Definition stop_reason_of (t : Task) : string :=
  match t_stop_reason t with
  | Some r => r
  | None => ""
  end.

(** The [if]/[elif] chain that binds [start_type]; [None] when it leaves the
    variable unbound. *)
Definition select_start_type (t : Task) : option string :=
  if lower (t_status t) =? "ready" then Some "start-replication"
  else if lower (t_status t) =? "stopped" then
    if contains "FULL_LOAD_ONLY_FINISHED" (stop_reason_of t)
    then Some "reload-target"
    else Some "resume-processing"
  else if lower (t_status t) =? "running" then None
  else Some "start-replication".

(** The loop [while True] that monitors the task; [fuel] bounds the polls of
    the model only. *)
Fixpoint monitor_task (fuel : nat) (task_arn : string) : M bool :=
  match fuel with
  | O => diverge
  | S n =>
      response <- aws (DescribeReplicationTasks
                         (Some ("replication-task-arn", task_arn))) ;;
      l <- tasks_of response ;;
      match l with
      | [] => ret false
      | task_info :: _ =>
          if lower (t_status task_info) =? "stopped" then
            ret (contains "FULL_LOAD_ONLY_FINISHED" (stop_reason_of task_info))
          else if lower (t_status task_info) =? "failed" then ret false
          else
            sleep 15 ;;;
            monitor_task n task_arn
      end
  end.

Definition start_replication_task (fuel : nat) (task_arn : option string) : M bool :=
  if negb (truthy task_arn) then ret false
  else
    let arn := fstr task_arn in
    try_except
      (response <- aws (DescribeReplicationTasks
                          (Some ("replication-task-arn", arn))) ;;
       l <- tasks_of response ;;
       match l with
       | [] => ret false
       | t :: _ =>
           (if negb (lower (t_status t) =? "running") then
              match select_start_type t with
              | Some start_type =>
                  aws (StartReplicationTask arn start_type) ;;;
                  ret tt
              | None => raise (NameError "start_type")
              end
            else ret tt) ;;;
           monitor_task fuel arn
       end)
      (fun _ => ret false).

(** *** main *)

(** Lines 1004-1029: tasks already linking the two endpoints are deleted
    before the connection tests. *)
Definition delete_existing_tasks (source_endpoint_arn target_endpoint_arn : string)
  : M unit :=
  try_except
    (tasks <- aws (DescribeReplicationTasks None) ;;
     let all := match tasks with PTasks l => l | _ => [] end in
     let existing_tasks :=
       map t_arn
           (filter (fun task => (t_source task =? source_endpoint_arn)
                                && (t_target task =? target_endpoint_arn)) all) in
     for_each existing_tasks
       (fun task_arn =>
          aws (DeleteReplicationTask task_arn) ;;;
          sleep 20))
    (fun _ => ret tt).

Definition detect_s3_target (target_endpoint_arn : string) : M bool :=
  try_except
    (endpoint_details <- aws (DescribeEndpoints
                                (Some ("endpoint-arn", target_endpoint_arn))) ;;
     l <- endpoints_of endpoint_details ;;
     match l with
     | e :: _ => ret (contains "s3" (lower (e_engine e)))
     | [] => ret false
     end)
    (fun _ => ret false).

(** [for attempt in range(max_attempts)]; the value is
    [target_connection_success] when the loop is left. *)
Fixpoint target_attempts (replication_instance_arn target_endpoint_arn : option string)
         (max_attempts : nat) (attempts : list nat) : M bool :=
  match attempts with
  | [] => ret false
  | attempt :: rest =>
      target_connection_success <-
        test_connection replication_instance_arn target_endpoint_arn ;;
      if target_connection_success then ret true
      else
        (if Nat.ltb attempt (max_attempts - 1) then sleep 10 else ret tt) ;;;
        target_attempts replication_instance_arn target_endpoint_arn
                        max_attempts rest
  end.

Definition optimize_s3_endpoint (target_endpoint_arn : string) : M unit :=
  try_except
    (response <- aws (DescribeEndpoints
                        (Some ("endpoint-arn", target_endpoint_arn))) ;;
     l <- endpoints_of response ;;
     match l with
     | e :: _ =>
         let current_settings :=
           dict_set "EnableStatistics" (JBool true)
             (dict_set "UseTaskStartTimeForFullLoadTimestamp" (JBool true)
                (current_s3_settings e)) in
         aws (ModifyEndpoint target_endpoint_arn current_settings) ;;;
         sleep 10
     | [] => ret tt
     end)
    (fun _ => ret tt).

(** Lines 1047-1135 of [main]: the connection test of the target endpoint
    and what follows from its result.  [false]: [main] returns [False]
    here; [true]: it goes on to the replication task. *)
Definition target_connection_stage
           (replication_instance_arn target_endpoint_arn : option string) : M bool :=
  let max_attempts := 3 in
  is_s3_endpoint <- detect_s3_target (fstr target_endpoint_arn) ;;
  accept <- accept_s3_connection_failures ;;
  target_connection_success <-
    (if is_s3_endpoint && accept then
       print "S3 endpoint detected with ACCEPT_S3_CONNECTION_FAILURES=true. Skipping connection test." ;;;
       ret true
     else
       target_attempts replication_instance_arn target_endpoint_arn
                       max_attempts (seq 0 max_attempts)) ;;
  proceed <-
    (if negb target_connection_success then
       if is_s3_endpoint then
         print "WARNING: S3 target endpoint connection test failed after multiple attempts." ;;;
         accept <- accept_s3_connection_failures ;;
         if negb accept then
           continue_anyway <- input ;;
           if negb (lower continue_anyway =? "yes") then ret false
           else ret true
         else
           print "ACCEPT_S3_CONNECTION_FAILURES is set. Continuing despite failed test." ;;;
           ret true
       else
         print "ERROR: Target endpoint connection test failed after multiple attempts." ;;;
         ret false
     else ret true) ;;
  if negb proceed then ret false
  else
    (if negb target_connection_success && is_s3_endpoint then
       optimize_s3_endpoint (fstr target_endpoint_arn)
     else ret tt) ;;;
    ret true.

(** Lines 1137-1153 of [main]: create the task, start it, monitor it. *)
Definition run_replication_task (fuel : nat)
           (replication_instance_arn source_endpoint_arn target_endpoint_arn : option string)
  : M bool :=
  task_arn <- create_replication_task replication_instance_arn
                source_endpoint_arn target_endpoint_arn ;;
  if negb (truthy task_arn) then ret false
  else
    success <- start_replication_task fuel task_arn ;;
    if negb success then ret false
    else ret true.

(** [main] from line 1004 on, once the replication instance and the two
    endpoints exist. *)
Definition main_after_endpoints (fuel : nat)
           (replication_instance_arn source_endpoint_arn target_endpoint_arn : option string)
  : M bool :=
  delete_existing_tasks (fstr source_endpoint_arn) (fstr target_endpoint_arn) ;;;
  source_connection_success <-
    test_connection replication_instance_arn source_endpoint_arn ;;
  if negb source_connection_success then
    print "ERROR: Source endpoint connection test failed." ;;;
    ret false
  else
    proceed <- target_connection_stage replication_instance_arn target_endpoint_arn ;;
    if negb proceed then ret false
    else run_replication_task fuel replication_instance_arn
                              source_endpoint_arn target_endpoint_arn.

(** [roles] is the tuple of role ARNs, or empty.  [load_config] is taken to
    succeed. *)
Definition main (fuel : nat) (rds_endpoint : option (string * nat))
           (bucket_name : option string) (roles : list (option string)) : M bool :=
  let s3_role_arn := match roles with r :: _ => r | [] => None end in
  let vpc_role_arn := match roles with _ :: r :: _ => r | _ => None end in
  bucket_exists <- (if truthy bucket_name then check_s3_bucket_exists bucket_name
                    else ret true) ;;
  if negb bucket_exists then ret false
  else
    replication_instance_arn <- create_replication_instance vpc_role_arn ;;
    if negb (truthy replication_instance_arn) then ret false
    else
      source_endpoint_arn <- create_source_endpoint rds_endpoint ;;
      if negb (truthy source_endpoint_arn) then ret false
      else
        target_endpoint_arn <- create_target_endpoint bucket_name s3_role_arn ;;
        if negb (truthy target_endpoint_arn) then ret false
        else
          main_after_endpoints fuel replication_instance_arn
                               source_endpoint_arn target_endpoint_arn.

End DMS.
End DMS.

(** ** delete_di.py: the teardown of the DMS resources *)

Module DeleteDi.
Section DeleteDi.
Context `{Cloud}.

(** [response.get('ReplicationTasks', [])] and the like *)
Definition tasks_or_empty (p : payload) : list Task :=
  match p with PTasks l => l | _ => [] end.

Definition endpoints_or_empty (p : payload) : list Endpoint :=
  match p with PEndpoints l => l | _ => [] end.

Definition instances_or_empty (p : payload) : list ReplInstance :=
  match p with PInstances l => l | _ => [] end.

(** A ledger value used as the value of a boto3 filter: anything but a
    string fails parameter validation, which is not a [ClientError]. *)
Definition filter_value (j : json) : M string :=
  match j with
  | JStr s => ret s
  | _ => raise (mkExn false "ParamValidationError" "Filters")
  end.

(** The loops [while time.time() - start_time < max_wait_time].  Every
    iteration that does not leave the loop sleeps, so [fuel] iterations are
    never used up when [fuel] is the wait in seconds. *)

(** Waiting for a stopped task (60 s, polls every 5 s). *)
Fixpoint wait_task_stopped (fuel start_time max_wait_time : nat) (task_arn : string)
  : M unit :=
  match fuel with
  | O => diverge
  | S n =>
      t <- time ;;
      if Nat.ltb (t - start_time) max_wait_time then
        again <-
          try_except_if
            (response <- aws (DescribeReplicationTasks
                                (Some ("replication-task-arn", task_arn))) ;;
             l <- DMS.tasks_of response ;;
             match l with
             | [] => ret false
             | task :: _ =>
                 if t_status task =? "stopped" then ret false
                 else sleep 5 ;;; ret true
             end)
            ClientError
            (fun _ => ret false) ;;
        if again then wait_task_stopped n start_time max_wait_time task_arn
        else ret tt
      else ret tt
  end.

(** Waiting for the task listing to empty at the end of
    [delete_replication_tasks] (300 s, polls every 15 s); the value is what
    the function returns. *)
Fixpoint wait_all_tasks_deleted (fuel start_time max_wait_time : nat) : M bool :=
  match fuel with
  | O => diverge
  | S n =>
      t <- time ;;
      if Nat.ltb (t - start_time) max_wait_time then
        gone <-
          try_except_if
            (tasks <- aws (DescribeReplicationTasks None) ;;
             if negb (DMS.nonempty (tasks_or_empty tasks)) then ret true
             else sleep 15 ;;; ret false)
            ClientError
            (fun _ => sleep 15 ;;; ret false) ;;
        if gone then ret true
        else wait_all_tasks_deleted n start_time max_wait_time
      else
        print "WARNING: Timed out waiting for all tasks to be deleted" ;;;
        ret false
  end.

Definition delete_replication_tasks : M (option bool) :=
  try_except_if
    (task_id <- Utils.get_resource_data (Some "dms") (Some "replication_task_id") ;;
     task_arn <- Utils.get_resource_data (Some "dms") (Some "replication_task_arn") ;;
     all_tasks <-
       try_except_if
         (tasks_response <- aws (DescribeReplicationTasks None) ;;
          ret (tasks_or_empty tasks_response))
         ClientError
         (fun _ => ret []) ;;
     all_tasks <-
       (if json_truthy task_id && json_truthy task_arn then
          if negb (existsb (fun t => json_eqb (JStr (t_arn t)) task_arn) all_tasks) then
            try_except_if
              (arn <- filter_value task_arn ;;
               task_response <- aws (DescribeReplicationTasks
                                       (Some ("replication-task-arn", arn))) ;;
               l <- DMS.tasks_of task_response ;;
               match l with
               | t :: _ => ret (all_tasks ++ [t])%list
               | [] => ret all_tasks
               end)
              ClientError
              (fun _ => ret all_tasks)
          else ret all_tasks
        else ret all_tasks) ;;
     for_each all_tasks
       (fun task =>
          (if str_in (t_status task) ["running"; "starting"] then
             try_except_if
               (aws (StopReplicationTask (t_arn task)) ;;;
                start_time <- time ;;
                wait_task_stopped 60 start_time 60 (t_arn task))
               ClientError
               (fun _ => ret tt)
           else ret tt) ;;;
          try_except_if
            (aws (DeleteReplicationTask (t_arn task)) ;;; ret tt)
            ClientError
            (fun _ => ret tt)) ;;;
     start_time <- time ;;
     deleted <- wait_all_tasks_deleted 300 start_time 300 ;;
     ret (Some deleted))
    ClientError
    (fun _ => ret None).

(** The loop of [delete_endpoints] that waits for the tasks to go (180 s,
    polls every 15 s); its [else] branch is the timeout. *)
Fixpoint wait_tasks_gone (fuel start_time max_wait_time : nat) : M unit :=
  match fuel with
  | O => diverge
  | S n =>
      t <- time ;;
      if Nat.ltb (t - start_time) max_wait_time then
        tasks <- aws (DescribeReplicationTasks None) ;;
        if negb (DMS.nonempty (tasks_or_empty tasks)) then ret tt
        else
          sleep 15 ;;;
          wait_tasks_gone n start_time max_wait_time
      else
        print "WARNING: Timed out waiting for tasks to be deleted." ;;;
        print "Attempting to delete endpoints anyway, but this may fail."
  end.

(** The first block of [delete_endpoints]: "verify that all replication
    tasks are deleted". *)
Definition verify_tasks_deleted : M unit :=
  try_except_if
    (tasks <- aws (DescribeReplicationTasks None) ;;
     if DMS.nonempty (tasks_or_empty tasks) then
       print "WARNING: There are still replication tasks that exist!" ;;;
       start_time <- time ;;
       wait_tasks_gone 180 start_time 180
     else ret tt)
    ClientError
    (fun _ => ret tt).

(** An endpoint recorded in the ledger is added to the list if the listing
    missed it. *)
Definition add_ledger_endpoint (endpoint_id endpoint_arn : json)
           (all_endpoints : list Endpoint) : M (list Endpoint) :=
  if json_truthy endpoint_id && json_truthy endpoint_arn then
    if negb (existsb (fun e => json_eqb (JStr (e_arn e)) endpoint_arn) all_endpoints) then
      try_except_if
        (arn <- filter_value endpoint_arn ;;
         endpoint_response <- aws (DescribeEndpoints (Some ("endpoint-arn", arn))) ;;
         l <- DMS.endpoints_of endpoint_response ;;
         match l with
         | e :: _ => ret (all_endpoints ++ [e])%list
         | [] => ret all_endpoints
         end)
        ClientError
        (fun _ => ret all_endpoints)
    else ret all_endpoints
  else ret all_endpoints.

Fixpoint wait_all_endpoints_deleted (fuel start_time max_wait_time : nat) : M bool :=
  match fuel with
  | O => diverge
  | S n =>
      t <- time ;;
      if Nat.ltb (t - start_time) max_wait_time then
        gone <-
          try_except_if
            (endpoints <- aws (DescribeEndpoints None) ;;
             if negb (DMS.nonempty (endpoints_or_empty endpoints)) then ret true
             else sleep 10 ;;; ret false)
            ClientError
            (fun _ => sleep 10 ;;; ret false) ;;
        if gone then ret true
        else wait_all_endpoints_deleted n start_time max_wait_time
      else
        print "WARNING: Timed out waiting for all endpoints to be deleted" ;;;
        ret false
  end.

(** The second block of [delete_endpoints]: delete every endpoint, then
    wait for the listing to empty. *)
Definition delete_all_endpoints : M (option bool) :=
  try_except_if
    (all_endpoints <-
       try_except_if
         (endpoints_response <- aws (DescribeEndpoints None) ;;
          ret (endpoints_or_empty endpoints_response))
         ClientError
         (fun _ => ret []) ;;
     source_endpoint_id <- Utils.get_resource_data (Some "dms") (Some "source_endpoint_id") ;;
     source_endpoint_arn <- Utils.get_resource_data (Some "dms") (Some "source_endpoint_arn") ;;
     target_endpoint_id <- Utils.get_resource_data (Some "dms") (Some "target_endpoint_id") ;;
     target_endpoint_arn <- Utils.get_resource_data (Some "dms") (Some "target_endpoint_arn") ;;
     all_endpoints <- add_ledger_endpoint source_endpoint_id source_endpoint_arn
                                          all_endpoints ;;
     all_endpoints <- add_ledger_endpoint target_endpoint_id target_endpoint_arn
                                          all_endpoints ;;
     for_each all_endpoints
       (fun endpoint =>
          try_except_if
            (aws (DeleteEndpoint (e_arn endpoint)) ;;; ret tt)
            ClientError
            (fun _ => ret tt)) ;;;
     start_time <- time ;;
     deleted <- wait_all_endpoints_deleted 180 start_time 180 ;;
     ret (Some deleted))
    ClientError
    (fun _ => ret None).

Definition delete_endpoints : M (option bool) :=
  verify_tasks_deleted ;;;
  delete_all_endpoints.

(** The same two blocks for the replication instances. *)
Fixpoint wait_endpoints_gone (fuel start_time max_wait_time : nat) : M unit :=
  match fuel with
  | O => diverge
  | S n =>
      t <- time ;;
      if Nat.ltb (t - start_time) max_wait_time then
        endpoints <- aws (DescribeEndpoints None) ;;
        if negb (DMS.nonempty (endpoints_or_empty endpoints)) then ret tt
        else
          sleep 15 ;;;
          wait_endpoints_gone n start_time max_wait_time
      else
        print "WARNING: Timed out waiting for endpoints to be deleted." ;;;
        print "Attempting to delete replication instances anyway, but this may fail."
  end.

Definition verify_endpoints_deleted : M unit :=
  try_except_if
    (endpoints <- aws (DescribeEndpoints None) ;;
     if DMS.nonempty (endpoints_or_empty endpoints) then
       print "WARNING: There are still endpoints that exist!" ;;;
       start_time <- time ;;
       wait_endpoints_gone 180 start_time 180
     else ret tt)
    ClientError
    (fun _ => ret tt).

Fixpoint wait_all_instances_deleted (fuel start_time max_wait_time : nat) : M bool :=
  match fuel with
  | O => diverge
  | S n =>
      t <- time ;;
      if Nat.ltb (t - start_time) max_wait_time then
        gone <-
          try_except_if
            (instances <- aws (DescribeReplicationInstances None) ;;
             if negb (DMS.nonempty (instances_or_empty instances)) then ret true
             else sleep 30 ;;; ret false)
            ClientError
            (fun _ => sleep 30 ;;; ret false) ;;
        if gone then ret true
        else wait_all_instances_deleted n start_time max_wait_time
      else
        print "WARNING: Timed out waiting for all replication instances to be deleted" ;;;
        ret false
  end.

Definition delete_all_instances : M (option bool) :=
  try_except_if
    (all_instances <-
       try_except_if
         (instances_response <- aws (DescribeReplicationInstances None) ;;
          ret (instances_or_empty instances_response))
         ClientError
         (fun _ => ret []) ;;
     instance_id <- Utils.get_resource_data (Some "dms") (Some "replication_instance_id") ;;
     instance_arn <- Utils.get_resource_data (Some "dms") (Some "replication_instance_arn") ;;
     all_instances <-
       (if json_truthy instance_id && json_truthy instance_arn then
          if negb (existsb (fun i => json_eqb (JStr (ri_arn i)) instance_arn)
                           all_instances) then
            try_except_if
              (arn <- filter_value instance_arn ;;
               instance_response <- aws (DescribeReplicationInstances
                                           (Some ("replication-instance-arn", arn))) ;;
               l <- DMS.instances_of instance_response ;;
               match l with
               | i :: _ => ret (all_instances ++ [i])%list
               | [] => ret all_instances
               end)
              ClientError
              (fun _ => ret all_instances)
          else ret all_instances
        else ret all_instances) ;;
     for_each all_instances
       (fun instance =>
          try_except_if
            (aws (DeleteReplicationInstance (ri_arn instance)) ;;; ret tt)
            ClientError
            (fun _ => ret tt)) ;;;
     start_time <- time ;;
     deleted <- wait_all_instances_deleted 300 start_time 300 ;;
     ret (Some deleted))
    ClientError
    (fun _ => ret (Some false)).

Definition delete_replication_instances : M (option bool) :=
  verify_endpoints_deleted ;;;
  delete_all_instances.

(** [main] through step 3.  Steps 4 to 6 delete the bucket, the RDS
    instances and the IAM roles through the S3, RDS and IAM clients. *)
Definition main_dms_steps : M (option bool * option bool * option bool) :=
  confirmation <- input ;;
  if negb (lower confirmation =? "yes") then
    raise (mkExn false "SystemExit" "0")
  else
    tasks_deleted <- delete_replication_tasks ;;
    endpoints_deleted <- delete_endpoints ;;
    instances_deleted <- delete_replication_instances ;;
    ret (tasks_deleted, endpoints_deleted, instances_deleted).

End DeleteDi.
End DeleteDi.

(** ** delete_di.py: the IAM roles *)

Module DeleteDiIam.
Section DeleteDiIam.
Context `{Cloud}.

(** The role name taken from a ledgered ARN: [arn.split('/')[-1]] when the
    ledger holds a non-empty string; the default name when the ledger holds
    nothing, or a value without [split] (the [AttributeError] is caught). *)
Definition role_name_of (arn : json) (default : string) : string :=
  if json_truthy arn then
    match arn with
    | JStr s => split_last "/" s
    | _ => default
    end
  else default.

(** The block that [delete_iam_roles] repeats for each of its three roles:
    detach every attached policy, then delete the role. *)
Definition delete_role (role : string) : M unit :=
  try_except_if
    (attached <- aws (ListAttachedRolePolicies role) ;;
     for_each (IAM.attached_policies attached)
       (fun policy => aws (DetachRolePolicy role (p_arn policy)) ;;; ret tt) ;;;
     aws (DeleteRole role) ;;;
     ret tt)
    ClientError
    (fun _ => ret tt).

Definition delete_iam_roles : M unit :=
  try_except_if
    (s3_role_arn <- Utils.get_resource_data (Some "iam") (Some "s3_role_arn") ;;
     vpc_role_arn <- Utils.get_resource_data (Some "iam") (Some "vpc_role_arn") ;;
     let dms_s3_role := role_name_of s3_role_arn "dms-s3-access-role" in
     let dms_vpc_role := role_name_of vpc_role_arn "dms-vpc-role" in
     let dms_cloudwatch_role := "dms-cloudwatch-logs-role" in
     delete_role dms_s3_role ;;;
     delete_role dms_vpc_role ;;;
     delete_role dms_cloudwatch_role)
    ClientError
    (fun _ => ret tt).

End DeleteDiIam.
End DeleteDiIam.

(** ** clear_di.py: clearing tasks and endpoints, keeping the instances *)

Module ClearDi.
Section ClearDi.
Context `{Cloud}.

(** The loop [while True] that waits for a task to stop; [fuel] bounds the
    polls of the model only. *)
Fixpoint wait_task_stopped (fuel : nat) (task_arn : string) : M unit :=
  match fuel with
  | O => diverge
  | S n =>
      response <- aws (DescribeReplicationTasks
                         (Some ("replication-task-arn", task_arn))) ;;
      l <- DMS.tasks_of response ;;
      match l with
      | [] => ret tt
      | task :: _ =>
          if t_status task =? "stopped" then ret tt
          else
            sleep 5 ;;;
            wait_task_stopped n task_arn
      end
  end.

(** The body of the loop over the listed tasks. *)
Definition delete_task (fuel : nat) (task : Task) : M unit :=
  (if str_in (t_status task) ["running"; "starting"] then
     aws (StopReplicationTask (t_arn task)) ;;;
     wait_task_stopped fuel (t_arn task)
   else ret tt) ;;;
  aws (DeleteReplicationTask (t_arn task)) ;;;
  ret tt.

(** The loop [while True] that ends on an empty listing or on a listing
    without a task in status [deleting]. *)
Fixpoint wait_tasks_deleted (fuel : nat) : M unit :=
  match fuel with
  | O => diverge
  | S n =>
      tasks <- aws (DescribeReplicationTasks None) ;;
      let l := DeleteDi.tasks_or_empty tasks in
      if negb (DMS.nonempty l) then ret tt
      else if negb (DMS.nonempty (filter (fun t => t_status t =? "deleting") l))
      then ret tt
      else
        sleep 10 ;;;
        wait_tasks_deleted n
  end.

Definition delete_replication_tasks (fuel : nat) : M unit :=
  try_except_if
    (tasks <- aws (DescribeReplicationTasks None) ;;
     for_each (DeleteDi.tasks_or_empty tasks) (delete_task fuel) ;;;
     wait_tasks_deleted fuel ;;;
     print "All replication tasks deleted")
    ClientError
    (fun _ => ret tt).

Fixpoint wait_endpoints_deleted (fuel : nat) : M unit :=
  match fuel with
  | O => diverge
  | S n =>
      endpoints <- aws (DescribeEndpoints None) ;;
      let l := DeleteDi.endpoints_or_empty endpoints in
      if negb (DMS.nonempty l) then ret tt
      else if negb (DMS.nonempty (filter (fun e => e_status e =? "deleting") l))
      then ret tt
      else
        sleep 10 ;;;
        wait_endpoints_deleted n
  end.

Definition delete_endpoints (fuel : nat) : M unit :=
  try_except_if
    (endpoints <- aws (DescribeEndpoints None) ;;
     for_each (DeleteDi.endpoints_or_empty endpoints)
       (fun endpoint =>
          try_except_if
            (aws (DeleteEndpoint (e_arn endpoint)) ;;; ret tt)
            ClientError
            (fun _ => ret tt)) ;;;
     wait_endpoints_deleted fuel ;;;
     print "All endpoints deleted")
    ClientError
    (fun _ => ret tt).

End ClearDi.
End ClearDi.

(** ** A reference account

    The sources never see more of AWS than responses.  To state what
    "no external change to remote state" means, and to run the code on
    concrete inputs, this is a small account in which every resource table is
    keyed by identifier, creation is immediate, describe calls report what
    was created or last modified, and nothing changes between calls. *)

Module Ref.

(** What the account stores of an endpoint and of a task; identifiers are
    the keys of the tables and ARNs are derived from them. *)
Record EndpointBody : Type := mkEndpointBody {
  eb_engine : string;
  eb_status : string;
  eb_s3 : option (list (string * json))
}.

Record TaskBody : Type := mkTaskBody {
  tb_status : string;
  tb_stop_reason : option string;
  tb_source : string;
  tb_target : string;
  tb_instance : string;
  tb_mappings : string
}.

Record Account : Type := mkAccount {
  buckets : list (string * list string);     (* bucket name -> keys *)
  databases : list (string * DBInstance);
  roles : list (string * list Policy);       (* role name -> attached policies *)
  policies : list (string * string);         (* policy name -> ARN *)
  instances : list (string * unit);          (* replication instance ids *)
  endpoints : list (string * EndpointBody);
  tasks : list (string * TaskBody);
  connections : list Connection
}.

Definition empty_account : Account := mkAccount [] [] [] [] [] [] [] [].

Definition client_error (code : string) : response :=
  inl (mkExn true code ("An error occurred (" ++ code ++ ")")).

Definition waiter_error : response :=
  inl (mkExn false "WaiterError" "Waiter failed").

Fixpoint dict_remove {V : Type} (k : string) (d : list (string * V))
  : list (string * V) :=
  match d with
  | [] => []
  | (k', v) :: r => if k' =? k then dict_remove k r else (k', v) :: dict_remove k r
  end.

Definition role_arn (name : string) : string := "arn:aws:iam::role/" ++ name.
Definition policy_arn (name : string) : string := "arn:aws:iam::policy/" ++ name.
Definition instance_arn (id : string) : string := "arn:aws:dms:rep:" ++ id.
Definition endpoint_arn (id : string) : string := "arn:aws:dms:endpoint:" ++ id.
Definition task_arn (id : string) : string := "arn:aws:dms:task:" ++ id.

(** The identifier inside an ARN built with the given prefix. *)
Fixpoint strip_prefix (p s : string) : option string :=
  match p, s with
  | EmptyString, _ => Some s
  | String a p', String b s' => if Ascii.eqb a b then strip_prefix p' s' else None
  | String _ _, EmptyString => None
  end.

Definition instance_of (id : string) (_ : unit) : ReplInstance :=
  mkReplInstance (instance_arn id) id.

Definition endpoint_of (id : string) (b : EndpointBody) : Endpoint :=
  mkEndpoint (endpoint_arn id) id (eb_engine b) (eb_status b) (eb_s3 b).

Definition task_of (id : string) (b : TaskBody) : Task :=
  mkTask (task_arn id) id (tb_status b) (tb_stop_reason b) (tb_source b)
         (tb_target b) (tb_instance b) (tb_mappings b).

(** The rows a describe call with the given filter reports. *)
Definition select {B V : Type} (id_filter arn_filter arn_prefix : string)
           (row : string -> B -> V) (f : Filter) (table : list (string * B))
  : option (list V) :=
  let by_id id := match dict_get id table with
                  | Some b => [row id b]
                  | None => []
                  end in
  match f with
  | None => Some (map (fun kv => row (fst kv) (snd kv)) table)
  | Some (name, value) =>
      if name =? id_filter then Some (by_id value)
      else if name =? arn_filter then
        Some (match strip_prefix arn_prefix value with
              | Some id => by_id id
              | None => []
              end)
      else None
  end.

Definition with_buckets (a : Account) b :=
  mkAccount b (databases a) (roles a) (policies a) (instances a) (endpoints a)
            (tasks a) (connections a).
Definition with_databases (a : Account) d :=
  mkAccount (buckets a) d (roles a) (policies a) (instances a) (endpoints a)
            (tasks a) (connections a).
Definition with_roles (a : Account) r :=
  mkAccount (buckets a) (databases a) r (policies a) (instances a) (endpoints a)
            (tasks a) (connections a).
Definition with_policies (a : Account) p :=
  mkAccount (buckets a) (databases a) (roles a) p (instances a) (endpoints a)
            (tasks a) (connections a).
Definition with_instances (a : Account) i :=
  mkAccount (buckets a) (databases a) (roles a) (policies a) i (endpoints a)
            (tasks a) (connections a).
Definition with_endpoints (a : Account) e :=
  mkAccount (buckets a) (databases a) (roles a) (policies a) (instances a) e
            (tasks a) (connections a).
Definition with_tasks (a : Account) t :=
  mkAccount (buckets a) (databases a) (roles a) (policies a) (instances a)
            (endpoints a) t (connections a).
Definition with_connections (a : Account) c :=
  mkAccount (buckets a) (databases a) (roles a) (policies a) (instances a)
            (endpoints a) (tasks a) c.

Definition set_status (st : string) (reason : option string) (b : TaskBody) : TaskBody :=
  mkTaskBody st reason (tb_source b) (tb_target b) (tb_instance b) (tb_mappings b).

Definition busy (b : TaskBody) : bool :=
  str_in (tb_status b) ["running"; "starting"].

Definition matches (f : Filter) (c : Connection) : bool :=
  match f with
  | Some ("endpoint-arn", v) => match c_endpoint c with
                                | Some e => e =? v
                                | None => false
                                end
  | _ => true
  end.

(** The task an ARN names, if the account has it. *)
Definition task_named (arn : string) (a : Account) : option (string * TaskBody) :=
  match strip_prefix "arn:aws:dms:task:" arn with
  | Some id => match dict_get id (tasks a) with
               | Some b => Some (id, b)
               | None => None
               end
  | None => None
  end.

Definition endpoint_named (arn : string) (a : Account)
  : option (string * EndpointBody) :=
  match strip_prefix "arn:aws:dms:endpoint:" arn with
  | Some id => match dict_get id (endpoints a) with
               | Some b => Some (id, b)
               | None => None
               end
  | None => None
  end.

Definition step (a : Account) (c : call) : response * Account :=
  match c with
  (* S3 *)
  | HeadBucket b =>
      if dict_has b (buckets a) then (inr PEmpty, a)
      else (client_error "404", a)
  | ListObjectsV2 b prefix =>
      match dict_get b (buckets a) with
      | Some keys =>
          match filter (starts_with prefix) keys with
          | [] => (inr (PObjects None), a)
          | l => (inr (PObjects (Some l)), a)
          end
      | None => (client_error "NoSuchBucket", a)
      end
  | PutObject b key =>
      match dict_get b (buckets a) with
      | Some keys => (inr PEmpty, with_buckets a (dict_set b (key :: keys) (buckets a)))
      | None => (client_error "NoSuchBucket", a)
      end
  | CreateBucket b _ =>
      if dict_has b (buckets a) then (client_error "BucketAlreadyOwnedByYou", a)
      else (inr PEmpty, with_buckets a (dict_set b [] (buckets a)))
  (* RDS *)
  | DescribeDBInstances id =>
      match dict_get id (databases a) with
      | Some i => (inr (PDBInstances [i]), a)
      | None => (client_error "DBInstanceNotFound", a)
      end
  | CreateDBInstance id =>
      if dict_has id (databases a) then (client_error "DBInstanceAlreadyExists", a)
      else
        let i := mkDBInstance id "available"
                              (Some (id ++ ".rds.amazonaws.com", 1433)) in
        (inr (PDBInstances [i]), with_databases a (dict_set id i (databases a)))
  | WaitDBInstanceAvailable id =>
      if dict_has id (databases a) then (inr PEmpty, a) else (waiter_error, a)
  (* IAM *)
  | GetRole name =>
      if dict_has name (roles a) then (inr (PRoleArn (role_arn name)), a)
      else (client_error "NoSuchEntity", a)
  | ListAttachedRolePolicies name =>
      match dict_get name (roles a) with
      | Some l => (inr (PPolicies l), a)
      | None => (client_error "NoSuchEntity", a)
      end
  | DetachRolePolicy name arn =>
      match dict_get name (roles a) with
      | Some l => (inr PEmpty,
                   with_roles a (dict_set name
                                   (filter (fun p => negb (p_arn p =? arn)) l)
                                   (roles a)))
      | None => (client_error "NoSuchEntity", a)
      end
  | DeletePolicy arn =>
      (inr PEmpty,
       with_policies a (filter (fun kv => negb (snd kv =? arn)) (policies a)))
  | DeleteRole name =>
      match dict_get name (roles a) with
      | Some [] => (inr PEmpty, with_roles a (dict_remove name (roles a)))
      | Some _ => (client_error "DeleteConflict", a)
      | None => (client_error "NoSuchEntity", a)
      end
  | CreateRole name _ =>
      if dict_has name (roles a) then (client_error "EntityAlreadyExists", a)
      else (inr (PRoleArn (role_arn name)), with_roles a (dict_set name [] (roles a)))
  | CreatePolicy name =>
      if dict_has name (policies a) then (client_error "EntityAlreadyExists", a)
      else (inr (PPolicyArn (policy_arn name)),
            with_policies a (dict_set name (policy_arn name) (policies a)))
  | AttachRolePolicy name arn =>
      match dict_get name (roles a) with
      | Some l => (inr PEmpty,
                   with_roles a (dict_set name (mkPolicy arn arn :: l) (roles a)))
      | None => (client_error "NoSuchEntity", a)
      end
  (* DMS replication instances *)
  | DescribeReplicationInstances f =>
      match select "replication-instance-id" "replication-instance-arn"
                   "arn:aws:dms:rep:" instance_of f (instances a) with
      | Some l => (inr (PInstances l), a)
      | None => (client_error "InvalidParameterValueException", a)
      end
  | CreateReplicationInstance id =>
      if dict_has id (instances a) then (client_error "ResourceAlreadyExistsFault", a)
      else (inr (PInstances [instance_of id tt]),
            with_instances a (dict_set id tt (instances a)))
  | WaitReplicationInstanceAvailable id =>
      if dict_has id (instances a) then (inr PEmpty, a) else (waiter_error, a)
  | DeleteReplicationInstance arn =>
      match strip_prefix "arn:aws:dms:rep:" arn with
      | Some id =>
          if dict_has id (instances a)
          then (inr PEmpty, with_instances a (dict_remove id (instances a)))
          else (client_error "ResourceNotFoundFault", a)
      | None => (client_error "ResourceNotFoundFault", a)
      end
  (* DMS endpoints *)
  | DescribeEndpoints f =>
      match select "endpoint-id" "endpoint-arn" "arn:aws:dms:endpoint:"
                   endpoint_of f (endpoints a) with
      | Some l => (inr (PEndpoints l), a)
      | None => (client_error "InvalidParameterValueException", a)
      end
  | CreateEndpoint id _ engine _ s3 =>
      if dict_has id (endpoints a) then (client_error "ResourceAlreadyExistsFault", a)
      else
        let b := mkEndpointBody engine "active" s3 in
        (inr (PEndpoint (endpoint_of id b)),
         with_endpoints a (dict_set id b (endpoints a)))
  | ModifyEndpoint arn s3 =>
      match endpoint_named arn a with
      | Some (id, b) =>
          let b' := mkEndpointBody (eb_engine b) (eb_status b) (Some s3) in
          (inr (PEndpoint (endpoint_of id b')),
           with_endpoints a (dict_set id b' (endpoints a)))
      | None => (client_error "ResourceNotFoundFault", a)
      end
  | DeleteEndpoint arn =>
      match endpoint_named arn a with
      | Some (id, _) => (inr PEmpty, with_endpoints a (dict_remove id (endpoints a)))
      | None => (client_error "ResourceNotFoundFault", a)
      end
  (* DMS replication tasks *)
  | DescribeReplicationTasks f =>
      match select "replication-task-id" "replication-task-arn" "arn:aws:dms:task:"
                   task_of f (tasks a) with
      | Some l => (inr (PTasks l), a)
      | None => (client_error "InvalidParameterValueException", a)
      end
  | CreateReplicationTask id source target instance mappings =>
      if dict_has id (tasks a) then (client_error "ResourceAlreadyExistsFault", a)
      else
        let b := mkTaskBody "ready" None source target instance mappings in
        (inr (PTask (task_of id b)), with_tasks a (dict_set id b (tasks a)))
  | ModifyReplicationTask arn mappings =>
      match task_named arn a with
      | Some (id, b) =>
          if busy b then (client_error "InvalidResourceStateFault", a)
          else
            let b' := mkTaskBody (tb_status b) (tb_stop_reason b) (tb_source b)
                                 (tb_target b) (tb_instance b) mappings in
            (inr (PTask (task_of id b')), with_tasks a (dict_set id b' (tasks a)))
      | None => (client_error "ResourceNotFoundFault", a)
      end
  | DeleteReplicationTask arn =>
      match task_named arn a with
      | Some (id, b) =>
          if busy b then (client_error "InvalidResourceStateFault", a)
          else (inr PEmpty, with_tasks a (dict_remove id (tasks a)))
      | None => (client_error "ResourceNotFoundFault", a)
      end
  | StartReplicationTask arn _ =>
      match task_named arn a with
      | Some (id, b) =>
          (* a full load of the sample table is over at once *)
          let b' := set_status "stopped"
                      (Some "Stop Reason FULL_LOAD_ONLY_FINISHED") b in
          (inr (PTask (task_of id b')), with_tasks a (dict_set id b' (tasks a)))
      | None => (client_error "ResourceNotFoundFault", a)
      end
  | StopReplicationTask arn =>
      match task_named arn a with
      | Some (id, b) =>
          let b' := set_status "stopped" (Some "Stop Reason NORMAL") b in
          (inr (PTask (task_of id b')), with_tasks a (dict_set id b' (tasks a)))
      | None => (client_error "ResourceNotFoundFault", a)
      end
  | WaitReplicationTaskStopped id =>
      match dict_get id (tasks a) with
      | Some b => if tb_status b =? "stopped" then (inr PEmpty, a)
                  else (waiter_error, a)
      | None => (waiter_error, a)
      end
  | WaitReplicationTaskReady id _ _ =>
      match dict_get id (tasks a) with
      | Some b => if tb_status b =? "ready" then (inr PEmpty, a)
                  else (waiter_error, a)
      | None => (waiter_error, a)
      end
  (* DMS connections *)
  | DescribeConnections f =>
      (inr (PConnections (filter (matches f) (connections a))), a)
  | DeleteConnection instance endpoint =>
      let keep c := negb (matches (Some ("endpoint-arn", endpoint)) c) in
      if forallb keep (connections a) then (client_error "ResourceNotFoundFault", a)
      else (inr PEmpty, with_connections a (filter keep (connections a)))
  | TestConnection instance endpoint =>
      let c := mkConnection (Some instance) (Some endpoint) "successful" None None in
      (inr (PConnection (Some c)), with_connections a (c :: connections a))
  end.

(** Hours and minutes of a clock that counts seconds from midnight. *)
Definition two_digits (n : nat) : string :=
  if Nat.ltb n 10 then "0" ++ str_of_nat n else str_of_nat n.

Definition hours_minutes (t : nat) : string :=
  two_digits ((t / 3600) mod 24) ++ "-" ++ two_digits ((t / 60) mod 60).

#[export] Instance cloud : Cloud := {
  RS := Account;
  cloud_step := fun a c => (step a c, 0);
  isoformat := str_of_nat;
  strftime_HM := hours_minutes
}.

(** A fresh process on an account: empty trace, given ledger, environment
    and clock. *)
Definition world (a : Account) (ledger : file_state) (env : list (string * string))
           (clock : nat) (console : list string) : World :=
  mkWorld (a : @RS cloud) ledger env clock console [].

End Ref.

(** ** Scripted accounts for concrete runs *)

Module Script.

(** An account in which a replication task and an endpoint exist and never
    change: the task stays in [status], deletions are accepted but never
    complete. *)
Definition frozen_task (status : string) : Task :=
  mkTask "arn:task" "dev-sqlserver-to-s3-task" status None
         "arn:source" "arn:target" "arn:instance" "{}".

Definition frozen_endpoint : Endpoint :=
  mkEndpoint "arn:target" "mforbush-s3-target" "s3" "active" None.

Definition frozen_step (status : string) (_ : unit) (c : call) : response * unit * nat :=
  match c with
  | DescribeReplicationTasks _ => (inr (PTasks [frozen_task status]), tt, 0)
  | DescribeEndpoints _ => (inr (PEndpoints [frozen_endpoint]), tt, 0)
  | DescribeReplicationInstances _ =>
      (inr (PInstances [mkReplInstance "arn:instance" "dev-dms-instance"]), tt, 0)
  | _ => (inr PEmpty, tt, 0)
  end.

Definition frozen (status : string) : Cloud := {|
  RS := unit;
  cloud_step := frozen_step status;
  isoformat := str_of_nat;
  strftime_HM := Ref.hours_minutes
|}.

(** An account whose connection tests report [status] for ever, for an
    endpoint of the given engine. *)
Definition probe_step (engine status : string) (_ : unit) (c : call)
  : response * unit * nat :=
  match c with
  | DescribeEndpoints _ =>
      (inr (PEndpoints [mkEndpoint "arn:endpoint" "endpoint" engine "active" None]), tt, 0)
  | DescribeConnections _ =>
      (inr (PConnections [mkConnection (Some "arn:instance") (Some "arn:endpoint")
                                       status None None]), tt, 0)
  | TestConnection _ _ =>
      (inr (PConnection (Some (mkConnection (Some "arn:instance") (Some "arn:endpoint")
                                            "testing" (Some "test-1") None))), tt, 0)
  | _ => (inr PEmpty, tt, 0)
  end.

Definition probe (engine status : string) : Cloud := {|
  RS := unit;
  cloud_step := probe_step engine status;
  isoformat := str_of_nat;
  strftime_HM := Ref.hours_minutes
|}.

(** An account whose task is [running] on the first [n] listings, and whose
    listing call is refused from then on. *)
Definition flaky_step (n : nat) (polls : nat) (c : call) : response * nat * nat :=
  match c with
  | DescribeReplicationTasks _ =>
      if Nat.ltb polls n then (inr (PTasks [Script.frozen_task "running"]), S polls, 0)
      else (Ref.client_error "ThrottlingException", S polls, 0)
  | _ => (inr PEmpty, polls, 0)
  end.

Definition flaky (n : nat) : Cloud := {|
  RS := nat;
  cloud_step := flaky_step n;
  isoformat := str_of_nat;
  strftime_HM := Ref.hours_minutes
|}.

(** The same, but the answer to [test_connection] carries neither an [Id]
    nor a [ConnectionArn]. *)
Definition probe_without_id_step (engine status : string) (u : unit) (c : call)
  : response * unit * nat :=
  match c with
  | TestConnection _ _ =>
      (inr (PConnection (Some (mkConnection (Some "arn:instance") (Some "arn:endpoint")
                                            "testing" None None))), tt, 0)
  | _ => probe_step engine status u c
  end.

Definition probe_without_id (engine status : string) : Cloud := {|
  RS := unit;
  cloud_step := probe_without_id_step engine status;
  isoformat := str_of_nat;
  strftime_HM := Ref.hours_minutes
|}.

(** The reference account, but for its connection tests: each is recorded
    as [failed], and the answer to [test_connection] carries neither an
    [Id] nor a [ConnectionArn]. *)
Definition failing_tests_step (a : Ref.Account) (c : call)
  : response * Ref.Account * nat :=
  match c with
  | TestConnection instance endpoint =>
      (inr (PConnection (Some (mkConnection (Some instance) (Some endpoint)
                                            "testing" None None))),
       Ref.with_connections a
         (mkConnection (Some instance) (Some endpoint) "failed" None None
          :: Ref.connections a),
       0)
  | _ => (Ref.step a c, 0)
  end.

Definition failing_tests : Cloud := {|
  RS := Ref.Account;
  cloud_step := failing_tests_step;
  isoformat := str_of_nat;
  strftime_HM := Ref.hours_minutes
|}.

Definition world (C : Cloud) (s : @RS C) (ledger : file_state)
           (env : list (string * string)) (console : list string) : @World C :=
  mkWorld s ledger env 0 console [].

End Script.

(** ** Reading traces *)

Definition calls (tr : list event) : list call :=
  flat_map (fun ev => match ev with EvCall c _ => [c] | _ => [] end) tr.

Definition mutating_calls (tr : list event) : list call :=
  filter mutating (calls tr).

(** [(arn, start type)] of every [start_replication_task] call. *)
Definition start_calls (tr : list event) : list (string * string) :=
  flat_map (fun c => match c with
                     | StartReplicationTask arn ty => [(arn, ty)]
                     | _ => []
                     end) (calls tr).

(** Number of status polls of the connections of an endpoint. *)
Definition is_connection_poll (c : call) : bool :=
  match c with DescribeConnections _ => true | _ => false end.

Definition is_task_poll (c : call) : bool :=
  match c with DescribeReplicationTasks _ => true | _ => false end.

(** The events a run added to the trace. *)
Definition new_events `{Cloud} (w w' : World) : list event :=
  skipn (List.length (trace w)) (trace w').

(** A record of the ledger: [run_data['resources'][kind][key]]. *)
Definition ledger_lookup (f : file_state) (kind key : string) : option json :=
  match f with
  | Parsed (JDict top) =>
      match dict_get "resources" top with
      | Some (JDict resources) =>
          match dict_get kind resources with
          | Some (JDict record) => dict_get key record
          | _ => None
          end
      | _ => None
      end
  | _ => None
  end.

Definition ledger_last_run (f : file_state) : option json :=
  match f with
  | Parsed (JDict top) => dict_get "last_run" top
  | _ => None
  end.

(** * Properties *)

(** ** Dictionaries *)

Lemma dict_get_set_same {V : Type} (k : string) (v : V) d :
  dict_get k (dict_set k v d) = Some v.
Proof.
  induction d as [|[k' v'] d IH]; simpl.
  - now rewrite String.eqb_refl.
  - destruct (k' =? k) eqn:E; simpl.
    + now rewrite String.eqb_refl.
    + now rewrite E.
Qed.

Lemma dict_get_set_other {V : Type} (k k' : string) (v : V) d :
  k <> k' -> dict_get k' (dict_set k v d) = dict_get k' d.
Proof.
  intros Hne. induction d as [|[k0 v0] d IH]; simpl.
  - destruct (k =? k') eqn:E; [apply String.eqb_eq in E; contradiction | reflexivity].
  - destruct (k0 =? k) eqn:E; simpl.
    + apply String.eqb_eq in E; subst k0.
      destruct (k =? k') eqn:E'; [apply String.eqb_eq in E'; contradiction | reflexivity].
    + destruct (k0 =? k'); [reflexivity | exact IH].
Qed.

Lemma dict_has_set_same {V : Type} (k : string) (v : V) d :
  dict_has k (dict_set k v d) = true.
Proof. unfold dict_has. now rewrite dict_get_set_same. Qed.

(** ** Running the monad *)

Section MonadFacts.
Context `{Cloud}.

Lemma bind_Val_inv {A B} (m : M A) (k : A -> M B) w b w' :
  bind m k w = (Val b, w') ->
  exists a w1, m w = (Val a, w1) /\ k a w1 = (Val b, w').
Proof.
  unfold bind. destruct (m w) as [[a | e |] w1]; intros E.
  - now exists a, w1.
  - discriminate.
  - discriminate.
Qed.

Lemma bind_Val {A B} (m : M A) (k : A -> M B) w a w1 :
  m w = (Val a, w1) -> bind m k w = k a w1.
Proof. unfold bind. now intros ->. Qed.

Lemma bind_Exc {A B} (m : M A) (k : A -> M B) w e w1 :
  m w = (Exc e, w1) -> bind m k w = (Exc e, w1).
Proof. unfold bind. now intros ->. Qed.

Lemma bind_Diverged {A B} (m : M A) (k : A -> M B) w w1 :
  m w = (Diverged, w1) -> bind m k w = (Diverged, w1).
Proof. unfold bind. now intros ->. Qed.

Lemma try_except_Val {A} (m : M A) h w a w1 :
  m w = (Val a, w1) -> try_except m h w = (Val a, w1).
Proof. unfold try_except. now intros ->. Qed.

Lemma try_except_Exc {A} (m : M A) h w e w1 :
  m w = (Exc e, w1) -> try_except m h w = h e w1.
Proof. unfold try_except. now intros ->. Qed.

Lemma try_except_Diverged {A} (m : M A) h w w1 :
  m w = (Diverged, w1) -> try_except m h w = (Diverged, w1).
Proof. unfold try_except. now intros ->. Qed.

End MonadFacts.

(** ** The ledger (utils.py) *)

Section LedgerFacts.
Context `{Cloud}.

(** The two errors that the handler of [load_run_data] names.  When
    [run_data.json] is absent or is not valid JSON, [load_run_data] raises
    nothing and returns the default skeleton, whose [last_run] is null and
    whose records [rds], [s3], [iam] and [dms] hold only null values. *)
Lemma load_run_data_default (w : World) :
  ledger_file w = Absent \/ ledger_file w = Corrupt ->
  Utils.load_run_data w = (Val Utils.default_run_data, w)
  /\ ledger_last_run (Parsed Utils.default_run_data) = Some JNull
  /\ forall kind, In kind ["rds"; "s3"; "iam"; "dms"] ->
       exists record,
         (exists top resources,
            Utils.default_run_data = JDict top
            /\ dict_get "resources" top = Some (JDict resources)
            /\ dict_get kind resources = Some (JDict record))
         /\ record <> []
         /\ Forall (fun kv => snd kv = JNull) record.
Proof.
  intros Hf. split; [|split].
  - unfold Utils.load_run_data, bind, read_ledger_file.
    destruct Hf as [-> | ->]; reflexivity.
  - reflexivity.
  - intros kind Hk. simpl in Hk.
    destruct Hk as [<- | [<- | [<- | [<- | []]]]];
      (eexists; split;
       [ do 2 eexists; split; [reflexivity | split; reflexivity]
       | split; [discriminate | repeat constructor] ]).
Qed.

(** C8.  The handler of [load_run_data] catches [FileNotFoundError] and
    [json.JSONDecodeError] and nothing else.  When [run_data.json] cannot
    be parsed for another reason (contents that are not valid UTF-8 make
    [json.load] raise [UnicodeDecodeError]), the error leaves
    [load_run_data] instead of the default skeleton being returned, and
    with it [get_resource_data] and [update_resource_data], whatever their
    arguments; the ledger file is left as it is.  The comment in the
    handler promises the default structure for a file that "is invalid". *)
Theorem load_run_data_raises_on_other_errors (w : World) (e : exn) :
  ledger_file w = Unreadable e ->
  Utils.load_run_data w = (Exc e, w)
  /\ (forall resource_type resource_key,
        Utils.get_resource_data resource_type resource_key w = (Exc e, w))
  /\ (forall resource_type resource_data,
        Utils.update_resource_data resource_type resource_data w = (Exc e, w)).
Proof.
  intros Hf.
  assert (Hl : Utils.load_run_data w = (Exc e, w)).
  { unfold Utils.load_run_data, bind, read_ledger_file. now rewrite Hf. }
  split; [exact Hl|]. split.
  - intros resource_type resource_key. unfold Utils.get_resource_data.
    unfold bind at 1. now rewrite Hl.
  - intros resource_type resource_data. unfold Utils.update_resource_data.
    unfold bind at 1. now rewrite Hl.
Qed.

(** The operations on JSON values do not touch the world. *)
Lemma getitem_pure d k (w w' : World) r :
  Utils.getitem d k w = (r, w') -> w' = w.
Proof.
  unfold Utils.getitem, ret, raise.
  destruct d; try (intros [= _ <-]; reflexivity).
  destruct (dict_get k d); intros [= _ <-]; reflexivity.
Qed.

Lemma setitem_pure d k v (w w' : World) r :
  Utils.setitem d k v w = (r, w') -> w' = w.
Proof.
  unfold Utils.setitem, ret, raise.
  destruct d; intros [= _ <-]; reflexivity.
Qed.

Lemma py_in_pure d k (w w' : World) r :
  Utils.py_in k d w = (r, w') -> w' = w.
Proof.
  unfold Utils.py_in, ret, raise.
  destruct d; intros [= _ <-]; reflexivity.
Qed.

Lemma load_run_data_pure (w w' : World) r :
  Utils.load_run_data w = (r, w') -> w' = w.
Proof.
  unfold Utils.load_run_data, bind, read_ledger_file, ret, raise.
  destruct (ledger_file w); intros [= _ <-]; reflexivity.
Qed.

Lemma setitem_Val d k v (w w' : World) r :
  Utils.setitem d k v w = (Val r, w') ->
  exists l, d = JDict l /\ r = JDict (dict_set k v l) /\ w' = w.
Proof.
  unfold Utils.setitem, ret, raise.
  destruct d; intros [= <- <-]. eauto.
Qed.

(** What a successful [save_run_data] leaves behind. *)
Lemma save_run_data_Val run_data (w w' : World) r :
  Utils.save_run_data run_data w = (Val r, w') ->
  exists l, run_data = JDict l
            /\ r = JDict (dict_set "last_run" (JStr (isoformat (now w))) l)
            /\ ledger_file w' = Parsed r
            /\ remote w' = remote w /\ trace w' = trace w /\ now w' = now w
            /\ environ w' = environ w /\ stdin w' = stdin w.
Proof.
  unfold Utils.save_run_data. intros E.
  apply bind_Val_inv in E as (t & w1 & Et & E).
  unfold time in Et. injection Et as <- <-.
  apply bind_Val_inv in E as (rd & w2 & Es & E).
  apply setitem_Val in Es as (l & -> & -> & ->).
  apply bind_Val_inv in E as ([] & w3 & Ew & E).
  unfold write_ledger_file in Ew. injection Ew as <-.
  unfold ret in E. injection E as <- <-.
  exists l. simpl. repeat split; reflexivity.
Qed.

(** C9.  Every persist of the ledger stamps [last_run] with the clock at
    the time of saving: [save_run_data] does, and so does every successful
    [update_resource_data], whether it was asked to set [last_run] to a value
    of the caller (which is then lost) or to update a resource record. *)
Theorem persist_overwrites_last_run (w : World) :
  (forall run_data r w',
      Utils.save_run_data run_data w = (Val r, w') ->
      ledger_file w' = Parsed r
      /\ ledger_last_run (ledger_file w') = Some (JStr (isoformat (now w))))
  /\ (forall resource_type resource_data r w',
         Utils.update_resource_data resource_type resource_data w = (Val r, w') ->
         ledger_file w' = Parsed r
         /\ ledger_last_run (ledger_file w') = Some (JStr (isoformat (now w)))).
Proof.
  assert (Hsave : forall run_data r w0 w',
             Utils.save_run_data run_data w0 = (Val r, w') ->
             ledger_file w' = Parsed r
             /\ ledger_last_run (ledger_file w') = Some (JStr (isoformat (now w0)))).
  { intros run_data r w0 w' E.
    apply save_run_data_Val in E as (l & -> & -> & Hl & _).
    split; [exact Hl|]. rewrite Hl. simpl. apply dict_get_set_same. }
  split.
  - intros run_data r w' E. now apply Hsave in E.
  - intros resource_type resource_data r w' E.
    unfold Utils.update_resource_data in E.
    apply bind_Val_inv in E as (rd & w1 & El & E).
    apply load_run_data_pure in El as Hw1. subst w1.
    apply bind_Val_inv in E as (rd' & w2 & Em & E).
    assert (w2 = w) as ->.
    { destruct (resource_type =? "last_run").
      - now apply setitem_pure in Em.
      - apply bind_Val_inv in Em as (x1 & v1 & E1 & Em).
        apply getitem_pure in E1 as ->.
        apply bind_Val_inv in Em as (x2 & v2 & E2 & Em).
        apply py_in_pure in E2 as ->.
        apply bind_Val_inv in Em as (x3 & v3 & E3 & Em).
        assert (v3 = w) as ->.
        { destruct x2; [unfold ret in E3; now injection E3 | now apply setitem_pure in E3]. }
        apply bind_Val_inv in Em as (x4 & v4 & E4 & Em).
        apply getitem_pure in E4 as ->.
        destruct x4; try (unfold raise in Em; discriminate).
        destruct resource_data; try (unfold raise in Em; discriminate).
        apply bind_Val_inv in Em as (x5 & v5 & E5 & Em).
        apply setitem_pure in E5 as ->.
        now apply setitem_pure in Em. }
    apply bind_Val_inv in E as (rd'' & w3 & Es & E).
    unfold ret in E. injection E as <- <-.
    now apply Hsave in Es.
Qed.

End LedgerFacts.

(** ** Traces *)

Lemma calls_app (a b : list event) : calls (a ++ b) = (calls a ++ calls b)%list.
Proof. unfold calls. apply flat_map_app. Qed.

Lemma start_calls_app (a b : list event) :
  start_calls (a ++ b) = (start_calls a ++ start_calls b)%list.
Proof. unfold start_calls. rewrite calls_app. apply flat_map_app. Qed.

Lemma mutating_calls_app (a b : list event) :
  mutating_calls (a ++ b) = (mutating_calls a ++ mutating_calls b)%list.
Proof. unfold mutating_calls. rewrite calls_app. apply filter_app. Qed.

Definition task_polls (tr : list event) : nat :=
  List.length (filter is_task_poll (calls tr)).

Definition connection_polls (tr : list event) : nat :=
  List.length (filter is_connection_poll (calls tr)).

Lemma task_polls_app (a b : list event) :
  task_polls (a ++ b) = task_polls a + task_polls b.
Proof.
  unfold task_polls. rewrite calls_app, filter_app. apply length_app.
Qed.

Lemma connection_polls_app (a b : list event) :
  connection_polls (a ++ b) = connection_polls a + connection_polls b.
Proof.
  unfold connection_polls. rewrite calls_app, filter_app. apply length_app.
Qed.

(** ** Starting and monitoring the replication task *)

Section TaskFacts.
Context `{Cloud}.

Definition task_poll (arn : string) : call :=
  DescribeReplicationTasks (Some ("replication-task-arn", arn)).

(** The monitoring loop only polls: it issues no start call. *)
Lemma monitor_task_no_start fuel arn (w : World) :
  start_calls (trace (snd (DMS.monitor_task fuel arn w))) = start_calls (trace w).
Proof.
  revert w. induction fuel as [|n IH]; intros w; [reflexivity|].
  simpl. unfold bind at 1. unfold aws.
  destruct (cloud_step (remote w) _) as [[r s'] dt].
  destruct r as [e | p]; simpl.
  - rewrite start_calls_app. simpl. apply app_nil_r.
  - unfold bind at 1.
    destruct p; simpl; try (rewrite start_calls_app; simpl; apply app_nil_r).
    destruct l as [|t rest]; simpl.
    + rewrite start_calls_app. simpl. apply app_nil_r.
    + destruct (lower (t_status t) =? "stopped"); simpl.
      * rewrite start_calls_app. simpl. apply app_nil_r.
      * destruct (lower (t_status t) =? "failed"); simpl.
        -- rewrite start_calls_app. simpl. apply app_nil_r.
        -- unfold bind, sleep. simpl. rewrite IH. simpl.
           rewrite !start_calls_app. simpl. now rewrite !app_nil_r.
Qed.

Lemma try_except_ret_snd {A} (m : M A) (a : A) (w : World) :
  snd (try_except m (fun _ => ret a) w) = snd (m w).
Proof.
  unfold try_except. destruct (m w) as [[x | e |] w1]; reflexivity.
Qed.

(** C1.  The start type sent by [start_replication_task] is a function of the
    task status first observed: [ready] gives start-replication, [stopped]
    gives reload-target when the stop reason contains FULL_LOAD_ONLY_FINISHED
    and resume-processing otherwise, any other status but [running] gives
    start-replication (statuses compared in lower case); exactly one start
    call is issued with that type, and none at all when the task is
    [running]. *)
Theorem start_type_by_status (fuel : nat) (arn : string) (w : World)
        (t : Task) (rest : list Task) (s' : RS) (dt : nat) :
  truthy (Some arn) = true ->
  cloud_step (remote w) (task_poll arn) = (inr (PTasks (t :: rest)), s', dt) ->
  let w' := snd (DMS.start_replication_task fuel (Some arn) w) in
  let sent := (fun ty => start_calls (trace w')
                         = (start_calls (trace w) ++ [(arn, ty)])%list) in
  (lower (t_status t) = "ready" -> sent "start-replication")
  /\ (lower (t_status t) = "stopped" ->
      contains "FULL_LOAD_ONLY_FINISHED" (DMS.stop_reason_of t) = true ->
      sent "reload-target")
  /\ (lower (t_status t) = "stopped" ->
      contains "FULL_LOAD_ONLY_FINISHED" (DMS.stop_reason_of t) = false ->
      sent "resume-processing")
  /\ (lower (t_status t) = "running" ->
      start_calls (trace w') = start_calls (trace w))
  /\ (lower (t_status t) <> "ready" -> lower (t_status t) <> "stopped" ->
      lower (t_status t) <> "running" -> sent "start-replication").
Proof.
  intros Harn Hstep w' sent.
  assert (Hrun : forall ty,
             (lower (t_status t) =? "running") = false ->
             DMS.select_start_type t = Some ty -> sent ty).
  { intros ty Hnr Hsel. subst sent w'. cbv beta.
    unfold DMS.start_replication_task. rewrite Harn. cbn [negb].
    rewrite try_except_ret_snd. cbn [fstr].
    unfold bind at 1. unfold aws at 1. fold (task_poll arn). rewrite Hstep.
    cbn [DMS.tasks_of]. unfold bind at 1. unfold ret at 1.
    rewrite Hnr, Hsel. cbn [negb].
    unfold bind at 1. unfold bind at 1. unfold aws at 1. cbn [remote].
    destruct (cloud_step s' (StartReplicationTask arn ty)) as [[r s2] dt2].
    destruct r as [e | p]; cbn [snd fst trace ret].
    - rewrite !start_calls_app. cbn. now rewrite app_nil_r.
    - rewrite monitor_task_no_start. cbn [trace].
      rewrite !start_calls_app. cbn. now rewrite app_nil_r. }
  unfold DMS.select_start_type in Hrun.
  repeat split.
  - intros E. apply Hrun; rewrite E; reflexivity.
  - intros E Hc. apply Hrun; rewrite E; [reflexivity|]. cbn. now rewrite Hc.
  - intros E Hc. apply Hrun; rewrite E; [reflexivity|]. cbn. now rewrite Hc.
  - intros E. subst w'.
    unfold DMS.start_replication_task. rewrite Harn. cbn [negb].
    rewrite try_except_ret_snd. cbn [fstr].
    unfold bind at 1. unfold aws at 1. fold (task_poll arn). rewrite Hstep.
    cbn [DMS.tasks_of]. unfold bind at 1. unfold ret at 1.
    rewrite E. cbn [String.eqb Ascii.eqb Bool.eqb negb].
    unfold bind at 1. unfold ret at 1.
    rewrite monitor_task_no_start. cbn [trace].
    rewrite start_calls_app. cbn. now rewrite app_nil_r.
  - intros N1 N2 N3.
    apply String.eqb_neq in N1, N2, N3.
    apply Hrun; [exact N3|]. now rewrite N1, N2, N3.
Qed.

(** The monitoring loop has no attempt bound.  As long as every poll
    reports the task in a status other than [stopped] and [failed], the loop
    is still polling after any number [fuel] of polls; and when it does
    return a value, the poll just made reported an empty listing or a task
    [stopped] or [failed]. *)
Lemma monitor_task_no_bound (arn : string) :
  (forall (Inv : RS -> Prop),
      (forall s, Inv s ->
                 exists t rest s' dt,
                   cloud_step s (task_poll arn) = (inr (PTasks (t :: rest)), s', dt)
                   /\ Inv s'
                   /\ (lower (t_status t) =? "stopped") = false
                   /\ (lower (t_status t) =? "failed") = false) ->
      forall fuel (w : World),
        Inv (remote w) ->
        exists w', DMS.monitor_task fuel arn w = (Diverged, w')
                   /\ task_polls (trace w') = task_polls (trace w) + fuel
                   /\ Inv (remote w'))
  /\ (forall fuel (w w' : World) (b : bool),
         DMS.monitor_task fuel arn w = (Val b, w') ->
         exists tr l,
           trace w' = (tr ++ [EvCall (task_poll arn) (inr (PTasks l))])%list
           /\ match l with
              | [] => b = false
              | t :: _ =>
                  (lower (t_status t) = "stopped"
                   /\ b = contains "FULL_LOAD_ONLY_FINISHED" (DMS.stop_reason_of t))
                  \/ (lower (t_status t) = "failed" /\ b = false)
              end).
Proof.
  split.
  - intros Inv Hinv fuel. induction fuel as [|n IH]; intros w Hw.
    + exists w. cbn. unfold diverge. repeat split; [lia | exact Hw].
    + destruct (Hinv _ Hw) as (t & rest & s' & dt & Hstep & Hs' & Hns & Hnf).
      cbn [DMS.monitor_task]. unfold bind at 1. unfold aws at 1.
      fold (task_poll arn). rewrite Hstep. cbn [DMS.tasks_of].
      unfold bind at 1. unfold ret at 1. rewrite Hns, Hnf.
      unfold bind at 1. unfold sleep at 1.
      match goal with |- context[DMS.monitor_task n arn ?w1] =>
        destruct (IH w1 Hs') as (w' & E & Hp & Hi) end.
      exists w'. split; [exact E|]. split; [|exact Hi].
      rewrite Hp. cbn [trace]. rewrite !task_polls_app. cbn. lia.
  - intros fuel. induction fuel as [|n IH]; intros w w' b E.
    + cbn in E. discriminate.
    + cbn [DMS.monitor_task] in E. unfold bind at 1 in E. unfold aws at 1 in E.
      fold (task_poll arn) in E.
      destruct (cloud_step (remote w) (task_poll arn)) as [[r s1] dt1].
      destruct r as [e | p]; [discriminate|].
      unfold bind at 1 in E.
      destruct p; cbn in E; try discriminate.
      destruct l as [|t rest].
      * unfold ret in E. injection E as <- <-. cbn.
        exists (trace w), []. split; reflexivity.
      * destruct (lower (t_status t) =? "stopped") eqn:Es.
        -- unfold ret in E. injection E as <- <-. cbn.
           exists (trace w), (t :: rest). split; [reflexivity|].
           left. split; [now apply String.eqb_eq | reflexivity].
        -- destruct (lower (t_status t) =? "failed") eqn:Ef.
           ++ unfold ret in E. injection E as <- <-. cbn.
              exists (trace w), (t :: rest). split; [reflexivity|].
              right. split; [now apply String.eqb_eq | reflexivity].
           ++ unfold bind at 1 in E. unfold sleep at 1 in E.
              apply IH in E. exact E.
Qed.

End TaskFacts.

(** ** What a program leaves unchanged, and whether it returns

    [keeps R m]: every run of [m] takes a world to an [R]-related world;
    used with preorders [R] such as "same environment", "same ledger file",
    "no new mutating call".  [terminates m]: no run of [m] is cut by the
    fuel.  [total m]: every run of [m] returns a value. *)

Section Frames.
Context `{Cloud}.

Definition keeps {A} (R : World -> World -> Prop) (m : M A) : Prop :=
  forall w, R w (snd (m w)).

Definition terminates {A} (m : M A) : Prop :=
  forall w, fst (m w) <> Diverged.

Definition total {A} (m : M A) : Prop :=
  forall w, exists a, fst (m w) = Val a.

Record preorder (R : World -> World -> Prop) : Prop := {
  pre_refl : forall w, R w w;
  pre_trans : forall a b c, R a b -> R b c -> R a c
}.

Section Closure.
Variable R : World -> World -> Prop.
Hypothesis R_pre : preorder R.

Let R_refl : forall w, R w w := pre_refl R_pre.
Let R_trans : forall a b c, R a b -> R b c -> R a c := pre_trans R_pre.

Lemma keeps_ret {A} (a : A) : keeps R (ret a).
Proof. intros w. apply R_refl. Qed.

Lemma keeps_raise {A} (e : exn) : keeps R (@raise _ A e).
Proof. intros w. apply R_refl. Qed.

Lemma keeps_diverge {A} : keeps R (@diverge _ A).
Proof. intros w. apply R_refl. Qed.

Lemma keeps_bind {A B} (m : M A) (k : A -> M B) :
  keeps R m -> (forall a, keeps R (k a)) -> keeps R (bind m k).
Proof.
  intros Hm Hk w. unfold bind. specialize (Hm w).
  destruct (m w) as [[a | e |] w1]; cbn in *; [|exact Hm|exact Hm].
  eapply R_trans; [exact Hm | apply Hk].
Qed.

Lemma keeps_try_except {A} (m : M A) (h : exn -> M A) :
  keeps R m -> (forall e, keeps R (h e)) -> keeps R (try_except m h).
Proof.
  intros Hm Hh w. unfold try_except. specialize (Hm w).
  destruct (m w) as [[a | e |] w1]; cbn in *; [exact Hm| |exact Hm].
  eapply R_trans; [exact Hm | apply Hh].
Qed.

Lemma keeps_try_except_if {A} (m : M A) C (h : exn -> M A) :
  keeps R m -> (forall e, keeps R (h e)) -> keeps R (try_except_if m C h).
Proof.
  intros Hm Hh. apply keeps_try_except; [exact Hm|].
  intros e. destruct (C e); [apply Hh | apply keeps_raise].
Qed.

Lemma keeps_for_each {A} (l : list A) (body : A -> M unit) :
  (forall x, keeps R (body x)) -> keeps R (for_each l body).
Proof.
  intros Hb. induction l as [|x l IH]; cbn [for_each].
  - apply keeps_ret.
  - apply keeps_bind; [apply Hb | intros _; exact IH].
Qed.

Lemma keeps_time : keeps R time.
Proof. intros w. apply R_refl. Qed.

Lemma keeps_getenv k : keeps R (getenv k).
Proof. intros w. apply R_refl. Qed.

Lemma keeps_getenv_or k d : keeps R (getenv_or k d).
Proof. intros w. apply R_refl. Qed.

Lemma keeps_get_world : keeps R get_world.
Proof. intros w. apply R_refl. Qed.

Lemma keeps_read_ledger_file : keeps R read_ledger_file.
Proof. intros w. apply R_refl. Qed.

End Closure.

Lemma terminates_ret {A} (a : A) : terminates (ret a).
Proof. intros w. discriminate. Qed.

Lemma terminates_raise {A} (e : exn) : terminates (@raise _ A e).
Proof. intros w. discriminate. Qed.

Lemma terminates_bind {A B} (m : M A) (k : A -> M B) :
  terminates m -> (forall a, terminates (k a)) -> terminates (bind m k).
Proof.
  intros Hm Hk w. unfold bind. specialize (Hm w).
  destruct (m w) as [[a | e |] w1]; cbn in *;
    [apply Hk | discriminate | contradiction].
Qed.

Lemma terminates_try_except {A} (m : M A) (h : exn -> M A) :
  terminates m -> (forall e, terminates (h e)) -> terminates (try_except m h).
Proof.
  intros Hm Hh w. unfold try_except. specialize (Hm w).
  destruct (m w) as [[a | e |] w1]; cbn in *;
    [discriminate | apply Hh | contradiction].
Qed.

Lemma terminates_try_except_if {A} (m : M A) C (h : exn -> M A) :
  terminates m -> (forall e, terminates (h e)) -> terminates (try_except_if m C h).
Proof.
  intros Hm Hh. apply terminates_try_except; [exact Hm|].
  intros e. destruct (C e); [apply Hh | apply terminates_raise].
Qed.

Lemma terminates_for_each {A} (l : list A) (body : A -> M unit) :
  (forall x, terminates (body x)) -> terminates (for_each l body).
Proof.
  intros Hb. induction l as [|x l IH]; cbn [for_each].
  - apply terminates_ret.
  - apply terminates_bind; [apply Hb | intros _; exact IH].
Qed.

Lemma terminates_aws c : terminates (aws c).
Proof.
  intros w. unfold aws.
  destruct (cloud_step (remote w) c) as [[[e | p] s] dt]; discriminate.
Qed.

Lemma terminates_sleep n : terminates (sleep n).
Proof. intros w. discriminate. Qed.

Lemma terminates_print l : terminates (print l).
Proof. intros w. discriminate. Qed.

Lemma terminates_time : terminates time.
Proof. intros w. discriminate. Qed.

Lemma terminates_getenv k : terminates (getenv k).
Proof. intros w. discriminate. Qed.

Lemma terminates_getenv_or k d : terminates (getenv_or k d).
Proof. intros w. discriminate. Qed.

Lemma terminates_input : terminates input.
Proof. intros w. unfold input. destruct (stdin w); discriminate. Qed.

Lemma total_ret {A} (a : A) : total (ret a).
Proof. intros w. now exists a. Qed.

Lemma total_bind {A B} (m : M A) (k : A -> M B) :
  total m -> (forall a, total (k a)) -> total (bind m k).
Proof.
  intros Hm Hk w. unfold bind. destruct (Hm w) as [a Ha].
  destruct (m w) as [[a' | e |] w1]; cbn in *; try discriminate.
  apply Hk.
Qed.

(** A [try] whose handler returns is total as soon as its body comes to an
    end. *)
Lemma total_try_except {A} (m : M A) (h : exn -> M A) :
  terminates m -> (forall e, total (h e)) -> total (try_except m h).
Proof.
  intros Hm Hh w. unfold try_except. specialize (Hm w).
  destruct (m w) as [[a | e |] w1]; cbn in *.
  - now exists a.
  - apply Hh.
  - contradiction.
Qed.

Lemma total_terminates {A} (m : M A) : total m -> terminates m.
Proof. intros Hm w. destruct (Hm w) as [a ->]. discriminate. Qed.

Lemma total_for_each {A} (l : list A) (body : A -> M unit) :
  (forall x, total (body x)) -> total (for_each l body).
Proof.
  intros Hb. induction l as [|x l IH]; cbn [for_each].
  - apply total_ret.
  - apply total_bind; [apply Hb | intros _; exact IH].
Qed.

Lemma total_sleep n : total (sleep n).
Proof. intros w. now exists tt. Qed.

Lemma total_print l : total (print l).
Proof. intros w. now exists tt. Qed.

Lemma total_getenv k : total (getenv k).
Proof. intros w. eexists. reflexivity. Qed.

Lemma total_getenv_or k d : total (getenv_or k d).
Proof. intros w. eexists. reflexivity. Qed.

Lemma total_time : total time.
Proof. intros w. eexists. reflexivity. Qed.

(** The preorders used below. *)

Definition same_env (w w' : World) : Prop := environ w' = environ w.

Definition same_ledger (w w' : World) : Prop := ledger_file w' = ledger_file w.

Definition no_new_mutation (w w' : World) : Prop :=
  mutating_calls (trace w') = mutating_calls (trace w).

Definition later (w w' : World) : Prop := now w <= now w'.

Lemma same_env_pre : preorder same_env.
Proof. split; unfold same_env; [reflexivity | intros a b c E1 E2; congruence]. Qed.

Lemma same_ledger_pre : preorder same_ledger.
Proof. split; unfold same_ledger; [reflexivity | intros a b c E1 E2; congruence]. Qed.

Lemma no_new_mutation_pre : preorder no_new_mutation.
Proof.
  split; unfold no_new_mutation; [reflexivity | intros a b c E1 E2; congruence].
Qed.

Lemma later_pre : preorder later.
Proof. split; unfold later; [reflexivity | intros a b c E1 E2; lia]. Qed.

Lemma same_env_aws c : keeps same_env (aws c).
Proof.
  intros w. unfold aws, same_env.
  destruct (cloud_step (remote w) c) as [[[e | p] s] dt]; reflexivity.
Qed.

Lemma same_env_sleep n : keeps same_env (sleep n).
Proof. intros w. reflexivity. Qed.

Lemma same_env_print l : keeps same_env (print l).
Proof. intros w. reflexivity. Qed.

Lemma same_ledger_aws c : keeps same_ledger (aws c).
Proof.
  intros w. unfold aws, same_ledger.
  destruct (cloud_step (remote w) c) as [[[e | p] s] dt]; reflexivity.
Qed.

Lemma same_ledger_sleep n : keeps same_ledger (sleep n).
Proof. intros w. reflexivity. Qed.

Lemma same_ledger_print l : keeps same_ledger (print l).
Proof. intros w. reflexivity. Qed.

Lemma no_new_mutation_aws c : mutating c = false -> keeps no_new_mutation (aws c).
Proof.
  intros Hc w. unfold aws, no_new_mutation.
  destruct (cloud_step (remote w) c) as [[[e | p] s] dt]; cbn [snd trace];
    rewrite mutating_calls_app; unfold mutating_calls at 2; cbn;
    rewrite Hc; apply app_nil_r.
Qed.

Lemma no_new_mutation_sleep n : keeps no_new_mutation (sleep n).
Proof.
  intros w. unfold no_new_mutation, sleep. cbn [snd trace].
  rewrite mutating_calls_app. apply app_nil_r.
Qed.

Lemma no_new_mutation_print l : keeps no_new_mutation (print l).
Proof.
  intros w. unfold no_new_mutation, print, record. cbn [snd trace].
  rewrite mutating_calls_app. apply app_nil_r.
Qed.

Lemma later_aws c : keeps later (aws c).
Proof.
  intros w. unfold aws, later.
  destruct (cloud_step (remote w) c) as [[[e | p] s] dt]; cbn; lia.
Qed.

Lemma later_sleep n : keeps later (sleep n).
Proof. intros w. unfold later. cbn. lia. Qed.

Lemma later_print l : keeps later (print l).
Proof. intros w. unfold later. cbn. lia. Qed.

End Frames.

Create HintDb frames.

#[export] Hint Resolve same_env_pre same_ledger_pre no_new_mutation_pre later_pre
  : frames.

#[export] Hint Resolve keeps_ret keeps_raise keeps_diverge keeps_time
  keeps_getenv keeps_getenv_or keeps_get_world keeps_read_ledger_file
  same_env_aws same_env_sleep same_env_print
  same_ledger_aws same_ledger_sleep same_ledger_print
  no_new_mutation_sleep no_new_mutation_print
  later_aws later_sleep later_print
  terminates_ret terminates_raise terminates_aws terminates_sleep
  terminates_print terminates_time terminates_getenv terminates_getenv_or
  terminates_input
  total_ret total_sleep total_print total_getenv total_getenv_or total_time
  : frames.

(** Walks a program along its binds, handlers, loops and case splits. *)
Ltac frame_step :=
  first
    [ solve [eauto with frames]
    | apply keeps_bind; [solve [auto with frames] | | intros ?]
    | apply keeps_try_except_if; [solve [auto with frames] | | intros ?]
    | apply keeps_try_except; [solve [auto with frames] | | intros ?]
    | apply keeps_for_each; [solve [auto with frames] | intros ?]
    | apply terminates_bind; [| intros ?]
    | apply terminates_try_except_if; [| intros ?]
    | apply terminates_try_except; [| intros ?]
    | apply terminates_for_each; intros ?
    | apply total_bind; [| intros ?]
    | apply total_try_except; [| intros ?]
    | apply total_for_each; intros ?
    | match goal with
      | |- keeps _ (match ?x with _ => _ end) => destruct x
      | |- terminates (match ?x with _ => _ end) => destruct x
      | |- total (match ?x with _ => _ end) => destruct x
      | |- keeps _ (let _ := _ in _) => cbv zeta
      | |- terminates (let _ := _ in _) => cbv zeta
      | |- total (let _ := _ in _) => cbv zeta
      end ].

Ltac frames := repeat frame_step.

(** ** The connection prober *)

Section ProbeFacts.
Context `{Cloud}.

Definition same_polls (w w' : World) : Prop :=
  connection_polls (trace w') = connection_polls (trace w).

Lemma same_polls_pre : preorder same_polls.
Proof. split; unfold same_polls; [reflexivity | intros a b c E1 E2; congruence]. Qed.

Lemma same_polls_aws c : is_connection_poll c = false -> keeps same_polls (aws c).
Proof.
  intros Hc w. unfold aws, same_polls.
  destruct (cloud_step (remote w) c) as [[[e | p] s] dt]; cbn [snd trace];
    rewrite connection_polls_app; unfold connection_polls at 2; cbn;
    rewrite Hc; cbn; lia.
Qed.

Lemma same_polls_sleep n : keeps same_polls (sleep n).
Proof.
  intros w. unfold same_polls, sleep. cbn [snd trace].
  rewrite connection_polls_app. cbn. lia.
Qed.

Lemma same_polls_print l : keeps same_polls (print l).
Proof.
  intros w. unfold same_polls, print, record. cbn [snd trace].
  rewrite connection_polls_app. cbn. lia.
Qed.

(** [m] adds at most [k] polls of the connection status. *)
Definition polls_le {A} (m : M A) (k : nat) : Prop :=
  forall w, connection_polls (trace (snd (m w))) <= connection_polls (trace w) + k.

Lemma polls_le_keeps {A} (m : M A) : keeps same_polls m -> polls_le m 0.
Proof. intros Hm w. rewrite (Hm w). lia. Qed.

Lemma polls_le_weaken {A} (m : M A) k k' : polls_le m k -> k <= k' -> polls_le m k'.
Proof. intros Hm Hk w. specialize (Hm w). lia. Qed.

Lemma polls_le_bind {A B} (m : M A) (f : A -> M B) k1 k2 :
  polls_le m k1 -> (forall a, polls_le (f a) k2) -> polls_le (bind m f) (k1 + k2).
Proof.
  intros Hm Hf w. unfold bind. specialize (Hm w).
  destruct (m w) as [[a | e |] w1]; cbn [snd] in *; try lia.
  specialize (Hf a w1). lia.
Qed.

Lemma polls_le_try_except {A} (m : M A) (h : exn -> M A) k1 k2 :
  polls_le m k1 -> (forall e, polls_le (h e) k2) -> polls_le (try_except m h) (k1 + k2).
Proof.
  intros Hm Hh w. unfold try_except. specialize (Hm w).
  destruct (m w) as [[a | e |] w1]; cbn [snd] in *; try lia.
  specialize (Hh e w1). lia.
Qed.

Lemma polls_le_aws c : polls_le (aws c) 1.
Proof.
  intros w. unfold aws.
  destruct (cloud_step (remote w) c) as [[[e | p] s] dt]; cbn [snd trace];
    rewrite connection_polls_app; unfold connection_polls at 2; cbn;
    destruct (is_connection_poll c); cbn; lia.
Qed.

End ProbeFacts.

#[export] Hint Resolve same_polls_pre same_polls_sleep same_polls_print : frames.
#[export] Hint Extern 1 (keeps same_polls (aws _)) =>
  (apply same_polls_aws; reflexivity) : frames.
#[export] Hint Extern 1 (keeps no_new_mutation (aws _)) =>
  (apply no_new_mutation_aws; reflexivity) : frames.

Section ProbeBounds.
Context `{Cloud}.

Lemma accept_flag_total : total DMS.accept_s3_connection_failures.
Proof. unfold DMS.accept_s3_connection_failures. frames. Qed.

Lemma skip_flag_total : total DMS.skip_s3_connection_test.
Proof. unfold DMS.skip_s3_connection_test. frames. Qed.

Lemma accept_flag_keeps R : preorder R -> keeps R DMS.accept_s3_connection_failures.
Proof. intros HR. unfold DMS.accept_s3_connection_failures. frames. Qed.

Lemma skip_flag_keeps R : preorder R -> keeps R DMS.skip_s3_connection_test.
Proof. intros HR. unfold DMS.skip_s3_connection_test. frames. Qed.

Lemma tasks_of_keeps R p : preorder R -> keeps R (DMS.tasks_of p).
Proof. intros HR. unfold DMS.tasks_of. frames. Qed.

Lemma endpoints_of_keeps R p : preorder R -> keeps R (DMS.endpoints_of p).
Proof. intros HR. unfold DMS.endpoints_of. frames. Qed.

Lemma instances_of_keeps R p : preorder R -> keeps R (DMS.instances_of p).
Proof. intros HR. unfold DMS.instances_of. frames. Qed.

Lemma connections_of_keeps R p : preorder R -> keeps R (DMS.connections_of p).
Proof. intros HR. unfold DMS.connections_of. frames. Qed.

Lemma tasks_of_terminates p : terminates (DMS.tasks_of p).
Proof. unfold DMS.tasks_of. frames. Qed.

Lemma endpoints_of_terminates p : terminates (DMS.endpoints_of p).
Proof. unfold DMS.endpoints_of. frames. Qed.

Lemma instances_of_terminates p : terminates (DMS.instances_of p).
Proof. unfold DMS.instances_of. frames. Qed.

Lemma connections_of_terminates p : terminates (DMS.connections_of p).
Proof. unfold DMS.connections_of. frames. Qed.

End ProbeBounds.

#[export] Hint Resolve accept_flag_total skip_flag_total accept_flag_keeps
  skip_flag_keeps tasks_of_keeps endpoints_of_keeps instances_of_keeps
  connections_of_keeps tasks_of_terminates endpoints_of_terminates
  instances_of_terminates connections_of_terminates total_terminates : frames.

Section ProbeTheorems.
Context `{Cloud}.

(** A relation that no remote call, sleep or console line can break. *)
Definition effect_blind (R : World -> World -> Prop) : Prop :=
  preorder R /\ (forall c, keeps R (aws c)) /\ (forall n, keeps R (sleep n))
  /\ (forall l, keeps R (print l)).

Lemma same_env_blind : effect_blind same_env.
Proof. repeat split; auto with frames; apply same_env_pre. Qed.

Lemma same_ledger_blind : effect_blind same_ledger.
Proof. repeat split; auto with frames; apply same_ledger_pre. Qed.

Lemma later_blind : effect_blind later.
Proof. repeat split; auto with frames; apply later_pre. Qed.

Ltac blind H := destruct H as (? & ? & ? & ?).

Lemma detect_s3_endpoint_total ep : total (DMS.detect_s3_endpoint ep).
Proof. unfold DMS.detect_s3_endpoint. frames. Qed.

Lemma detect_s3_endpoint_keeps R ep :
  effect_blind R -> keeps R (DMS.detect_s3_endpoint ep).
Proof. intros HR. blind HR. unfold DMS.detect_s3_endpoint. frames. Qed.

Lemma delete_existing_connections_total ri ep :
  total (DMS.delete_existing_connections ri ep).
Proof. unfold DMS.delete_existing_connections. frames. Qed.

Lemma delete_existing_connections_keeps R ri ep :
  effect_blind R -> keeps R (DMS.delete_existing_connections ri ep).
Proof. intros HR. blind HR. unfold DMS.delete_existing_connections. frames. Qed.

Lemma delete_existing_connections_polls ri ep :
  polls_le (DMS.delete_existing_connections ri ep) 1.
Proof.
  unfold DMS.delete_existing_connections.
  apply (@polls_le_bind _ _ _ _ _ 1 0).
  - apply (@polls_le_try_except _ _ _ _ 1 0).
    + apply (@polls_le_bind _ _ _ _ _ 1 0); [apply polls_le_aws|].
      intros p. apply polls_le_keeps. frames.
    + intros e. apply polls_le_keeps. frames.
  - intros _. apply polls_le_keeps. frames.
Qed.

Lemma start_connection_test_total ri ep : total (DMS.start_connection_test ri ep).
Proof. unfold DMS.start_connection_test. frames. Qed.

Lemma start_connection_test_keeps R ri ep :
  effect_blind R -> keeps R (DMS.start_connection_test ri ep).
Proof. intros HR. blind HR. unfold DMS.start_connection_test. frames. Qed.

Lemma start_connection_test_polls ri ep :
  keeps same_polls (DMS.start_connection_test ri ep).
Proof. unfold DMS.start_connection_test. frames. Qed.

Lemma poll_connection_terminates n is_s3 retry max_retries ep status :
  terminates (DMS.poll_connection n is_s3 retry max_retries ep status).
Proof.
  revert status. induction n as [|n IH]; intros status; cbn [DMS.poll_connection].
  - frames.
  - apply terminates_bind; [frames|].
    intros [out | status']; [frames|]. apply terminates_bind; [frames|].
    intros _. apply IH.
Qed.

Lemma poll_connection_keeps R n is_s3 retry max_retries ep status :
  effect_blind R -> keeps R (DMS.poll_connection n is_s3 retry max_retries ep status).
Proof.
  intros HR. blind HR.
  revert status. induction n as [|n IH]; intros status; cbn [DMS.poll_connection].
  - frames.
  - apply keeps_bind; [assumption | frames |].
    intros [out | status']; [frames|]. apply keeps_bind; [assumption | frames |].
    intros _. apply IH.
Qed.

(** One round of polling makes at most as many polls as it has attempts. *)
Lemma poll_connection_polls n is_s3 retry max_retries ep status :
  polls_le (DMS.poll_connection n is_s3 retry max_retries ep status) n.
Proof.
  revert status. induction n as [|n IH]; intros status; cbn [DMS.poll_connection].
  - apply polls_le_keeps. frames.
  - apply (@polls_le_bind _ _ _ _ _ 1 n).
    + apply (@polls_le_try_except _ _ _ _ 1 0).
      * apply (@polls_le_bind _ _ _ _ _ 1 0); [apply polls_le_aws|].
        intros p. apply polls_le_keeps. frames.
      * intros e. apply polls_le_keeps. frames.
    + intros [out | status'].
      * apply polls_le_weaken with 0; [|lia]. apply polls_le_keeps. frames.
      * apply (@polls_le_bind _ _ _ _ _ 0 n); [apply polls_le_keeps; frames|].
        intros _. apply IH.
Qed.

Lemma connection_attempt_total ri ep is_s3 max_retries retry status :
  total (DMS.connection_attempt ri ep is_s3 max_retries retry status).
Proof.
  unfold DMS.connection_attempt.
  apply total_try_except; [|intros e; frames].
  pose proof delete_existing_connections_total.
  pose proof start_connection_test_total.
  pose proof poll_connection_terminates.
  frames.
Qed.

Lemma connection_attempt_keeps R ri ep is_s3 max_retries retry status :
  effect_blind R ->
  keeps R (DMS.connection_attempt ri ep is_s3 max_retries retry status).
Proof.
  intros HR.
  pose proof (delete_existing_connections_keeps ri ep HR).
  pose proof (start_connection_test_keeps ri ep HR).
  pose proof (fun n a b c d e => @poll_connection_keeps R n a b c d e HR).
  blind HR. unfold DMS.connection_attempt. frames.
Qed.

Lemma connection_attempt_polls ri ep is_s3 max_retries retry status :
  polls_le (DMS.connection_attempt ri ep is_s3 max_retries retry status)
           (1 + DMS.max_poll_attempts).
Proof.
  unfold DMS.connection_attempt.
  apply polls_le_weaken with (1 + DMS.max_poll_attempts + 0); [|lia].
  apply polls_le_try_except; [|intros e; apply polls_le_keeps; frames].
  apply polls_le_bind; [apply delete_existing_connections_polls|].
  intros _.
  apply polls_le_weaken with (0 + DMS.max_poll_attempts); [|lia].
  apply polls_le_bind; [apply polls_le_keeps; frames|].
  intros [|].
  - apply polls_le_weaken with 0; [|lia]. apply polls_le_keeps. frames.
  - apply polls_le_weaken with (0 + DMS.max_poll_attempts); [|lia].
    apply polls_le_bind;
      [apply polls_le_keeps; apply start_connection_test_polls|].
    intros test_id.
    apply polls_le_weaken with (0 + DMS.max_poll_attempts); [|lia].
    apply polls_le_bind; [apply polls_le_keeps; frames|].
    intros [|].
    + apply polls_le_weaken with 0; [|lia]. apply polls_le_keeps. frames.
    + destruct (negb (truthy test_id)).
      * apply polls_le_weaken with 0; [|lia]. apply polls_le_keeps. frames.
      * apply polls_le_weaken with (DMS.max_poll_attempts + 0); [|lia].
        apply polls_le_bind; [apply poll_connection_polls|].
        intros out. apply polls_le_keeps. frames.
Qed.

Lemma connection_retries_total ri ep is_s3 max_retries retries status :
  total (DMS.connection_retries ri ep is_s3 max_retries retries status).
Proof.
  revert status. induction retries as [|retry rest IH]; intros status;
    cbn [DMS.connection_retries].
  - frames.
  - apply total_bind; [apply connection_attempt_total|].
    intros [b | status']; [frames | apply IH].
Qed.

Lemma connection_retries_keeps R ri ep is_s3 max_retries retries status :
  effect_blind R ->
  keeps R (DMS.connection_retries ri ep is_s3 max_retries retries status).
Proof.
  intros HR. pose proof HR as HR'. blind HR'.
  revert status. induction retries as [|retry rest IH]; intros status;
    cbn [DMS.connection_retries].
  - frames.
  - apply keeps_bind; [assumption | now apply connection_attempt_keeps |].
    intros [b | status']; [frames | apply IH].
Qed.

Lemma connection_retries_polls ri ep is_s3 max_retries retries status :
  polls_le (DMS.connection_retries ri ep is_s3 max_retries retries status)
           (List.length retries * (1 + DMS.max_poll_attempts)).
Proof.
  revert status. induction retries as [|retry rest IH]; intros status;
    cbn [DMS.connection_retries List.length].
  - apply polls_le_keeps. frames.
  - apply polls_le_weaken
      with ((1 + DMS.max_poll_attempts)
            + List.length rest * (1 + DMS.max_poll_attempts)); [|lia].
    apply polls_le_bind; [apply connection_attempt_polls|].
    intros [b | status']; [|apply IH].
    eapply polls_le_weaken; [apply polls_le_keeps; frames | lia].
Qed.

Lemma test_connection_with_total ri ep max_retries :
  total (DMS.test_connection_with ri ep max_retries).
Proof.
  unfold DMS.test_connection_with.
  destruct (negb (truthy ri) || negb (truthy ep)); [frames|].
  apply total_bind; [apply detect_s3_endpoint_total|].
  intros is_s3. apply connection_retries_total.
Qed.

Lemma test_connection_keeps R ri ep :
  effect_blind R -> keeps R (DMS.test_connection ri ep).
Proof.
  intros HR. pose proof HR as HR'. blind HR'.
  unfold DMS.test_connection, DMS.test_connection_with.
  destruct (negb (truthy ri) || negb (truthy ep)); [frames|].
  apply keeps_bind; [assumption | now apply detect_s3_endpoint_keeps |].
  intros is_s3. now apply connection_retries_keeps.
Qed.

(** C7, as the code has it.  [test_connection] always returns a boolean.
    One round of polling makes at most [max_poll_attempts] = 30 status polls;
    a call makes one round per retry, so with [max_retries] retries it issues
    at most [(max_retries + 1) * 31] [describe_connections] calls (each round
    lists the connections once before it polls).  A round that uses up its
    polls is followed by the next retry, and when the last retry ends that
    way the function returns [False]. *)
Theorem probe_polls_bounded (ri ep : option string) (max_retries : nat) (w : World) :
  (exists b, fst (DMS.test_connection_with ri ep max_retries w) = Val b)
  /\ connection_polls (trace (snd (DMS.test_connection_with ri ep max_retries w)))
     <= connection_polls (trace w) + (max_retries + 1) * (1 + DMS.max_poll_attempts)
  /\ (forall n is_s3 retry e status,
         polls_le (DMS.poll_connection n is_s3 retry max_retries e status) n)
  /\ (forall ri' ep' is_s3 retry status w1 status' w2,
         DMS.connection_attempt ri' ep' is_s3 max_retries retry status w1
         = (Val (Next status'), w2) ->
         DMS.connection_retries ri' ep' is_s3 max_retries [retry] status w1
         = (Val false, w2)).
Proof.
  split; [apply test_connection_with_total|]. split; [|split].
  - unfold DMS.test_connection_with.
    destruct (negb (truthy ri) || negb (truthy ep)); [cbn; lia|].
    assert (Hb : polls_le
                   (is_s3 <- DMS.detect_s3_endpoint (fstr ep) ;;
                    DMS.connection_retries (fstr ri) (fstr ep) is_s3 max_retries
                      (seq 0 (max_retries + 1)) None)
                   (0 + (max_retries + 1) * (1 + DMS.max_poll_attempts))).
    { apply polls_le_bind.
      - apply polls_le_keeps. unfold DMS.detect_s3_endpoint. frames.
      - intros is_s3.
        pose proof (connection_retries_polls (fstr ri) (fstr ep) is_s3 max_retries
                      (seq 0 (max_retries + 1)) None) as Hp.
        now rewrite length_seq in Hp. }
    exact (Hb w).
  - intros. apply poll_connection_polls.
  - intros ri' ep' is_s3 retry status w1 status' w2 E.
    cbn [DMS.connection_retries]. unfold bind. rewrite E. reflexivity.
Qed.

End ProbeTheorems.

(** ** The S3 tolerance policy of the connection tests *)

Section TolerancePolicy.
Context `{Cloud}.

(** [os.getenv(k, d)] read off a world. *)
Definition env_or (w : World) (k d : string) : string :=
  match dict_get k (environ w) with
  | Some v => v
  | None => d
  end.

Definition accept_flag (w : World) : bool :=
  str_in (lower (env_or w "ACCEPT_S3_CONNECTION_FAILURES" "")) ["true"; "yes"; "1"].

Definition skip_flag (w : World) : bool :=
  lower (env_or w "SKIP_S3_CONNECTION_TEST" "") =? "true".

(** Whenever it is asked, the account describes the endpoint as an S3
    endpoint. *)
Definition reports_s3 (endpoint_arn : string) : Prop :=
  forall s, exists e rest s' dt,
      cloud_step s (DescribeEndpoints (Some ("endpoint-arn", endpoint_arn)))
      = (inr (PEndpoints (e :: rest)), s', dt)
      /\ e_engine e = "s3".

Definition skip_line : string :=
  "SKIP_S3_CONNECTION_TEST is set to true. Skipping test and assuming success.".

Definition accept_line : string :=
  "ACCEPT_S3_CONNECTION_FAILURES is set. Skipping S3 connection test and proceeding.".

Lemma accept_flag_run (w : World) :
  DMS.accept_s3_connection_failures w = (Val (accept_flag w), w).
Proof. reflexivity. Qed.

Lemma skip_flag_run (w : World) :
  DMS.skip_s3_connection_test w = (Val (skip_flag w), w).
Proof. reflexivity. Qed.

Lemma accept_flag_env (w w' : World) :
  environ w' = environ w -> accept_flag w' = accept_flag w.
Proof. unfold accept_flag, env_or. now intros ->. Qed.

Lemma skip_flag_env (w w' : World) :
  environ w' = environ w -> skip_flag w' = skip_flag w.
Proof. unfold skip_flag, env_or. now intros ->. Qed.

(** A total program that keeps the environment, run from [w]. *)
Lemma run_total_env {A} (m : M A) (w : World) :
  total m -> keeps same_env m ->
  exists a w', m w = (Val a, w') /\ environ w' = environ w.
Proof.
  intros Ht Hk. destruct (Ht w) as [a Ha]. specialize (Hk w).
  destruct (m w) as [r w']. cbn in *. subst r. now exists a, w'.
Qed.

(** With a tolerance flag set, the prober reports success for an S3
    endpoint whatever the connection test does, and says so. *)
Lemma test_connection_tolerant (ri ep : string) (w : World) :
  truthy (Some ri) = true -> truthy (Some ep) = true ->
  reports_s3 ep ->
  skip_flag w = true \/ accept_flag w = true ->
  exists w', DMS.test_connection (Some ri) (Some ep) w = (Val true, w')
             /\ environ w' = environ w
             /\ (In (EvPrint skip_line) (trace w')
                 \/ In (EvPrint accept_line) (trace w')).
Proof.
  intros Hri Hep Hs3 Hflag.
  unfold DMS.test_connection, DMS.test_connection_with.
  rewrite Hri, Hep. cbn [negb orb fstr].
  (* the endpoint is seen to be an S3 endpoint *)
  assert (Hd : exists w1, DMS.detect_s3_endpoint ep w = (Val true, w1)
                          /\ environ w1 = environ w).
  { destruct (Hs3 (remote w)) as (e & rest & s' & dt & Hstep & Heng).
    unfold DMS.detect_s3_endpoint, try_except, bind, aws. rewrite Hstep.
    cbn. rewrite Heng. cbn. eexists. split; reflexivity. }
  destruct Hd as (w1 & Hd & He1).
  rewrite (bind_Val _ _ _ Hd).
  cbn [seq Nat.add DMS.connection_retries].
  destruct (run_total_env w1
              (delete_existing_connections_total ri ep)
              (delete_existing_connections_keeps ri ep same_env_blind))
    as ([] & w2 & Hdel & He2).
  assert (Hattempt : exists w',
             DMS.connection_attempt ri ep true 2 0 None w1 = (Val (Return true), w')
             /\ environ w' = environ w
             /\ (In (EvPrint skip_line) (trace w')
                 \/ In (EvPrint accept_line) (trace w'))).
  { unfold DMS.connection_attempt, try_except. unfold bind at 1. rewrite Hdel.
    unfold bind at 1. rewrite skip_flag_run.
    destruct (skip_flag w2) eqn:Hskip.
    - unfold bind, print, record. cbn. eexists. split; [reflexivity|].
      split; [cbn; congruence|]. left. cbn. apply in_or_app. right. now left.
    - unfold bind at 1.
      destruct (run_total_env w2
                    (start_connection_test_total ri ep)
                    (start_connection_test_keeps ri ep same_env_blind))
          as (test_id & w3 & Hstart & He3).
      rewrite Hstart.
      assert (Hacc : accept_flag w3 = true).
      { rewrite (accept_flag_env w w3) by congruence.
        destruct Hflag as [Hk | Ha]; [|exact Ha].
        rewrite (skip_flag_env w w2) in Hskip by congruence. congruence. }
      unfold bind at 1. unfold bind at 1. unfold print at 1, record at 1.
      cbv beta iota. rewrite accept_flag_run.
      unfold accept_flag, env_or in *. cbn [environ] in *. rewrite Hacc.
      unfold bind, print, record. cbv beta iota. cbn [trace environ].
      eexists. split; [reflexivity|]. cbn [environ trace].
      split; [congruence|]. right. apply in_or_app. right. now left. }
  destruct Hattempt as (w' & Ha & He & Hp).
  unfold bind at 1. rewrite Ha. exists w'. auto.
Qed.

Lemma delete_existing_tasks_total src tgt : total (DMS.delete_existing_tasks src tgt).
Proof. unfold DMS.delete_existing_tasks. frames. Qed.

Lemma target_stage_tolerant (ri tgt : string) (w : World) :
  truthy (Some ri) = true -> truthy (Some tgt) = true ->
  reports_s3 tgt ->
  skip_flag w = true \/ accept_flag w = true ->
  exists w', DMS.target_connection_stage (Some ri) (Some tgt) w = (Val true, w')
             /\ (In (EvPrint skip_line) (trace w')
                 \/ In (EvPrint accept_line) (trace w')
                 \/ In (EvPrint "S3 endpoint detected with ACCEPT_S3_CONNECTION_FAILURES=true. Skipping connection test.")
                       (trace w')).
Proof.
  intros Hri Htgt Hs3 Hflag.
  unfold DMS.target_connection_stage. cbn [fstr].
  assert (Hd : exists w1, DMS.detect_s3_target tgt w = (Val true, w1)
                          /\ environ w1 = environ w).
  { destruct (Hs3 (remote w)) as (e & rest & s' & dt & Hstep & Heng).
    unfold DMS.detect_s3_target, try_except, bind, aws. rewrite Hstep.
    cbn. rewrite Heng. cbn. eexists. split; reflexivity. }
  destruct Hd as (w1 & Hd & He1).
  unfold bind at 1. rewrite Hd.
  unfold bind at 1. rewrite accept_flag_run.
  rewrite (accept_flag_env w w1 He1).
  destruct (accept_flag w) eqn:Hacc; cbn [andb].
  - unfold bind, print, record, ret. cbn. eexists. split; [reflexivity|].
    right. right. cbn. apply in_or_app. right. now left.
  - destruct Hflag as [Hskip | ?]; [|discriminate].
    cbn [seq DMS.target_attempts].
    destruct (@test_connection_tolerant ri tgt w1 Hri Htgt Hs3) as (w2 & Ht & He2 & Hp).
    { left. now rewrite (skip_flag_env w w1 He1). }
    unfold bind at 1. unfold bind at 1. rewrite Ht.
    unfold bind, ret. cbn. eexists. split; [reflexivity|].
    destruct Hp as [Hp | Hp]; [left | right; left]; exact Hp.
Qed.

(** *** A failed test of an endpoint that is not S3 *)

(** [m] returns, and what it returns satisfies [P]. *)
Definition yields {A} (P : A -> Prop) (m : M A) : Prop :=
  forall w, exists a w', m w = (Val a, w') /\ P a.

(** [m] returns or raises, and what it returns satisfies [P]. *)
Definition returns_only {A} (P : A -> Prop) (m : M A) : Prop :=
  forall w, match fst (m w) with
            | Val a => P a
            | Exc _ => True
            | Diverged => False
            end.

Lemma yields_ret {A} (P : A -> Prop) a : P a -> yields P (ret a).
Proof. intros Ha w. now exists a, w. Qed.

Lemma yields_total {A} (m : M A) : total m -> yields (fun _ => True) m.
Proof.
  intros Hm w. destruct (Hm w) as [a Ha].
  destruct (m w) as [r w']. cbn in Ha. subst r. now exists a, w'.
Qed.

Lemma yields_bind {A B} (Q : A -> Prop) (P : B -> Prop) (m : M A) (k : A -> M B) :
  yields Q m -> (forall a, Q a -> yields P (k a)) -> yields P (bind m k).
Proof.
  intros Hm Hk w. unfold bind.
  destruct (Hm w) as (a & w1 & -> & Ha). now apply Hk.
Qed.

Lemma yields_returns_only {A} (P : A -> Prop) (m : M A) :
  yields P m -> returns_only P m.
Proof. intros Hm w. now destruct (Hm w) as (a & w1 & -> & Ha). Qed.

Lemma returns_only_raise {A} (P : A -> Prop) e : returns_only P (@raise _ A e).
Proof. intros w. exact I. Qed.

Lemma returns_only_bind {A B} (Q : A -> Prop) (P : B -> Prop) (m : M A) (k : A -> M B) :
  returns_only Q m -> (forall a, Q a -> returns_only P (k a)) ->
  returns_only P (bind m k).
Proof.
  intros Hm Hk w. unfold bind. specialize (Hm w).
  destruct (m w) as [[a | e |] w1]; cbn [fst] in *; [|exact I|exact Hm].
  now apply Hk.
Qed.

Lemma yields_try_except {A} (P : A -> Prop) (m : M A) (h : exn -> M A) :
  returns_only P m -> (forall e, yields P (h e)) -> yields P (try_except m h).
Proof.
  intros Hm Hh w. unfold try_except. specialize (Hm w).
  destruct (m w) as [[a | e |] w1]; cbn [fst] in *.
  - now exists a, w1.
  - apply Hh.
  - contradiction.
Qed.

(** What the account answers to a call, whatever its state. *)
Lemma returns_only_aws (c : call) (P : payload -> Prop) :
  (forall s p s' dt, cloud_step s c = (inr p, s', dt) -> P p) ->
  returns_only P (aws c).
Proof.
  intros Hc w. unfold aws.
  destruct (cloud_step (remote w) c) as [[[e | p] s'] dt] eqn:E; cbn; [exact I|].
  eapply Hc, E.
Qed.

(** Whenever the account shows the endpoint, its engine is not S3, for
    [test_connection] ([EngineName == 's3']) and for [main]
    (['s3' in EngineName.lower()]) alike. *)
Definition never_s3 (endpoint_arn : string) : Prop :=
  forall s e rest s' dt,
    cloud_step s (DescribeEndpoints (Some ("endpoint-arn", endpoint_arn)))
    = (inr (PEndpoints (e :: rest)), s', dt) ->
    contains "s3" (lower (e_engine e)) = false.

(** Every connection test that is started is answered with a connection
    that carries an [Id] or a [ConnectionArn]. *)
Definition test_has_id (replication_instance_arn endpoint_arn : string) : Prop :=
  forall s, exists p s' dt,
      cloud_step s (TestConnection replication_instance_arn endpoint_arn) = (inr p, s', dt)
      /\ truthy (DMS.test_id_of p) = true.

(** The connection test fails: no listing of the connections of the
    endpoint ever shows it [successful]. *)
Definition never_successful (endpoint_arn : string) : Prop :=
  forall s c rest s' dt,
    cloud_step s (DescribeConnections (Some ("endpoint-arn", endpoint_arn)))
    = (inr (PConnections (c :: rest)), s', dt) ->
    (c_status c =? "successful") = false.

(** The outcome of a round that did not succeed: [False], or another round
    with a status that is not [successful]. *)
Definition not_passed (out : flow bool (option string)) : Prop :=
  match out with
  | Return b => b = false
  | Next status => status <> Some "successful"
  end.

Section FatalTests.
Variables replication_instance_arn endpoint_arn : string.
Hypothesis engine : never_s3 endpoint_arn.
Hypothesis with_id : test_has_id replication_instance_arn endpoint_arn.
Hypothesis failing : never_successful endpoint_arn.

Lemma detect_s3_endpoint_false :
  yields (fun b => b = false) (DMS.detect_s3_endpoint endpoint_arn).
Proof.
  unfold DMS.detect_s3_endpoint.
  apply yields_try_except; [|intros e; now apply yields_ret].
  apply returns_only_bind
    with (Q := fun p => forall e rest, p = PEndpoints (e :: rest) ->
                                       contains "s3" (lower (e_engine e)) = false).
  - apply returns_only_aws. intros s p s' dt E e rest ->. eapply engine, E.
  - intros p Hp. destruct p; try apply returns_only_raise.
    cbn [DMS.endpoints_of]. unfold bind, ret. intros w. cbn.
    destruct l as [|e rest]; cbn; [reflexivity|].
    specialize (Hp e rest eq_refl).
    destruct (String.eqb_spec (e_engine e) "s3") as [E | _]; [|reflexivity].
    rewrite E in Hp. discriminate.
Qed.

Lemma detect_s3_target_false :
  yields (fun b => b = false) (DMS.detect_s3_target endpoint_arn).
Proof.
  unfold DMS.detect_s3_target.
  apply yields_try_except; [|intros e; now apply yields_ret].
  apply returns_only_bind
    with (Q := fun p => forall e rest, p = PEndpoints (e :: rest) ->
                                       contains "s3" (lower (e_engine e)) = false).
  - apply returns_only_aws. intros s p s' dt E e rest ->. eapply engine, E.
  - intros p Hp. destruct p; try apply returns_only_raise.
    cbn [DMS.endpoints_of]. unfold bind, ret. intros w. cbn.
    destruct l as [|e rest]; cbn; [reflexivity|].
    exact (Hp e rest eq_refl).
Qed.

Lemma start_connection_test_with_id :
  yields (fun test_id => truthy test_id = true)
         (DMS.start_connection_test replication_instance_arn endpoint_arn).
Proof.
  intros w. unfold DMS.start_connection_test, try_except.
  unfold bind at 1. unfold aws.
  destruct (with_id (remote w)) as (p & s' & dt & -> & Hid).
  cbv beta iota zeta. rewrite Hid. cbn [negb].
  unfold bind, ret. eexists. eexists. split; [reflexivity | exact Hid].
Qed.

(** One round of polling never ends on [True]. *)
Lemma poll_connection_not_passed n retry max_retries status :
  status <> Some "successful" ->
  yields not_passed
         (DMS.poll_connection n false retry max_retries endpoint_arn status).
Proof.
  revert status. induction n as [|n IH]; intros status Hst;
    cbn [DMS.poll_connection].
  - now apply yields_ret.
  - apply yields_bind
      with (Q := fun step => match step with
                             | inl out => not_passed out
                             | inr st => st <> Some "successful"
                             end).
    + apply yields_try_except; [|intros e; now apply yields_ret].
      apply returns_only_bind
        with (Q := fun p => forall c rest, p = PConnections (c :: rest) ->
                                           (c_status c =? "successful") = false).
      * apply returns_only_aws. intros s p s' dt E c rest ->. eapply failing, E.
      * intros p Hp. destruct p; try apply returns_only_raise.
        cbn [DMS.connections_of]. apply returns_only_bind with (Q := fun l' => l' = l).
        { apply yields_returns_only. now apply yields_ret. }
        intros l' ->. cbv zeta.
        assert (Hnew : match match l with
                             | c :: _ => Some (c_status c)
                             | [] => status
                             end with
                       | Some st => (st =? "successful") = false
                       | None => True
                       end).
        { destruct l as [|c rest]; [|exact (Hp c rest eq_refl)].
          destruct status as [st|]; [|exact I].
          destruct (String.eqb_spec st "successful") as [-> | _];
            [now elim Hst | reflexivity]. }
        destruct (match l with c :: _ => Some (c_status c) | [] => status end)
          as [st|] eqn:Est; [|apply returns_only_raise].
        rewrite Hnew.
        assert (Hst' : Some st <> Some "successful").
        { intros [= ->]. discriminate. }
        apply yields_returns_only.
        destruct (str_in st ["failed"; "deleting"; "deleted"]);
          [|now apply yields_ret].
        unfold bind at 1. unfold ret at 1. cbv beta iota.
        destruct (Nat.ltb retry max_retries).
        -- intros w. unfold bind, sleep, ret. eexists. eexists.
           split; [reflexivity | exact Hst'].
        -- unfold bind at 1. unfold ret at 1. cbv beta iota.
           now apply yields_ret.
    + intros [out | status'] Hstep.
      * now apply yields_ret.
      * apply yields_bind with (Q := fun _ => True).
        { apply yields_total. apply total_sleep. }
        intros _ _. now apply IH.
Qed.

Lemma connection_attempt_not_passed max_retries retry status :
  status <> Some "successful" ->
  yields not_passed
         (DMS.connection_attempt replication_instance_arn endpoint_arn false
                                 max_retries retry status).
Proof.
  intros Hst. unfold DMS.connection_attempt.
  apply yields_try_except.
  - apply yields_returns_only.
    apply yields_bind with (Q := fun _ => True).
    { apply yields_total, delete_existing_connections_total. }
    intros _ _. unfold bind at 1. unfold ret at 1. cbv beta iota.
    apply yields_bind with (Q := fun test_id => truthy test_id = true).
    { apply start_connection_test_with_id. }
    intros test_id Hid. unfold bind at 1. unfold ret at 1. cbv beta iota.
    rewrite Hid. cbn [negb].
    apply yields_bind with (Q := not_passed).
    { now apply poll_connection_not_passed. }
    intros [b | status'] Hout.
    + now apply yields_ret.
    + intros w. unfold bind, print, record, ret. eexists. eexists.
      split; [reflexivity | exact Hout].
  - intros e. destruct (Nat.ltb retry max_retries).
    + intros w. unfold bind, sleep, ret. eexists. eexists.
      split; [reflexivity | exact Hst].
    + now apply yields_ret.
Qed.

Lemma connection_retries_false max_retries retries status :
  status <> Some "successful" ->
  yields (fun b => b = false)
         (DMS.connection_retries replication_instance_arn endpoint_arn false
                                 max_retries retries status).
Proof.
  revert status. induction retries as [|retry rest IH]; intros status Hst;
    cbn [DMS.connection_retries].
  - now apply yields_ret.
  - apply yields_bind with (Q := not_passed).
    { now apply connection_attempt_not_passed. }
    intros [b | status'] Hout.
    + now apply yields_ret.
    + now apply IH.
Qed.

(** The prober reports the failure, whatever the environment holds. *)
Lemma failed_test_is_reported :
  truthy (Some replication_instance_arn) = true ->
  truthy (Some endpoint_arn) = true ->
  yields (fun b => b = false)
         (DMS.test_connection (Some replication_instance_arn) (Some endpoint_arn)).
Proof.
  intros Hri Hep. unfold DMS.test_connection, DMS.test_connection_with.
  rewrite Hri, Hep. cbn [negb orb fstr].
  apply yields_bind with (Q := fun b => b = false).
  { apply detect_s3_endpoint_false. }
  intros is_s3 ->. apply connection_retries_false. discriminate.
Qed.

Lemma target_attempts_false max_attempts attempts :
  truthy (Some replication_instance_arn) = true ->
  truthy (Some endpoint_arn) = true ->
  yields (fun b => b = false)
         (DMS.target_attempts (Some replication_instance_arn) (Some endpoint_arn)
                              max_attempts attempts).
Proof.
  intros Hri Hep. induction attempts as [|attempt rest IH];
    cbn [DMS.target_attempts].
  - now apply yields_ret.
  - apply yields_bind with (Q := fun b => b = false).
    { now apply failed_test_is_reported. }
    intros b ->. apply yields_bind with (Q := fun _ => True).
    { destruct (Nat.ltb attempt (max_attempts - 1)).
      - apply yields_total, total_sleep.
      - now apply yields_ret. }
    intros _ _. exact IH.
Qed.

(** The target stage of [main] stops the pipeline. *)
Lemma failed_target_test_is_fatal :
  truthy (Some replication_instance_arn) = true ->
  truthy (Some endpoint_arn) = true ->
  yields (fun b => b = false)
         (DMS.target_connection_stage (Some replication_instance_arn)
                                      (Some endpoint_arn)).
Proof.
  intros Hri Hep. unfold DMS.target_connection_stage. cbv zeta. cbn [fstr].
  apply yields_bind with (Q := fun b => b = false).
  { apply detect_s3_target_false. }
  intros is_s3 ->.
  apply yields_bind with (Q := fun _ => True).
  { intros w. rewrite accept_flag_run. now eexists; eexists. }
  intros accept _. cbn [andb].
  apply yields_bind with (Q := fun b => b = false).
  { now apply target_attempts_false. }
  intros b ->. cbn [negb andb].
  intros w. unfold bind, print, record, ret. cbn. eexists. eexists.
  split; reflexivity.
Qed.

End FatalTests.

(** No test that is started gets a connection id: the call is refused, or
    its answer carries neither an [Id] nor a [ConnectionArn]. *)
Definition test_without_id (replication_instance_arn endpoint_arn : string) : Prop :=
  forall s r s' dt,
    cloud_step s (TestConnection replication_instance_arn endpoint_arn) = (r, s', dt) ->
    match r with
    | inl _ => True
    | inr p => truthy (DMS.test_id_of p) = false
    end.

(** Whenever it is asked, the account shows the endpoint, and shows it
    [active]. *)
Definition always_active (endpoint_arn : string) : Prop :=
  forall s, exists e rest s' dt,
      cloud_step s (DescribeEndpoints (Some ("endpoint-arn", endpoint_arn)))
      = (inr (PEndpoints (e :: rest)), s', dt)
      /\ e_status e = "active".

(** A body that returns is not touched by its handler. *)
Lemma yields_try {A} (P : A -> Prop) (m : M A) (h : exn -> M A) :
  yields P m -> yields P (try_except m h).
Proof.
  intros Hm w. unfold try_except.
  destruct (Hm w) as (a & w' & -> & Ha). now exists a, w'.
Qed.

Section IdlessTests.
Variables replication_instance_arn endpoint_arn : string.
Hypothesis engine : never_s3 endpoint_arn.
Hypothesis without_id : test_without_id replication_instance_arn endpoint_arn.
Hypothesis active : always_active endpoint_arn.

Lemma start_connection_test_without_id :
  yields (fun test_id => truthy test_id = false)
         (DMS.start_connection_test replication_instance_arn endpoint_arn).
Proof.
  intros w. unfold DMS.start_connection_test, try_except.
  unfold bind at 1. unfold aws.
  destruct (cloud_step (remote w) (TestConnection replication_instance_arn endpoint_arn))
    as [[[e | p] s'] dt] eqn:E.
  - unfold ret. eexists. eexists. split; reflexivity.
  - pose proof (without_id _ E) as Hid. cbv beta iota zeta in *. rewrite Hid. cbn [negb].
    unfold bind, sleep, ret. eexists. eexists. split; [reflexivity | exact Hid].
Qed.

(** A test without a connection id is judged by the status of the
    endpoint: the prober reports success for an active endpoint, whatever
    became of the test. *)
Lemma test_without_id_passes :
  truthy (Some replication_instance_arn) = true ->
  truthy (Some endpoint_arn) = true ->
  yields (fun b => b = true)
         (DMS.test_connection (Some replication_instance_arn) (Some endpoint_arn)).
Proof.
  intros Hri Hep. unfold DMS.test_connection, DMS.test_connection_with.
  rewrite Hri, Hep. cbn [negb orb fstr].
  apply yields_bind with (Q := fun b => b = false).
  { now apply detect_s3_endpoint_false. }
  intros is_s3 ->. cbn [Nat.add seq DMS.connection_retries].
  apply yields_bind with (Q := fun out => out = Return true).
  - unfold DMS.connection_attempt. apply yields_try.
    apply yields_bind with (Q := fun _ => True).
    { apply yields_total, delete_existing_connections_total. }
    intros _ _. unfold bind at 1. unfold ret at 1. cbv beta iota.
    apply yields_bind with (Q := fun test_id => truthy test_id = false).
    { apply start_connection_test_without_id. }
    intros test_id Hid. unfold bind at 1. unfold ret at 1. cbv beta iota.
    rewrite Hid. cbn [negb].
    intros w. unfold bind at 1. unfold aws.
    destruct (active (remote w)) as (e & rest & s' & dt & -> & Hst).
    cbn [DMS.endpoints_of]. unfold bind, ret. rewrite Hst.
    eexists. eexists. split; reflexivity.
  - intros out ->. now apply yields_ret.
Qed.

End IdlessTests.

(** C5, as the code has it.  With [SKIP_S3_CONNECTION_TEST] or
    [ACCEPT_S3_CONNECTION_FAILURES] set and an endpoint whose engine is S3,
    the prober returns [True] whatever the connection test does and prints
    that it skips the test, and the target stage of [main] goes on to the
    replication task.  For an endpoint that is not S3 no flag is looked at:
    when every test that is started is answered with a connection id and
    no listing of the connections ever shows the test [successful], the
    prober returns [False] whatever the environment holds, and [main]
    returns [False], be the endpoint its source or its target.  A test
    that gets no connection id (the call is refused, or its answer carries
    none) is not followed: the prober then goes by the status of the
    endpoint, and returns [True] for an endpoint that is [active]. *)
Theorem s3_failures_tolerated_others_fatal (fuel : nat) (ri src tgt : string) (w : World) :
  truthy (Some ri) = true -> truthy (Some tgt) = true ->
  (reports_s3 tgt -> skip_flag w = true \/ accept_flag w = true ->
   (exists w', DMS.test_connection (Some ri) (Some tgt) w = (Val true, w')
               /\ (In (EvPrint skip_line) (trace w')
                   \/ In (EvPrint accept_line) (trace w')))
   /\ (exists w', DMS.target_connection_stage (Some ri) (Some tgt) w = (Val true, w')))
  /\ (forall ep,
         truthy (Some ep) = true ->
         never_s3 ep -> test_has_id ri ep -> never_successful ep ->
         (exists w', DMS.test_connection (Some ri) (Some ep) w = (Val false, w'))
         /\ (exists w', DMS.target_connection_stage (Some ri) (Some ep) w = (Val false, w'))
         /\ (exists w', DMS.main_after_endpoints fuel (Some ri) (Some ep) (Some tgt) w
                        = (Val false, w'))
         /\ (forall w1,
                DMS.test_connection (Some ri) (Some src)
                  (snd (DMS.delete_existing_tasks src ep w)) = (Val true, w1) ->
                exists w', DMS.main_after_endpoints fuel (Some ri) (Some src) (Some ep) w
                           = (Val false, w')))
  /\ (forall ep,
         truthy (Some ep) = true ->
         never_s3 ep -> test_without_id ri ep -> always_active ep ->
         exists w', DMS.test_connection (Some ri) (Some ep) w = (Val true, w')).
Proof.
  intros Hri Htgt. split; [|split].
  - intros Hs3 Hflag. split.
    + destruct (@test_connection_tolerant ri tgt w Hri Htgt Hs3 Hflag)
        as (w' & Ht & _ & Hp).
      now exists w'.
    + destruct (@target_stage_tolerant ri tgt w Hri Htgt Hs3 Hflag) as (w' & Ht & _).
      now exists w'.
  - intros ep Hep Heng Hid Hfail.
    pose proof (failed_test_is_reported Heng Hid Hfail Hri Hep) as Htest.
    pose proof (failed_target_test_is_fatal Heng Hid Hfail Hri Hep) as Hstage.
    split; [|split; [|split]].
    + destruct (Htest w) as (b & w' & E & ->). now exists w'.
    + destruct (Hstage w) as (b & w' & E & ->). now exists w'.
    + unfold DMS.main_after_endpoints. cbn [fstr].
      destruct (delete_existing_tasks_total ep tgt w) as [[] Ha].
      destruct (DMS.delete_existing_tasks ep tgt w) as [r w0] eqn:Ed.
      cbn [fst] in Ha. subst r.
      unfold bind at 1. rewrite Ed.
      destruct (Htest w0) as (b & w1 & E & ->).
      unfold bind at 1. rewrite E. cbn [negb].
      unfold bind, print, record, ret. eexists. reflexivity.
    + intros w1 Hsrc.
      unfold DMS.main_after_endpoints. cbn [fstr].
      destruct (delete_existing_tasks_total src ep w) as [[] Ha].
      destruct (DMS.delete_existing_tasks src ep w) as [r w0] eqn:Ed.
      cbn [fst snd] in Ha, Hsrc. subst r.
      unfold bind at 1. rewrite Ed.
      unfold bind at 1. rewrite Hsrc. cbn [negb].
      destruct (Hstage w1) as (b & w2 & E & ->).
      unfold bind at 1. rewrite E. cbn [negb].
      unfold ret. eexists. reflexivity.
  - intros ep Hep Heng Hid Hact.
    destruct (test_without_id_passes Heng Hid Hact Hri Hep w) as (b & w' & E & ->).
    now exists w'.
Qed.


End TolerancePolicy.

(** ** Stale tasks in DMS.main *)

Section StaleTasks.
Context `{Cloud}.

(** The trace only grows. *)
Definition grows (w w' : World) : Prop :=
  exists tr, trace w' = (trace w ++ tr)%list.

Lemma grows_pre : preorder grows.
Proof.
  split.
  - intros w. exists []. now rewrite app_nil_r.
  - intros a b c [t1 E1] [t2 E2]. exists (t1 ++ t2)%list.
    now rewrite E2, E1, app_assoc.
Qed.

Lemma grows_blind : effect_blind grows.
Proof.
  split; [apply grows_pre|]. split; [|split].
  - intros c w. unfold aws, grows.
    destruct (cloud_step (remote w) c) as [[[e | p] s] dt]; cbn; eauto.
  - intros n w. unfold grows. cbn. eauto.
  - intros l w. unfold grows. cbn. eauto.
Qed.

(** The task listed first, linking the two endpoints and running, is sent a
    delete call straight after the listing: [main] neither looks at its
    status nor stops it.  (The claim C4 asks for a confirmed stop before any
    delete; [create_replication_task] and [delete_di.py] do stop a running
    task first.) *)
Theorem main_deletes_running_task_unstopped
        (src tgt : string) (w : World) (t : Task) (rest : list Task)
        (s' : RS) (dt : nat) :
  cloud_step (remote w) (DescribeReplicationTasks None)
  = (inr (PTasks (t :: rest)), s', dt) ->
  t_source t = src -> t_target t = tgt -> t_status t = "running" ->
  exists r tr,
    trace (snd (DMS.delete_existing_tasks src tgt w))
    = (trace w ++ EvCall (DescribeReplicationTasks None) (inr (PTasks (t :: rest)))
               :: EvCall (DeleteReplicationTask (t_arn t)) r :: tr)%list.
Proof.
  intros Hstep Hs Ht _.
  unfold DMS.delete_existing_tasks. rewrite try_except_ret_snd.
  unfold bind at 1. unfold aws at 1. rewrite Hstep.
  cbn [filter map]. rewrite Hs, Ht, !String.eqb_refl. cbn [andb map for_each].
  set (w1 := mkWorld s' _ _ _ _ _).
  set (body := fun task_arn : string => _).
  set (L := map t_arn _).
  assert (Hrest : keeps grows (for_each L body)).
  { destruct grows_blind as (? & ? & ? & ?). subst body. frames. }
  unfold bind at 1. subst body. cbv beta. unfold bind at 1. unfold aws at 1.
  destruct (cloud_step (remote w1) (DeleteReplicationTask (t_arn t)))
    as [[[e | p] s2] dt2]; cbn [snd trace].
  - exists (inl e), []. subst w1. cbn [trace]. now rewrite <- app_assoc.
  - unfold sleep at 1. cbv beta iota.
    match goal with |- context[for_each L ?b ?W] =>
      destruct (Hrest W) as [tr Htr] end.
    rewrite Htr. subst w1. cbn [trace].
    exists (inr p), (EvSleep 20 :: tr). now rewrite <- !app_assoc.
Qed.

End StaleTasks.

(** ** Teardown order (delete_di.py) *)

Section Teardown.
Context `{Cloud}.

(** How a verification block can have ended. *)
Definition tasks_seen_gone (w : World) : Prop :=
  exists tr p, trace w = (tr ++ [EvCall (DescribeReplicationTasks None) (inr p)])%list
               /\ DeleteDi.tasks_or_empty p = [].

Definition task_listing_failed (w : World) : Prop :=
  exists tr e, trace w = (tr ++ [EvCall (DescribeReplicationTasks None) (inl e)])%list
               /\ ClientError e = true.

Definition endpoints_seen_gone (w : World) : Prop :=
  exists tr p, trace w = (tr ++ [EvCall (DescribeEndpoints None) (inr p)])%list
               /\ DeleteDi.endpoints_or_empty p = [].

Definition endpoint_listing_failed (w : World) : Prop :=
  exists tr e, trace w = (tr ++ [EvCall (DescribeEndpoints None) (inl e)])%list
               /\ ClientError e = true.

Lemma nonempty_false {A} (l : list A) : DMS.nonempty l = false -> l = [].
Proof. destruct l; [reflexivity | discriminate]. Qed.

(** The loop that waits for the tasks to go: it never runs out of fuel, it
    only reads, and it ends on an empty listing, on a timeout, or on the
    exception of a listing call. *)
Lemma wait_tasks_gone_spec fuel start (w : World) r w' :
  DeleteDi.wait_tasks_gone fuel start 180 w = (r, w') ->
  start <= now w ->
  (180 - (now w - start)) + 15 <= fuel * 15 ->
  r <> Diverged
  /\ no_new_mutation w w'
  /\ (r = Val tt -> tasks_seen_gone w' \/ start + 180 <= now w')
  /\ (forall e, r = Exc e ->
        exists tr, trace w' = (tr ++ [EvCall (DescribeReplicationTasks None) (inl e)])%list).
Proof.
  revert w. induction fuel as [|n IH]; intros w E Hstart Hfuel; [lia|].
  cbn [DeleteDi.wait_tasks_gone] in E. unfold bind at 1 in E. unfold time at 1 in E.
  destruct (Nat.ltb (now w - start) 180) eqn:Hlt.
  - apply Nat.ltb_lt in Hlt.
    unfold bind at 1 in E. unfold aws at 1 in E.
    destruct (cloud_step (remote w) (DescribeReplicationTasks None))
      as [[[e | p] s1] dt1] eqn:Hstep.
    + injection E as <- <-. split; [discriminate|]. split.
      { unfold no_new_mutation. cbn [trace]. rewrite mutating_calls_app. apply app_nil_r. }
      split; [discriminate|]. intros e' [= <-]. cbn [trace]. eauto.
    + destruct (DMS.nonempty (DeleteDi.tasks_or_empty p)) eqn:Hne; cbn [negb] in E.
      * unfold bind at 1 in E. unfold sleep at 1 in E.
        apply IH in E; cbn [now trace] in *; [|lia|lia].
        destruct E as (Hd & Hm & Hv & He).
        split; [exact Hd|]. split; [|split; [exact Hv | exact He]].
        unfold no_new_mutation in *. rewrite Hm. cbn [trace].
        rewrite !mutating_calls_app. cbn. now rewrite !app_nil_r.
      * injection E as <- <-. split; [discriminate|]. split.
        { unfold no_new_mutation. cbn [trace]. rewrite mutating_calls_app. apply app_nil_r. }
        split; [|discriminate]. intros _. left. exists (trace w), p.
        split; [reflexivity | now apply nonempty_false].
  - apply Nat.ltb_ge in Hlt.
    unfold bind, print, record in E. injection E as <- <-. cbn [now trace].
    split; [discriminate|]. split.
    { unfold no_new_mutation. cbn [trace]. rewrite !mutating_calls_app.
      cbn. now rewrite !app_nil_r. }
    split; [|discriminate]. intros _. right. lia.
Qed.

Lemma verify_tasks_deleted_spec (w : World) r w' :
  DeleteDi.verify_tasks_deleted w = (r, w') ->
  r <> Diverged
  /\ no_new_mutation w w'
  /\ (r = Val tt ->
      tasks_seen_gone w' \/ task_listing_failed w' \/ now w + 180 <= now w').
Proof.
  intros E.
  unfold DeleteDi.verify_tasks_deleted, try_except_if, try_except in E.
  unfold bind at 1 in E. unfold aws at 1 in E.
  destruct (cloud_step (remote w) (DescribeReplicationTasks None))
    as [[[e | p] s1] dt1] eqn:Hstep.
  - destruct (ClientError e) eqn:Hce; injection E as <- <-.
    + split; [discriminate|]. split.
      { unfold no_new_mutation. cbn [trace]. rewrite mutating_calls_app. apply app_nil_r. }
      intros _. right. left. exists (trace w), e. split; [reflexivity | exact Hce].
    + split; [discriminate|]. split; [|discriminate].
      unfold no_new_mutation. cbn [trace]. rewrite mutating_calls_app. apply app_nil_r.
  - destruct (DMS.nonempty (DeleteDi.tasks_or_empty p)) eqn:Hne.
    + unfold bind at 1 in E. unfold print at 1, record at 1 in E.
      unfold bind at 1 in E. unfold time at 1 in E.
      match type of E with context[DeleteDi.wait_tasks_gone 180 ?S 180 ?W] =>
        pose proof (@wait_tasks_gone_spec 180 S W) as Hw;
        destruct (DeleteDi.wait_tasks_gone 180 S 180 W) as [r2 w2] end.
      specialize (Hw _ _ eq_refl). cbn [now trace] in Hw.
      destruct Hw as (Hd & Hm & Hv & He); [lia | lia |].
      assert (Hm' : mutating_calls (trace w2) = mutating_calls (trace w)).
      { unfold no_new_mutation in Hm. rewrite Hm. cbn [trace].
        rewrite !mutating_calls_app. cbn. now rewrite !app_nil_r. }
      destruct r2 as [[] | e |].
      * injection E as <- <-.
        split; [discriminate|]. split; [exact Hm'|]. intros _.
        destruct (Hv eq_refl) as [Hg | Ht]; [now left | right; right; lia].
      * destruct (He e eq_refl) as [tr Htr].
        destruct (ClientError e) eqn:Hce; injection E as <- <-.
        -- split; [discriminate|]. split; [exact Hm'|]. intros _.
           right. left. exists tr, e. split; [exact Htr | exact Hce].
        -- split; [discriminate|]. split; [exact Hm' | discriminate].
      * contradiction.
    + injection E as <- <-. split; [discriminate|]. split.
      { unfold no_new_mutation. cbn [trace]. rewrite mutating_calls_app. apply app_nil_r. }
      intros _. left. exists (trace w), p.
      split; [reflexivity | now apply nonempty_false].
Qed.

(** The same for the loop that waits for the endpoints to go. *)
Lemma wait_endpoints_gone_spec fuel start (w : World) r w' :
  DeleteDi.wait_endpoints_gone fuel start 180 w = (r, w') ->
  start <= now w ->
  (180 - (now w - start)) + 15 <= fuel * 15 ->
  r <> Diverged
  /\ no_new_mutation w w'
  /\ (r = Val tt -> endpoints_seen_gone w' \/ start + 180 <= now w')
  /\ (forall e, r = Exc e ->
        exists tr, trace w' = (tr ++ [EvCall (DescribeEndpoints None) (inl e)])%list).
Proof.
  revert w. induction fuel as [|n IH]; intros w E Hstart Hfuel; [lia|].
  cbn [DeleteDi.wait_endpoints_gone] in E. unfold bind at 1 in E. unfold time at 1 in E.
  destruct (Nat.ltb (now w - start) 180) eqn:Hlt.
  - apply Nat.ltb_lt in Hlt.
    unfold bind at 1 in E. unfold aws at 1 in E.
    destruct (cloud_step (remote w) (DescribeEndpoints None))
      as [[[e | p] s1] dt1] eqn:Hstep.
    + injection E as <- <-. split; [discriminate|]. split.
      { unfold no_new_mutation. cbn [trace]. rewrite mutating_calls_app. apply app_nil_r. }
      split; [discriminate|]. intros e' [= <-]. cbn [trace]. eauto.
    + destruct (DMS.nonempty (DeleteDi.endpoints_or_empty p)) eqn:Hne; cbn [negb] in E.
      * unfold bind at 1 in E. unfold sleep at 1 in E.
        apply IH in E; cbn [now trace] in *; [|lia|lia].
        destruct E as (Hd & Hm & Hv & He).
        split; [exact Hd|]. split; [|split; [exact Hv | exact He]].
        unfold no_new_mutation in *. rewrite Hm. cbn [trace].
        rewrite !mutating_calls_app. cbn. now rewrite !app_nil_r.
      * injection E as <- <-. split; [discriminate|]. split.
        { unfold no_new_mutation. cbn [trace]. rewrite mutating_calls_app. apply app_nil_r. }
        split; [|discriminate]. intros _. left. exists (trace w), p.
        split; [reflexivity | now apply nonempty_false].
  - apply Nat.ltb_ge in Hlt.
    unfold bind, print, record in E. injection E as <- <-. cbn [now trace].
    split; [discriminate|]. split.
    { unfold no_new_mutation. cbn [trace]. rewrite !mutating_calls_app.
      cbn. now rewrite !app_nil_r. }
    split; [|discriminate]. intros _. right. lia.
Qed.

Lemma verify_endpoints_deleted_spec (w : World) r w' :
  DeleteDi.verify_endpoints_deleted w = (r, w') ->
  r <> Diverged
  /\ no_new_mutation w w'
  /\ (r = Val tt ->
      endpoints_seen_gone w' \/ endpoint_listing_failed w' \/ now w + 180 <= now w').
Proof.
  intros E.
  unfold DeleteDi.verify_endpoints_deleted, try_except_if, try_except in E.
  unfold bind at 1 in E. unfold aws at 1 in E.
  destruct (cloud_step (remote w) (DescribeEndpoints None))
    as [[[e | p] s1] dt1] eqn:Hstep.
  - destruct (ClientError e) eqn:Hce; injection E as <- <-.
    + split; [discriminate|]. split.
      { unfold no_new_mutation. cbn [trace]. rewrite mutating_calls_app. apply app_nil_r. }
      intros _. right. left. exists (trace w), e. split; [reflexivity | exact Hce].
    + split; [discriminate|]. split; [|discriminate].
      unfold no_new_mutation. cbn [trace]. rewrite mutating_calls_app. apply app_nil_r.
  - destruct (DMS.nonempty (DeleteDi.endpoints_or_empty p)) eqn:Hne.
    + unfold bind at 1 in E. unfold print at 1, record at 1 in E.
      unfold bind at 1 in E. unfold time at 1 in E.
      match type of E with context[DeleteDi.wait_endpoints_gone 180 ?S 180 ?W] =>
        pose proof (@wait_endpoints_gone_spec 180 S W) as Hw;
        destruct (DeleteDi.wait_endpoints_gone 180 S 180 W) as [r2 w2] end.
      specialize (Hw _ _ eq_refl). cbn [now trace] in Hw.
      destruct Hw as (Hd & Hm & Hv & He); [lia | lia |].
      assert (Hm' : mutating_calls (trace w2) = mutating_calls (trace w)).
      { unfold no_new_mutation in Hm. rewrite Hm. cbn [trace].
        rewrite !mutating_calls_app. cbn. now rewrite !app_nil_r. }
      destruct r2 as [[] | e |].
      * injection E as <- <-.
        split; [discriminate|]. split; [exact Hm'|]. intros _.
        destruct (Hv eq_refl) as [Hg | Ht]; [now left | right; right; lia].
      * destruct (He e eq_refl) as [tr Htr].
        destruct (ClientError e) eqn:Hce; injection E as <- <-.
        -- split; [discriminate|]. split; [exact Hm'|]. intros _.
           right. left. exists tr, e. split; [exact Htr | exact Hce].
        -- split; [discriminate|]. split; [exact Hm' | discriminate].
      * contradiction.
    + injection E as <- <-. split; [discriminate|]. split.
      { unfold no_new_mutation. cbn [trace]. rewrite mutating_calls_app. apply app_nil_r. }
      intros _. left. exists (trace w), p.
      split; [reflexivity | now apply nonempty_false].
Qed.

(** What follows a block [m] in [m ;;; k]. *)
Definition then_run {A B} (r : res A * World) (k : M B) : res B * World :=
  match fst r with
  | Val _ => k (snd r)
  | Exc e => (Exc e, snd r)
  | Diverged => (Diverged, snd r)
  end.

(** C6, as the code has it.  [delete_endpoints] first runs a verification
    block that only reads, comes to an end, and is over before the first
    [delete_endpoint] call: the deleting block runs from the world the
    verification left.  The verification ends with the task listing seen
    empty, or with a listing call that failed with a [ClientError], or after
    polling for 180 s with tasks still listed; in the last two cases the
    endpoints are deleted all the same.  [delete_replication_instances] does
    the same with the endpoint listing before its first
    [delete_replication_instance] call. *)
Theorem teardown_verifies_before_deleting (w : World) :
  (let v := DeleteDi.verify_tasks_deleted w in
   fst v <> Diverged
   /\ mutating_calls (trace (snd v)) = mutating_calls (trace w)
   /\ (fst v = Val tt ->
       tasks_seen_gone (snd v) \/ task_listing_failed (snd v)
       \/ now w + 180 <= now (snd v))
   /\ DeleteDi.delete_endpoints w = then_run v DeleteDi.delete_all_endpoints)
  /\ (let v := DeleteDi.verify_endpoints_deleted w in
      fst v <> Diverged
      /\ mutating_calls (trace (snd v)) = mutating_calls (trace w)
      /\ (fst v = Val tt ->
          endpoints_seen_gone (snd v) \/ endpoint_listing_failed (snd v)
          \/ now w + 180 <= now (snd v))
      /\ DeleteDi.delete_replication_instances w
         = then_run v DeleteDi.delete_all_instances).
Proof.
  split.
  - cbv zeta.
    destruct (DeleteDi.verify_tasks_deleted w) as [r w1] eqn:E.
    destruct (verify_tasks_deleted_spec _ E) as (Hd & Hm & Hv).
    cbn [fst snd]. repeat split; try assumption.
    unfold DeleteDi.delete_endpoints, bind, then_run. rewrite E.
    destruct r as [a | e |]; reflexivity.
  - cbv zeta.
    destruct (DeleteDi.verify_endpoints_deleted w) as [r w1] eqn:E.
    destruct (verify_endpoints_deleted_spec _ E) as (Hd & Hm & Hv).
    cbn [fst snd]. repeat split; try assumption.
    unfold DeleteDi.delete_replication_instances, bind, then_run. rewrite E.
    destruct r as [a | e |]; reflexivity.
Qed.

End Teardown.

(** ** The properties on concrete runs *)

Module Runs.

Definition env : list (string * string) :=
  [("AWS_PROFILE", "dev"); ("AWS_ACCOUNT_ID", "123456789012");
   ("AWS_DEFAULT_REGION", "us-east-1")].

(** An account holding one replication task in the given status, linking
    [arn:source] to [arn:target]. *)
Definition account_with_task (status : string) : Ref.Account :=
  Ref.with_tasks Ref.empty_account
    [("dev-sqlserver-to-s3-task",
      Ref.mkTaskBody status None "arn:source" "arn:target" "arn:instance" "{}")].

Definition fresh : @World Ref.cloud := Ref.world Ref.empty_account Absent env 0 [].

Definition with_task (status : string) : @World Ref.cloud :=
  Ref.world (account_with_task status) Absent env 0 [].

(** A prober world: the endpoint has the given engine, every connection
    test reports [status]. *)
Definition probing (engine status : string) (env : list (string * string))
  : @World (Script.probe engine status) :=
  Script.world (Script.probe engine status) tt Absent env [].

Definition frozen (status : string) (console : list string)
  : @World (Script.frozen status) :=
  Script.world (Script.frozen status) tt Absent env console.

(** A first run on a ledger file that holds the single byte 0xFF. *)
Definition with_undecodable_ledger : @World Ref.cloud :=
  Ref.world Ref.empty_account (Unreadable UnicodeDecodeError) env 0 [].

(** On a trace: was a listing of the tasks (of the endpoints) ever empty? *)
Definition listing_never_empty (ev : event) : bool :=
  match ev with
  | EvCall (DescribeReplicationTasks _) (inr (PTasks (_ :: _))) => true
  | EvCall (DescribeReplicationTasks _) _ => false
  | EvCall (DescribeEndpoints _) (inr (PEndpoints (_ :: _))) => true
  | EvCall (DescribeEndpoints _) _ => false
  | _ => true
  end.

Definition is_delete_endpoint (c : call) : bool :=
  match c with DeleteEndpoint _ => true | _ => false end.

Definition is_delete_instance (c : call) : bool :=
  match c with DeleteReplicationInstance _ => true | _ => false end.

End Runs.

(** On a first run there is no ledger file yet: the default skeleton. *)
Lemma load_run_data_default_first_run :
  (ledger_file Runs.fresh = Absent \/ ledger_file Runs.fresh = Corrupt)
  /\ Utils.load_run_data Runs.fresh = (Val Utils.default_run_data, Runs.fresh).
Proof.
  split; [left; reflexivity|].
  apply (proj1 (load_run_data_default Runs.fresh (or_introl eq_refl))).
Defined.

(** C8 on a ledger file that holds the single byte 0xFF: the
    [UnicodeDecodeError] leaves [load_run_data] and [get_resource_data]. *)
Lemma undecodable_ledger_raises :
  let w := Runs.with_undecodable_ledger in
  ledger_file w = Unreadable UnicodeDecodeError
  /\ Utils.load_run_data w = (Exc UnicodeDecodeError, w)
  /\ Utils.get_resource_data (Some "s3") (Some "bucket_name") w
     = (Exc UnicodeDecodeError, w).
Proof.
  cbv zeta.
  destruct (@load_run_data_raises_on_other_errors Ref.cloud
              Runs.with_undecodable_ledger UnicodeDecodeError eq_refl)
    as (Hload & Hget & _).
  split; [reflexivity|]. split; [exact Hload | apply Hget].
Defined.

(** C9 on a first run: the pipeline sets [last_run] to a date of its own
    making, and the ledger holds the clock of the save instead. *)
Lemma last_run_of_caller_is_lost :
  exists r w',
    Utils.update_resource_data "last_run" (JStr "2024-01-01 00:00:00") Runs.fresh
    = (Val r, w')
    /\ ledger_last_run (ledger_file w') = Some (JStr (@isoformat Ref.cloud 0)).
Proof.
  destruct (Utils.update_resource_data "last_run" (JStr "2024-01-01 00:00:00") Runs.fresh)
    as [r w'] eqn:E.
  assert (Hr : exists j, r = Val j) by (vm_compute in E; injection E as <- _; eauto).
  destruct Hr as [j ->]. exists j, w'. split; [reflexivity|].
  exact (proj2 (proj2 (persist_overwrites_last_run Runs.fresh) _ _ _ _ E)).
Defined.

(** C1 on a task that is ready: one start call, of type start-replication. *)
Lemma start_type_of_ready_task :
  let arn := Ref.task_arn "dev-sqlserver-to-s3-task" in
  start_calls (trace (snd (DMS.start_replication_task 3 (Some arn) (Runs.with_task "ready"))))
  = [(arn, "start-replication")].
Proof.
  cbv zeta.
  assert (Hstep : @cloud_step Ref.cloud (remote (Runs.with_task "ready"))
                    (task_poll (Ref.task_arn "dev-sqlserver-to-s3-task"))
                  = (inr (PTasks [mkTask (Ref.task_arn "dev-sqlserver-to-s3-task")
                                         "dev-sqlserver-to-s3-task" "ready" None
                                         "arn:source" "arn:target" "arn:instance" "{}"]),
                     Runs.account_with_task "ready", 0)) by reflexivity.
  destruct (@start_type_by_status Ref.cloud 3
              (Ref.task_arn "dev-sqlserver-to-s3-task") _ _ _ _ _ eq_refl Hstep)
    as (Hready & _).
  exact (Hready eq_refl).
Defined.

(** C5 on an S3 endpoint whose tests fail, with SKIP_S3_CONNECTION_TEST set:
    the prober reports success; and on a SQL Server endpoint whose tests
    fail, with both flags set: the prober reports the failure and [main]
    returns [False]; and when the answers to these tests carry no
    connection id: the prober reports success. *)
Lemma s3_failure_tolerated :
  (let w := Runs.probing "s3" "failed" [("SKIP_S3_CONNECTION_TEST", "TRUE")] in
   exists w', DMS.test_connection (Some "arn:instance") (Some "arn:endpoint") w
              = (Val true, w'))
  /\ (let w := Runs.probing "sqlserver" "failed"
                 [("SKIP_S3_CONNECTION_TEST", "true");
                  ("ACCEPT_S3_CONNECTION_FAILURES", "true")] in
      (exists w', DMS.test_connection (Some "arn:instance") (Some "arn:endpoint") w
                  = (Val false, w'))
      /\ (exists w', DMS.main_after_endpoints 5 (Some "arn:instance")
                       (Some "arn:endpoint") (Some "arn:target") w
                     = (Val false, w')))
  /\ (let w := Script.world (Script.probe_without_id "sqlserver" "failed") tt
                 Absent Runs.env [] in
      exists w', DMS.test_connection (Some "arn:instance") (Some "arn:endpoint") w
                 = (Val true, w')).
Proof.
  split; [|split]; cbv zeta.
  - destruct (proj1 (@s3_failures_tolerated_others_fatal
                       (Script.probe "s3" "failed") 0 "arn:instance" "arn:source"
                       "arn:endpoint"
                       (Runs.probing "s3" "failed" [("SKIP_S3_CONNECTION_TEST", "TRUE")])
                       eq_refl eq_refl)) as [[w' [Ht _]] _].
    + intros []. do 4 eexists. split; reflexivity.
    + left. reflexivity.
    + now exists w'.
  - destruct (proj1 (proj2 (@s3_failures_tolerated_others_fatal
                              (Script.probe "sqlserver" "failed") 5 "arn:instance"
                              "arn:source" "arn:target"
                              (Runs.probing "sqlserver" "failed"
                                 [("SKIP_S3_CONNECTION_TEST", "true");
                                  ("ACCEPT_S3_CONNECTION_FAILURES", "true")])
                              eq_refl eq_refl)) "arn:endpoint" eq_refl)
      as (Ht & _ & Hm & _).
    + intros [] e rest s' dt [= <- _ _]. reflexivity.
    + intros []. do 3 eexists. split; reflexivity.
    + intros [] c rest s' dt [= <- _ _]. reflexivity.
    + split; [exact Ht | exact Hm].
  - apply (proj2 (proj2 (@s3_failures_tolerated_others_fatal
                           (Script.probe_without_id "sqlserver" "failed") 0
                           "arn:instance" "arn:source" "arn:target"
                           (Script.world (Script.probe_without_id "sqlserver" "failed")
                                         tt Absent Runs.env [])
                           eq_refl eq_refl)) "arn:endpoint" eq_refl).
    + intros [] e rest s' dt [= <- _ _]. reflexivity.
    + intros [] r s' dt [= <- _ _]. reflexivity.
    + intros []. do 4 eexists. split; reflexivity.
Defined.

(** C4 on a running task that links the two endpoints: the first call after
    the listing is the delete. *)
Lemma running_task_deleted_unstopped :
  let t := mkTask (Ref.task_arn "dev-sqlserver-to-s3-task") "dev-sqlserver-to-s3-task"
                  "running" None "arn:source" "arn:target" "arn:instance" "{}" in
  exists r tr,
    trace (snd (DMS.delete_existing_tasks "arn:source" "arn:target"
                  (Runs.with_task "running")))
    = EvCall (DescribeReplicationTasks None) (inr (PTasks [t]))
      :: EvCall (DeleteReplicationTask (t_arn t)) r :: tr.
Proof.
  cbv zeta.
  exact (@main_deletes_running_task_unstopped Ref.cloud "arn:source" "arn:target"
           (Runs.with_task "running") _ _ _ _ eq_refl eq_refl eq_refl eq_refl).
Defined.

(** Against C7: a connection test that never completes is polled 30 times in
    each of the three retry rounds (93 [describe_connections] calls with the
    three listings that open the rounds), and the call then returns [False],
    the value it also returns when the test fails outright. *)
Lemma probe_timeout_is_plain_failure :
  let timed_out := DMS.test_connection (Some "arn:instance") (Some "arn:endpoint")
                     (Runs.probing "sqlserver" "testing" []) in
  let failed := DMS.test_connection (Some "arn:instance") (Some "arn:endpoint")
                  (Runs.probing "sqlserver" "failed" []) in
  connection_polls (trace (snd timed_out)) = 93
  /\ DMS.max_poll_attempts < 93 - 3
  /\ fst timed_out = Val false
  /\ fst failed = Val false.
Proof. vm_compute. repeat split; lia. Qed.

(** Against C5: an account in which every connection test fails, and no
    tolerance flag.  The answer to [test_connection] carries no connection
    id, so the prober looks at the status of the endpoint instead of the
    test; the source endpoint (SQL Server) is [active], its test passes,
    and [main] runs the pipeline to its end and returns [True], with the
    failed test of the source endpoint on record in the account. *)
Lemma failed_test_without_id_passes :
  let w := Script.world Script.failing_tests Ref.empty_account Absent Runs.env [] in
  let run := DMS.main 5 (Some ("db.example", 1433))
               (Some "dms-target-123456789012-us-east-1")
               [Some "arn:aws:iam::role/dms-s3-access-role";
                Some "arn:aws:iam::role/dms-vpc-role"] w in
  accept_flag w = false /\ skip_flag w = false
  /\ fst run = Val true
  /\ dict_get "dev-sqlserver-source" (Ref.endpoints (remote (snd run)))
     = Some (Ref.mkEndpointBody "sqlserver" "active" None)
  /\ In (mkConnection (Some "arn:aws:dms:rep:dev-dms-instance")
                      (Some "arn:aws:dms:endpoint:dev-sqlserver-source")
                      "failed" None None)
        (Ref.connections (remote (snd run))).
Proof. vm_compute. repeat split. right. left. reflexivity. Qed.

(** Against C6: tasks and endpoints that never go away.  The teardown waits,
    times out, and issues [delete_endpoint] and [delete_replication_instance]
    although no listing ever came back empty. *)
Lemma teardown_proceeds_after_timeout :
  let tr := trace (snd (DeleteDi.main_dms_steps (Runs.frozen "deleting" ["yes"]))) in
  existsb Runs.is_delete_endpoint (calls tr) = true
  /\ existsb Runs.is_delete_instance (calls tr) = true
  /\ forallb Runs.listing_never_empty tr = true.
Proof. vm_compute. repeat split. Qed.

(** ** Ledger durability *)

Section Durability.
Context `{Cloud}.

Lemma try_except_Val_inv {A} (m : M A) h w a w' :
  try_except m h w = (Val a, w') ->
  m w = (Val a, w')
  \/ exists e w1, m w = (Exc e, w1) /\ h e w1 = (Val a, w').
Proof.
  unfold try_except. destruct (m w) as [[x | e |] w1]; intros E.
  - now left.
  - right. now exists e, w1.
  - discriminate.
Qed.

Lemma ret_Val_inv {A} (a b : A) (w w' : World) :
  ret a w = (Val b, w') -> a = b /\ w' = w.
Proof. unfold ret. now intros [= <- <-]. Qed.

Lemma aws_Val_inv c (w w' : World) p :
  aws c w = (Val p, w') ->
  ledger_file w' = ledger_file w
  /\ trace w' = (trace w ++ [EvCall c (inr p)])%list.
Proof.
  unfold aws. destruct (cloud_step (remote w) c) as [[[e | q] s] dt];
    intros [= <- <-]; split; reflexivity.
Qed.

(** The JSON helpers and the readers of the ledger keep any preorder. *)
Lemma getitem_keeps R d k : preorder R -> keeps R (Utils.getitem d k).
Proof. intros HR. unfold Utils.getitem. frames. Qed.

Lemma setitem_keeps R d k v : preorder R -> keeps R (Utils.setitem d k v).
Proof. intros HR. unfold Utils.setitem. frames. Qed.

Lemma py_in_keeps R d k : preorder R -> keeps R (Utils.py_in k d).
Proof. intros HR. unfold Utils.py_in. frames. Qed.

Lemma load_run_data_keeps R : preorder R -> keeps R Utils.load_run_data.
Proof. intros HR. unfold Utils.load_run_data. frames. Qed.

Lemma get_resource_data_keeps R ty k :
  preorder R -> keeps R (Utils.get_resource_data ty k).
Proof.
  intros HR. pose proof (@getitem_keeps R). pose proof (@py_in_keeps R).
  pose proof (@load_run_data_keeps R).
  unfold Utils.get_resource_data. frames.
Qed.


(** What a successful update of a resource record leaves in the ledger:
    the keys of the update, under [resources][kind]; nothing else in the
    world moves. *)
Lemma update_resource_data_Val kind new (w w' : World) r :
  Utils.update_resource_data kind (JDict new) w = (Val r, w') ->
  (kind =? "last_run") = false ->
  (exists old,
      forall k, ledger_lookup (ledger_file w') kind k = dict_get k (dict_update old new))
  /\ remote w' = remote w /\ trace w' = trace w /\ environ w' = environ w
  /\ now w' = now w /\ stdin w' = stdin w.
Proof.
  intros E Hk. unfold Utils.update_resource_data in E. rewrite Hk in E.
  apply bind_Val_inv in E as (rd & w1 & El & E).
  apply load_run_data_pure in El as Hw1. subst w1.
  apply bind_Val_inv in E as (rd' & w2 & Em & E).
  apply bind_Val_inv in Em as (resources & v1 & E1 & Em).
  apply getitem_pure in E1 as Hv. subst v1.
  apply bind_Val_inv in Em as (present & v2 & E2 & Em).
  apply py_in_pure in E2 as Hv. subst v2.
  apply bind_Val_inv in Em as (resources' & v3 & E3 & Em).
  assert (v3 = w) as ->.
  { destruct present; [unfold ret in E3; now injection E3 | now apply setitem_pure in E3]. }
  apply bind_Val_inv in Em as (record & v4 & E4 & Em).
  apply getitem_pure in E4 as Hv. subst v4.
  destruct record as [| | | | |old]; try (unfold raise in Em; discriminate).
  apply bind_Val_inv in Em as (resources'' & v5 & E5 & Em).
  apply setitem_Val in E5 as (rl & -> & -> & ->).
  apply setitem_Val in Em as (top & -> & -> & ->).
  apply bind_Val_inv in E as (rd'' & w3 & Es & E).
  apply ret_Val_inv in E as (<- & ->).
  apply save_run_data_Val in Es as (l & [= <-] & -> & Hl & Hr & Ht & Hn & He & Hi).
  split; [|repeat split; assumption].
  exists old. intros k. rewrite Hl. unfold ledger_lookup.
  assert (Hne : "resources" <> "last_run") by discriminate.
  assert (Hne' : "last_run" <> "resources") by discriminate.
  rewrite (dict_get_set_other _ _ Hne'), dict_get_set_same, dict_get_set_same.
  reflexivity.
Qed.

Lemma dict_update_two {V} (old : list (string * V)) k1 v1 k2 v2 :
  k1 <> k2 ->
  dict_get k1 (dict_update old [(k1, v1); (k2, v2)]) = Some v1
  /\ dict_get k2 (dict_update old [(k1, v1); (k2, v2)]) = Some v2.
Proof.
  intros Hne. unfold dict_update. cbn. split.
  - rewrite dict_get_set_other by congruence. apply dict_get_set_same.
  - apply dict_get_set_same.
Qed.


(** A run of a program that keeps [R], read as a fact about its two
    worlds. *)
Lemma keeps_run {A} R (m : M A) (w w' : World) r :
  keeps R m -> m w = (r, w') -> R w w'.
Proof. intros Hk E. specialize (Hk w). now rewrite E in Hk. Qed.

End Durability.

Ltac inv_bind E := let a := fresh "a" in let w := fresh "w" in let E1 := fresh "E" in
  apply bind_Val_inv in E as (a & w & E1 & E).


Ltac use_update old Hl :=
  match goal with
  | Hu : Utils.update_resource_data _ _ _ = _ |- _ =>
      apply update_resource_data_Val in Hu as ((old & Hl) & _); [|reflexivity]
  end.

Section DurableReconcilers.
Context `{Cloud}.







Lemma iam_main_durable force (w w' : World) s3_role vpc_role :
  IAM.main force w = (Val (Some s3_role, Some vpc_role), w') ->
  ledger_lookup (ledger_file w') "iam" "s3_role_arn" = Some (JStr s3_role)
  /\ ledger_lookup (ledger_file w') "iam" "vpc_role_arn" = Some (JStr vpc_role).
Proof.
  intros E. unfold IAM.main in E. do 2 inv_bind E.
  destruct (truthy a && truthy a0);
    [|apply ret_Val_inv in E as (? & _); discriminate].
  inv_bind E. apply ret_Val_inv in E as ([= -> ->] & ->).
  use_update old Hl. rewrite !Hl. cbn [fstr].
  match goal with |- context[dict_update old [(?k1, ?v1); (?k2, ?v2)]] =>
    destruct (@dict_update_two _ old k1 v1 k2 v2) as [H1 H2]; [discriminate|] end.
  now split.
Qed.


End DurableReconcilers.

(** ** Idempotence on the reference account *)

Section RefFacts.
Import Ref.

Abbreviation RW := (@World Ref.cloud).

(** Nothing changes between calls, and a call that is not mutating changes
    nothing. *)
Lemma step_readonly (a : Account) (c : call) :
  mutating c = false -> snd (step a c) = a.
Proof.
  destruct c; try discriminate; intros _; cbn.
  - destruct (dict_has bucket (buckets a)); reflexivity.
  - destruct (dict_get bucket (buckets a)) as [keys|]; [|reflexivity].
    destruct (filter (starts_with prefix) keys); reflexivity.
  - destruct (dict_get id (databases a)); reflexivity.
  - destruct (dict_has id (databases a)); reflexivity.
  - destruct (dict_has name (roles a)); reflexivity.
  - destruct (dict_get name (roles a)); reflexivity.
  - destruct (select _ _ _ _ f (instances a)); reflexivity.
  - destruct (dict_has id (instances a)); reflexivity.
  - destruct (select _ _ _ _ f (endpoints a)); reflexivity.
  - destruct (select _ _ _ _ f (tasks a)); reflexivity.
  - destruct (dict_get id (tasks a)) as [b|]; [|reflexivity].
    destruct (tb_status b =? "stopped"); reflexivity.
  - destruct (dict_get id (tasks a)) as [b|]; [|reflexivity].
    destruct (tb_status b =? "ready"); reflexivity.
  - reflexivity.
Qed.

(** A call on the reference account, read off its step function. *)
Lemma aws_ref (c : call) (w w' : RW) (r : res payload) :
  aws c w = (r, w') ->
  r = match fst (step (remote w) c) with inl e => Exc e | inr p => Val p end
  /\ remote w' = snd (step (remote w) c)
  /\ ledger_file w' = ledger_file w /\ environ w' = environ w
  /\ now w' = now w + 0 /\ stdin w' = stdin w
  /\ trace w' = (trace w ++ [EvCall c (fst (step (remote w) c))])%list.
Proof.
  unfold aws. cbn [cloud_step cloud].
  destruct (step (remote w) c) as [[e | p] s]; intros [= <- <-]; cbn;
    repeat split; reflexivity.
Qed.

(** The same, forwards. *)
Lemma aws_ref_run (c : call) (w : RW) :
  aws c w = (match fst (step (remote w) c) with inl e => Exc e | inr p => Val p end,
             mkWorld (snd (step (remote w) c)) (ledger_file w) (environ w)
                     (now w + 0) (stdin w)
                     (trace w ++ [EvCall c (fst (step (remote w) c))])).
Proof.
  unfold aws. cbn [cloud_step cloud].
  destruct (step (remote w) c) as [[e | p] s]; reflexivity.
Qed.

Definition same_remote (w w' : RW) : Prop := remote w' = remote w.

Lemma same_remote_pre : preorder same_remote.
Proof. split; unfold same_remote; [reflexivity | intros a b c E1 E2; congruence]. Qed.

Lemma same_remote_aws c : mutating c = false -> keeps same_remote (aws c).
Proof.
  intros Hc w. unfold same_remote. rewrite aws_ref_run. cbn [snd remote].
  now apply step_readonly.
Qed.

Lemma same_remote_sleep n : keeps same_remote (sleep n).
Proof. intros w. reflexivity. Qed.

Lemma same_remote_print l : keeps same_remote (print l).
Proof. intros w. reflexivity. Qed.

Lemma same_remote_write j : keeps same_remote (write_ledger_file j).
Proof. intros w. reflexivity. Qed.

End RefFacts.

#[export] Hint Resolve same_remote_pre same_remote_sleep same_remote_print
  same_remote_write getitem_keeps setitem_keeps py_in_keeps load_run_data_keeps
  get_resource_data_keeps : frames.
#[export] Hint Extern 1 (keeps same_remote (aws _)) =>
  (apply same_remote_aws; reflexivity) : frames.

Section LedgerAgain.
Context `{Cloud}.

(** A ledger file that has taken an update of a record takes the next one
    too. *)
Definition accepts (f : file_state) (kind : string) : Prop :=
  exists top resources record,
    f = Parsed (JDict top)
    /\ dict_get "resources" top = Some (JDict resources)
    /\ dict_get kind resources = Some (JDict record).

Lemma update_resource_data_accepts kind new (w w' : World) r :
  Utils.update_resource_data kind (JDict new) w = (Val r, w') ->
  (kind =? "last_run") = false ->
  accepts (ledger_file w') kind.
Proof.
  intros E Hk. unfold Utils.update_resource_data in E. rewrite Hk in E.
  apply bind_Val_inv in E as (rd & w1 & El & E).
  apply load_run_data_pure in El as Hw1. subst w1.
  apply bind_Val_inv in E as (rd' & w2 & Em & E).
  apply bind_Val_inv in Em as (resources & v1 & E1 & Em).
  apply getitem_pure in E1 as Hv. subst v1.
  apply bind_Val_inv in Em as (present & v2 & E2 & Em).
  apply py_in_pure in E2 as Hv. subst v2.
  apply bind_Val_inv in Em as (resources' & v3 & E3 & Em).
  assert (v3 = w) as ->.
  { destruct present; [unfold ret in E3; now injection E3 | now apply setitem_pure in E3]. }
  apply bind_Val_inv in Em as (record & v4 & E4 & Em).
  apply getitem_pure in E4 as Hv. subst v4.
  destruct record as [| | | | |old]; try (unfold raise in Em; discriminate).
  apply bind_Val_inv in Em as (resources'' & v5 & E5 & Em).
  apply setitem_Val in E5 as (rl & -> & -> & ->).
  apply setitem_Val in Em as (top & -> & -> & ->).
  apply bind_Val_inv in E as (rd'' & w3 & Es & E).
  apply ret_Val_inv in E as (<- & ->).
  apply save_run_data_Val in Es as (l & [= <-] & -> & Hl & _).
  rewrite Hl. do 3 eexists. split; [reflexivity|]. split.
  - rewrite dict_get_set_other by discriminate. apply dict_get_set_same.
  - apply dict_get_set_same.
Qed.

Lemma accepts_inv kind new (w w' : World) r :
  Utils.update_resource_data kind (JDict new) w = (Val r, w') ->
  (kind =? "last_run") = false ->
  remote w' = remote w /\ trace w' = trace w /\ environ w' = environ w
  /\ now w' = now w /\ stdin w' = stdin w /\ accepts (ledger_file w') kind.
Proof.
  intros E Hk.
  pose proof (update_resource_data_accepts _ _ _ E Hk) as Ha.
  apply update_resource_data_Val in E as (_ & ? & ? & ? & ? & ?); [|exact Hk].
  repeat split; assumption.
Qed.

(** The next update, computed. *)
Lemma update_resource_data_again kind new (w : World) top resources record :
  ledger_file w = Parsed (JDict top) ->
  dict_get "resources" top = Some (JDict resources) ->
  dict_get kind resources = Some (JDict record) ->
  (kind =? "last_run") = false ->
  let r := JDict (dict_set "last_run" (JStr (isoformat (now w)))
                    (dict_set "resources"
                       (JDict (dict_set kind (JDict (dict_update record new)) resources))
                       top)) in
  Utils.update_resource_data kind (JDict new) w
  = (Val r, mkWorld (remote w) (Parsed r) (environ w) (now w) (stdin w) (trace w)).
Proof.
  intros Hf Hr Hk Hl. cbv zeta.
  unfold Utils.update_resource_data. rewrite Hl.
  unfold bind at 1. unfold Utils.load_run_data at 1. unfold bind at 1.
  unfold read_ledger_file at 1. rewrite Hf. unfold ret at 1.
  unfold bind at 1. unfold bind at 1. unfold Utils.getitem at 1.
  rewrite Hr. unfold ret at 1.
  unfold bind at 1. unfold Utils.py_in at 1. unfold dict_has. rewrite Hk.
  unfold ret at 1. unfold bind at 1. unfold ret at 1.
  unfold bind at 1. unfold Utils.getitem at 1. rewrite Hk. unfold ret at 1.
  unfold bind at 1. unfold Utils.setitem at 1. unfold ret at 1.
  unfold Utils.setitem at 1. unfold ret at 1.
  unfold bind at 1. unfold Utils.save_run_data.
  unfold bind, time, Utils.setitem, write_ledger_file, ret. reflexivity.
Qed.

Definition ledger_top (f : file_state) (k : string) : option json :=
  match f with
  | Parsed (JDict top) => dict_get k top
  | _ => None
  end.

(** A ledger whose document has no top-level ["dms"] entry, which is the
    case of every ledger written from the default skeleton, makes
    [create_target_endpoint] skip its immediate connection test. *)
Lemma ledger_replication_instance_arn_none (w : World) top :
  ledger_file w = Parsed (JDict top) ->
  dict_get "dms" top = None ->
  DMS.ledger_replication_instance_arn w = (Val JNull, w).
Proof.
  intros Hf Hd. unfold DMS.ledger_replication_instance_arn, DMS.get_run_data.
  unfold Utils.get_resource_data. cbn [truthy negb].
  unfold bind at 1. unfold bind at 1. unfold Utils.load_run_data at 1.
  unfold bind at 1. unfold read_ledger_file at 1. rewrite Hf.
  unfold ret at 1. unfold ret at 1.
  destruct (json_truthy (JDict top)); [|reflexivity].
  unfold bind at 1. unfold Utils.py_in at 1. unfold dict_has. rewrite Hd.
  reflexivity.
Qed.

(** The readers of the ledger against [ledger_lookup]. *)
Lemma get_resource_data_lookup (w : World) kind key v :
  ledger_lookup (ledger_file w) kind key = Some v ->
  truthy (Some kind) = true -> truthy (Some key) = true ->
  Utils.get_resource_data (Some kind) (Some key) w = (Val v, w).
Proof.
  intros Hl Hk Hy. unfold ledger_lookup in Hl.
  destruct (ledger_file w) as [| | |j] eqn:Hf; try discriminate.
  destruct j as [| | | | |top]; try discriminate.
  destruct (dict_get "resources" top) as [res|] eqn:Hr; [|discriminate].
  destruct res as [| | | | |resources]; try discriminate.
  destruct (dict_get kind resources) as [rc|] eqn:Hrc; [|discriminate].
  destruct rc as [| | | | |record]; try discriminate.
  unfold Utils.get_resource_data. rewrite Hk, Hy. cbn [negb fstr].
  unfold bind at 1. unfold Utils.load_run_data at 1. unfold bind at 1.
  unfold read_ledger_file at 1. rewrite Hf. unfold ret at 1.
  unfold bind at 1. unfold Utils.getitem at 1. rewrite Hr. unfold ret at 1.
  unfold bind at 1. unfold Utils.py_in at 1. unfold dict_has. rewrite Hrc.
  unfold ret at 1. cbn [negb].
  unfold bind at 1. unfold Utils.getitem at 1. rewrite Hrc. unfold ret at 1.
  rewrite Hl. reflexivity.
Qed.

Lemma save_run_data_keeps R j :
  preorder R -> (forall j', keeps R (write_ledger_file j')) ->
  keeps R (Utils.save_run_data j).
Proof.
  intros HR Hw. pose proof (@setitem_keeps _ R).
  unfold Utils.save_run_data. frames.
Qed.

Lemma update_resource_data_keeps R kind data :
  preorder R -> (forall j', keeps R (write_ledger_file j')) ->
  keeps R (Utils.update_resource_data kind data).
Proof.
  intros HR Hw. pose proof (@setitem_keeps _ R). pose proof (@getitem_keeps _ R).
  pose proof (@py_in_keeps _ R). pose proof (@load_run_data_keeps _ R).
  pose proof (fun j => @save_run_data_keeps R j HR Hw).
  unfold Utils.update_resource_data. frames.
Qed.

Lemma same_env_write j : keeps same_env (write_ledger_file j).
Proof. intros w. reflexivity. Qed.

Lemma same_env_update kind data : keeps same_env (Utils.update_resource_data kind data).
Proof. apply update_resource_data_keeps; [apply same_env_pre | apply same_env_write]. Qed.

Lemma no_new_mutation_update kind data :
  keeps no_new_mutation (Utils.update_resource_data kind data).
Proof.
  apply update_resource_data_keeps; [apply no_new_mutation_pre|].
  intros j w. reflexivity.
Qed.

End LedgerAgain.

#[export] Hint Resolve same_env_update same_env_write no_new_mutation_update : frames.

(** * Further properties of the modules *)

(** ** More on dictionaries *)

Lemma dict_set_set {V : Type} (k : string) (v v' : V) d :
  dict_set k v (dict_set k v' d) = dict_set k v d.
Proof.
  induction d as [|[k0 v0] d IH]; simpl.
  - now rewrite String.eqb_refl.
  - destruct (k0 =? k) eqn:E; simpl.
    + now rewrite String.eqb_refl.
    + now rewrite E, IH.
Qed.

Lemma dict_get_update_notin {V : Type} (k : string) (new old : list (string * V)) :
  ~ In k (map fst new) -> dict_get k (dict_update old new) = dict_get k old.
Proof.
  unfold dict_update. revert old.
  induction new as [|[k0 v0] new IH]; intros old Hn; simpl; [reflexivity|].
  rewrite IH by (intros Hi; apply Hn; now right).
  apply dict_get_set_other. intros ->. apply Hn. now left.
Qed.

Lemma dict_get_update_in {V : Type} (k : string) (v : V) (new old : list (string * V)) :
  NoDup (map fst new) -> In (k, v) new ->
  dict_get k (dict_update old new) = Some v.
Proof.
  unfold dict_update. revert old.
  induction new as [|[k0 v0] new IH]; intros old Hd Hi; simpl; [destruct Hi|].
  inversion Hd as [|? ? Hnot Hd']; subst.
  destruct Hi as [[= -> ->] | Hi].
  - change (dict_get k (dict_update (dict_set k v old) new) = Some v).
    rewrite dict_get_update_notin by exact Hnot. apply dict_get_set_same.
  - now apply IH.
Qed.

(** ** Reading back what was written (utils.py) *)

Section LedgerRoundTrip.
Context `{Cloud}.

(** The document [load_run_data] works on. *)
Definition ledger_doc (f : file_state) : option json :=
  match f with
  | Parsed j => Some j
  | Absent | Corrupt => Some Utils.default_run_data
  | Unreadable _ => None
  end.

Lemma load_run_data_doc (w : World) j :
  ledger_doc (ledger_file w) = Some j -> Utils.load_run_data w = (Val j, w).
Proof.
  unfold ledger_doc, Utils.load_run_data, bind, read_ledger_file.
  destruct (ledger_file w); intros [= <-]; reflexivity.
Qed.

Lemma load_run_data_Val (w w' : World) j :
  Utils.load_run_data w = (Val j, w') ->
  ledger_doc (ledger_file w) = Some j /\ w' = w.
Proof.
  unfold ledger_doc, Utils.load_run_data, bind, read_ledger_file.
  destruct (ledger_file w); intros [= <- <-]; split; reflexivity.
Qed.

Lemma getitem_Val d k (w w' : World) v :
  Utils.getitem d k w = (Val v, w') ->
  exists l, d = JDict l /\ dict_get k l = Some v /\ w' = w.
Proof.
  unfold Utils.getitem, ret, raise. destruct d; try discriminate.
  destruct (dict_get k d) eqn:E; intros [= <- <-]. eauto.
Qed.

(** What a successful update of a record writes, in full. *)
Lemma update_resource_data_shape kind new (w w' : World) r :
  Utils.update_resource_data kind (JDict new) w = (Val r, w') ->
  (kind =? "last_run") = false ->
  exists top resources old,
    ledger_doc (ledger_file w) = Some (JDict top)
    /\ dict_get "resources" top = Some (JDict resources)
    /\ (dict_get kind resources = Some (JDict old)
        \/ dict_get kind resources = None /\ old = [])
    /\ r = JDict (dict_set "last_run" (JStr (isoformat (now w)))
                   (dict_set "resources"
                      (JDict (dict_set kind (JDict (dict_update old new)) resources))
                      top))
    /\ ledger_file w' = Parsed r.
Proof.
  intros E Hk. unfold Utils.update_resource_data in E. rewrite Hk in E.
  apply bind_Val_inv in E as (rd & w1 & El & E).
  apply load_run_data_Val in El as (Hdoc & ->).
  apply bind_Val_inv in E as (rd' & w2 & Em & E).
  apply bind_Val_inv in Em as (resources & v1 & E1 & Em).
  apply getitem_Val in E1 as (top & -> & Hres & ->).
  apply bind_Val_inv in Em as (present & v2 & E2 & Em).
  destruct resources as [| b | n | s | l | rl]; try discriminate.
  - (* a string of resources: no item can be read or assigned by key *)
    apply ret_Val_inv in E2 as (<- & ->).
    apply bind_Val_inv in Em as (x & v3 & E3 & Em).
    destruct (contains kind s);
      [apply ret_Val_inv in E3 as (<- & ->) | discriminate].
    apply bind_Val_inv in Em as (y & v4 & E4 & Em). discriminate.
  - apply ret_Val_inv in E2 as (<- & ->).
    apply bind_Val_inv in Em as (x & v3 & E3 & Em).
    destruct (existsb (json_eqb (JStr kind)) l);
      [apply ret_Val_inv in E3 as (<- & ->) | discriminate].
    apply bind_Val_inv in Em as (y & v4 & E4 & Em). discriminate.
  - apply ret_Val_inv in E2 as (<- & ->).
    apply bind_Val_inv in Em as (resources' & v3 & E3 & Em).
    apply bind_Val_inv in Em as (record & v4 & E4 & Em).
    apply bind_Val_inv in E as (rd'' & w3 & Es & E).
    apply ret_Val_inv in E as (<- & ->).
    unfold dict_has in E3.
    destruct (dict_get kind rl) as [rc|] eqn:Hrc.
    + apply ret_Val_inv in E3 as (<- & ->).
      apply getitem_Val in E4 as (l & [= <-] & Hrc' & ->).
      rewrite Hrc in Hrc'. injection Hrc' as ->.
      destruct record as [| | | | |old]; try discriminate.
      apply bind_Val_inv in Em as (resources'' & v5 & E5 & Em).
      apply setitem_Val in E5 as (l & [= <-] & -> & ->).
      apply setitem_Val in Em as (l & [= <-] & -> & ->).
      apply save_run_data_Val in Es as (l & [= <-] & -> & Hl & _).
      exists top, rl, old. repeat split; auto.
    + apply setitem_Val in E3 as (l & [= <-] & -> & ->).
      apply getitem_Val in E4 as (l & [= <-] & Hrc' & ->).
      rewrite dict_get_set_same in Hrc'. injection Hrc' as <-.
      apply bind_Val_inv in Em as (resources'' & v5 & E5 & Em).
      apply setitem_Val in E5 as (l & [= <-] & -> & ->).
      apply setitem_Val in Em as (l & [= <-] & -> & ->).
      apply save_run_data_Val in Es as (l & [= <-] & -> & Hl & _).
      exists top, rl, []. rewrite dict_set_set in Hl |- *.
      repeat split; auto.
Qed.

(** [get_resource_data(kind, key)], computed on a ledger whose document has
    a dict of resources. *)
Lemma get_resource_data_run (w : World) top resources kind key :
  ledger_doc (ledger_file w) = Some (JDict top) ->
  dict_get "resources" top = Some (JDict resources) ->
  truthy (Some kind) = true -> truthy (Some key) = true ->
  Utils.get_resource_data (Some kind) (Some key) w
  = match dict_get kind resources with
    | None => (Val JNull, w)
    | Some (JDict record) =>
        (Val (match dict_get key record with Some v => v | None => JNull end), w)
    | Some _ => (Exc (mkExn false "AttributeError" "get"), w)
    end.
Proof.
  intros Hdoc Hres Hk Hy.
  unfold Utils.get_resource_data. rewrite Hk, Hy. cbn [negb fstr].
  rewrite (bind_Val _ _ _ (load_run_data_doc _ Hdoc)).
  unfold bind at 1. unfold Utils.getitem at 1. rewrite Hres. unfold ret at 1.
  unfold bind at 1. unfold Utils.py_in at 1. unfold dict_has, ret at 1.
  destruct (dict_get kind resources) as [rc|] eqn:Hrc; cbn [negb]; [|reflexivity].
  unfold bind at 1. unfold Utils.getitem at 1. rewrite Hrc. unfold ret at 1.
  destruct rc; reflexivity.
Qed.

(** X1.  What [update_resource_data] wrote under a record,
    [get_resource_data] reads back: after a successful
    [update_resource_data(kind, new)], every entry [key: v] of [new] is what
    [get_resource_data(kind, key)] returns, for a record type and a key that
    are not empty strings (for an empty key [get_resource_data] returns the
    whole record, for an empty type the whole document). *)
Theorem update_then_get (kind key : string) (new : list (string * json)) (v r : json)
        (w w' : World) :
  Utils.update_resource_data kind (JDict new) w = (Val r, w') ->
  (kind =? "last_run") = false ->
  truthy (Some kind) = true -> truthy (Some key) = true ->
  NoDup (map fst new) -> In (key, v) new ->
  Utils.get_resource_data (Some kind) (Some key) w' = (Val v, w').
Proof.
  intros E Hk Hkind Hkey Hd Hi.
  apply update_resource_data_shape in E
    as (top & resources & old & _ & _ & _ & -> & Hl); [|exact Hk].
  erewrite get_resource_data_run; [| rewrite Hl; reflexivity | | exact Hkind | exact Hkey].
  2:{ rewrite dict_get_set_other by discriminate. apply dict_get_set_same. }
  rewrite dict_get_set_same. now rewrite (@dict_get_update_in _ key v new old Hd Hi).
Qed.

(** X2.  An update of one record leaves the others as they read before:
    after a successful [update_resource_data(kind, new)],
    [get_resource_data(kind', key')] returns what it returned before the
    update, for every other record type [kind'], and for [kind] itself at
    every key that [new] does not mention. *)
Theorem update_keeps_other_entries (kind kind' key' : string)
        (new : list (string * json)) (r : json) (w w' : World) :
  Utils.update_resource_data kind (JDict new) w = (Val r, w') ->
  (kind =? "last_run") = false ->
  truthy (Some kind') = true -> truthy (Some key') = true ->
  kind' <> kind \/ ~ In key' (map fst new) ->
  fst (Utils.get_resource_data (Some kind') (Some key') w')
  = fst (Utils.get_resource_data (Some kind') (Some key') w).
Proof.
  intros E Hk Hkind Hkey Hother.
  apply update_resource_data_shape in E
    as (top & resources & old & Hdoc & Hres & Hold & -> & Hl); [|exact Hk].
  erewrite (@get_resource_data_run w');
    [| rewrite Hl; reflexivity | | exact Hkind | exact Hkey].
  2:{ rewrite dict_get_set_other by discriminate. apply dict_get_set_same. }
  rewrite (@get_resource_data_run w top resources kind' key' Hdoc Hres Hkind Hkey).
  destruct (String.eqb_spec kind' kind) as [-> | Hne].
  - destruct Hother as [Hc | Hnot]; [now contradiction Hc|].
    rewrite dict_get_set_same, (@dict_get_update_notin _ key' new old Hnot).
    destruct Hold as [-> | [-> ->]]; reflexivity.
  - rewrite dict_get_set_other by congruence.
    destruct (dict_get kind' resources) as [[]|]; reflexivity.
Qed.

End LedgerRoundTrip.

(** ** Which calls a program issues *)

Section CallsOnly.
Context `{Cloud}.

(** [only P w w']: the run from [w] to [w'] added events to the trace, and
    every call among them satisfies [P]. *)
Definition only (P : call -> Prop) (w w' : World) : Prop :=
  exists tr, trace w' = (trace w ++ tr)%list /\ Forall P (calls tr).

Lemma only_pre P : preorder (only P).
Proof.
  split.
  - intros w. exists []. split; [now rewrite app_nil_r | constructor].
  - intros a b c (t1 & E1 & F1) (t2 & E2 & F2). exists (t1 ++ t2)%list.
    split; [now rewrite E2, E1, app_assoc|].
    rewrite calls_app. apply Forall_app. now split.
Qed.

Lemma only_aws (P : call -> Prop) c : P c -> keeps (only P) (aws c).
Proof.
  intros Hc w. unfold aws, only.
  destruct (cloud_step (remote w) c) as [[[e | p] s] dt]; cbn [snd trace];
    (eexists; split; [reflexivity | cbn; constructor; [exact Hc | constructor]]).
Qed.

Lemma only_sleep P n : keeps (only P) (sleep n).
Proof. intros w. exists [EvSleep n]. split; [reflexivity | constructor]. Qed.

Lemma only_print P l : keeps (only P) (print l).
Proof. intros w. exists [EvPrint l]. split; [reflexivity | constructor]. Qed.

Lemma only_write P j : keeps (only P) (write_ledger_file j).
Proof.
  intros w. exists []. split; [cbn; now rewrite app_nil_r | constructor].
Qed.

Lemma only_input P : keeps (only P) input.
Proof.
  intros w. exists []. split; [|constructor].
  unfold input. destruct (stdin w); cbn; now rewrite app_nil_r.
Qed.

Lemma only_update P kind data : keeps (only P) (Utils.update_resource_data kind data).
Proof. apply update_resource_data_keeps; [apply only_pre | apply only_write]. Qed.

Lemma only_weaken (P Q : call -> Prop) (w w' : World) :
  (forall c, P c -> Q c) -> only P w w' -> only Q w w'.
Proof.
  intros HPQ (tr & E & F). exists tr. split; [exact E|].
  eapply Forall_impl; [exact HPQ | exact F].
Qed.

(** No call at all. *)
Definition silent (w w' : World) : Prop := calls (trace w') = calls (trace w).

Lemma only_nothing_silent (w w' : World) : only (fun _ => False) w w' -> silent w w'.
Proof.
  intros (tr & E & F). unfold silent. rewrite E, calls_app.
  destruct (calls tr) as [|c l]; [apply app_nil_r|]. now inversion F.
Qed.

End CallsOnly.

#[export] Hint Resolve only_pre only_sleep only_print only_write only_input
  only_update : frames.
#[export] Hint Extern 1 (keeps (only _) (aws _)) =>
  (apply only_aws; solve [cbn; auto]) : frames.

(** ** Termination of the ledger operations *)

Section LedgerTermination.
Context `{Cloud}.

Lemma getitem_terminates d k : terminates (Utils.getitem d k).
Proof. unfold Utils.getitem. frames. Qed.

Lemma setitem_terminates d k v : terminates (Utils.setitem d k v).
Proof. unfold Utils.setitem. frames. Qed.

Lemma py_in_terminates d k : terminates (Utils.py_in k d).
Proof. unfold Utils.py_in. frames. Qed.

Lemma load_run_data_terminates : terminates Utils.load_run_data.
Proof.
  unfold Utils.load_run_data. apply terminates_bind; [intros w; discriminate|].
  intros f. frames.
Qed.

Lemma save_run_data_terminates j : terminates (Utils.save_run_data j).
Proof.
  pose proof setitem_terminates. unfold Utils.save_run_data.
  apply terminates_bind; [frames|]. intros t.
  apply terminates_bind; [frames|]. intros d.
  apply terminates_bind; [intros w; discriminate|]. intros _. frames.
Qed.

Lemma update_resource_data_terminates kind data :
  terminates (Utils.update_resource_data kind data).
Proof.
  pose proof setitem_terminates. pose proof getitem_terminates.
  pose proof py_in_terminates. pose proof load_run_data_terminates.
  pose proof save_run_data_terminates.
  unfold Utils.update_resource_data. frames.
Qed.

Lemma get_resource_data_terminates ty k : terminates (Utils.get_resource_data ty k).
Proof.
  pose proof getitem_terminates. pose proof py_in_terminates.
  pose proof load_run_data_terminates.
  unfold Utils.get_resource_data. frames.
Qed.

End LedgerTermination.

#[export] Hint Resolve getitem_terminates setitem_terminates py_in_terminates
  load_run_data_terminates save_run_data_terminates
  update_resource_data_terminates get_resource_data_terminates : frames.

(** ** The target bucket (S3.py, DMS.check_s3_bucket_exists) *)

Section Buckets.
Context `{Cloud}.

(** The name [create_s3_bucket] gives the bucket. *)
Definition target_bucket (w : World) : string :=
  "dms-target-" ++ fstr (dict_get "AWS_ACCOUNT_ID" (environ w)) ++ "-"
  ++ fstr (dict_get "AWS_DEFAULT_REGION" (environ w)).

Definition not_found_404 (e : exn) : bool := ClientError e && (err_code e =? "404").

Lemma create_s3_bucket_found (w : World) (p : payload) (s : RS) (dt : nat) :
  cloud_step (remote w) (HeadBucket (target_bucket w)) = (inr p, s, dt) ->
  exists w',
    S3.create_s3_bucket w = (Val (Some (target_bucket w)), w')
    /\ trace w' = (trace w ++ [EvCall (HeadBucket (target_bucket w)) (inr p)])%list
    /\ ledger_file w' = ledger_file w.
Proof.
  intros Hstep. unfold S3.create_s3_bucket.
  unfold bind at 1. unfold getenv at 1.
  unfold bind at 1. unfold getenv at 1. cbv beta iota zeta.
  fold (target_bucket w).
  unfold try_except_if, try_except. unfold bind at 1. unfold bind at 1.
  unfold aws at 1. rewrite Hstep.
  unfold ret. eexists. repeat split.
Qed.

(** X3.  [create_s3_bucket] creates the bucket only on a 404 of
    [head_bucket].  When [head_bucket] succeeds it returns the bucket name,
    and when [head_bucket] fails in any other way (403 of a bucket owned by
    someone else, network error) it returns [None]; in both cases
    [head_bucket] is the only call it issues and the ledger is left as it
    was. *)
Theorem create_s3_bucket_creates_only_on_404 (w : World) (r : response) (s : RS) (dt : nat) :
  cloud_step (remote w) (HeadBucket (target_bucket w)) = (r, s, dt) ->
  match r with inl e => not_found_404 e = false | inr _ => True end ->
  exists w',
    S3.create_s3_bucket w
    = (Val (match r with inl _ => None | inr _ => Some (target_bucket w) end), w')
    /\ trace w' = (trace w ++ [EvCall (HeadBucket (target_bucket w)) r])%list
    /\ ledger_file w' = ledger_file w.
Proof.
  intros Hstep Hr. destruct r as [e | p].
  - unfold S3.create_s3_bucket.
    unfold bind at 1. unfold getenv at 1.
    unfold bind at 1. unfold getenv at 1. cbv beta iota zeta.
    fold (target_bucket w).
    unfold try_except_if, try_except. unfold bind at 1. unfold bind at 1.
    unfold aws at 1. rewrite Hstep.
    unfold not_found_404 in Hr. destruct (ClientError e); cbn [andb] in Hr.
    + rewrite Hr. unfold raise, ret. eexists. repeat split.
    + unfold raise, ret. eexists. repeat split.
  - exact (create_s3_bucket_found w Hstep).
Qed.

Lemma create_s3_bucket_name (w w1 : World) b :
  S3.create_s3_bucket w = (Val (Some b), w1) -> b = target_bucket w.
Proof.
  intros E. unfold S3.create_s3_bucket in E.
  unfold bind at 1 in E. unfold getenv at 1 in E.
  unfold bind at 1 in E. unfold getenv at 1 in E. cbv beta iota zeta in E.
  apply try_except_Val_inv in E as [E | (e & w0 & _ & E)];
    [|apply ret_Val_inv in E as (? & _); discriminate].
  apply bind_Val_inv in E as (u & w0 & _ & E).
  apply ret_Val_inv in E as ([= <-] & _). reflexivity.
Qed.

Lemma create_s3_folder_total b f : total (S3.create_s3_folder b f).
Proof.
  unfold S3.create_s3_folder. destruct (negb (truthy b)); [frames|].
  apply total_try_except; [frames | intros e; frames].
Qed.

(** X4.  [S3.main] returns the bucket name as soon as the bucket is there:
    whatever becomes of the folder (the [put_object] call or the ledger
    update may fail), the failure of [create_s3_folder] is not passed on. *)
Theorem s3_main_returns_bucket_despite_folder (w w1 : World) (b : string) :
  S3.create_s3_bucket w = (Val (Some b), w1) ->
  exists w2, S3.main w = (Val (Some b), w2).
Proof.
  intros E. pose proof (create_s3_bucket_name _ E) as Hb.
  unfold S3.main. rewrite (bind_Val _ _ _ E).
  assert (Ht : truthy (Some b) = true) by (rewrite Hb; reflexivity).
  rewrite Ht. unfold bind.
  destruct (create_s3_folder_total (Some b) "dms-data" w1) as [ok Hok].
  destruct (S3.create_s3_folder (Some b) "dms-data" w1) as [r w2].
  cbn in Hok. subst r. unfold ret. now exists w2.
Qed.

End Buckets.

Section BucketCheck.
Context `{Cloud}.

Definition bucket_missing (e : exn) : bool :=
  ClientError e && ((err_code e =? "404") || (err_code e =? "NoSuchBucket")).

(** X5.  [check_s3_bucket_exists] changes nothing in two cases.  When
    [head_bucket] fails otherwise than with a [ClientError] of code 404 or
    NoSuchBucket, it returns [False] and [head_bucket] is its only call: no
    bucket is created.  When the bucket is there and the listing of
    [dms-data/] shows an object, it returns [True] after these two reads. *)
Theorem check_s3_bucket_exists_read_only (bucket : string) (w : World) :
  truthy (Some bucket) = true ->
  (forall e s dt,
      cloud_step (remote w) (HeadBucket bucket) = (inl e, s, dt) ->
      bucket_missing e = false ->
      exists w',
        DMS.check_s3_bucket_exists (Some bucket) w = (Val false, w')
        /\ trace w' = (trace w ++ [EvCall (HeadBucket bucket) (inl e)])%list)
  /\ (forall p s dt key keys s2 dt2,
         cloud_step (remote w) (HeadBucket bucket) = (inr p, s, dt) ->
         cloud_step s (ListObjectsV2 bucket "dms-data/")
         = (inr (PObjects (Some (key :: keys))), s2, dt2) ->
         exists w',
           DMS.check_s3_bucket_exists (Some bucket) w = (Val true, w')
           /\ trace w'
              = (trace w ++ [EvCall (HeadBucket bucket) (inr p);
                             EvCall (ListObjectsV2 bucket "dms-data/")
                                    (inr (PObjects (Some (key :: keys))))])%list).
Proof.
  intros Hb. split.
  - intros e s dt Hstep Hm.
    unfold DMS.check_s3_bucket_exists. rewrite Hb. cbn [negb fstr].
    unfold try_except. unfold bind at 1. unfold aws at 1. rewrite Hstep.
    unfold bucket_missing in Hm. destruct (ClientError e); cbn [andb] in Hm.
    + rewrite Hm. unfold ret. eexists. split; reflexivity.
    + unfold ret. eexists. split; reflexivity.
  - intros p s dt key keys s2 dt2 Hhead Hlist.
    unfold DMS.check_s3_bucket_exists. rewrite Hb. cbn [negb fstr].
    unfold try_except. unfold bind at 1. unfold aws at 1. rewrite Hhead.
    unfold bind at 1. unfold aws at 1. cbn [remote]. rewrite Hlist.
    unfold ret. eexists. split; [reflexivity|].
    cbn [trace]. now rewrite <- app_assoc.
Qed.

End BucketCheck.

(** ** The IAM roles (IAM.py, delete_di.delete_iam_roles) *)

Section Roles.
Context `{Cloud}.

Lemma get_existing_role_keeps R name :
  effect_blind R -> keeps R (IAM.get_existing_role name).
Proof. intros HR. destruct HR as (? & ? & ? & ?). unfold IAM.get_existing_role. frames. Qed.

Lemma role_arn_of_keeps R p : preorder R -> keeps R (IAM.role_arn_of p).
Proof. intros HR. unfold IAM.role_arn_of. frames. Qed.

Lemma create_dms_role_keeps R force :
  effect_blind R -> keeps R (IAM.create_dms_role force).
Proof.
  intros HR. pose proof (fun n => @get_existing_role_keeps R n HR).
  destruct HR as (HR & ? & ? & ?).
  pose proof (fun ty k => @get_resource_data_keeps _ R ty k HR).
  pose proof (fun p => @role_arn_of_keeps R p HR).
  unfold IAM.create_dms_role. frames.
Qed.

Lemma create_dms_vpc_role_keeps R force :
  effect_blind R -> keeps R (IAM.create_dms_vpc_role force).
Proof.
  intros HR. pose proof (fun n => @get_existing_role_keeps R n HR).
  destruct HR as (HR & ? & ? & ?).
  pose proof (fun ty k => @get_resource_data_keeps _ R ty k HR).
  pose proof (fun p => @role_arn_of_keeps R p HR).
  unfold IAM.create_dms_vpc_role. frames.
Qed.

(** X6.  [IAM.main] records the two roles together or not at all.  It
    returns either two non-empty ARNs, both then in the ledger, or
    [(None, None)]; in the second case the ledger file is as it was before
    the call, whatever was created in the account by then. *)
Theorem iam_main_all_or_nothing (force : bool) (w w' : World)
        (r : option string * option string) :
  IAM.main force w = (Val r, w') ->
  (exists s3_role vpc_role,
      r = (Some s3_role, Some vpc_role)
      /\ s3_role <> "" /\ vpc_role <> ""
      /\ ledger_lookup (ledger_file w') "iam" "s3_role_arn" = Some (JStr s3_role)
      /\ ledger_lookup (ledger_file w') "iam" "vpc_role_arn" = Some (JStr vpc_role))
  \/ (r = (None, None) /\ ledger_file w' = ledger_file w).
Proof.
  intros E. pose proof E as E0. unfold IAM.main in E.
  apply bind_Val_inv in E as (a & w1 & Ea & E).
  apply bind_Val_inv in E as (b & w2 & Eb & E).
  destruct (truthy a && truthy b) eqn:Ht.
  - left. apply andb_prop in Ht as [Hta Htb].
    destruct a as [a|]; [|discriminate]. destruct b as [b|]; [|discriminate].
    apply bind_Val_inv in E as (j & w3 & _ & E).
    apply ret_Val_inv in E as (<- & ->).
    apply iam_main_durable in E0 as [H1 H2].
    exists a, b. repeat split; try assumption.
    + intros ->. discriminate.
    + intros ->. discriminate.
  - right. apply ret_Val_inv in E as (<- & ->). split; [reflexivity|].
    assert (H1 : same_ledger w w1).
    { eapply keeps_run; [|exact Ea]. apply create_dms_role_keeps, same_ledger_blind. }
    assert (H2 : same_ledger w1 w2).
    { eapply keeps_run; [|exact Eb]. apply create_dms_vpc_role_keeps, same_ledger_blind. }
    unfold same_ledger in *. congruence.
Qed.

Definition role_cleanup (c : call) : Prop :=
  match c with
  | ListAttachedRolePolicies _ | DetachRolePolicy _ _ | DeleteRole _ => True
  | _ => False
  end.

Lemma delete_role_only role : keeps (only role_cleanup) (DeleteDiIam.delete_role role).
Proof. unfold DeleteDiIam.delete_role. frames. Qed.

(** X7.  [delete_iam_roles] detaches policies and deletes roles, and does
    nothing else: every call it issues is [list_attached_role_policies],
    [detach_role_policy] or [delete_role].  In particular it never calls
    [delete_policy]: the customer-managed policy that [create_dms_role]
    created stays in the account. *)
Theorem delete_iam_roles_keeps_policies (w : World) :
  exists tr,
    trace (snd (DeleteDiIam.delete_iam_roles w)) = (trace w ++ tr)%list
    /\ Forall role_cleanup (calls tr)
    /\ forall arn, ~ In (DeletePolicy arn) (calls tr).
Proof.
  assert (Hk : keeps (only role_cleanup) DeleteDiIam.delete_iam_roles).
  { pose proof delete_role_only.
    pose proof (fun ty k => @get_resource_data_keeps _ (only role_cleanup) ty k
                              (only_pre role_cleanup)).
    unfold DeleteDiIam.delete_iam_roles. frames. }
  destruct (Hk w) as (tr & E & F). exists tr. repeat split; try assumption.
  intros arn Hin. rewrite Forall_forall in F. exact (F _ Hin).
Qed.

End Roles.

(** ** Tasks that are stopped before they are touched (DMS.create_replication_task) *)

Section TaskGuard.
Context `{Cloud}.

(** What follows the first block of a [try] keeps what its parts keep. *)
Lemma try_bind_after {A B} (m : M A) (k : A -> M B) (h : exn -> M B)
      (R : World -> World -> Prop) :
  preorder R -> (forall a, keeps R (k a)) -> (forall e, keeps R (h e)) ->
  forall w, R (snd (m w)) (snd (try_except (bind m k) h w)).
Proof.
  intros HR Hk Hh w. unfold try_except, bind.
  destruct (m w) as [[a | e |] w1]; cbn [snd].
  - specialize (Hk a w1). destruct (k a w1) as [[b | e |] w2]; cbn [snd] in *;
      try exact Hk.
    eapply (pre_trans HR); [exact Hk | apply Hh].
  - apply Hh.
  - apply (pre_refl HR).
Qed.

Definition leaves_tasks (c : call) : Prop :=
  match c with
  | ModifyReplicationTask _ _ | DeleteReplicationTask _ => False
  | _ => True
  end.

Lemma created_task_arn_keeps R p : preorder R -> keeps R (DMS.created_task_arn p).
Proof. intros HR. unfold DMS.created_task_arn. frames. Qed.

Lemma grows_update kind data : keeps grows (Utils.update_resource_data kind data).
Proof.
  apply update_resource_data_keeps; [apply grows_pre|].
  intros j w. exists []. cbn. now rewrite app_nil_r.
Qed.

Lemma only_grows P (w w' : World) : only P w w' -> grows w w'.
Proof. intros (tr & E & _). now exists tr. Qed.

(** X8.  [create_replication_task] stops a task before it touches it.
    When the task it finds is [running] or [starting], every run is of one
    of two kinds: it issues no [modify_replication_task] and no
    [delete_replication_task] at all; or its first calls after the listing
    are [stop_replication_task] on that task and the waiter
    [replication_task_stopped], and both succeeded. *)
Theorem create_replication_task_stops_first
        (ri src tgt : string) (w : World) (t : Task) (rest : list Task)
        (s1 : RS) (dt1 : nat) :
  truthy (Some ri) = true -> truthy (Some src) = true -> truthy (Some tgt) = true ->
  let task_id := fstr (dict_get "AWS_PROFILE" (environ w)) ++ "-sqlserver-to-s3-task" in
  let listing := DescribeReplicationTasks (Some ("replication-task-id", task_id)) in
  cloud_step (remote w) listing = (inr (PTasks (t :: rest)), s1, dt1) ->
  str_in (t_status t) ["running"; "starting"] = true ->
  let w' := snd (DMS.create_replication_task (Some ri) (Some src) (Some tgt) w) in
  only leaves_tasks w w'
  \/ exists p1 p2 tr,
       trace w'
       = (trace w ++ EvCall listing (inr (PTasks (t :: rest)))
                  :: EvCall (StopReplicationTask (t_arn t)) (inr p1)
                  :: EvCall (WaitReplicationTaskStopped task_id) (inr p2)
                  :: tr)%list.
Proof.
  intros Hri Hsrc Htgt task_id listing Hstep Hrun w'. subst w'.
  remember (snd (DMS.create_replication_task (Some ri) (Some src) (Some tgt) w))
    as wF eqn:EF.
  unfold DMS.create_replication_task in EF. rewrite Hri, Hsrc, Htgt in EF.
  cbn [negb orb] in EF.
  unfold bind at 1 in EF. unfold getenv at 1 in EF. cbv beta iota zeta in EF.
  cbn [fstr] in EF. fold task_id in EF. fold listing in EF.
  match type of EF with
  | context[try_except (bind ?m ?k) ?h] =>
      set (inner := m) in EF; set (after := k) in EF; set (handler := h) in EF
  end.
  assert (Hafter_only : forall a, keeps (only leaves_tasks) (after a)).
  { intros a. subst after. cbv beta.
    pose proof (fun p => @created_task_arn_keeps (only leaves_tasks) p
                           (only_pre leaves_tasks)).
    pose proof (fun p => @tasks_of_keeps _ (only leaves_tasks) p
                           (only_pre leaves_tasks)).
    frames. }
  assert (Hafter_grows : forall a, keeps grows (after a)).
  { intros a w0. apply only_grows with leaves_tasks. apply Hafter_only. }
  assert (Hh_only : forall e, keeps (only leaves_tasks) (handler e)).
  { intros e. subst handler. frames. }
  assert (Hh_grows : forall e, keeps grows (handler e)).
  { intros e w0. apply only_grows with leaves_tasks. apply Hh_only. }
  pose proof (try_bind_after inner after handler (only_pre leaves_tasks)
                Hafter_only Hh_only w) as Honly.
  pose proof (try_bind_after inner after handler grows_pre
                Hafter_grows Hh_grows w) as Hgrows.
  rewrite <- EF in Honly, Hgrows. clear EF.
  (* the first block: the listing, then the stop *)
  assert (Hinner : forall wI, wI = snd (inner w) ->
            only leaves_tasks w wI
            \/ exists p1 p2 tr,
                 trace wI
                 = (trace w ++ EvCall listing (inr (PTasks (t :: rest)))
                            :: EvCall (StopReplicationTask (t_arn t)) (inr p1)
                            :: EvCall (WaitReplicationTaskStopped task_id) (inr p2)
                            :: tr)%list).
  { intros wI EI. unfold inner in EI. rewrite try_except_ret_snd in EI.
    unfold bind at 1 in EI. unfold aws at 1 in EI.
    rewrite Hstep in EI. cbn [DMS.tasks_of] in EI.
    unfold bind at 1 in EI. unfold ret at 1 in EI.
    set (w1 := mkWorld s1 _ _ _ _ _) in EI.
    assert (H1 : only leaves_tasks w w1).
    { exists [EvCall listing (inr (PTasks (t :: rest)))]. split; [reflexivity|].
      repeat constructor. }
    destruct (DMS.linkage_changed t src tgt ri
              || negb (t_mappings t =? json_dumps DMS.table_mappings)) eqn:Hch;
      [|left; subst wI; exact H1].
    rewrite Hrun in EI.
    unfold bind at 1 in EI. unfold bind at 1 in EI. unfold aws at 1 in EI.
    destruct (cloud_step (remote w1) (StopReplicationTask (t_arn t)))
      as [[[e | p1] s2] dt2] eqn:Hstop.
    - left. cbn [snd] in EI. subst wI.
      exists [EvCall listing (inr (PTasks (t :: rest)));
              EvCall (StopReplicationTask (t_arn t)) (inl e)].
      split; [subst w1; cbn [trace]; now rewrite <- app_assoc | repeat constructor].
    - unfold bind at 1 in EI. unfold aws at 1 in EI. cbn [remote] in EI.
      destruct (cloud_step s2 (WaitReplicationTaskStopped task_id))
        as [[[e | p2] s3] dt3] eqn:Hwait.
      + left. cbn [snd] in EI. subst wI.
        exists [EvCall listing (inr (PTasks (t :: rest)));
                EvCall (StopReplicationTask (t_arn t)) (inr p1);
                EvCall (WaitReplicationTaskStopped task_id) (inl e)].
        split; [subst w1; cbn [trace]; now rewrite <- !app_assoc | repeat constructor].
      + right. unfold ret at 1 in EI. cbv beta iota in EI.
        match type of EI with
        | _ = snd (?m ?w3) =>
            assert (Hm : keeps grows m)
              by (destruct grows_blind as (? & ? & ? & ?); frames);
            destruct (Hm w3) as [tr Htr]
        end.
        rewrite <- EI in Htr. exists p1, p2, tr. rewrite Htr.
        subst w1. cbn [trace]. now rewrite <- !app_assoc. }
  destruct (Hinner _ eq_refl) as [Hl | (p1 & p2 & tr & Htr)].
  - left. eapply (pre_trans (only_pre leaves_tasks)); [exact Hl | exact Honly].
  - right. destruct Hgrows as [tr' Htr']. exists p1, p2, (tr ++ tr')%list.
    rewrite Htr', Htr. now rewrite <- app_assoc.
Qed.

End TaskGuard.

(** ** Which tasks DMS.main deletes *)

Section StaleTaskScope.
Context `{Cloud}.

Lemma keeps_for_each_in {A} (R : World -> World -> Prop) (l : list A)
      (body : A -> M unit) :
  preorder R -> (forall x, In x l -> keeps R (body x)) -> keeps R (for_each l body).
Proof.
  intros HR. induction l as [|x l IH]; intros Hb; cbn [for_each].
  - now apply keeps_ret.
  - apply keeps_bind; [exact HR | apply Hb; now left |].
    intros _. apply IH. intros y Hy. apply Hb. now right.
Qed.

(** X9.  The cleanup at the head of [DMS.main] deletes no task but those
    that link the two endpoints: every [delete_replication_task] it issues
    is for a task that the listing it made showed with this source endpoint
    and this target endpoint, and it issues nothing else. *)
Theorem delete_existing_tasks_spares_other_tasks (src tgt : string) (w : World) :
  exists tr,
    trace (snd (DMS.delete_existing_tasks src tgt w)) = (trace w ++ tr)%list
    /\ forall c, In c (calls tr) ->
         c = DescribeReplicationTasks None
         \/ exists l s dt t,
              cloud_step (remote w) (DescribeReplicationTasks None)
              = (inr (PTasks l), s, dt)
              /\ In t l /\ c = DeleteReplicationTask (t_arn t)
              /\ t_source t = src /\ t_target t = tgt.
Proof.
  set (P := fun c : call =>
              c = DescribeReplicationTasks None
              \/ exists l s dt t,
                   cloud_step (remote w) (DescribeReplicationTasks None)
                   = (inr (PTasks l), s, dt)
                   /\ In t l /\ c = DeleteReplicationTask (t_arn t)
                   /\ t_source t = src /\ t_target t = tgt).
  assert (Ho : only P w (snd (DMS.delete_existing_tasks src tgt w))).
  { unfold DMS.delete_existing_tasks. rewrite try_except_ret_snd.
    unfold bind at 1. unfold aws at 1.
    destruct (cloud_step (remote w) (DescribeReplicationTasks None))
      as [[[e | p] s] dt] eqn:Hstep; cbn [snd].
    - exists [EvCall (DescribeReplicationTasks None) (inl e)].
      split; [reflexivity|]. repeat constructor.
    - set (w1 := mkWorld s _ _ _ _ _).
      apply (pre_trans (only_pre P)) with w1.
      + exists [EvCall (DescribeReplicationTasks None) (inr p)].
        split; [reflexivity|]. repeat constructor.
      + apply keeps_for_each_in; [apply only_pre|].
        intros arn Harn. apply in_map_iff in Harn as (t & <- & Ht).
        apply filter_In in Ht as [Hin Hlink].
        apply andb_prop in Hlink as [Hs Ht].
        apply String.eqb_eq in Hs, Ht.
        destruct p; try (now destruct Hin).
        apply keeps_bind; [apply only_pre | | intros _; apply only_sleep].
        apply only_aws. right. exists l, s, dt, t. auto. }
  destruct Ho as (tr & E & F). exists tr. split; [exact E|].
  intros c Hc. rewrite Forall_forall in F. exact (F c Hc).
Qed.

End StaleTaskScope.

(** ** The waits of the teardown are bounded (delete_di.py) *)

Section TeardownEnds.
Context `{Cloud}.

(** One round of a wait loop: a listing, and a sleep of [pause] seconds
    unless the loop is left. *)
Lemma wait_task_stopped_ends fuel start arn (w : World) :
  start <= now w -> (60 - (now w - start)) + 5 <= fuel * 5 ->
  fst (DeleteDi.wait_task_stopped fuel start 60 arn w) <> Diverged.
Proof.
  revert w. induction fuel as [|n IH]; intros w Hs Hf; [lia|].
  cbn [DeleteDi.wait_task_stopped]. unfold bind at 1. unfold time at 1.
  destruct (Nat.ltb (now w - start) 60) eqn:Hlt; [|discriminate].
  apply Nat.ltb_lt in Hlt.
  unfold bind at 1. unfold try_except_if, try_except. unfold bind at 1.
  unfold aws at 1.
  destruct (cloud_step (remote w) _) as [[[e | p] s1] dt1].
  - destruct (ClientError e); discriminate.
  - unfold bind at 1. destruct p; cbn [DMS.tasks_of]; unfold raise, ret;
      try (destruct (ClientError _); discriminate).
    destruct l as [|t rest]; [discriminate|].
    destruct (t_status t =? "stopped"); [discriminate|].
    unfold bind at 1. unfold sleep at 1. cbv beta iota.
    apply IH; cbn [now]; lia.
Qed.

Lemma wait_all_tasks_deleted_ends fuel start (w : World) :
  start <= now w -> (300 - (now w - start)) + 15 <= fuel * 15 ->
  fst (DeleteDi.wait_all_tasks_deleted fuel start 300 w) <> Diverged.
Proof.
  revert w. induction fuel as [|n IH]; intros w Hs Hf; [lia|].
  cbn [DeleteDi.wait_all_tasks_deleted]. unfold bind at 1. unfold time at 1.
  destruct (Nat.ltb (now w - start) 300) eqn:Hlt; [|discriminate].
  apply Nat.ltb_lt in Hlt.
  unfold bind at 1. unfold try_except_if, try_except. unfold bind at 1.
  unfold aws at 1.
  destruct (cloud_step (remote w) _) as [[[e | p] s1] dt1].
  - destruct (ClientError e); [|discriminate].
    unfold bind at 1. unfold sleep at 1. unfold ret at 1. cbv beta iota.
    apply IH; cbn [now]; lia.
  - destruct (negb (DMS.nonempty (DeleteDi.tasks_or_empty p))); [discriminate|].
    unfold bind at 1. unfold sleep at 1. unfold ret at 1. cbv beta iota.
    apply IH; cbn [now]; lia.
Qed.

Lemma wait_all_endpoints_deleted_ends fuel start (w : World) :
  start <= now w -> (180 - (now w - start)) + 10 <= fuel * 10 ->
  fst (DeleteDi.wait_all_endpoints_deleted fuel start 180 w) <> Diverged.
Proof.
  revert w. induction fuel as [|n IH]; intros w Hs Hf; [lia|].
  cbn [DeleteDi.wait_all_endpoints_deleted]. unfold bind at 1. unfold time at 1.
  destruct (Nat.ltb (now w - start) 180) eqn:Hlt; [|discriminate].
  apply Nat.ltb_lt in Hlt.
  unfold bind at 1. unfold try_except_if, try_except. unfold bind at 1.
  unfold aws at 1.
  destruct (cloud_step (remote w) _) as [[[e | p] s1] dt1].
  - destruct (ClientError e); [|discriminate].
    unfold bind at 1. unfold sleep at 1. unfold ret at 1. cbv beta iota.
    apply IH; cbn [now]; lia.
  - destruct (negb (DMS.nonempty (DeleteDi.endpoints_or_empty p))); [discriminate|].
    unfold bind at 1. unfold sleep at 1. unfold ret at 1. cbv beta iota.
    apply IH; cbn [now]; lia.
Qed.

Lemma wait_all_instances_deleted_ends fuel start (w : World) :
  start <= now w -> (300 - (now w - start)) + 30 <= fuel * 30 ->
  fst (DeleteDi.wait_all_instances_deleted fuel start 300 w) <> Diverged.
Proof.
  revert w. induction fuel as [|n IH]; intros w Hs Hf; [lia|].
  cbn [DeleteDi.wait_all_instances_deleted]. unfold bind at 1. unfold time at 1.
  destruct (Nat.ltb (now w - start) 300) eqn:Hlt; [|discriminate].
  apply Nat.ltb_lt in Hlt.
  unfold bind at 1. unfold try_except_if, try_except. unfold bind at 1.
  unfold aws at 1.
  destruct (cloud_step (remote w) _) as [[[e | p] s1] dt1].
  - destruct (ClientError e); [|discriminate].
    unfold bind at 1. unfold sleep at 1. unfold ret at 1. cbv beta iota.
    apply IH; cbn [now]; lia.
  - destruct (negb (DMS.nonempty (DeleteDi.instances_or_empty p))); [discriminate|].
    unfold bind at 1. unfold sleep at 1. unfold ret at 1. cbv beta iota.
    apply IH; cbn [now]; lia.
Qed.

(** A wait that starts its clock when it is entered. *)
Lemma timed_wait_terminates {A} (loop : nat -> M A) :
  (forall w, fst (loop (now w) w) <> Diverged) ->
  terminates (start_time <- time ;; loop start_time).
Proof. intros Hl w. unfold bind, time. apply Hl. Qed.

Lemma filter_value_terminates j : terminates (DeleteDi.filter_value j).
Proof. unfold DeleteDi.filter_value. frames. Qed.

(** The final wait of a deleting block, with what follows it. *)
Lemma timed_wait_then {A B} (loop : nat -> M A) (k : A -> M B) :
  (forall w, fst (loop (now w) w) <> Diverged) ->
  (forall a, terminates (k a)) ->
  terminates (start_time <- time ;; a <- loop start_time ;; k a).
Proof.
  intros Hl Hk w. unfold bind at 1. unfold time at 1. unfold bind.
  specialize (Hl w). destruct (loop (now w) w) as [[a | e |] w2]; cbn [fst] in *;
    [apply Hk | discriminate | contradiction].
Qed.

Lemma delete_replication_tasks_terminates : terminates DeleteDi.delete_replication_tasks.
Proof.
  pose proof filter_value_terminates.
  assert (H1 : forall arn,
             terminates (start_time <- time ;;
                         DeleteDi.wait_task_stopped 60 start_time 60 arn)).
  { intros arn. apply (timed_wait_terminates
                         (fun s => DeleteDi.wait_task_stopped 60 s 60 arn)).
    intros w. apply wait_task_stopped_ends; lia. }
  assert (H2 : terminates
                 (start_time <- time ;;
                  deleted <- DeleteDi.wait_all_tasks_deleted 300 start_time 300 ;;
                  ret (Some deleted))).
  { apply (timed_wait_then (fun s => DeleteDi.wait_all_tasks_deleted 300 s 300)).
    - intros w. apply wait_all_tasks_deleted_ends; lia.
    - intros b. frames. }
  unfold DeleteDi.delete_replication_tasks. frames.
Qed.

Lemma add_ledger_endpoint_terminates id arn l :
  terminates (DeleteDi.add_ledger_endpoint id arn l).
Proof.
  pose proof filter_value_terminates.
  unfold DeleteDi.add_ledger_endpoint. frames.
Qed.

Lemma delete_all_endpoints_terminates : terminates DeleteDi.delete_all_endpoints.
Proof.
  pose proof add_ledger_endpoint_terminates.
  assert (H2 : terminates
                 (start_time <- time ;;
                  deleted <- DeleteDi.wait_all_endpoints_deleted 180 start_time 180 ;;
                  ret (Some deleted))).
  { apply (timed_wait_then (fun s => DeleteDi.wait_all_endpoints_deleted 180 s 180)).
    - intros w. apply wait_all_endpoints_deleted_ends; lia.
    - intros b. frames. }
  unfold DeleteDi.delete_all_endpoints. frames.
Qed.

Lemma delete_all_instances_terminates : terminates DeleteDi.delete_all_instances.
Proof.
  pose proof filter_value_terminates.
  assert (H2 : terminates
                 (start_time <- time ;;
                  deleted <- DeleteDi.wait_all_instances_deleted 300 start_time 300 ;;
                  ret (Some deleted))).
  { apply (timed_wait_then (fun s => DeleteDi.wait_all_instances_deleted 300 s 300)).
    - intros w. apply wait_all_instances_deleted_ends; lia.
    - intros b. frames. }
  unfold DeleteDi.delete_all_instances. frames.
Qed.

Lemma verify_tasks_deleted_terminates : terminates DeleteDi.verify_tasks_deleted.
Proof.
  intros w. destruct (DeleteDi.verify_tasks_deleted w) as [r w'] eqn:E.
  now apply verify_tasks_deleted_spec in E.
Qed.

Lemma verify_endpoints_deleted_terminates : terminates DeleteDi.verify_endpoints_deleted.
Proof.
  intros w. destruct (DeleteDi.verify_endpoints_deleted w) as [r w'] eqn:E.
  now apply verify_endpoints_deleted_spec in E.
Qed.

(** X10.  The three DMS steps of the teardown always come to an end.
    Each wait loop of [delete_replication_tasks], [delete_endpoints] and
    [delete_replication_instances] is bounded by the clock: it leaves when
    [max_wait_time] seconds have passed since it was entered, and every
    round that does not leave sleeps, so the number of rounds is bounded
    whatever the account answers and however long its calls take.  No run
    of one of these three functions, or of steps 1 to 3 of [main] after the
    confirmation, polls without end.  (The wait of [delete_rds_instances],
    step 5 of [main], has no such bound and is not covered.) *)
Theorem dms_teardown_steps_always_end (w : World) :
  fst (DeleteDi.delete_replication_tasks w) <> Diverged
  /\ fst (DeleteDi.delete_endpoints w) <> Diverged
  /\ fst (DeleteDi.delete_replication_instances w) <> Diverged
  /\ fst (DeleteDi.main_dms_steps w) <> Diverged.
Proof.
  pose proof delete_replication_tasks_terminates as H1.
  pose proof delete_all_endpoints_terminates as H2.
  pose proof delete_all_instances_terminates as H3.
  pose proof verify_tasks_deleted_terminates as H4.
  pose proof verify_endpoints_deleted_terminates as H5.
  assert (He : terminates DeleteDi.delete_endpoints)
    by (unfold DeleteDi.delete_endpoints; frames).
  assert (Hi : terminates DeleteDi.delete_replication_instances)
    by (unfold DeleteDi.delete_replication_instances; frames).
  repeat split; [apply H1 | apply He | apply Hi |].
  assert (Hm : terminates DeleteDi.main_dms_steps)
    by (unfold DeleteDi.main_dms_steps; frames).
  apply Hm.
Qed.

End TeardownEnds.

(** ** The confirmation of the teardown *)

Section Confirmation.
Context `{Cloud}.

(** X11.  The teardown does nothing before it is confirmed.  Unless the
    line read from the console is [yes] (in any letter case), [main] leaves
    with [SystemExit]; with no line to read it leaves with [EOFError].  In
    both cases no call has been issued, and the account and the ledger are
    as they were. *)
Theorem teardown_needs_confirmation (w : World) :
  (stdin w = [] ->
   exists e, DeleteDi.main_dms_steps w = (Exc e, w) /\ err_code e = "EOFError")
  /\ (forall answer rest,
         stdin w = answer :: rest -> lower answer <> "yes" ->
         exists e w',
           DeleteDi.main_dms_steps w = (Exc e, w')
           /\ err_code e = "SystemExit"
           /\ trace w' = trace w /\ remote w' = remote w
           /\ ledger_file w' = ledger_file w).
Proof.
  split.
  - intros Hin. unfold DeleteDi.main_dms_steps, bind, input. rewrite Hin.
    eexists. split; reflexivity.
  - intros answer rest Hin Hno. apply String.eqb_neq in Hno.
    unfold DeleteDi.main_dms_steps, bind, input. rewrite Hin, Hno. cbn [negb].
    unfold raise. do 2 eexists. repeat split.
Qed.

End Confirmation.

(** ** clear_di.py *)

Section ClearTasks.
Context `{Cloud}.

Definition stopped_or_gone (l : list Task) : Prop :=
  l = [] \/ exists t rest, l = t :: rest /\ t_status t = "stopped".

(** The wait for a stop only polls the task, and returns on a poll that
    shows the task stopped or gone. *)
Lemma clear_wait_task_stopped_spec fuel arn (w : World) r w' :
  ClearDi.wait_task_stopped fuel arn w = (r, w') ->
  exists tr,
    trace w' = (trace w ++ tr)%list
    /\ Forall (fun c => c = task_poll arn) (calls tr)
    /\ (r = Val tt ->
        exists tr1 l,
          tr = (tr1 ++ [EvCall (task_poll arn) (inr (PTasks l))])%list
          /\ stopped_or_gone l).
Proof.
  revert w. induction fuel as [|n IH]; intros w E.
  - cbn in E. unfold diverge in E. injection E as <- <-.
    exists []. rewrite app_nil_r. repeat split; [constructor | discriminate].
  - cbn [ClearDi.wait_task_stopped] in E. unfold bind at 1 in E. unfold aws at 1 in E.
    fold (task_poll arn) in E.
    destruct (cloud_step (remote w) (task_poll arn)) as [[[e | p] s1] dt1].
    + injection E as <- <-. exists [EvCall (task_poll arn) (inl e)].
      repeat split; [repeat constructor | discriminate].
    + unfold bind at 1 in E.
      destruct p; cbn [DMS.tasks_of] in E; unfold raise, ret in E;
        try (injection E as <- <-; eexists; repeat split;
             [repeat constructor | discriminate]).
      destruct l as [|t rest].
      * injection E as <- <-. exists [EvCall (task_poll arn) (inr (PTasks []))].
        repeat split; [repeat constructor|]. intros _.
        exists [], []. split; [reflexivity | now left].
      * destruct (t_status t =? "stopped") eqn:Hst.
        -- injection E as <- <-.
           exists [EvCall (task_poll arn) (inr (PTasks (t :: rest)))].
           repeat split; [repeat constructor|]. intros _.
           exists [], (t :: rest). split; [reflexivity|]. right.
           exists t, rest. split; [reflexivity | now apply String.eqb_eq].
        -- unfold bind at 1 in E. unfold sleep at 1 in E. cbv beta iota in E.
           apply IH in E as (tr & Etr & Ftr & Hv). cbn [trace] in Etr.
           exists (EvCall (task_poll arn) (inr (PTasks (t :: rest)))
                   :: EvSleep 5 :: tr).
           split; [rewrite Etr; now rewrite <- !app_assoc|].
           split; [cbn; constructor; [reflexivity | exact Ftr]|].
           intros Hr. destruct (Hv Hr) as (tr1 & l & -> & Hl).
           exists (EvCall (task_poll arn) (inr (PTasks (t :: rest)))
                   :: EvSleep 5 :: tr1), l.
           split; [reflexivity | exact Hl].
Qed.

(** X12.  [clear_di.delete_replication_tasks] stops a task before it
    deletes it.  For a task listed as [running] or [starting], the run of
    the loop body is of one of two kinds.  Either it issues no
    [delete_replication_task]: the stop call or a poll failed, which ends
    the whole function.  Or its calls are, in this order, a
    [stop_replication_task] that succeeded, polls of the task of which the
    last showed it [stopped] or gone from the listing, and then the
    [delete_replication_task]. *)
Theorem clear_di_stops_before_deleting (fuel : nat) (t : Task) (w : World) :
  str_in (t_status t) ["running"; "starting"] = true ->
  let arn := t_arn t in
  exists tr,
    trace (snd (ClearDi.delete_task fuel t w)) = (trace w ++ tr)%list
    /\ (Forall (fun c => c = StopReplicationTask arn \/ c = task_poll arn) (calls tr)
        \/ exists p tr1 l rd,
             tr = (EvCall (StopReplicationTask arn) (inr p) :: tr1
                   ++ [EvCall (task_poll arn) (inr (PTasks l));
                       EvCall (DeleteReplicationTask arn) rd])%list
             /\ Forall (fun c => c = task_poll arn) (calls tr1)
             /\ stopped_or_gone l).
Proof.
  intros Hrun arn. unfold ClearDi.delete_task. rewrite Hrun. fold arn.
  unfold bind at 1. unfold bind at 1. unfold aws at 1.
  destruct (cloud_step (remote w) (StopReplicationTask arn)) as [[[e | p] s1] dt1].
  - exists [EvCall (StopReplicationTask arn) (inl e)].
    split; [reflexivity|]. left. repeat constructor.
  - set (w1 := mkWorld s1 _ _ _ _ _).
    destruct (ClearDi.wait_task_stopped fuel arn w1) as [r w2] eqn:Ewait.
    apply clear_wait_task_stopped_spec in Ewait as (tr & Etr & Ftr & Hv).
    assert (Hstop : forall tr', trace w2 = (trace w1 ++ tr')%list ->
               trace w2 = (trace w ++ EvCall (StopReplicationTask arn) (inr p) :: tr')%list).
    { intros tr' ->. subst w1. cbn [trace]. now rewrite <- app_assoc. }
    assert (Hno : Forall (fun c => c = StopReplicationTask arn \/ c = task_poll arn)
                         (calls (EvCall (StopReplicationTask arn) (inr p) :: tr))).
    { cbn. constructor; [now left|].
      eapply Forall_impl; [|exact Ftr]. intros c ->. now right. }
    destruct r as [[] | e |].
    + destruct (Hv eq_refl) as (tr1 & l & -> & Hl).
      unfold bind at 1. unfold aws at 1.
      destruct (cloud_step (remote w2) (DeleteReplicationTask arn))
        as [[[e | pd] s2] dt2]; cbn [snd trace];
        (eexists; split;
         [ rewrite (Hstop _ Etr); rewrite <- app_assoc; cbn [app]; reflexivity
         | right; do 4 eexists; split;
           [ rewrite <- app_assoc; cbn [app]; reflexivity
           | split; [|exact Hl] ] ]);
        rewrite calls_app in Ftr; apply Forall_app in Ftr; apply Ftr.
    + cbn [snd]. exists (EvCall (StopReplicationTask arn) (inr p) :: tr).
      split; [now apply Hstop | now left].
    + cbn [snd]. exists (EvCall (StopReplicationTask arn) (inr p) :: tr).
      split; [now apply Hstop | now left].
Qed.

(** X13.  The wait for a stop in [clear_di.py] has no bound, unlike the
    60 s wait of [delete_di.py]: as long as every poll shows the task in a
    status other than [stopped], the loop is still polling after any number
    of polls. *)
Theorem clear_di_wait_is_unbounded (arn : string) (Inv : RS -> Prop) :
  (forall s, Inv s ->
             exists t rest s' dt,
               cloud_step s (task_poll arn) = (inr (PTasks (t :: rest)), s', dt)
               /\ Inv s' /\ (t_status t =? "stopped") = false) ->
  forall fuel (w : World),
    Inv (remote w) ->
    exists w', ClearDi.wait_task_stopped fuel arn w = (Diverged, w')
               /\ task_polls (trace w') = task_polls (trace w) + fuel
               /\ now w + 5 * fuel <= now w'.
Proof.
  intros Hinv fuel. induction fuel as [|n IH]; intros w Hw.
  - exists w. cbn. unfold diverge. repeat split; lia.
  - destruct (Hinv _ Hw) as (t & rest & s' & dt & Hstep & Hs' & Hns).
    cbn [ClearDi.wait_task_stopped]. unfold bind at 1. unfold aws at 1.
    fold (task_poll arn). rewrite Hstep. cbn [DMS.tasks_of].
    unfold bind at 1. unfold ret at 1. rewrite Hns.
    unfold bind at 1. unfold sleep at 1.
    match goal with |- context[ClearDi.wait_task_stopped n arn ?w1] =>
      destruct (IH w1 Hs') as (w' & E & Hp & Ht) end.
    exists w'. split; [exact E|]. cbn [trace now] in Hp, Ht. split; [|lia].
    rewrite Hp. rewrite !task_polls_app. cbn. lia.
Qed.

End ClearTasks.

(** ** Skipping the connection test, and accepting its failure *)

Section SkipOrAccept.
Context `{Cloud}.

Definition no_test (c : call) : Prop :=
  match c with
  | TestConnection _ _ => False
  | _ => True
  end.

Lemma run_total_keeps {A} (R : World -> World -> Prop) (m : M A) (w : World) :
  total m -> keeps same_env m -> keeps R m ->
  exists a w', m w = (Val a, w') /\ environ w' = environ w /\ R w w'.
Proof.
  intros Ht He Hk. destruct (Ht w) as [a Ha]. specialize (He w). specialize (Hk w).
  destruct (m w) as [r w']. cbn in *. subst r. now exists a, w'.
Qed.

Lemma delete_existing_connections_no_test ri ep :
  keeps (only no_test) (DMS.delete_existing_connections ri ep).
Proof.
  pose proof (fun p => @connections_of_keeps _ (only no_test) p (only_pre no_test)).
  unfold DMS.delete_existing_connections. frames.
Qed.

(** X14.  The two tolerance flags differ in what they do to the test of an
    S3 endpoint.  With [SKIP_S3_CONNECTION_TEST] set, [test_connection]
    returns [True] without ever calling [dms.test_connection].  With only
    [ACCEPT_S3_CONNECTION_FAILURES] set, it calls [dms.test_connection] once
    and returns [True] without waiting for the result. *)
Theorem skip_starts_no_test_accept_ignores_it (ri ep : string) (w : World) :
  truthy (Some ri) = true -> truthy (Some ep) = true ->
  reports_s3 ep ->
  (skip_flag w = true ->
   exists w' tr,
     DMS.test_connection (Some ri) (Some ep) w = (Val true, w')
     /\ trace w' = (trace w ++ tr)%list
     /\ Forall no_test (calls tr))
  /\ (skip_flag w = false -> accept_flag w = true ->
      exists w' tr1 r tr2,
        DMS.test_connection (Some ri) (Some ep) w = (Val true, w')
        /\ trace w' = (trace w ++ tr1 ++ EvCall (TestConnection ri ep) r :: tr2)%list
        /\ Forall no_test (calls tr1) /\ Forall no_test (calls tr2)).
Proof.
  intros Hri Hep Hs3.
  (* the two steps that both cases share *)
  assert (Hd : exists w1, DMS.detect_s3_endpoint ep w = (Val true, w1)
                          /\ environ w1 = environ w /\ only no_test w w1).
  { destruct (Hs3 (remote w)) as (e & rest & s' & dt & Hstep & Heng).
    unfold DMS.detect_s3_endpoint, try_except, bind, aws. rewrite Hstep.
    cbn. rewrite Heng. cbn. eexists. split; [reflexivity|]. split; [reflexivity|].
    eexists. split; [reflexivity|]. repeat constructor. }
  destruct Hd as (w1 & Hd & He1 & Ho1).
  destruct (run_total_keeps w1
              (delete_existing_connections_total ri ep)
              (delete_existing_connections_keeps ri ep same_env_blind)
              (delete_existing_connections_no_test ri ep))
    as ([] & w2 & Hdel & He2 & Ho2).
  assert (Ho12 : only no_test w w2)
    by (eapply (pre_trans (only_pre no_test)); eassumption).
  assert (Hrun : forall w',
             DMS.connection_attempt ri ep true 2 0 None w1 = (Val (Return true), w') ->
             DMS.test_connection (Some ri) (Some ep) w = (Val true, w')).
  { intros w' Ha. unfold DMS.test_connection, DMS.test_connection_with.
    rewrite Hri, Hep. cbn [negb orb fstr]. rewrite (bind_Val _ _ _ Hd).
    cbn [seq Nat.add DMS.connection_retries]. unfold bind at 1. now rewrite Ha. }
  split.
  - intros Hskip.
    assert (Hskip2 : skip_flag w2 = true).
    { rewrite (skip_flag_env w w2); [exact Hskip | congruence]. }
    destruct Ho12 as (tr & Etr & Ftr).
    eexists. exists (tr ++ [EvPrint skip_line])%list. split; [|split].
    + apply Hrun. unfold DMS.connection_attempt, try_except. unfold bind at 1.
      rewrite Hdel. unfold bind at 1. rewrite skip_flag_run, Hskip2.
      unfold bind, print, record, ret. reflexivity.
    + cbn [trace]. rewrite Etr. now rewrite <- app_assoc.
    + rewrite calls_app. apply Forall_app. split; [exact Ftr | constructor].
  - intros Hskip Hacc.
    assert (Hskip2 : skip_flag w2 = false).
    { rewrite (skip_flag_env w w2); [exact Hskip | congruence]. }
    destruct Ho12 as (tr & Etr & Ftr).
    (* the test is started *)
    assert (Hstart : exists tid w3 r tr3,
               DMS.start_connection_test ri ep w2 = (Val tid, w3)
               /\ environ w3 = environ w2
               /\ trace w3 = (trace w2 ++ EvCall (TestConnection ri ep) r :: tr3)%list
               /\ Forall no_test (calls tr3)).
    { unfold DMS.start_connection_test, try_except. unfold bind at 1. unfold aws at 1.
      destruct (cloud_step (remote w2) (TestConnection ri ep)) as [[[e | p] s3] dt3].
      - unfold ret. do 4 eexists. repeat split. constructor.
      - unfold bind at 1.
        destruct (negb (truthy (DMS.test_id_of p))).
        + unfold sleep, ret. eexists. eexists. exists (inr p), [EvSleep 5].
          split; [reflexivity|]. split; [reflexivity|].
          split; [cbn [trace]; now rewrite <- app_assoc | constructor].
        + unfold ret. do 4 eexists. repeat split. constructor. }
    destruct Hstart as (tid & w3 & r & tr3 & Hstart & He3 & Etr3 & Ftr3).
    assert (Hacc3 : accept_flag w3 = true).
    { rewrite (accept_flag_env w w3); [exact Hacc | congruence]. }
    eexists. exists tr, r, (tr3 ++ [EvPrint "Note: S3 endpoint tests often fail but tasks may still work correctly."; EvPrint accept_line])%list.
    split; [|split; [|split]].
    + apply Hrun. unfold DMS.connection_attempt, try_except. unfold bind at 1.
      rewrite Hdel. unfold bind at 1. rewrite skip_flag_run, Hskip2.
      unfold bind at 1. rewrite Hstart.
      unfold bind at 1. unfold bind at 1. unfold print at 1, record at 1.
      cbv beta iota. rewrite accept_flag_run.
      unfold accept_flag, env_or in *. cbn [environ] in *. rewrite Hacc3.
      unfold bind, print, record, ret. cbv beta iota. reflexivity.
    + cbn [trace]. rewrite Etr3, Etr. rewrite <- !app_assoc. cbn [app].
      reflexivity.
    + exact Ftr.
    + rewrite calls_app. apply Forall_app. split; [exact Ftr3 | constructor].
Qed.

End SkipOrAccept.

(** ** Comparing the S3 settings of the target endpoint *)

Lemma json_eqb_refl : forall j, json_eqb j j = true.
Proof.
  fix IH 1. intros [| b | n | s | l | d]; cbn.
  - reflexivity.
  - apply Bool.eqb_reflx.
  - apply Nat.eqb_refl.
  - apply String.eqb_refl.
  - induction l as [|x l IHl]; [reflexivity|]. rewrite (IH x). exact IHl.
  - induction d as [|[k x] d IHd]; [reflexivity|].
    rewrite String.eqb_refl, (IH x). exact IHd.
Qed.

Lemma json_eqb_true : forall a b, json_eqb a b = true -> a = b.
Proof.
  fix IH 1. intros [| b1 | n1 | s1 | l1 | d1] [| b2 | n2 | s2 | l2 | d2]; cbn;
    try discriminate; intros E.
  - reflexivity.
  - apply Bool.eqb_prop in E. now subst.
  - apply Nat.eqb_eq in E. now subst.
  - apply String.eqb_eq in E. now subst.
  - f_equal. revert l2 E. induction l1 as [|x l1 IHl]; intros [|y l2] E;
      try discriminate; [reflexivity|].
    apply andb_prop in E as [E1 E2]. f_equal; [now apply IH | now apply IHl].
  - f_equal. revert d2 E. induction d1 as [|[k x] d1 IHd]; intros [|[k' y] d2] E;
      try discriminate; [reflexivity|].
    apply andb_prop in E as [E1 E3]. apply andb_prop in E1 as [E1 E2].
    apply String.eqb_eq in E1. subst k'.
    f_equal; [f_equal; now apply IH | now apply IHd].
Qed.

Lemma json_eqb_eq (a b : json) : json_eqb a b = true <-> a = b.
Proof. split; [apply json_eqb_true | intros ->; apply json_eqb_refl]. Qed.

Section TargetSettings.

(** X15.  [create_target_endpoint] sees the settings of an existing
    endpoint as unchanged exactly when the endpoint reports each of the
    eight settings the code wants with the value it wants; what else the
    endpoint has set does not count.  So the two settings that
    [DMS.main] adds to an S3 endpoint whose test failed do not make the next
    run modify the endpoint again. *)
Theorem settings_changed_spec (desired current : list (string * json)) :
  (DMS.settings_changed desired current = false
   <-> forall k v, In (k, v) desired -> dict_get k current = Some v)
  /\ (forall k v, ~ In k (map fst desired) ->
        DMS.settings_changed desired (dict_set k v current)
        = DMS.settings_changed desired current)
  /\ (forall bucket role,
        DMS.settings_changed
          (DMS.s3_settings bucket role)
          (dict_set "EnableStatistics" (JBool true)
             (dict_set "UseTaskStartTimeForFullLoadTimestamp" (JBool true)
                (DMS.s3_settings bucket role)))
        = false).
Proof.
  assert (Hspec : forall d c,
             DMS.settings_changed d c = false
             <-> forall k v, In (k, v) d -> dict_get k c = Some v).
  { intros d c. unfold DMS.settings_changed. split.
    - intros E k v Hin.
      set (f := fun kv : string * json => _) in E.
      assert (Hx : f (k, v) = false).
      { destruct (f (k, v)) eqn:Hb; [|reflexivity].
        assert (existsb f d = true)
          by (apply existsb_exists; exists (k, v); split; assumption).
        congruence. }
      subst f. cbn in Hx. destruct (dict_get k c) as [v0|]; [|discriminate].
      apply negb_false_iff, json_eqb_true in Hx. now subst.
    - intros Hall. apply not_true_is_false. intros E.
      apply existsb_exists in E as ([k v] & Hin & Hb). cbn in Hb.
      rewrite (Hall k v Hin), json_eqb_refl in Hb. discriminate. }
  split; [apply Hspec|]. split.
  - intros k v Hnot. unfold DMS.settings_changed.
    induction desired as [|[k0 v0] desired IH]; [reflexivity|].
    cbn [existsb fst snd]. rewrite IH by (intros Hi; apply Hnot; now right).
    rewrite dict_get_set_other; [reflexivity|].
    intros ->. apply Hnot. now left.
  - intros bucket role. apply Hspec. intros k v Hin.
    cbn in Hin.
    repeat (destruct Hin as [[= <- <-] | Hin]; [reflexivity|]).
    destruct Hin.
Qed.

End TargetSettings.

(** ** No error escapes a reconciler *)

Section NeverRaise.
Context `{Cloud}.

Lemma create_s3_bucket_total : total S3.create_s3_bucket.
Proof.
  unfold S3.create_s3_bucket.
  apply total_bind; [frames|]. intros account_id.
  apply total_bind; [frames|]. intros region.
  apply total_try_except; [|intros e; frames].
  apply terminates_bind; [|intros u; frames].
  apply terminates_try_except_if; [frames|]. intros e.
  destruct (err_code e =? "404"); [|frames].
  apply terminates_bind; [|intros u; frames].
  destruct region as [r|]; [|frames].
  assert (Hr : forall A (a b : M A), terminates a -> terminates b ->
                 terminates (match r with "us-east-1" => a | _ => b end)).
  { intros A a b Ha Hb.
    repeat (match goal with
            | |- terminates (match ?x with _ => _ end) => destruct x
            end; try assumption). }
  apply Hr; frames.
Qed.

Lemma s3_main_total : total S3.main.
Proof.
  pose proof create_s3_bucket_total. pose proof create_s3_folder_total.
  unfold S3.main. frames.
Qed.

Lemma check_s3_bucket_exists_total b : total (DMS.check_s3_bucket_exists b).
Proof.
  unfold DMS.check_s3_bucket_exists. destruct (negb (truthy b)); [frames|].
  apply total_try_except; [frames|]. intros e.
  destruct (ClientError e); [|frames].
  destruct ((err_code e =? "404") || (err_code e =? "NoSuchBucket")); [|frames].
  apply total_try_except; [|intros e'; frames].
  apply terminates_bind; [frames|]. intros region.
  destruct (region =? "us-east-1"); frames.
Qed.

Lemma first_terminates {A} (l : list A) : terminates (DMS.first l).
Proof. unfold DMS.first. frames. Qed.

Lemma create_replication_instance_total v : total (DMS.create_replication_instance v).
Proof.
  pose proof (@first_terminates ReplInstance).
  unfold DMS.create_replication_instance.
  apply total_bind; [frames|]. intros profile. cbv zeta.
  apply total_try_except; [frames | intros e; frames].
Qed.

Lemma created_endpoint_arn_terminates p : terminates (DMS.created_endpoint_arn p).
Proof. unfold DMS.created_endpoint_arn. frames. Qed.

Lemma stale_endpoint_arn_terminates r : terminates (DMS.stale_endpoint_arn r).
Proof.
  pose proof (@first_terminates Endpoint).
  unfold DMS.stale_endpoint_arn. frames.
Qed.

Lemma create_source_endpoint_total r : total (DMS.create_source_endpoint r).
Proof.
  pose proof created_endpoint_arn_terminates. pose proof stale_endpoint_arn_terminates.
  unfold DMS.create_source_endpoint. destruct r as [[Address Port]|]; [|frames].
  apply total_bind; [frames|]. intros profile. cbv zeta.
  apply total_try_except; [|intros e; frames].
  apply terminates_bind; [frames|]. intros response.
  assert (Hc : forall a, terminates
             (try_except
                (arn <- DMS.stale_endpoint_arn a ;;
                 aws (DeleteEndpoint arn) ;;; sleep 5)
                (fun _ => ret tt) ;;;
              response0 <- aws (CreateEndpoint (fstr profile ++ "-sqlserver-source")
                                  "source" "sqlserver" (Some (Address, Port)) None) ;;
              arn <- DMS.created_endpoint_arn response0 ;;
              Utils.update_resource_data "dms"
                (JDict [("source_endpoint_id", JStr (fstr profile ++ "-sqlserver-source"));
                        ("source_endpoint_arn", JStr arn)]) ;;;
              ret (Some arn))) by (intros a; frames).
  destruct response as [p|]; [|apply Hc].
  destruct p; try apply Hc. destruct l; [apply Hc | frames].
Qed.

Lemma test_connection_terminates ri ep : terminates (DMS.test_connection ri ep).
Proof. apply total_terminates. apply test_connection_with_total. Qed.

Lemma ledger_replication_instance_arn_terminates :
  terminates DMS.ledger_replication_instance_arn.
Proof.
  unfold DMS.ledger_replication_instance_arn, DMS.get_run_data. frames.
Qed.

Lemma create_target_endpoint_total b r : total (DMS.create_target_endpoint b r).
Proof.
  pose proof check_s3_bucket_exists_total. pose proof created_endpoint_arn_terminates.
  pose proof test_connection_terminates.
  pose proof ledger_replication_instance_arn_terminates.
  unfold DMS.create_target_endpoint.
  destruct (negb (truthy b) || negb (truthy r)); [frames|].
  apply total_bind; [auto|]. intros ok. destruct (negb ok); [frames|]. cbv zeta.
  apply total_try_except; [frames | intros e; frames].
Qed.

Lemma created_task_arn_terminates p : terminates (DMS.created_task_arn p).
Proof. unfold DMS.created_task_arn. frames. Qed.

Lemma create_replication_task_total ri src tgt :
  total (DMS.create_replication_task ri src tgt).
Proof.
  pose proof created_task_arn_terminates.
  unfold DMS.create_replication_task.
  destruct (negb (truthy ri) || negb (truthy src) || negb (truthy tgt)); [frames|].
  apply total_bind; [frames|]. intros profile. cbv zeta.
  apply total_try_except; [frames | intros e; frames].
Qed.

(** X16.  No error of a remote call, of a response of an unexpected shape
    or of the ledger escapes these functions: once the client is there,
    [create_s3_bucket], [create_s3_folder], [S3.main],
    [check_s3_bucket_exists], [create_replication_instance],
    [create_source_endpoint], [create_target_endpoint] and
    [create_replication_task] return a value in every case ([None] or
    [False] on failure), which is what their callers test. *)
Theorem reconcilers_return_on_every_error (w : World) :
  (exists r, fst (S3.create_s3_bucket w) = Val r)
  /\ (forall b f, exists r, fst (S3.create_s3_folder b f w) = Val r)
  /\ (exists r, fst (S3.main w) = Val r)
  /\ (forall b, exists r, fst (DMS.check_s3_bucket_exists b w) = Val r)
  /\ (forall v, exists r, fst (DMS.create_replication_instance v w) = Val r)
  /\ (forall rds, exists r, fst (DMS.create_source_endpoint rds w) = Val r)
  /\ (forall b role, exists r, fst (DMS.create_target_endpoint b role w) = Val r)
  /\ (forall ri src tgt, exists r, fst (DMS.create_replication_task ri src tgt w) = Val r).
Proof.
  repeat split.
  - apply create_s3_bucket_total.
  - intros b f. apply create_s3_folder_total.
  - apply s3_main_total.
  - intros b. apply check_s3_bucket_exists_total.
  - intros v. apply create_replication_instance_total.
  - intros rds. apply create_source_endpoint_total.
  - intros b role. apply create_target_endpoint_total.
  - intros ri src tgt. apply create_replication_task_total.
Qed.

End NeverRaise.

(** ** Reusing what is there (RDS.py, DMS.py) *)

Section Reuse.
Context `{Cloud}.

(** The identifier [create_rds_instance] gives the instance: it holds the
    hour and the minute of the call. *)
Definition rds_instance_id (w : World) : string :=
  fstr (dict_get "AWS_PROFILE" (environ w)) ++ "-mssql-source-"
  ++ strftime_HM (now w).

(** [response['DBInstances'][0]['Endpoint']], or [None] where that raises. *)
Definition reported_endpoint (r : response) : option (string * nat) :=
  match r with
  | inr (PDBInstances (i :: _)) => db_endpoint i
  | _ => None
  end.

(** X17.  [create_rds_instance] creates an instance only when
    [describe_db_instances] fails with [DBInstanceNotFound].  On any other
    answer the describe call is the only call it issues and the ledger is
    left as it was: it returns the endpoint the answer reports, and [None]
    when the answer reports none (an instance that is still being created
    has no endpoint yet) or is another error. *)
Theorem create_rds_instance_creates_only_when_not_found
        (w : World) (r : response) (s : RS) (dt : nat) :
  cloud_step (remote w) (DescribeDBInstances (rds_instance_id w)) = (r, s, dt) ->
  match r with inl e => DBInstanceNotFoundFault e = false | inr _ => True end ->
  exists w',
    RDS.create_rds_instance w = (Val (reported_endpoint r), w')
    /\ trace w' = (trace w ++ [EvCall (DescribeDBInstances (rds_instance_id w)) r])%list
    /\ ledger_file w' = ledger_file w.
Proof.
  intros Hstep Hr. unfold RDS.create_rds_instance.
  unfold bind at 1. unfold time at 1.
  unfold bind at 1. unfold getenv at 1. cbv beta iota zeta.
  fold (rds_instance_id w).
  unfold try_except_if, try_except. unfold bind at 1. unfold aws at 1.
  rewrite Hstep. destruct r as [e | p].
  - rewrite Hr. unfold raise, ret. eexists. repeat split.
  - unfold bind at 1.
    destruct p; cbn [RDS.first_endpoint reported_endpoint]; unfold raise, ret;
      try (eexists; repeat split; fail).
    destruct l as [|i rest]; [eexists; repeat split|].
    destruct (db_endpoint i); unfold raise, ret; eexists; repeat split.
Qed.

Definition replication_instance_id (w : World) : string :=
  fstr (dict_get "AWS_PROFILE" (environ w)) ++ "-dms-instance".

Definition source_endpoint_id (w : World) : string :=
  fstr (dict_get "AWS_PROFILE" (environ w)) ++ "-sqlserver-source".

Lemma create_replication_instance_reuse vpc_role (w : World) i rest s dt :
  let listing := DescribeReplicationInstances
                   (Some ("replication-instance-id", replication_instance_id w)) in
  cloud_step (remote w) listing = (inr (PInstances (i :: rest)), s, dt) ->
  exists w',
    DMS.create_replication_instance vpc_role w = (Val (Some (ri_arn i)), w')
    /\ trace w' = (trace w ++ [EvCall listing (inr (PInstances (i :: rest)))])%list
    /\ ledger_file w' = ledger_file w.
Proof.
  intros listing Hstep.
  unfold DMS.create_replication_instance.
  unfold bind at 1. unfold getenv at 1. cbv beta iota zeta.
  fold (replication_instance_id w). fold listing.
  unfold try_except. unfold bind at 1. unfold aws at 1. rewrite Hstep.
  unfold bind, ret. cbn. eexists. repeat split.
Qed.

Lemma create_source_endpoint_reuse address port (w : World) e rest s dt :
  let listing := DescribeEndpoints (Some ("endpoint-id", source_endpoint_id w)) in
  cloud_step (remote w) listing = (inr (PEndpoints (e :: rest)), s, dt) ->
  exists w',
    DMS.create_source_endpoint (Some (address, port)) w = (Val (Some (e_arn e)), w')
    /\ trace w' = (trace w ++ [EvCall listing (inr (PEndpoints (e :: rest)))])%list
    /\ ledger_file w' = ledger_file w.
Proof.
  intros listing Hstep.
  unfold DMS.create_source_endpoint.
  unfold bind at 1. unfold getenv at 1. cbv beta iota zeta.
  fold (source_endpoint_id w). fold listing.
  unfold try_except. unfold bind at 1. unfold bind at 1. unfold aws at 1.
  rewrite Hstep. unfold ret. cbn. eexists. repeat split.
Qed.

(** X18.  A replication instance and a source endpoint that are found by
    name are reused as they are.  The describe call is the only call issued,
    the ARN it reports is returned, and nothing is written to the ledger.
    The source endpoint is reused whatever RDS endpoint the caller passes:
    its server is not compared with it. *)
Theorem found_by_name_is_reused_as_is (w : World) :
  (forall vpc_role i rest s dt,
      let listing := DescribeReplicationInstances
                       (Some ("replication-instance-id", replication_instance_id w)) in
      cloud_step (remote w) listing = (inr (PInstances (i :: rest)), s, dt) ->
      exists w',
        DMS.create_replication_instance vpc_role w = (Val (Some (ri_arn i)), w')
        /\ trace w' = (trace w ++ [EvCall listing (inr (PInstances (i :: rest)))])%list
        /\ ledger_file w' = ledger_file w)
  /\ (forall address port e rest s dt,
         let listing := DescribeEndpoints (Some ("endpoint-id", source_endpoint_id w)) in
         cloud_step (remote w) listing = (inr (PEndpoints (e :: rest)), s, dt) ->
         exists w',
           DMS.create_source_endpoint (Some (address, port)) w
           = (Val (Some (e_arn e)), w')
           /\ trace w' = (trace w ++ [EvCall listing (inr (PEndpoints (e :: rest)))])%list
           /\ ledger_file w' = ledger_file w).
Proof.
  split.
  - intros vpc_role i rest s dt. apply create_replication_instance_reuse.
  - intros address port e rest s dt. apply create_source_endpoint_reuse.
Qed.

End Reuse.

(** ** The console prompt of DMS.main *)

Section Prompt.
Context `{Cloud}.

Definition same_stdin (w w' : World) : Prop := stdin w' = stdin w.

Lemma same_stdin_blind : effect_blind same_stdin.
Proof.
  split; [|split; [|split]].
  - split; unfold same_stdin; [reflexivity | intros a b c E1 E2; congruence].
  - intros c w. unfold aws, same_stdin.
    destruct (cloud_step (remote w) c) as [[[e | p] s] dt]; reflexivity.
  - intros n w. reflexivity.
  - intros l w. reflexivity.
Qed.

Lemma detect_s3_target_keeps R tgt :
  effect_blind R -> keeps R (DMS.detect_s3_target tgt).
Proof. intros HR. destruct HR as (? & ? & ? & ?). unfold DMS.detect_s3_target. frames. Qed.

Lemma target_attempts_keeps R ri tgt max_attempts attempts :
  effect_blind R -> keeps R (DMS.target_attempts ri tgt max_attempts attempts).
Proof.
  intros HR. pose proof (test_connection_keeps ri tgt HR) as Ht.
  destruct HR as (HR & ? & ? & ?).
  induction attempts as [|a rest IH]; cbn [DMS.target_attempts]; [frames|].
  apply keeps_bind; [exact HR | exact Ht |]. intros [|]; [frames|].
  apply keeps_bind; [exact HR | destruct (Nat.ltb a (max_attempts - 1)); frames |].
  intros _. exact IH.
Qed.

Lemma optimize_s3_endpoint_total tgt : total (DMS.optimize_s3_endpoint tgt).
Proof. unfold DMS.optimize_s3_endpoint. frames. Qed.

(** X19.  When the test of an S3 target endpoint has failed three times
    and [ACCEPT_S3_CONNECTION_FAILURES] is not set, [DMS.main] asks the
    console.  It goes on to the replication task if the answer is [yes] (in
    any letter case) and returns [False] on any other answer; with no line
    to read, the [EOFError] of [input] leaves [main], which has no handler
    for it. *)
Theorem failed_s3_test_asks_the_console (ri tgt : string) (w w1 w2 : World) :
  DMS.detect_s3_target tgt w = (Val true, w1) ->
  accept_flag w = false ->
  DMS.target_attempts (Some ri) (Some tgt) 3 (seq 0 3) w1 = (Val false, w2) ->
  match stdin w with
  | [] =>
      exists e w3,
        DMS.target_connection_stage (Some ri) (Some tgt) w = (Exc e, w3)
        /\ err_code e = "EOFError"
  | answer :: _ =>
      exists w3,
        DMS.target_connection_stage (Some ri) (Some tgt) w
        = (Val (lower answer =? "yes"), w3)
  end.
Proof.
  intros Hd Hacc Ha.
  assert (He1 : environ w1 = environ w).
  { eapply (keeps_run (R:=same_env)); [|exact Hd].
    apply detect_s3_target_keeps, same_env_blind. }
  assert (Hi1 : stdin w1 = stdin w).
  { eapply (keeps_run (R:=same_stdin)); [|exact Hd].
    apply detect_s3_target_keeps, same_stdin_blind. }
  assert (He2 : environ w2 = environ w1).
  { eapply (keeps_run (R:=same_env)); [|exact Ha].
    apply target_attempts_keeps, same_env_blind. }
  assert (Hi2 : stdin w2 = stdin w1).
  { eapply (keeps_run (R:=same_stdin)); [|exact Ha].
    apply target_attempts_keeps, same_stdin_blind. }
  assert (Hacc1 : accept_flag w1 = false)
    by (rewrite (accept_flag_env w w1); assumption).
  destruct (stdin w) as [|answer rest] eqn:Hin.
  - unfold DMS.target_connection_stage. cbn [fstr].
    unfold bind at 1. rewrite Hd.
    unfold bind at 1. rewrite accept_flag_run, Hacc1. cbn [andb].
    unfold bind at 1. rewrite Ha. cbn [negb andb].
    unfold bind at 1. unfold bind at 1. unfold print at 1, record at 1.
    cbv beta iota.
    unfold bind at 1. rewrite accept_flag_run.
    match goal with |- context[accept_flag ?w3] =>
      assert (Hacc3 : accept_flag w3 = false)
        by (rewrite (accept_flag_env w w3); [exact Hacc | cbn [environ]; congruence]);
      rewrite Hacc3
    end.
    cbn [negb]. unfold bind at 1. unfold input at 1. cbn [stdin].
    rewrite Hi2, Hi1.
    do 2 eexists. split; reflexivity.
  - unfold DMS.target_connection_stage. cbn [fstr].
    unfold bind at 1. rewrite Hd.
    unfold bind at 1. rewrite accept_flag_run, Hacc1. cbn [andb].
    unfold bind at 1. rewrite Ha. cbn [negb andb].
    unfold bind at 1. unfold bind at 1. unfold print at 1, record at 1.
    cbv beta iota.
    unfold bind at 1. rewrite accept_flag_run.
    match goal with |- context[accept_flag ?w3] =>
      assert (Hacc3 : accept_flag w3 = false)
        by (rewrite (accept_flag_env w w3); [exact Hacc | cbn [environ]; congruence]);
      rewrite Hacc3
    end.
    cbn [negb]. unfold bind at 1. unfold input at 1. cbn [stdin].
    rewrite Hi2, Hi1.
    destruct (lower answer =? "yes"); cbn [negb].
    + unfold ret at 1. cbv beta iota. cbn [negb]. unfold bind at 1.
      match goal with |- context[DMS.optimize_s3_endpoint tgt ?w3] =>
        destruct (optimize_s3_endpoint_total tgt w3) as [[] Ho];
        destruct (DMS.optimize_s3_endpoint tgt w3) as [r w4]
      end.
      cbn in Ho. subst r. unfold ret. eexists. reflexivity.
    + unfold ret. eexists. reflexivity.
Qed.

End Prompt.

(** ** Every listed task is sent a delete (delete_di.py) *)

Section TeardownReach.
Context `{Cloud}.

Definition unchanged (w w' : World) : Prop := w' = w.

Lemma unchanged_pre : preorder unchanged.
Proof. split; unfold unchanged; [reflexivity | intros a b c E1 E2; congruence]. Qed.

Lemma get_resource_data_unchanged ty k (w w' : World) r :
  Utils.get_resource_data ty k w = (r, w') -> w' = w.
Proof.
  intros E. eapply (keeps_run (R:=unchanged)); [|exact E].
  apply get_resource_data_keeps, unchanged_pre.
Qed.

Lemma for_each_reaches {A} (l : list A) (body : A -> M unit) (c : A -> call) :
  (forall x, keeps grows (body x)) ->
  (forall x w w', body x w = (Val tt, w') ->
     exists tr, trace w' = (trace w ++ tr)%list /\ In (c x) (calls tr)) ->
  forall w w', for_each l body w = (Val tt, w') ->
    exists tr, trace w' = (trace w ++ tr)%list
               /\ forall x, In x l -> In (c x) (calls tr).
Proof.
  intros Hg Hb. induction l as [|x l IH]; intros w w' E; cbn [for_each] in E.
  - apply ret_Val_inv in E as (_ & ->). exists []. rewrite app_nil_r.
    split; [reflexivity | intros x []].
  - apply bind_Val_inv in E as ([] & w1 & E1 & E).
    apply Hb in E1 as (tr1 & Et1 & Hin1).
    apply IH in E as (tr2 & Et2 & Hin2).
    exists (tr1 ++ tr2)%list. split; [rewrite Et2, Et1; now rewrite app_assoc|].
    intros y [<- | Hy]; rewrite calls_app; apply in_or_app; [left | right]; auto.
Qed.

Lemma wait_task_stopped_grows fuel start max arn :
  keeps grows (DeleteDi.wait_task_stopped fuel start max arn).
Proof.
  destruct grows_blind as (HR & ? & ? & ?).
  pose proof (fun p => @tasks_of_keeps _ grows p HR).
  induction fuel as [|n IH]; cbn [DeleteDi.wait_task_stopped]; [frames|].
  apply keeps_bind; [exact HR | frames |]. intros t.
  destruct (Nat.ltb (t - start) max); [|frames].
  apply keeps_bind; [exact HR | frames |]. intros [|]; [exact IH | frames].
Qed.

Lemma wait_all_tasks_deleted_grows fuel start max :
  keeps grows (DeleteDi.wait_all_tasks_deleted fuel start max).
Proof.
  destruct grows_blind as (HR & ? & ? & ?).
  induction fuel as [|n IH]; cbn [DeleteDi.wait_all_tasks_deleted]; [frames|].
  apply keeps_bind; [exact HR | frames |]. intros t.
  destruct (Nat.ltb (t - start) max); [|frames].
  apply keeps_bind; [exact HR | frames |]. intros [|]; [frames | exact IH].
Qed.

Lemma filter_value_keeps R j : preorder R -> keeps R (DeleteDi.filter_value j).
Proof. intros HR. unfold DeleteDi.filter_value. frames. Qed.

(** X20.  [delete_di.delete_replication_tasks] sends a delete to every
    task of its listing.  Whenever it returns [True] or [False] (rather than
    [None]), each task that the listing showed has been sent a
    [delete_replication_task], whatever became of the attempt to stop it:
    a [ClientError] of the stop call or of a poll, or a task still running
    after the 60 s wait, does not hold the delete back. *)
Theorem every_listed_task_is_sent_a_delete
        (w w' : World) (p : payload) (s : RS) (dt : nat) (b : bool) :
  cloud_step (remote w) (DescribeReplicationTasks None) = (inr p, s, dt) ->
  DeleteDi.delete_replication_tasks w = (Val (Some b), w') ->
  exists tr,
    trace w' = (trace w ++ tr)%list
    /\ forall t, In t (DeleteDi.tasks_or_empty p) ->
                 In (DeleteReplicationTask (t_arn t)) (calls tr).
Proof.
  intros Hstep E. unfold DeleteDi.delete_replication_tasks in E.
  unfold try_except_if at 1 in E.
  apply try_except_Val_inv in E as [E | (e & w0 & _ & E)];
    [|destruct (ClientError e); discriminate].
  apply bind_Val_inv in E as (task_id & w1 & E1 & E).
  apply get_resource_data_unchanged in E1 as ->.
  apply bind_Val_inv in E as (task_arn & w1 & E1 & E).
  apply get_resource_data_unchanged in E1 as ->.
  apply bind_Val_inv in E as (all_tasks & w1 & E1 & E).
  unfold try_except_if, try_except in E1. unfold bind at 1 in E1.
  unfold aws at 1 in E1. rewrite Hstep in E1. unfold ret in E1.
  injection E1 as <- <-.
  set (w1 := mkWorld s _ _ _ _ _) in E.
  apply bind_Val_inv in E as (all_tasks & w2 & E2 & E).
  assert (H2 : grows w1 w2
               /\ forall t, In t (DeleteDi.tasks_or_empty p) -> In t all_tasks).
  { split.
    - eapply (keeps_run (R:=grows)); [|exact E2].
      destruct grows_blind as (HR & ? & ? & ?).
      pose proof (fun p => @tasks_of_keeps _ grows p HR).
      pose proof (fun j => @filter_value_keeps grows j HR).
      frames.
    - destruct (json_truthy task_id && json_truthy task_arn);
        [|apply ret_Val_inv in E2 as (<- & _); auto].
      destruct (negb (existsb _ _));
        [|apply ret_Val_inv in E2 as (<- & _); auto].
      unfold try_except_if in E2.
      apply try_except_Val_inv in E2 as [E2 | (e & w0 & _ & E2)].
      + apply bind_Val_inv in E2 as (arn & w3 & _ & E2).
        apply bind_Val_inv in E2 as (resp & w4 & _ & E2).
        apply bind_Val_inv in E2 as (l & w5 & _ & E2).
        destruct l; apply ret_Val_inv in E2 as (<- & _); auto.
        intros t' Ht. apply in_or_app. now left.
      + destruct (ClientError e); [|discriminate].
        apply ret_Val_inv in E2 as (<- & _); auto. }
  destruct H2 as [[tr12 Hg12] Hsub].
  apply bind_Val_inv in E as ([] & w3 & E3 & E).
  apply for_each_reaches with (c := fun t => DeleteReplicationTask (t_arn t)) in E3
    as (tr23 & Hg23 & Hin).
  - assert (Hg3 : grows w3 w').
    { eapply (keeps_run (R:=grows)); [|exact E].
      destruct grows_blind as (HR & ? & ? & ?).
      pose proof wait_all_tasks_deleted_grows. frames. }
    destruct Hg3 as [tr3 Hg3].
    exists (EvCall (DescribeReplicationTasks None) (inr p) :: tr12 ++ tr23 ++ tr3)%list.
    split.
    + rewrite Hg3, Hg23, Hg12. subst w1. cbn [trace].
      rewrite <- !app_assoc. reflexivity.
    + intros t Ht. cbn. right. rewrite !calls_app.
      apply in_or_app. right. apply in_or_app. left. apply Hin, Hsub, Ht.
  - intros t. destruct grows_blind as (HR & ? & ? & ?).
    pose proof wait_task_stopped_grows. frames.
  - intros t wa wb Eb.
    apply bind_Val_inv in Eb as ([] & wc & Ec & Eb).
    assert (Hgc : grows wa wc).
    { eapply (keeps_run (R:=grows)); [|exact Ec].
      destruct grows_blind as (HR & ? & ? & ?).
      pose proof wait_task_stopped_grows. frames. }
    destruct Hgc as [trc Hgc].
    unfold try_except_if, try_except in Eb. unfold bind at 1 in Eb.
    unfold aws at 1 in Eb.
    destruct (cloud_step (remote wc) (DeleteReplicationTask (t_arn t)))
      as [[[e | pd] sd] dtd].
    + destruct (ClientError e); [|discriminate].
      unfold ret in Eb. injection Eb as <-. cbn [trace].
      exists (trc ++ [EvCall (DeleteReplicationTask (t_arn t)) (inl e)])%list.
      split; [rewrite Hgc; now rewrite app_assoc|].
      rewrite calls_app. apply in_or_app. right. now left.
    + unfold ret in Eb. injection Eb as <-. cbn [trace].
      exists (trc ++ [EvCall (DeleteReplicationTask (t_arn t)) (inr pd)])%list.
      split; [rewrite Hgc; now rewrite app_assoc|].
      rewrite calls_app. apply in_or_app. right. now left.
Qed.

End TeardownReach.

(** ** When the pipeline reports success *)

Section Success.
Context `{Cloud}.

(** The poll on which the monitoring loop returned. *)
Lemma monitor_task_Val fuel arn (w w' : World) (b : bool) :
  DMS.monitor_task fuel arn w = (Val b, w') ->
  exists tr l,
    trace w' = (tr ++ [EvCall (task_poll arn) (inr (PTasks l))])%list
    /\ match l with
       | [] => b = false
       | t :: _ =>
           (lower (t_status t) = "stopped"
            /\ b = contains "FULL_LOAD_ONLY_FINISHED" (DMS.stop_reason_of t))
           \/ (lower (t_status t) = "failed" /\ b = false)
       end.
Proof.
  revert w. induction fuel as [|n IH]; intros w E.
  - cbn in E. discriminate.
  - cbn [DMS.monitor_task] in E. unfold bind at 1 in E. unfold aws at 1 in E.
    fold (task_poll arn) in E.
    destruct (cloud_step (remote w) (task_poll arn)) as [[r s1] dt1].
    destruct r as [e | p]; [discriminate|].
    unfold bind at 1 in E.
    destruct p; cbn in E; try discriminate.
    destruct l as [|t rest].
    + unfold ret in E. injection E as <- <-. cbn.
      exists (trace w), []. split; reflexivity.
    + destruct (lower (t_status t) =? "stopped") eqn:Es.
      * unfold ret in E. injection E as <- <-. cbn.
        exists (trace w), (t :: rest). split; [reflexivity|].
        left. split; [now apply String.eqb_eq | reflexivity].
      * destruct (lower (t_status t) =? "failed") eqn:Ef.
        -- unfold ret in E. injection E as <- <-. cbn.
           exists (trace w), (t :: rest). split; [reflexivity|].
           right. split; [now apply String.eqb_eq | reflexivity].
        -- unfold bind at 1 in E. unfold sleep at 1 in E.
           apply IH in E. exact E.
Qed.

Ltac ret_false E := apply ret_Val_inv in E as (? & _); discriminate.

(** X21.  [DMS.main] returns [True] only on a finished full load: when it
    does, the run ends on a poll of the replication task (nothing but
    progress output follows it) that showed it [stopped] with a stop reason
    containing FULL_LOAD_ONLY_FINISHED.  A task that failed, that vanished from the
    listing, or that was stopped for another reason makes [main] return
    [False]. *)
Theorem main_succeeds_only_on_full_load
        (fuel : nat) (rds_endpoint : option (string * nat))
        (bucket_name : option string) (roles : list (option string))
        (w w' : World) :
  DMS.main fuel rds_endpoint bucket_name roles w = (Val true, w') ->
  exists tr arn t rest,
    trace w' = (tr ++ [EvCall (task_poll arn) (inr (PTasks (t :: rest)))])%list
    /\ lower (t_status t) = "stopped"
    /\ contains "FULL_LOAD_ONLY_FINISHED" (DMS.stop_reason_of t) = true.
Proof.
  intros E. unfold DMS.main in E. cbv zeta in E.
  apply bind_Val_inv in E as (ok & w1 & _ & E).
  destruct (negb ok); [ret_false E|].
  apply bind_Val_inv in E as (ri & w2 & _ & E).
  destruct (negb (truthy ri)); [ret_false E|].
  apply bind_Val_inv in E as (src & w3 & _ & E).
  destruct (negb (truthy src)); [ret_false E|].
  apply bind_Val_inv in E as (tgt & w4 & _ & E).
  destruct (negb (truthy tgt)); [ret_false E|].
  unfold DMS.main_after_endpoints in E.
  apply bind_Val_inv in E as (u & w5 & _ & E).
  apply bind_Val_inv in E as (source_ok & w6 & _ & E).
  destruct (negb source_ok).
  { apply bind_Val_inv in E as (u' & w7 & _ & E). ret_false E. }
  apply bind_Val_inv in E as (proceed & w7 & _ & E).
  destruct (negb proceed); [ret_false E|].
  unfold DMS.run_replication_task in E.
  apply bind_Val_inv in E as (task_arn & w8 & _ & E).
  destruct (negb (truthy task_arn)); [ret_false E|].
  apply bind_Val_inv in E as (success & w9 & Es & E).
  destruct success; cbn [negb] in E; [|ret_false E].
  apply ret_Val_inv in E as (_ & ->).
  unfold DMS.start_replication_task in Es.
  destruct (negb (truthy task_arn)); [ret_false Es|].
  apply try_except_Val_inv in Es as [Es | (e & w0 & _ & Es)]; [|ret_false Es].
  apply bind_Val_inv in Es as (response & wa & _ & Es).
  apply bind_Val_inv in Es as (l & wb & _ & Es).
  destruct l as [|t0 rest0]; [ret_false Es|].
  apply bind_Val_inv in Es as (u' & wc & _ & Es).
  apply monitor_task_Val in Es as (tr & l & Etr & Hl).
  destruct l as [|t rest]; [discriminate|].
  destruct Hl as [[Hst Hb] | [_ Hb]]; [|discriminate].
  exists tr, (fstr task_arn), t, rest. auto.
Qed.

End Success.

(** ** What is never deleted *)

Section NeverDeleted.
Context `{Cloud}.

Definition keeps_endpoints (c : call) : Prop :=
  match c with
  | DeleteEndpoint _ => False
  | _ => True
  end.

(** Without an endpoint in the listing there is no ARN to delete. *)
Lemma stale_endpoint_arn_raises (response : option payload) (w : World) :
  match response with
  | Some (PEndpoints (_ :: _)) => False
  | _ => True
  end ->
  exists e, DMS.stale_endpoint_arn response w = (Exc e, w).
Proof.
  intros Hr. unfold DMS.stale_endpoint_arn.
  destruct response as [p|]; [|eexists; reflexivity].
  destruct p; try (eexists; reflexivity).
  destruct l; [eexists; reflexivity | destruct Hr].
Qed.

(** X22.  [create_source_endpoint] never deletes an endpoint.  Its block
    "delete endpoint if it exists but has issues" cannot reach
    [delete_endpoint]: an endpoint that the listing shows is returned at
    once, and without one the ARN to delete cannot be read, which raises
    inside the block. *)
Theorem create_source_endpoint_never_deletes
        (rds_endpoint : option (string * nat)) (w : World) :
  exists tr,
    trace (snd (DMS.create_source_endpoint rds_endpoint w)) = (trace w ++ tr)%list
    /\ Forall keeps_endpoints (calls tr).
Proof.
  assert (Hk : keeps (only keeps_endpoints) (DMS.create_source_endpoint rds_endpoint)).
  { pose proof (fun p => @endpoints_of_keeps _ (only keeps_endpoints) p
                           (only_pre keeps_endpoints)).
    assert (Hc : forall p, keeps (only keeps_endpoints) (DMS.created_endpoint_arn p))
      by (intros p; unfold DMS.created_endpoint_arn; frames).
    unfold DMS.create_source_endpoint.
    destruct rds_endpoint as [[Address Port]|]; [|frames].
    apply keeps_bind; [apply only_pre | frames |]. intros profile. cbv zeta.
    apply keeps_try_except; [apply only_pre | | intros e; frames].
    apply keeps_bind; [apply only_pre | frames |]. intros response.
    assert (Hstale : (match response with
                      | Some (PEndpoints (_ :: _)) => False
                      | _ => True
                      end) ->
              keeps (only keeps_endpoints)
                (try_except
                   (arn <- DMS.stale_endpoint_arn response ;;
                    aws (DeleteEndpoint arn) ;;; sleep 5)
                   (fun _ => ret tt))).
    { intros Hr w0. unfold try_except, bind.
      destruct (stale_endpoint_arn_raises response w0 Hr) as [e ->].
      cbn. apply (pre_refl (only_pre keeps_endpoints)). }
    destruct response as [p|].
    - destruct p; try (apply keeps_bind; [apply only_pre | now apply Hstale |];
                       intros _; frames).
      destruct l as [|e rest]; [|frames].
      apply keeps_bind; [apply only_pre | now apply Hstale |]. intros _. frames.
    - apply keeps_bind; [apply only_pre | now apply Hstale |]. intros _. frames. }
  destruct (Hk w) as (tr & E & F). now exists tr.
Qed.

Definition spares_foreign_policies (c : call) : Prop :=
  match c with
  | DeletePolicy arn => contains "dms-s3-access-policy" arn = true
  | _ => True
  end.

Lemma get_existing_role_only P name :
  (forall n, P (GetRole n)) -> keeps (only P) (IAM.get_existing_role name).
Proof.
  intros HP. unfold IAM.get_existing_role.
  apply keeps_try_except; [apply only_pre | | intros e; frames].
  apply keeps_bind; [apply only_pre | apply only_aws, HP |]. intros r. frames.
Qed.

(** X23.  The two role reconcilers delete no policy but the pipeline's
    own.  Every [delete_policy] that [create_dms_role] issues is for a
    policy whose ARN contains [dms-s3-access-policy]; the other policies
    attached to the role are only detached.  [create_dms_vpc_role] deletes
    no policy at all. *)
Theorem role_reconcilers_spare_other_policies (force_recreate : bool) (w : World) :
  (exists tr,
      trace (snd (IAM.create_dms_role force_recreate w)) = (trace w ++ tr)%list
      /\ Forall spares_foreign_policies (calls tr))
  /\ (exists tr,
         trace (snd (IAM.create_dms_vpc_role force_recreate w)) = (trace w ++ tr)%list
         /\ forall arn, ~ In (DeletePolicy arn) (calls tr)).
Proof.
  split.
  - assert (Hk : keeps (only spares_foreign_policies) (IAM.create_dms_role force_recreate)).
    { pose proof (fun ty k => @get_resource_data_keeps _ (only spares_foreign_policies)
                                ty k (only_pre _)).
      pose proof (fun n => @get_existing_role_only spares_foreign_policies n
                             (fun _ => I)).
      pose proof (fun p => @role_arn_of_keeps _ (only spares_foreign_policies) p
                             (only_pre _)).
      assert (Hbody : forall role policy,
                 keeps (only spares_foreign_policies)
                   (aws (DetachRolePolicy role (p_arn policy)) ;;;
                    if contains "dms-s3-access-policy" (p_arn policy)
                    then aws (DeletePolicy (p_arn policy)) ;;; ret tt
                    else ret tt)).
      { intros role policy.
        apply keeps_bind; [apply only_pre | frames |]. intros _.
        destruct (contains "dms-s3-access-policy" (p_arn policy)) eqn:Hc; [|frames].
        apply keeps_bind; [apply only_pre | apply only_aws; exact Hc |].
        intros _. frames. }
      unfold IAM.create_dms_role. frames. }
    destruct (Hk w) as (tr & E & F). now exists tr.
  - set (P := fun c : call => match c with DeletePolicy _ => False | _ => True end).
    assert (Hk : keeps (only P) (IAM.create_dms_vpc_role force_recreate)).
    { pose proof (fun ty k => @get_resource_data_keeps _ (only P) ty k (only_pre _)).
      pose proof (fun n => @get_existing_role_only P n (fun _ => I)).
      pose proof (fun p => @role_arn_of_keeps _ (only P) p (only_pre _)).
      unfold IAM.create_dms_vpc_role. frames. }
    destruct (Hk w) as (tr & E & F). exists tr. split; [exact E|].
    intros arn Hin. rewrite Forall_forall in F. exact (F _ Hin).
Qed.

End NeverDeleted.

(** ** Running a reconciler twice on the reference account *)

Ltac ref_call H :=
  let Hr := fresh "Hr" in let Hs := fresh "Hs" in let Hl := fresh "Hl" in
  let He := fresh "He" in let Hn := fresh "Hn" in let Hi := fresh "Hi" in
  let Ht := fresh "Ht" in
  apply aws_ref in H as (Hr & Hs & Hl & He & Hn & Hi & Ht);
  cbn in Hr, Hs.

Section TwiceOnRef.
Import Ref.

Lemma create_replication_instance_env v :
  keeps (H:=Ref.cloud) same_env (DMS.create_replication_instance v).
Proof.
  assert (Hf : forall l : list ReplInstance, keeps (H:=Ref.cloud) same_env (DMS.first l))
    by (intros l; unfold DMS.first; frames).
  pose proof (fun p => @instances_of_keeps Ref.cloud same_env p same_env_pre).
  unfold DMS.create_replication_instance. frames.
Qed.

(** After a successful run the account has the instance, under the name
    the environment gives it. *)
Lemma create_replication_instance_post v (w w1 : @World Ref.cloud) arn :
  DMS.create_replication_instance v w = (Val (Some arn), w1) ->
  environ w1 = environ w
  /\ dict_get (replication_instance_id w) (instances (remote w1)) = Some tt
  /\ arn = instance_arn (replication_instance_id w).
Proof.
  intros E.
  assert (Henv : environ w1 = environ w)
    by (eapply (keeps_run (R:=same_env)); [|exact E]; apply create_replication_instance_env).
  split; [exact Henv|].
  unfold DMS.create_replication_instance in E.
  unfold bind at 1 in E. unfold getenv at 1 in E. cbv beta iota zeta in E.
  fold (replication_instance_id w) in E.
  set (id := replication_instance_id w) in *.
  apply try_except_Val_inv in E as [E | (e & w0 & _ & E)];
    [|apply ret_Val_inv in E as (? & _); discriminate].
  apply try_except_Val_inv in E as [E | (e & w0 & _ & E)].
  - apply bind_Val_inv in E as (resp & w2 & Ed & E).
    apply bind_Val_inv in E as (l & w3 & El & E).
    ref_call Ed.
    destruct (dict_get id (instances (remote w))) as [[]|] eqn:Hg.
    + injection Hr as ->. apply ret_Val_inv in El as (<- & ->).
      apply ret_Val_inv in E as ([= <-] & ->). rewrite Hs. auto.
    + injection Hr as ->. apply ret_Val_inv in El as (<- & ->). discriminate.
  - apply bind_Val_inv in E as (u1 & w2 & _ & E).
    apply bind_Val_inv in E as (u2 & w3 & _ & E).
    apply bind_Val_inv in E as (u3 & w4 & _ & E).
    apply bind_Val_inv in E as (resp & w5 & Ed & E).
    apply bind_Val_inv in E as (l & w6 & El & E).
    apply bind_Val_inv in E as (i & w7 & Ei & E).
    apply bind_Val_inv in E as (j & w8 & Eu & E).
    apply ret_Val_inv in E as ([= <-] & ->).
    ref_call Ed.
    destruct (dict_get id (instances (remote w4))) as [[]|] eqn:Hg.
    + injection Hr as ->. apply ret_Val_inv in El as (<- & ->).
      apply ret_Val_inv in Ei as (<- & ->).
      apply accepts_inv in Eu as (Hr8 & _); [|reflexivity].
      rewrite Hr8, Hs. auto.
    + injection Hr as ->. apply ret_Val_inv in El as (<- & ->). discriminate.
Qed.


Lemma bind_Exc_inv {A B} (m : M (H:=Ref.cloud) A) (k : A -> M B) w e w' :
  bind m k w = (Exc e, w') ->
  m w = (Exc e, w') \/ exists a w1, m w = (Val a, w1) /\ k a w1 = (Exc e, w').
Proof.
  unfold bind. destruct (m w) as [[a | e0 |] w1]; intros E.
  - right. now exists a, w1.
  - left. now injection E as -> ->.
  - discriminate.
Qed.

Lemma mutating_calls_snoc tr c r :
  mutating c = false ->
  mutating_calls (tr ++ [EvCall c r]) = mutating_calls tr.
Proof.
  intros Hc. rewrite mutating_calls_app. unfold mutating_calls at 2. cbn.
  rewrite Hc. apply app_nil_r.
Qed.

Lemma create_replication_instance_twice v (w w1 : @World Ref.cloud) arn :
  DMS.create_replication_instance v w = (Val (Some arn), w1) ->
  exists w2,
    DMS.create_replication_instance v w1 = (Val (Some arn), w2)
    /\ mutating_calls (trace w2) = mutating_calls (trace w1).
Proof.
  intros E. apply create_replication_instance_post in E as (Henv & Hg & ->).
  assert (Hid : replication_instance_id w1 = replication_instance_id w)
    by (unfold replication_instance_id; now rewrite Henv).
  destruct (@create_replication_instance_reuse Ref.cloud v w1
              (instance_of (replication_instance_id w) tt) [] (remote w1) 0)
    as (w2 & E2 & Ht & _).
  { rewrite Hid. cbn [cloud_step cloud]. unfold step, select.
    cbn [String.eqb Ascii.eqb Bool.eqb]. now rewrite Hg. }
  exists w2. split; [exact E2|].
  rewrite Ht. now apply mutating_calls_snoc.
Qed.

(** The bucket. *)
Lemma create_bucket_Val (region : option string) name (w w' : @World Ref.cloud) u :
  (match region with
   | Some "us-east-1" => aws (CreateBucket name None) ;;; ret tt
   | Some r => aws (CreateBucket name (Some r)) ;;; ret tt
   | None => raise (mkExn false "ParamValidationError" "LocationConstraint")
   end) w = (Val u, w') ->
  exists loc p, aws (CreateBucket name loc) w = (Val p, w').
Proof.
  intros E. destruct region as [r|]; [|discriminate].
  repeat match type of E with
         | context[match ?x with _ => _ end] => destruct x
         end;
    apply bind_Val_inv in E as (p & w0 & Ea & E);
    apply ret_Val_inv in E as (_ & ->); eauto.
Qed.

Lemma create_s3_bucket_env : keeps (H:=Ref.cloud) same_env S3.create_s3_bucket.
Proof.
  unfold S3.create_s3_bucket.
  apply keeps_bind; [apply same_env_pre | frames |]. intros account_id.
  apply keeps_bind; [apply same_env_pre | frames |]. intros region. cbv zeta.
  apply keeps_try_except; [apply same_env_pre | | intros e; frames].
  apply keeps_bind; [apply same_env_pre | | intros u; frames].
  apply keeps_try_except_if; [apply same_env_pre | frames |]. intros e.
  destruct (err_code e =? "404"); [|frames].
  apply keeps_bind; [apply same_env_pre | | intros u; frames].
  destruct region as [r|]; [|frames].
  repeat (match goal with
          | |- keeps _ (match ?x with _ => _ end) => destruct x
          end); frames.
Qed.

Lemma create_s3_bucket_post (w w1 : @World Ref.cloud) b :
  S3.create_s3_bucket w = (Val (Some b), w1) ->
  environ w1 = environ w
  /\ dict_has (target_bucket w) (buckets (remote w1)) = true
  /\ b = target_bucket w.
Proof.
  intros E.
  assert (Henv : environ w1 = environ w)
    by (eapply (keeps_run (R:=same_env)); [|exact E]; apply create_s3_bucket_env).
  pose proof (create_s3_bucket_name _ E) as Hb.
  split; [exact Henv|]. split; [|exact Hb].
  unfold S3.create_s3_bucket in E.
  unfold bind at 1 in E. unfold getenv at 1 in E.
  unfold bind at 1 in E. unfold getenv at 1 in E. cbv beta iota zeta in E.
  fold (target_bucket w) in E. remember (target_bucket w) as name eqn:Hname.
  clear Hname Hb.
  apply try_except_Val_inv in E as [E | (e & w0 & _ & E)];
    [|apply ret_Val_inv in E as (? & _); discriminate].
  apply bind_Val_inv in E as (u & w2 & E & Er).
  apply ret_Val_inv in Er as (_ & ->).
  unfold try_except_if in E.
  apply try_except_Val_inv in E as [E | (e & w0 & Eh & E)].
  - apply bind_Val_inv in E as (p & w3 & Ea & E).
    apply ret_Val_inv in E as (_ & ->).
    ref_call Ea.
    destruct (dict_has name (buckets (remote w))) eqn:Hh; [|discriminate].
    cbn in Hs. now rewrite Hs.
  - destruct (ClientError e); [|discriminate].
    destruct (err_code e =? "404"); [|discriminate].
    apply bind_Val_inv in E as (u1 & w3 & Ec & E).
    apply bind_Val_inv in E as (j & w4 & Eu & E).
    apply ret_Val_inv in E as (_ & ->).
    apply create_bucket_Val in Ec as (loc & p & Ec).
    ref_call Ec.
    apply accepts_inv in Eu as (Hr8 & _); [|reflexivity].
    rewrite Hr8, Hs.
    destruct (dict_has name (buckets (remote w0))) eqn:Hh; [discriminate|].
    cbn. apply dict_has_set_same.
Qed.

Lemma create_s3_bucket_twice (w w1 : @World Ref.cloud) b :
  S3.create_s3_bucket w = (Val (Some b), w1) ->
  exists w2,
    S3.create_s3_bucket w1 = (Val (Some b), w2)
    /\ mutating_calls (trace w2) = mutating_calls (trace w1).
Proof.
  intros E. apply create_s3_bucket_post in E as (Henv & Hh & ->).
  assert (Hid : target_bucket w1 = target_bucket w)
    by (unfold target_bucket; now rewrite Henv).
  destruct (@create_s3_bucket_found Ref.cloud w1 PEmpty (remote w1) 0)
    as (w2 & E2 & Ht & _).
  { rewrite Hid. cbn [cloud_step cloud]. unfold step. now rewrite Hh. }
  exists w2. rewrite Hid in E2. split; [exact E2|].
  rewrite Ht. now apply mutating_calls_snoc.
Qed.

(** The source endpoint. *)
Lemma create_source_endpoint_env rds :
  keeps (H:=Ref.cloud) same_env (DMS.create_source_endpoint rds).
Proof.
  assert (Hf : forall l : list Endpoint, keeps (H:=Ref.cloud) same_env (DMS.first l))
    by (intros l; unfold DMS.first; frames).
  pose proof (fun p => @endpoints_of_keeps Ref.cloud same_env p same_env_pre).
  assert (Hc : forall p, keeps (H:=Ref.cloud) same_env (DMS.created_endpoint_arn p))
    by (intros p; unfold DMS.created_endpoint_arn; frames).
  assert (Hs : forall r, keeps (H:=Ref.cloud) same_env (DMS.stale_endpoint_arn r))
    by (intros r; unfold DMS.stale_endpoint_arn; frames).
  unfold DMS.create_source_endpoint. frames.
Qed.

Lemma create_source_endpoint_post rds (w w1 : @World Ref.cloud) arn :
  DMS.create_source_endpoint rds w = (Val (Some arn), w1) ->
  environ w1 = environ w
  /\ (exists address port, rds = Some (address, port))
  /\ (exists body, dict_get (source_endpoint_id w) (endpoints (remote w1)) = Some body)
  /\ arn = endpoint_arn (source_endpoint_id w).
Proof.
  intros E.
  assert (Henv : environ w1 = environ w)
    by (eapply (keeps_run (R:=same_env)); [|exact E]; apply create_source_endpoint_env).
  split; [exact Henv|].
  unfold DMS.create_source_endpoint in E.
  destruct rds as [[address port]|]; [|apply ret_Val_inv in E as (? & _); discriminate].
  split; [eauto|].
  unfold bind at 1 in E. unfold getenv at 1 in E. cbv beta iota zeta in E.
  fold (source_endpoint_id w) in E.
  remember (source_endpoint_id w) as id eqn:Hid. clear Hid.
  apply try_except_Val_inv in E as [E | (e & w0 & _ & E)];
    [|apply ret_Val_inv in E as (? & _); discriminate].
  apply bind_Val_inv in E as (response & w0 & Ed & E).
  (* what the listing showed, and that it changed nothing *)
  assert (Hd : remote w0 = remote w
               /\ forall e rest, response = Some (PEndpoints (e :: rest)) ->
                    exists body, dict_get id (endpoints (remote w)) = Some body
                                 /\ e = endpoint_of id body).
  { apply try_except_Val_inv in Ed as [Ed | (e & w2 & Ed & Er)].
    - apply bind_Val_inv in Ed as (r & w2 & Ea & Ed).
      apply ret_Val_inv in Ed as (<- & ->).
      ref_call Ea.
      destruct (dict_get id (endpoints (remote w))) as [body|] eqn:Hg;
        cbn in Hr, Hs; injection Hr as ->; split; try exact Hs.
      + intros e rest [= <- <-]. eauto.
      + intros e rest [=].
    - apply ret_Val_inv in Er as (<- & ->).
      apply bind_Exc_inv in Ed. split; [|intros e0 rest [=]].
      destruct Ed as [Ea | (r & w3 & Ea & Ed)]; [|discriminate].
      ref_call Ea. rewrite Hs.
      destruct (dict_get id (endpoints (remote w))); reflexivity. }
  destruct Hd as (Hrem & Hshow).
  assert (Hcreate :
            (forall e rest, response <> Some (PEndpoints (e :: rest))) ->
            (exists body, dict_get id (endpoints (remote w1)) = Some body)
            /\ arn = endpoint_arn id).
  { intros Hno.
    assert (E' : (try_except
                    (arn0 <- DMS.stale_endpoint_arn response ;;
                     aws (DeleteEndpoint arn0) ;;; sleep 5)
                    (fun _ => ret tt) ;;;
                  r <- aws (CreateEndpoint id "source" "sqlserver"
                              (Some (address, port)) None) ;;
                  arn0 <- DMS.created_endpoint_arn r ;;
                  Utils.update_resource_data "dms"
                    (JDict [("source_endpoint_id", JStr id);
                            ("source_endpoint_arn", JStr arn0)]) ;;;
                  ret (Some arn0)) w0 = (Val (Some arn), w1)).
    { destruct response as [p|]; [|exact E].
      destruct p; try exact E. destruct l as [|e rest]; [exact E|].
      now contradiction (Hno e rest). }
    clear E.
    apply bind_Val_inv in E' as (u & w2 & Es & E').
    assert (w2 = w0) as ->.
    { unfold try_except, bind in Es.
      destruct (@stale_endpoint_arn_raises Ref.cloud response w0) as [e He].
      - destruct response as [p|]; [|exact I]. destruct p; try exact I.
        destruct l as [|e rest]; [exact I|]. now apply (Hno e rest).
      - rewrite He in Es. now apply ret_Val_inv in Es as (_ & ->). }
    apply bind_Val_inv in E' as (r & w3 & Ea & E').
    apply bind_Val_inv in E' as (arn0 & w4 & Ec & E').
    apply bind_Val_inv in E' as (j & w5 & Eu & E').
    apply ret_Val_inv in E' as ([= <-] & ->).
    ref_call Ea.
    apply accepts_inv in Eu as (Hr8 & _); [|reflexivity].
    destruct (dict_has id (endpoints (remote w0))); cbn in Hr, Hs; [discriminate|].
    injection Hr as ->. cbn in Ec. apply ret_Val_inv in Ec as (<- & ->).
    split; [|reflexivity].
    rewrite Hr8, Hs. cbn. eexists. apply dict_get_set_same. }
  destruct response as [p|]; [|apply Hcreate; intros e' rest'; discriminate].
  destruct p; try (apply Hcreate; intros e' rest'; discriminate).
  destruct l as [|e rest]; [apply Hcreate; intros e' rest'; discriminate|].
  apply ret_Val_inv in E as ([= <-] & ->).
  destruct (Hshow e rest eq_refl) as (body & Hg & ->).
  split; [|reflexivity]. rewrite Hrem. eauto.
Qed.

Lemma create_source_endpoint_twice rds (w w1 : @World Ref.cloud) arn :
  DMS.create_source_endpoint rds w = (Val (Some arn), w1) ->
  exists w2,
    DMS.create_source_endpoint rds w1 = (Val (Some arn), w2)
    /\ mutating_calls (trace w2) = mutating_calls (trace w1).
Proof.
  intros E.
  apply create_source_endpoint_post in E
    as (Henv & (address & port & ->) & (body & Hg) & ->).
  assert (Hid : source_endpoint_id w1 = source_endpoint_id w)
    by (unfold source_endpoint_id; now rewrite Henv).
  destruct (@create_source_endpoint_reuse Ref.cloud address port w1
              (endpoint_of (source_endpoint_id w) body) [] (remote w1) 0)
    as (w2 & E2 & Ht & _).
  { rewrite Hid. cbn [cloud_step cloud]. unfold step, select.
    cbn [String.eqb Ascii.eqb Bool.eqb]. now rewrite Hg. }
  exists w2. split; [exact E2|].
  rewrite Ht. now apply mutating_calls_snoc.
Qed.

(** X24.  On the reference account, where nothing changes between calls,
    the reconcilers of the target bucket, of the replication instance and of
    the source endpoint are idempotent: run again from the world a
    successful run left, each returns the identifier it returned the first
    time and issues no mutating call. *)
Theorem reconcilers_are_idempotent_on_ref (w w1 : @World Ref.cloud) :
  (forall b,
      S3.create_s3_bucket w = (Val (Some b), w1) ->
      exists w2, S3.create_s3_bucket w1 = (Val (Some b), w2)
                 /\ mutating_calls (trace w2) = mutating_calls (trace w1))
  /\ (forall vpc_role arn,
         DMS.create_replication_instance vpc_role w = (Val (Some arn), w1) ->
         exists w2, DMS.create_replication_instance vpc_role w1 = (Val (Some arn), w2)
                    /\ mutating_calls (trace w2) = mutating_calls (trace w1))
  /\ (forall rds_endpoint arn,
         DMS.create_source_endpoint rds_endpoint w = (Val (Some arn), w1) ->
         exists w2, DMS.create_source_endpoint rds_endpoint w1 = (Val (Some arn), w2)
                    /\ mutating_calls (trace w2) = mutating_calls (trace w1)).
Proof.
  split; [|split].
  - intros b. apply create_s3_bucket_twice.
  - intros vpc_role arn. apply create_replication_instance_twice.
  - intros rds_endpoint arn. apply create_source_endpoint_twice.
Qed.

End TwiceOnRef.

(** ** How often the teardown polls *)

Section TeardownPolls.
Context `{Cloud}.

Definition is_endpoint_listing (c : call) : bool :=
  match c with DescribeEndpoints _ => true | _ => false end.

Definition is_instance_listing (c : call) : bool :=
  match c with DescribeReplicationInstances _ => true | _ => false end.

(** Number of calls of a kind in a trace. *)
Definition count_calls (P : call -> bool) (tr : list event) : nat :=
  List.length (filter P (calls tr)).

Lemma count_calls_app P (a b : list event) :
  count_calls P (a ++ b) = count_calls P a + count_calls P b.
Proof. unfold count_calls. rewrite calls_app, filter_app. apply length_app. Qed.

Lemma count_calls_call P tr c r :
  count_calls P (tr ++ [EvCall c r]) = count_calls P tr + (if P c then 1 else 0).
Proof. rewrite count_calls_app. unfold count_calls at 2. cbn. now destruct (P c). Qed.

Lemma count_calls_quiet P tr ev :
  match ev with EvCall _ _ => False | _ => True end ->
  count_calls P (tr ++ [ev]) = count_calls P tr.
Proof.
  intros Hev. rewrite count_calls_app. unfold count_calls at 2.
  destruct ev; [destruct Hev | |]; cbn; lia.
Qed.

Ltac count_trace :=
  cbn [snd trace now];
  repeat first [ rewrite count_calls_call
               | rewrite count_calls_quiet by exact I ];
  cbn [is_task_poll is_endpoint_listing is_instance_listing].

Lemma wait_task_stopped_polls fuel start arn (w : World) :
  start <= now w ->
  5 * count_calls is_task_poll
        (trace (snd (DeleteDi.wait_task_stopped fuel start 60 arn w)))
  <= 5 * count_calls is_task_poll (trace w) + (60 - (now w - start) + 4).
Proof.
  revert w. induction fuel as [|n IH]; intros w Hs; [cbn; lia|].
  cbn [DeleteDi.wait_task_stopped]. unfold bind at 1. unfold time at 1.
  destruct (Nat.ltb (now w - start) 60) eqn:Hlt; [|cbn; lia].
  apply Nat.ltb_lt in Hlt.
  unfold bind at 1. unfold try_except_if, try_except. unfold bind at 1.
  unfold aws at 1.
  destruct (cloud_step (remote w) _) as [[[e | p] s1] dt1].
  - destruct (ClientError e); unfold ret, raise; count_trace; lia.
  - unfold bind at 1. destruct p; cbn [DMS.tasks_of]; unfold raise, ret;
      try (destruct (ClientError _); count_trace; lia).
    destruct l as [|t rest]; [count_trace; lia|].
    destruct (t_status t =? "stopped"); [count_trace; lia|].
    unfold bind at 1. unfold sleep at 1. cbv beta iota.
    cbn [remote ledger_file environ now stdin trace].
    match goal with |- context[DeleteDi.wait_task_stopped n start 60 arn ?w2] =>
      specialize (IH w2 ltac:(cbn [now]; lia)) end.
    cbn [now trace] in IH. rewrite count_calls_quiet, count_calls_call in IH by exact I.
    cbn [is_task_poll] in IH. lia.
Qed.

Lemma wait_all_tasks_deleted_polls fuel start (w : World) :
  start <= now w ->
  15 * count_calls is_task_poll
         (trace (snd (DeleteDi.wait_all_tasks_deleted fuel start 300 w)))
  <= 15 * count_calls is_task_poll (trace w) + (300 - (now w - start) + 14).
Proof.
  revert w. induction fuel as [|n IH]; intros w Hs; [cbn; lia|].
  cbn [DeleteDi.wait_all_tasks_deleted]. unfold bind at 1. unfold time at 1.
  destruct (Nat.ltb (now w - start) 300) eqn:Hlt.
  2:{ unfold bind, print, record, ret. count_trace. lia. }
  apply Nat.ltb_lt in Hlt.
  unfold bind at 1. unfold try_except_if, try_except. unfold bind at 1.
  unfold aws at 1.
  destruct (cloud_step (remote w) _) as [[[e | p] s1] dt1].
  - destruct (ClientError e); [|unfold raise; count_trace; lia].
    unfold bind at 1. unfold sleep at 1. unfold ret at 1. cbv beta iota.
    cbn [remote ledger_file environ now stdin trace].
    match goal with |- context[DeleteDi.wait_all_tasks_deleted n start 300 ?w2] =>
      specialize (IH w2 ltac:(cbn [now]; lia)) end.
    cbn [now trace] in IH. rewrite count_calls_quiet, count_calls_call in IH by exact I.
    cbn [is_task_poll] in IH. lia.
  - destruct (negb (DMS.nonempty (DeleteDi.tasks_or_empty p)));
      [unfold ret; count_trace; lia|].
    unfold bind at 1. unfold sleep at 1. unfold ret at 1. cbv beta iota.
    cbn [remote ledger_file environ now stdin trace].
    match goal with |- context[DeleteDi.wait_all_tasks_deleted n start 300 ?w2] =>
      specialize (IH w2 ltac:(cbn [now]; lia)) end.
    cbn [now trace] in IH. rewrite count_calls_quiet, count_calls_call in IH by exact I.
    cbn [is_task_poll] in IH. lia.
Qed.


Lemma wait_tasks_gone_polls fuel start (w : World) :
  start <= now w ->
  15 * count_calls is_task_poll
         (trace (snd (DeleteDi.wait_tasks_gone fuel start 180 w)))
  <= 15 * count_calls is_task_poll (trace w) + (180 - (now w - start) + 14).
Proof.
  revert w. induction fuel as [|n IH]; intros w Hs; [cbn; lia|].
  cbn [DeleteDi.wait_tasks_gone]. unfold bind at 1. unfold time at 1.
  destruct (Nat.ltb (now w - start) 180) eqn:Hlt.
  2:{ unfold bind, print, record, ret. count_trace. lia. }
  apply Nat.ltb_lt in Hlt.
  unfold bind at 1. unfold aws at 1.
  destruct (cloud_step (remote w) _) as [[[e | p] s1] dt1].
  - count_trace. lia.
  - destruct (negb (DMS.nonempty (DeleteDi.tasks_or_empty p)));
      [unfold ret; count_trace; lia|].
    unfold bind at 1. unfold sleep at 1. cbv beta iota.
    cbn [remote ledger_file environ now stdin trace].
    match goal with |- context[DeleteDi.wait_tasks_gone n start 180 ?w2] =>
      specialize (IH w2 ltac:(cbn [now]; lia)) end.
    cbn [now trace] in IH. rewrite count_calls_quiet, count_calls_call in IH by exact I.
    cbn [is_task_poll] in IH. lia.
Qed.

Lemma wait_all_endpoints_deleted_polls fuel start (w : World) :
  start <= now w ->
  10 * count_calls is_endpoint_listing
         (trace (snd (DeleteDi.wait_all_endpoints_deleted fuel start 180 w)))
  <= 10 * count_calls is_endpoint_listing (trace w) + (180 - (now w - start) + 9).
Proof.
  revert w. induction fuel as [|n IH]; intros w Hs; [cbn; lia|].
  cbn [DeleteDi.wait_all_endpoints_deleted]. unfold bind at 1. unfold time at 1.
  destruct (Nat.ltb (now w - start) 180) eqn:Hlt.
  2:{ unfold bind, print, record, ret. count_trace. lia. }
  apply Nat.ltb_lt in Hlt.
  unfold bind at 1. unfold try_except_if, try_except. unfold bind at 1.
  unfold aws at 1.
  destruct (cloud_step (remote w) _) as [[[e | p] s1] dt1].
  - destruct (ClientError e); [|unfold raise; count_trace; lia].
    unfold bind at 1. unfold sleep at 1. unfold ret at 1. cbv beta iota.
    cbn [remote ledger_file environ now stdin trace].
    match goal with |- context[DeleteDi.wait_all_endpoints_deleted n start 180 ?w2] =>
      specialize (IH w2 ltac:(cbn [now]; lia)) end.
    cbn [now trace] in IH. rewrite count_calls_quiet, count_calls_call in IH by exact I.
    cbn [is_endpoint_listing] in IH. lia.
  - destruct (negb (DMS.nonempty (DeleteDi.endpoints_or_empty p)));
      [unfold ret; count_trace; lia|].
    unfold bind at 1. unfold sleep at 1. unfold ret at 1. cbv beta iota.
    cbn [remote ledger_file environ now stdin trace].
    match goal with |- context[DeleteDi.wait_all_endpoints_deleted n start 180 ?w2] =>
      specialize (IH w2 ltac:(cbn [now]; lia)) end.
    cbn [now trace] in IH. rewrite count_calls_quiet, count_calls_call in IH by exact I.
    cbn [is_endpoint_listing] in IH. lia.
Qed.

Lemma wait_endpoints_gone_polls fuel start (w : World) :
  start <= now w ->
  15 * count_calls is_endpoint_listing
         (trace (snd (DeleteDi.wait_endpoints_gone fuel start 180 w)))
  <= 15 * count_calls is_endpoint_listing (trace w) + (180 - (now w - start) + 14).
Proof.
  revert w. induction fuel as [|n IH]; intros w Hs; [cbn; lia|].
  cbn [DeleteDi.wait_endpoints_gone]. unfold bind at 1. unfold time at 1.
  destruct (Nat.ltb (now w - start) 180) eqn:Hlt.
  2:{ unfold bind, print, record, ret. count_trace. lia. }
  apply Nat.ltb_lt in Hlt.
  unfold bind at 1. unfold aws at 1.
  destruct (cloud_step (remote w) _) as [[[e | p] s1] dt1].
  - count_trace. lia.
  - destruct (negb (DMS.nonempty (DeleteDi.endpoints_or_empty p)));
      [unfold ret; count_trace; lia|].
    unfold bind at 1. unfold sleep at 1. cbv beta iota.
    cbn [remote ledger_file environ now stdin trace].
    match goal with |- context[DeleteDi.wait_endpoints_gone n start 180 ?w2] =>
      specialize (IH w2 ltac:(cbn [now]; lia)) end.
    cbn [now trace] in IH. rewrite count_calls_quiet, count_calls_call in IH by exact I.
    cbn [is_endpoint_listing] in IH. lia.
Qed.

Lemma wait_all_instances_deleted_polls fuel start (w : World) :
  start <= now w ->
  30 * count_calls is_instance_listing
         (trace (snd (DeleteDi.wait_all_instances_deleted fuel start 300 w)))
  <= 30 * count_calls is_instance_listing (trace w) + (300 - (now w - start) + 29).
Proof.
  revert w. induction fuel as [|n IH]; intros w Hs; [cbn; lia|].
  cbn [DeleteDi.wait_all_instances_deleted]. unfold bind at 1. unfold time at 1.
  destruct (Nat.ltb (now w - start) 300) eqn:Hlt.
  2:{ unfold bind, print, record, ret. count_trace. lia. }
  apply Nat.ltb_lt in Hlt.
  unfold bind at 1. unfold try_except_if, try_except. unfold bind at 1.
  unfold aws at 1.
  destruct (cloud_step (remote w) _) as [[[e | p] s1] dt1].
  - destruct (ClientError e); [|unfold raise; count_trace; lia].
    unfold bind at 1. unfold sleep at 1. unfold ret at 1. cbv beta iota.
    cbn [remote ledger_file environ now stdin trace].
    match goal with |- context[DeleteDi.wait_all_instances_deleted n start 300 ?w2] =>
      specialize (IH w2 ltac:(cbn [now]; lia)) end.
    cbn [now trace] in IH. rewrite count_calls_quiet, count_calls_call in IH by exact I.
    cbn [is_instance_listing] in IH. lia.
  - destruct (negb (DMS.nonempty (DeleteDi.instances_or_empty p)));
      [unfold ret; count_trace; lia|].
    unfold bind at 1. unfold sleep at 1. unfold ret at 1. cbv beta iota.
    cbn [remote ledger_file environ now stdin trace].
    match goal with |- context[DeleteDi.wait_all_instances_deleted n start 300 ?w2] =>
      specialize (IH w2 ltac:(cbn [now]; lia)) end.
    cbn [now trace] in IH. rewrite count_calls_quiet, count_calls_call in IH by exact I.
    cbn [is_instance_listing] in IH. lia.
Qed.

(** X25.  Each wait of the teardown polls a bounded number of times,
    whatever the account answers and however long its calls take.  Entered
    at time [now], the wait for a task to stop lists the task at most 12
    times (60 s, every 5 s); the waits for the tasks to go list them at most
    12 times before the endpoints are deleted (180 s, every 15 s) and at
    most 20 times after the tasks were deleted (300 s, every 15 s); the
    waits for the endpoints list them at most 12 and 18 times; the wait for
    the replication instances lists them at most 10 times. *)
Theorem teardown_polls_are_bounded (w : World) (arn : string) :
  let polls P (w' : World) := count_calls P (trace w') - count_calls P (trace w) in
  polls is_task_poll (snd (DeleteDi.wait_task_stopped 60 (now w) 60 arn w)) <= 12
  /\ polls is_task_poll (snd (DeleteDi.wait_tasks_gone 180 (now w) 180 w)) <= 12
  /\ polls is_task_poll (snd (DeleteDi.wait_all_tasks_deleted 300 (now w) 300 w)) <= 20
  /\ polls is_endpoint_listing (snd (DeleteDi.wait_endpoints_gone 180 (now w) 180 w)) <= 12
  /\ polls is_endpoint_listing
        (snd (DeleteDi.wait_all_endpoints_deleted 180 (now w) 180 w)) <= 18
  /\ polls is_instance_listing
        (snd (DeleteDi.wait_all_instances_deleted 300 (now w) 300 w)) <= 10.
Proof.
  cbv zeta.
  pose proof (@wait_task_stopped_polls 60 (now w) arn w (le_n _)).
  pose proof (@wait_tasks_gone_polls 180 (now w) w (le_n _)).
  pose proof (@wait_all_tasks_deleted_polls 300 (now w) w (le_n _)).
  pose proof (@wait_endpoints_gone_polls 180 (now w) w (le_n _)).
  pose proof (@wait_all_endpoints_deleted_polls 180 (now w) w (le_n _)).
  pose proof (@wait_all_instances_deleted_polls 300 (now w) w (le_n _)).
  repeat split; lia.
Qed.

End TeardownPolls.

(** ** Failures in clear_di.py *)

Section ClearFailures.
Context `{Cloud}.

(** A remote call that was answered with an error. *)
Definition failed (ev : event) : bool :=
  match ev with
  | EvCall _ (inl _) => true
  | _ => false
  end.

(** A program stops at the first failure: what it adds to the trace holds no
    failed call, but for the last event of a run that ends on an exception. *)
Definition fail_fast {A} (m : M A) : Prop :=
  forall w, exists tr last,
    trace (snd (m w)) = (trace w ++ tr ++ last)%list
    /\ Forall (fun ev => failed ev = false) tr
    /\ match fst (m w) with
       | Exc _ => List.length last <= 1
       | _ => last = []
       end.

Lemma fail_fast_ret {A} (a : A) : fail_fast (ret a).
Proof. intros w. exists [], []. cbn. rewrite app_nil_r. auto. Qed.

Lemma fail_fast_raise {A} e : fail_fast (@raise _ A e).
Proof. intros w. exists [], []. cbn. rewrite app_nil_r. auto. Qed.

Lemma fail_fast_diverge {A} : fail_fast (@diverge _ A).
Proof. intros w. exists [], []. cbn. rewrite app_nil_r. auto. Qed.

Lemma fail_fast_sleep n : fail_fast (sleep n).
Proof.
  intros w. exists [EvSleep n], []. cbn. split; [reflexivity|].
  split; [repeat constructor | reflexivity].
Qed.

Lemma fail_fast_print l : fail_fast (print l).
Proof.
  intros w. exists [EvPrint l], []. cbn. split; [reflexivity|].
  split; [repeat constructor | reflexivity].
Qed.

Lemma fail_fast_aws c : fail_fast (aws c).
Proof.
  intros w. unfold aws.
  destruct (cloud_step (remote w) c) as [[[e | p] s] dt]; cbn.
  - exists [], [EvCall c (inl e)]. cbn. auto.
  - exists [EvCall c (inr p)], []. cbn. split; [reflexivity|].
    split; [repeat constructor | reflexivity].
Qed.

Lemma fail_fast_bind {A B} (m : M A) (k : A -> M B) :
  fail_fast m -> (forall a, fail_fast (k a)) -> fail_fast (bind m k).
Proof.
  intros Hm Hk w. unfold bind.
  destruct (Hm w) as (tr & last & Et & Hc & Hl).
  destruct (m w) as [[a | e |] w1]; cbn [fst snd] in *.
  - subst last. rewrite app_nil_r in Et.
    destruct (Hk a w1) as (tr' & last' & Et' & Hc' & Hl').
    exists (tr ++ tr')%list, last'. split; [|split].
    + rewrite Et', Et. now rewrite <- !app_assoc.
    + apply Forall_app. auto.
    + exact Hl'.
  - exists tr, last. auto.
  - exists tr, last. auto.
Qed.

Lemma fail_fast_for_each {A} (l : list A) (body : A -> M unit) :
  (forall x, fail_fast (body x)) -> fail_fast (for_each l body).
Proof.
  intros Hb. induction l as [|x l IH]; cbn [for_each].
  - apply fail_fast_ret.
  - apply fail_fast_bind; [apply Hb | intros _; exact IH].
Qed.

Lemma fail_fast_tasks_of p : fail_fast (DMS.tasks_of p).
Proof.
  unfold DMS.tasks_of.
  destruct p; first [apply fail_fast_ret | apply fail_fast_raise].
Qed.

Lemma clear_wait_task_stopped_fail_fast fuel arn :
  fail_fast (ClearDi.wait_task_stopped fuel arn).
Proof.
  induction fuel as [|n IH]; cbn [ClearDi.wait_task_stopped].
  - apply fail_fast_diverge.
  - apply fail_fast_bind; [apply fail_fast_aws|]. intros response.
    apply fail_fast_bind; [apply fail_fast_tasks_of|]. intros [|task l].
    + apply fail_fast_ret.
    + destruct (t_status task =? "stopped"); [apply fail_fast_ret|].
      apply fail_fast_bind; [apply fail_fast_sleep | intros _; exact IH].
Qed.

Lemma clear_delete_task_fail_fast fuel t : fail_fast (ClearDi.delete_task fuel t).
Proof.
  unfold ClearDi.delete_task.
  apply fail_fast_bind.
  - destruct (str_in (t_status t) ["running"; "starting"]); [|apply fail_fast_ret].
    apply fail_fast_bind; [apply fail_fast_aws|]. intros _.
    apply clear_wait_task_stopped_fail_fast.
  - intros _. apply fail_fast_bind; [apply fail_fast_aws|]. intros _.
    apply fail_fast_ret.
Qed.

Lemma clear_wait_tasks_deleted_fail_fast fuel :
  fail_fast (ClearDi.wait_tasks_deleted fuel).
Proof.
  induction fuel as [|n IH]; cbn [ClearDi.wait_tasks_deleted].
  - apply fail_fast_diverge.
  - apply fail_fast_bind; [apply fail_fast_aws|]. intros tasks. cbv zeta.
    destruct (negb (DMS.nonempty (DeleteDi.tasks_or_empty tasks)));
      [apply fail_fast_ret|].
    destruct (negb (DMS.nonempty _)); [apply fail_fast_ret|].
    apply fail_fast_bind; [apply fail_fast_sleep | intros _; exact IH].
Qed.

(** Nothing follows a failed call in a trace whose failures are confined
    to its last event. *)
Lemma nothing_after_failure (tr last : list event) :
  Forall (fun ev => failed ev = false) tr -> List.length last <= 1 ->
  forall tr1 c e tr2,
    (tr ++ last)%list = (tr1 ++ EvCall c (inl e) :: tr2)%list -> tr2 = [].
Proof.
  intros Hc Hl tr1 c e tr2 E.
  destruct tr2 as [|z tr2]; [reflexivity|]. exfalso.
  destruct (@exists_last _ (z :: tr2)) as (tr2' & y & Ey); [discriminate|].
  rewrite Ey in E.
  destruct last as [|x [|? ?]]; [| |cbn in Hl; lia].
  - rewrite app_nil_r in E. subst tr.
    apply Forall_app in Hc as [_ Hc]. inversion Hc as [|? ? Hf _]. discriminate.
  - change (EvCall c (inl e) :: tr2' ++ [y])%list
      with ((EvCall c (inl e) :: tr2') ++ [y])%list in E.
    rewrite app_assoc in E. apply app_inj_tail in E as [-> _].
    apply Forall_app in Hc as [_ Hc]. inversion Hc as [|? ? Hf _]. discriminate.
Qed.

(** X27.  [clear_di.delete_replication_tasks] stops at the first call that
    fails.  Whatever call is answered with an error (the listing, a stop, a
    poll, a delete), nothing follows it in the run: no task listed after
    the one at hand is stopped or deleted, and the wait for the deletions is
    not entered.  A [ClientError] is swallowed by the handler, so the
    function never raises one. *)
Theorem clear_di_tasks_stop_at_first_failure (fuel : nat) (w : World) :
  (forall e, fst (ClearDi.delete_replication_tasks fuel w) = Exc e -> ClientError e = false)
  /\ exists tr,
       trace (snd (ClearDi.delete_replication_tasks fuel w)) = (trace w ++ tr)%list
       /\ forall tr1 c e tr2,
            tr = (tr1 ++ EvCall c (inl e) :: tr2)%list -> tr2 = [].
Proof.
  unfold ClearDi.delete_replication_tasks, try_except_if, try_except.
  match goal with |- context[match ?m w with _ => _ end] =>
    assert (Hb : fail_fast m) end.
  { apply fail_fast_bind; [apply fail_fast_aws|]. intros tasks.
    apply fail_fast_bind.
    - apply fail_fast_for_each. intros t. apply clear_delete_task_fail_fast.
    - intros _. apply fail_fast_bind; [apply clear_wait_tasks_deleted_fail_fast|].
      intros _. apply fail_fast_print. }
  destruct (Hb w) as (tr & last & Et & Hc & Hl).
  match goal with |- context[match ?m w with _ => _ end] =>
    destruct (m w) as [[[] | e |] w1] end; cbn [fst snd] in *.
  - split; [discriminate|]. subst last. exists (tr ++ [])%list.
    split; [exact Et|]. apply nothing_after_failure; [exact Hc | cbn; lia].
  - destruct (ClientError e) eqn:HC; unfold ret, raise; cbn [fst snd].
    + split; [discriminate|]. exists (tr ++ last)%list.
      split; [exact Et|]. now apply nothing_after_failure.
    + split; [intros e' [= <-]; exact HC|]. exists (tr ++ last)%list.
      split; [exact Et|]. now apply nothing_after_failure.
  - split; [discriminate|]. subst last. exists (tr ++ [])%list.
    split; [exact Et|]. apply nothing_after_failure; [exact Hc | cbn; lia].
Qed.

Lemma clear_wait_endpoints_deleted_grows fuel :
  keeps grows (ClearDi.wait_endpoints_deleted fuel).
Proof.
  destruct grows_blind as (HR & ? & ? & ?).
  induction fuel as [|n IH]; cbn [ClearDi.wait_endpoints_deleted]; [frames|].
  apply keeps_bind; [exact HR | frames |]. intros endpoints. cbv zeta.
  destruct (negb (DMS.nonempty (DeleteDi.endpoints_or_empty endpoints))); [frames|].
  destruct (negb (DMS.nonempty _)); [frames|].
  apply keeps_bind; [exact HR | frames |]. intros _. exact IH.
Qed.

(** X26.  [clear_di.delete_endpoints] sends a [delete_endpoint] to every
    endpoint of its listing, unless an error other than a [ClientError] ends
    it: the [ClientError] of one delete (an endpoint already deleted, or any
    other refusal) is caught for that endpoint alone and does not hold back
    the deletes of the others. *)
Theorem clear_di_sends_every_endpoint_a_delete
        (fuel : nat) (w : World) (p : payload) (s : RS) (dt : nat) :
  cloud_step (remote w) (DescribeEndpoints None) = (inr p, s, dt) ->
  (forall e, fst (ClearDi.delete_endpoints fuel w) <> Exc e) ->
  exists tr,
    trace (snd (ClearDi.delete_endpoints fuel w)) = (trace w ++ tr)%list
    /\ forall e, In e (DeleteDi.endpoints_or_empty p) ->
                 In (DeleteEndpoint (e_arn e)) (calls tr).
Proof.
  intros Hstep Hne.
  destruct (ClearDi.delete_endpoints fuel w) as [r w'] eqn:E. cbn [fst snd] in *.
  unfold ClearDi.delete_endpoints, try_except_if, try_except in E.
  unfold bind at 1 in E. unfold aws at 1 in E. rewrite Hstep in E.
  set (w1 := mkWorld s _ _ _ _ _) in E.
  unfold bind at 1 in E.
  set (body := fun endpoint : Endpoint => _) in E.
  assert (Hloop : forall l (wa : World),
             match for_each l body wa with
             | (Val _, wb) =>
                 exists tr, trace wb = (trace wa ++ tr)%list
                            /\ forall e, In e l -> In (DeleteEndpoint (e_arn e)) (calls tr)
             | (Exc x, _) => ClientError x = false
             | (Diverged, _) => False
             end).
  { induction l as [|e l IH]; intros wa; cbn [for_each].
    - unfold ret. exists []. rewrite app_nil_r. split; [reflexivity | intros ? []].
    - unfold bind at 1. unfold body at 1. cbv beta.
      unfold bind at 1. unfold aws at 1.
      destruct (cloud_step (remote wa) (DeleteEndpoint (e_arn e))) as [[[x | pd] sd] dtd];
        cbv beta iota.
      + destruct (ClientError x) eqn:HC; [unfold ret at 1 | unfold raise];
          cbv beta iota; [|exact HC].
        match goal with |- context[for_each l body ?wx] =>
          specialize (IH wx); destruct (for_each l body wx) as [[[] | y |] wb] end;
          [|exact IH|exact IH].
        destruct IH as (tr & Et & Hin). cbn [trace] in Et.
        exists (EvCall (DeleteEndpoint (e_arn e)) (inl x) :: tr).
        split; [rewrite Et; now rewrite <- app_assoc|].
        intros e' [<- | He']; cbn; [now left | right; auto].
      + unfold ret at 1. cbv beta iota.
        match goal with |- context[for_each l body ?wx] =>
          specialize (IH wx); destruct (for_each l body wx) as [[[] | y |] wb] end;
          [|exact IH|exact IH].
        destruct IH as (tr & Et & Hin). cbn [trace] in Et.
        exists (EvCall (DeleteEndpoint (e_arn e)) (inr pd) :: tr).
        split; [rewrite Et; now rewrite <- app_assoc|].
        intros e' [<- | He']; cbn; [now left | right; auto]. }
  specialize (Hloop (DeleteDi.endpoints_or_empty p) w1).
  destruct (for_each (DeleteDi.endpoints_or_empty p) body w1) as [[[] | x |] w2].
  - destruct Hloop as (tr & Et & Hin).
    assert (Hg : grows w2 w').
    { cbv beta iota in E.
      destruct ((ClearDi.wait_endpoints_deleted fuel ;;; print "All endpoints deleted") w2)
        as [r3 w3] eqn:E3.
      assert (Hg3 : grows w2 w3).
      { eapply (keeps_run (R:=grows)); [|exact E3].
        destruct grows_blind as (HR & ? & ? & ?).
        pose proof clear_wait_endpoints_deleted_grows. frames. }
      destruct r3 as [[] | x |]; [| destruct (ClientError x) |];
        unfold ret, raise in E; injection E as _ <-; exact Hg3. }
    destruct Hg as [tr3 Hg].
    exists (EvCall (DescribeEndpoints None) (inr p) :: tr ++ tr3)%list. split.
    + rewrite Hg, Et. subst w1. cbn [trace]. now rewrite <- !app_assoc.
    + intros e He. cbn. right. rewrite calls_app. apply in_or_app. left. auto.
  - rewrite Hloop in E. unfold raise in E. injection E as <- _.
    exfalso. now apply (Hne x).
  - destruct Hloop.
Qed.

End ClearFailures.

(** ** How the monitoring loop ends *)

Section MonitoringExits.
Context `{Cloud}.

Lemma fail_fast_monitor_task fuel arn : fail_fast (DMS.monitor_task fuel arn).
Proof.
  induction fuel as [|n IH]; cbn [DMS.monitor_task].
  - apply fail_fast_diverge.
  - apply fail_fast_bind; [apply fail_fast_aws|]. intros response.
    apply fail_fast_bind; [apply fail_fast_tasks_of|]. intros [|task_info l].
    + apply fail_fast_ret.
    + destruct (lower (t_status task_info) =? "stopped"); [apply fail_fast_ret|].
      destruct (lower (t_status task_info) =? "failed"); [apply fail_fast_ret|].
      apply fail_fast_bind; [apply fail_fast_sleep | intros _; exact IH].
Qed.

(** Every way out of the loop is the poll just made: a listing that is
    empty or shows the task [stopped] or [failed], or a poll that raised. *)
Lemma monitor_task_exits (arn : string) (fuel : nat) (w w' : World) (r : res bool) :
  DMS.monitor_task fuel arn w = (r, w') -> r <> Diverged ->
  exists tr answer,
    trace w' = (tr ++ [EvCall (task_poll arn) answer])%list
    /\ match answer with
       | inl e => r = Exc e
       | inr (PTasks []) => r = Val false
       | inr (PTasks (t :: _)) =>
           (lower (t_status t) = "stopped"
            /\ r = Val (contains "FULL_LOAD_ONLY_FINISHED" (DMS.stop_reason_of t)))
           \/ (lower (t_status t) = "failed" /\ r = Val false)
       | inr _ => r = Exc (KeyError "ReplicationTasks")
       end.
Proof.
  revert w. induction fuel as [|n IH]; intros w E Hr.
  - cbn in E. unfold diverge in E. injection E as <- _. now elim Hr.
  - cbn [DMS.monitor_task] in E. unfold bind at 1 in E. unfold aws at 1 in E.
    fold (task_poll arn) in E.
    destruct (cloud_step (remote w) (task_poll arn)) as [[[e | p] s1] dt1].
    + injection E as <- <-. exists (trace w), (inl e). split; reflexivity.
    + unfold bind at 1 in E.
      destruct p; cbn [DMS.tasks_of] in E;
        try (unfold raise in E; injection E as <- <-; cbn [trace];
             eexists; eexists; split; reflexivity).
      unfold ret at 1 in E.
      destruct l as [|t rest].
      * unfold ret in E. injection E as <- <-.
        exists (trace w), (inr (PTasks [])). split; reflexivity.
      * destruct (lower (t_status t) =? "stopped") eqn:Es.
        -- unfold ret in E. injection E as <- <-.
           exists (trace w), (inr (PTasks (t :: rest))). split; [reflexivity|].
           left. split; [now apply String.eqb_eq | reflexivity].
        -- destruct (lower (t_status t) =? "failed") eqn:Ef.
           ++ unfold ret in E. injection E as <- <-.
              exists (trace w), (inr (PTasks (t :: rest))). split; [reflexivity|].
              right. split; [now apply String.eqb_eq | reflexivity].
           ++ unfold bind at 1 in E. unfold sleep at 1 in E.
              now apply IH in E.
Qed.

(** C10, as the code has it.  The monitoring loop of
    [start_replication_task] has no attempt bound.  As long as every poll
    reports the task in a status other than [stopped] and [failed], the loop
    is still polling after any number [fuel] of polls.  It ends on the poll
    just made, in one of four ways: the listing is empty, or shows the task
    [stopped] or [failed], and the loop returns; or the poll raises (the
    call fails, or its answer has no task list), and the exception leaves
    the loop.  The handler around the function then makes
    [start_replication_task] return [False]: it does whenever its run ends
    on a call that was answered with an error. *)
Theorem monitoring_is_unbounded (arn : string) :
  (forall (Inv : RS -> Prop),
      (forall s, Inv s ->
                 exists t rest s' dt,
                   cloud_step s (task_poll arn) = (inr (PTasks (t :: rest)), s', dt)
                   /\ Inv s'
                   /\ (lower (t_status t) =? "stopped") = false
                   /\ (lower (t_status t) =? "failed") = false) ->
      forall fuel (w : World),
        Inv (remote w) ->
        exists w', DMS.monitor_task fuel arn w = (Diverged, w')
                   /\ task_polls (trace w') = task_polls (trace w) + fuel
                   /\ Inv (remote w'))
  /\ (forall fuel (w w' : World) (r : res bool),
         DMS.monitor_task fuel arn w = (r, w') -> r <> Diverged ->
         exists tr answer,
           trace w' = (tr ++ [EvCall (task_poll arn) answer])%list
           /\ match answer with
              | inl e => r = Exc e
              | inr (PTasks []) => r = Val false
              | inr (PTasks (t :: _)) =>
                  (lower (t_status t) = "stopped"
                   /\ r = Val (contains "FULL_LOAD_ONLY_FINISHED" (DMS.stop_reason_of t)))
                  \/ (lower (t_status t) = "failed" /\ r = Val false)
              | inr _ => r = Exc (KeyError "ReplicationTasks")
              end)
  /\ (forall fuel (w : World) tr c e,
         trace (snd (DMS.start_replication_task fuel (Some arn) w))
         = (trace w ++ tr ++ [EvCall c (inl e)])%list ->
         fst (DMS.start_replication_task fuel (Some arn) w) = Val false).
Proof.
  split; [exact (proj1 (monitor_task_no_bound arn))|].
  split; [intros fuel w w' r; apply monitor_task_exits|].
  intros fuel w tr c e. unfold DMS.start_replication_task.
  destruct (negb (truthy (Some arn))); [reflexivity|]. cbv zeta. cbn [fstr].
  unfold try_except.
  match goal with |- context[match ?m w with _ => _ end] =>
    assert (Hb : fail_fast m) end.
  { apply fail_fast_bind; [apply fail_fast_aws|]. intros response.
    apply fail_fast_bind; [apply fail_fast_tasks_of|]. intros [|t l].
    - apply fail_fast_ret.
    - apply fail_fast_bind; [|intros _; apply fail_fast_monitor_task].
      destruct (negb (lower (t_status t) =? "running")); [|apply fail_fast_ret].
      destruct (DMS.select_start_type t); [|apply fail_fast_raise].
      apply fail_fast_bind; [apply fail_fast_aws | intros _; apply fail_fast_ret]. }
  destruct (Hb w) as (tr0 & last & Et & Hc & Hl).
  match goal with |- context[match ?m w with _ => _ end] =>
    destruct (m w) as [[b | e0 |] w1] end; cbn [fst snd] in *.
  - intros E. exfalso. subst last. rewrite Et in E.
    apply app_inv_head in E. rewrite app_nil_r in E. subst tr0.
    apply Forall_app in Hc as [_ Hc]. inversion Hc as [|? ? Hf _]. discriminate.
  - reflexivity.
  - intros E. exfalso. subst last. rewrite Et in E.
    apply app_inv_head in E. rewrite app_nil_r in E. subst tr0.
    apply Forall_app in Hc as [_ Hc]. inversion Hc as [|? ? Hf _]. discriminate.
Qed.

End MonitoringExits.

(** ** The further properties on concrete runs *)

Module MoreRuns.

(** An account that has the target bucket, holding one object under
    [dms-data/]. *)
Definition with_bucket : @World Ref.cloud :=
  Ref.world (Ref.with_buckets Ref.empty_account
               [("dms-target-123456789012-us-east-1", ["dms-data/part-0.csv"])])
            Absent Runs.env 0 [].

(** An account whose source database of this minute is still being
    created: it has no endpoint yet. *)
Definition with_database_creating : @World Ref.cloud :=
  Ref.world (Ref.with_databases Ref.empty_account
               [("dev-mssql-source-00-00",
                 mkDBInstance "dev-mssql-source-00-00" "creating" None)])
            Absent Runs.env 0 [].

End MoreRuns.

(** X1 on a first run: the bucket name is read back. *)
Lemma update_then_get_bucket_name :
  exists r w',
    Utils.update_resource_data "s3" (JDict [("bucket_name", JStr "b")]) Runs.fresh
    = (Val r, w')
    /\ Utils.get_resource_data (Some "s3") (Some "bucket_name") w' = (Val (JStr "b"), w').
Proof.
  assert (Hr : exists j,
             fst (Utils.update_resource_data "s3" (JDict [("bucket_name", JStr "b")])
                    Runs.fresh) = Val j) by (vm_compute; eauto).
  destruct (Utils.update_resource_data "s3" (JDict [("bucket_name", JStr "b")]) Runs.fresh)
    as [r w'] eqn:E.
  destruct Hr as [j Hr]. cbn [fst] in Hr. subst r. exists j, w'. split; [reflexivity|].
  apply (@update_then_get Ref.cloud "s3" "bucket_name" [("bucket_name", JStr "b")]
           (JStr "b") j Runs.fresh w' E);
    [reflexivity | reflexivity | reflexivity | repeat constructor; intros [] | now left].
Defined.

(** X2 on a first run: recording the bucket leaves the RDS record as it
    read before. *)
Lemma update_of_s3_keeps_rds :
  let w' := snd (Utils.update_resource_data "s3" (JDict [("bucket_name", JStr "b")])
                   Runs.fresh) in
  fst (Utils.get_resource_data (Some "rds") (Some "instance_id") w')
  = fst (Utils.get_resource_data (Some "rds") (Some "instance_id") Runs.fresh).
Proof.
  cbv zeta.
  assert (Hr : exists j,
             fst (Utils.update_resource_data "s3" (JDict [("bucket_name", JStr "b")])
                    Runs.fresh) = Val j) by (vm_compute; eauto).
  destruct (Utils.update_resource_data "s3" (JDict [("bucket_name", JStr "b")]) Runs.fresh)
    as [r w'] eqn:E.
  destruct Hr as [j Hr]. cbn [fst] in Hr. subst r. cbn [snd].
  apply (@update_keeps_other_entries Ref.cloud "s3" "rds" "instance_id"
           [("bucket_name", JStr "b")] j Runs.fresh w' E);
    [reflexivity | reflexivity | reflexivity | left; discriminate].
Defined.

(** X3 on an account that has the bucket: it is reused, and the ledger
    stays absent. *)
Lemma existing_bucket_is_not_recorded :
  exists w',
    S3.create_s3_bucket MoreRuns.with_bucket
    = (Val (Some "dms-target-123456789012-us-east-1"), w')
    /\ ledger_file w' = Absent.
Proof.
  destruct (@create_s3_bucket_creates_only_on_404 Ref.cloud MoreRuns.with_bucket
              (inr PEmpty) (remote MoreRuns.with_bucket) 0 eq_refl I)
    as (w' & E & _ & Hl).
  exists w'. split; [exact E | exact Hl].
Defined.

(** X4 on a first run. *)
Lemma s3_main_on_a_first_run :
  exists w2, S3.main Runs.fresh = (Val (Some "dms-target-123456789012-us-east-1"), w2).
Proof.
  assert (Hr : fst (S3.create_s3_bucket Runs.fresh)
               = Val (Some "dms-target-123456789012-us-east-1"))
    by (vm_compute; reflexivity).
  destruct (S3.create_s3_bucket Runs.fresh) as [r w1] eqn:E.
  cbn [fst] in Hr. subst r.
  exact (@s3_main_returns_bucket_despite_folder Ref.cloud Runs.fresh w1 _ E).
Defined.

(** X5 on an account that has the bucket and an object in the folder. *)
Lemma bucket_check_only_reads :
  exists w',
    DMS.check_s3_bucket_exists (Some "dms-target-123456789012-us-east-1")
      MoreRuns.with_bucket = (Val true, w')
    /\ mutating_calls (trace w') = [].
Proof.
  destruct (proj2 (@check_s3_bucket_exists_read_only Ref.cloud
                     "dms-target-123456789012-us-east-1" MoreRuns.with_bucket eq_refl)
              PEmpty (remote MoreRuns.with_bucket) 0 "dms-data/part-0.csv" []
              (remote MoreRuns.with_bucket) 0 eq_refl eq_refl)
    as (w' & E & Ht).
  exists w'. split; [exact E|]. rewrite Ht. reflexivity.
Defined.

(** X6 on a first run: both roles are created and recorded. *)
Lemma iam_main_on_a_first_run :
  exists r w',
    IAM.main false Runs.fresh = (Val r, w')
    /\ ((exists s3_role vpc_role,
            r = (Some s3_role, Some vpc_role)
            /\ s3_role <> "" /\ vpc_role <> ""
            /\ ledger_lookup (ledger_file w') "iam" "s3_role_arn" = Some (JStr s3_role)
            /\ ledger_lookup (ledger_file w') "iam" "vpc_role_arn" = Some (JStr vpc_role))
         \/ (r = (None, None) /\ ledger_file w' = ledger_file Runs.fresh)).
Proof.
  assert (Hr : exists x, fst (IAM.main false Runs.fresh) = Val x)
    by (vm_compute; eauto).
  destruct (IAM.main false Runs.fresh) as [r w'] eqn:E.
  destruct Hr as [x Hr]. cbn [fst] in Hr. subst r. exists x, w'. split; [reflexivity|].
  exact (@iam_main_all_or_nothing Ref.cloud false Runs.fresh w' x E).
Defined.

(** X8 on a running task whose endpoints have changed. *)
Lemma running_task_is_stopped_first :
  let w := Runs.with_task "running" in
  let w' := snd (DMS.create_replication_task (Some "arn:instance") (Some "arn:source")
                   (Some "arn:new-target") w) in
  only leaves_tasks w w'
  \/ exists p1 p2 tr,
       trace w'
       = EvCall (DescribeReplicationTasks
                   (Some ("replication-task-id", "dev-sqlserver-to-s3-task")))
                (inr (PTasks [Ref.task_of "dev-sqlserver-to-s3-task"
                                (Ref.mkTaskBody "running" None "arn:source" "arn:target"
                                                "arn:instance" "{}")]))
         :: EvCall (StopReplicationTask (Ref.task_arn "dev-sqlserver-to-s3-task")) (inr p1)
         :: EvCall (WaitReplicationTaskStopped "dev-sqlserver-to-s3-task") (inr p2)
         :: tr.
Proof.
  cbv zeta.
  exact (@create_replication_task_stops_first Ref.cloud "arn:instance" "arn:source"
           "arn:new-target" (Runs.with_task "running") _ [] _ 0
           eq_refl eq_refl eq_refl eq_refl eq_refl).
Defined.

(** X12 on a task that stays [running]. *)
Lemma clear_di_on_a_running_task :
  exists tr,
    trace (snd (ClearDi.delete_task 3 (Script.frozen_task "running")
                  (Runs.frozen "running" []))) = tr
    /\ (Forall (fun c => c = StopReplicationTask "arn:task" \/ c = task_poll "arn:task")
               (calls tr)
        \/ exists p tr1 l rd,
             tr = (EvCall (StopReplicationTask "arn:task") (inr p) :: tr1
                   ++ [EvCall (task_poll "arn:task") (inr (PTasks l));
                       EvCall (DeleteReplicationTask "arn:task") rd])%list
             /\ Forall (fun c => c = task_poll "arn:task") (calls tr1)
             /\ stopped_or_gone l).
Proof.
  exact (@clear_di_stops_before_deleting (Script.frozen "running") 3
           (Script.frozen_task "running") (Runs.frozen "running" []) eq_refl).
Defined.

(** X13 on a task that stays [running]: a thousand polls, and no end. *)
Lemma clear_di_never_stops_waiting :
  exists w', ClearDi.wait_task_stopped 1000 "arn:task" (Runs.frozen "running" [])
             = (Diverged, w')
             /\ task_polls (trace w') = 1000.
Proof.
  destruct (@clear_di_wait_is_unbounded (Script.frozen "running") "arn:task"
              (fun _ => True)) with (fuel := 1000) (w := Runs.frozen "running" [])
    as (w' & E & Hp & _).
  - intros [] _. exists (Script.frozen_task "running"), [], tt, 0.
    repeat split.
  - exact I.
  - exists w'. split; [exact E | exact Hp].
Defined.

(** X14 on an S3 endpoint with SKIP_S3_CONNECTION_TEST set. *)
Lemma skipped_test_is_never_started :
  let w := Runs.probing "s3" "failed" [("SKIP_S3_CONNECTION_TEST", "true")] in
  exists w' tr,
    DMS.test_connection (Some "arn:instance") (Some "arn:endpoint") w = (Val true, w')
    /\ trace w' = (trace w ++ tr)%list
    /\ Forall no_test (calls tr).
Proof.
  cbv zeta.
  apply (proj1 (@skip_starts_no_test_accept_ignores_it (Script.probe "s3" "failed")
                  "arn:instance" "arn:endpoint"
                  (Runs.probing "s3" "failed" [("SKIP_S3_CONNECTION_TEST", "true")])
                  eq_refl eq_refl
                  (fun s => ex_intro _ (mkEndpoint "arn:endpoint" "endpoint" "s3" "active" None)
                     (ex_intro _ [] (ex_intro _ tt (ex_intro _ 0
                        (conj (match s with tt => eq_refl end) eq_refl))))))).
  reflexivity.
Defined.

(** X17 on an instance that is still being created: nothing is returned,
    and nothing is created. *)
Lemma database_still_creating :
  exists w',
    RDS.create_rds_instance MoreRuns.with_database_creating = (Val None, w')
    /\ mutating_calls (trace w') = [].
Proof.
  destruct (@create_rds_instance_creates_only_when_not_found Ref.cloud
              MoreRuns.with_database_creating
              (inr (PDBInstances [mkDBInstance "dev-mssql-source-00-00" "creating" None]))
              (remote MoreRuns.with_database_creating) 0 eq_refl I)
    as (w' & E & Ht & _).
  exists w'. split; [exact E|]. rewrite Ht. reflexivity.
Defined.

(** X19 without a console: the prompt raises [EOFError]. *)
Lemma failed_s3_test_without_console :
  exists e w3,
    DMS.target_connection_stage (Some "arn:instance") (Some "arn:endpoint")
      (Runs.probing "s3" "failed" []) = (Exc e, w3)
    /\ err_code e = "EOFError".
Proof.
  assert (Hr1 : fst (DMS.detect_s3_target "arn:endpoint" (Runs.probing "s3" "failed" []))
                = Val true) by (vm_compute; reflexivity).
  assert (Hr2 : fst (DMS.target_attempts (Some "arn:instance") (Some "arn:endpoint") 3
                       (seq 0 3)
                       (snd (DMS.detect_s3_target "arn:endpoint"
                               (Runs.probing "s3" "failed" []))))
                = Val false) by (vm_compute; reflexivity).
  destruct (DMS.detect_s3_target "arn:endpoint" (Runs.probing "s3" "failed" []))
    as [r1 w1] eqn:Hd.
  cbn [fst snd] in Hr1, Hr2. subst r1.
  destruct (DMS.target_attempts (Some "arn:instance") (Some "arn:endpoint") 3 (seq 0 3) w1)
    as [r2 w2] eqn:Ha.
  cbn [fst] in Hr2. subst r2.
  exact (@failed_s3_test_asks_the_console (Script.probe "s3" "failed")
           "arn:instance" "arn:endpoint" (Runs.probing "s3" "failed" []) w1 w2
           Hd eq_refl Ha).
Defined.

(** X20 on a task that never stops and never goes away: it is sent a
    delete all the same. *)
Lemma unstoppable_task_is_sent_a_delete :
  exists b w' tr,
    DeleteDi.delete_replication_tasks (Runs.frozen "running" []) = (Val (Some b), w')
    /\ trace w' = tr
    /\ In (DeleteReplicationTask "arn:task") (calls tr).
Proof.
  assert (Hr : fst (DeleteDi.delete_replication_tasks (Runs.frozen "running" []))
               = Val (Some false)) by (vm_compute; reflexivity).
  destruct (DeleteDi.delete_replication_tasks (Runs.frozen "running" []))
    as [r w'] eqn:E.
  cbn [fst] in Hr. subst r.
  destruct (@every_listed_task_is_sent_a_delete (Script.frozen "running")
              (Runs.frozen "running" []) w'
              (PTasks [Script.frozen_task "running"]) tt 0 false eq_refl E)
    as (tr & Etr & Hin).
  exists false, w', tr. split; [reflexivity|]. split; [exact Etr|].
  apply (Hin (Script.frozen_task "running")). now left.
Defined.

(** X21 on a first run against the reference account: the pipeline
    succeeds, on a poll that shows the full load finished. *)
Lemma first_run_ends_on_a_finished_load :
  exists w' tr arn t rest,
    DMS.main 5 (Some ("db.example", 1433)) (Some "dms-target-123456789012-us-east-1")
             [Some "arn:aws:iam::role/dms-s3-access-role";
              Some "arn:aws:iam::role/dms-vpc-role"] Runs.fresh = (Val true, w')
    /\ trace w' = (tr ++ [EvCall (task_poll arn) (inr (PTasks (t :: rest)))])%list
    /\ lower (t_status t) = "stopped"
    /\ contains "FULL_LOAD_ONLY_FINISHED" (DMS.stop_reason_of t) = true.
Proof.
  assert (Hr : fst (DMS.main 5 (Some ("db.example", 1433))
                      (Some "dms-target-123456789012-us-east-1")
                      [Some "arn:aws:iam::role/dms-s3-access-role";
                       Some "arn:aws:iam::role/dms-vpc-role"] Runs.fresh) = Val true)
    by (vm_compute; reflexivity).
  destruct (DMS.main 5 (Some ("db.example", 1433))
              (Some "dms-target-123456789012-us-east-1")
              [Some "arn:aws:iam::role/dms-s3-access-role";
               Some "arn:aws:iam::role/dms-vpc-role"] Runs.fresh) as [r w'] eqn:E.
  cbn [fst] in Hr. subst r.
  destruct (@main_succeeds_only_on_full_load Ref.cloud _ _ _ _ _ _ E)
    as (tr & arn & t & rest & H1 & H2 & H3).
  exists w', tr, arn, t, rest. auto.
Defined.

(** X11 on an answer that is not [yes]: the teardown leaves at once. *)
Lemma teardown_refused_on_no :
  let w := Runs.frozen "running" ["no"] in
  exists e w',
    DeleteDi.main_dms_steps w = (Exc e, w')
    /\ err_code e = "SystemExit"
    /\ trace w' = trace w /\ remote w' = remote w
    /\ ledger_file w' = ledger_file w.
Proof.
  cbv zeta.
  apply (proj2 (@teardown_needs_confirmation (Script.frozen "running")
                  (Runs.frozen "running" ["no"])) "no" []).
  - reflexivity.
  - vm_compute. discriminate.
Defined.

(** X18 on an account that has the replication instance: it is returned,
    and the ledger stays absent. *)
Lemma listed_instance_is_reused :
  exists w',
    DMS.create_replication_instance None (Runs.frozen "running" [])
    = (Val (Some "arn:instance"), w')
    /\ ledger_file w' = Absent.
Proof.
  destruct (proj1 (@found_by_name_is_reused_as_is (Script.frozen "running")
                     (Runs.frozen "running" []))
              None (mkReplInstance "arn:instance" "dev-dms-instance") [] tt 0 eq_refl)
    as (w' & E & _ & HL).
  exists w'. split; [exact E | exact HL].
Defined.

(** X24 on a first run: the bucket is created once, and found the second
    time. *)
Lemma bucket_is_created_once :
  exists b w1 w2,
    S3.create_s3_bucket Runs.fresh = (Val (Some b), w1)
    /\ S3.create_s3_bucket w1 = (Val (Some b), w2)
    /\ mutating_calls (trace w2) = mutating_calls (trace w1).
Proof.
  assert (Hr : fst (S3.create_s3_bucket Runs.fresh)
               = Val (Some "dms-target-123456789012-us-east-1"))
    by (vm_compute; reflexivity).
  destruct (S3.create_s3_bucket Runs.fresh) as [r w1] eqn:E.
  cbn [fst] in Hr. subst r.
  destruct (proj1 (reconcilers_are_idempotent_on_ref Runs.fresh w1) _ E) as (w2 & E2 & HM).
  exists "dms-target-123456789012-us-east-1", w1, w2. auto.
Defined.

(** X26 on an account whose endpoint is listed and whose deletes are
    accepted: the endpoint is sent a delete. *)
Lemma clear_di_deletes_the_listed_endpoint :
  exists tr,
    trace (snd (ClearDi.delete_endpoints 3 (Runs.frozen "running" []))) = tr
    /\ In (DeleteEndpoint "arn:target") (calls tr).
Proof.
  destruct (@clear_di_sends_every_endpoint_a_delete (Script.frozen "running") 3
              (Runs.frozen "running" []) (PEndpoints [Script.frozen_endpoint]) tt 0 eq_refl)
    as (tr & Et & Hin).
  - intros e. vm_compute. discriminate.
  - exists tr. split; [exact Et|].
    apply (Hin Script.frozen_endpoint). left. reflexivity.
Defined.

(** The events of a run in which every listing of the tasks that was
    answered showed a task, and showed it [running]. *)
Definition shows_running (ev : event) : bool :=
  match ev with
  | EvCall (DescribeReplicationTasks _) (inr (PTasks (t :: _))) => t_status t =? "running"
  | EvCall (DescribeReplicationTasks _) (inr _) => false
  | _ => true
  end.

(** C10 on a task that stays [running]: after a thousand polls the loop is
    still polling. *)
Lemma monitoring_a_running_task_never_ends :
  exists w', DMS.monitor_task 1000 "arn:task" (Runs.frozen "running" [])
             = (Diverged, w')
             /\ task_polls (trace w') = 1000.
Proof.
  destruct (proj1 (@monitoring_is_unbounded (Script.frozen "running") "arn:task")
              (fun _ => True)) with (fuel := 1000) (w := Runs.frozen "running" [])
    as (w' & E & Hp & _).
  - intros [] _. exists (Script.frozen_task "running"), [], tt, 0.
    repeat split.
  - exact I.
  - exists w'. split; [exact E | exact Hp].
Defined.

(** Against C10: the task is [running] on three polls and the fourth poll
    is refused; the loop ends and [start_replication_task]
    returns [False], though no poll showed the task [stopped] or [failed] and
    no listing was empty. *)
Lemma monitoring_ends_on_a_refused_poll :
  let w := Script.world (Script.flaky 3) 0 Absent Runs.env [] in
  exists e w1 w2,
    DMS.monitor_task 10 "arn:task" w = (Exc e, w1)
    /\ DMS.start_replication_task 10 (Some "arn:task") w = (Val false, w2)
    /\ task_polls (trace w1) = 4
    /\ forallb shows_running (trace w1) = true
    /\ forallb shows_running (trace w2) = true.
Proof.
  cbv zeta. eexists. eexists. eexists.
  split; [vm_compute; reflexivity|].
  split; [vm_compute; reflexivity|].
  split; [vm_compute; reflexivity|].
  split; vm_compute; reflexivity.
Qed.


